(* ===== verification/_CoqProject ===== *)
-Q . S2P
Prelude.v
Models.v
Database.v
AuditLog.v
Operations.v
PveApi.v
Keeps.v
PowerRunner.v
PowerTrace.v
PowerSettle.v
IpAddr.v
IpText.v
FreeOffset.v
Ipam.v
IpamInv.v
IpamOps.v
ProvApi.v
ProvRunner.v
Provisioning.v
ProvInv.v
ProvLedger.v
ProvRun.v
ProvSteps.v
ProvService.v
Workloads.v
Customer.v
Tasks.v
Demo.v
DemoPower.v
DemoProv.v
ProvProps.v
WorkloadProps.v
CustomerProps.v
TaskProps.v
PowerProps.v
OperationsProps.v
Auth.v
AuthProps.v
DemoAuth.v
LoginProps.v
Accounts.v
AccountProps.v
IpamProps.v
Endpoints.v
Client.v
DemoNet.v
ClientProps.v
Clusters.v
ClusterInv.v
ClusterProps.v
ClusterSecrets.v
BackupSize.v
UuidText.v
PveJobs.v
BackupRunner.v
RestoreRunner.v
JobTrace.v
JobEnds.v
BackupProps.v
Backups.v
BackupRequests.v
ClusterResults.v
BackupResults.v
Redis.v
Listings.v
Observability.v
ObservabilityProps.v
Maintenance.v
Http.v
Console.v
Overview.v
OverviewProps.v
Routers.v
Api.v
ApiProps.v
ConsoleProps.v
ConsoleSocket.v
DemoConsole.v
HttpResults.v
