(* ===== verification/Prelude.v ===== *)
(** * PVE Master: a verification development of the backend services

    PVE Master is a FastAPI backend that lets administrators, operators and customers
    run Proxmox VE clusters: the services under src/backend/app/services/ answer HTTP
    requests inside a database transaction, and Celery workers carry out the long
    operations (power actions, provisioning, backups, restores) that the services record
    and publish.

    ** How the program is modelled

    Every Python module becomes a file, every method a definition of its name.  A
    method is a computation of the monad [M] of this file: a state and an [outcome],
    [Ok a] or [Raise x] with the exception as a value.  The state is the [world] of
    Database.v: the committed database, the session's working copy (flushed and
    committed against the schema's constraints, discarded by a rollback or when the
    session closes), and an environment [E].  What the program does not contain is a
    type class over [E], with the documented laws as separate classes:

    - [Runtime] (Database.v): clock, UUIDs, random numbers, rows locked by others;
    - [Digests], [Publisher] (Operations.v): HMAC and SHA-256, Celery's [send_task];
    - [PowerApi], [ProvisioningApi] (PveApi.v, ProvApi.v): the clusters, which answer
      a value or an [AppError] to each call of app/proxmox/client.py;
    - [ProvisioningSecrets] with [AesGcmLaws] (ProvApi.v): AES-GCM;
    - the password hash and the JWT codec with their laws (Auth.v);
    - [Resolver] (Endpoints.v), [HttpTransport] (Client.v): name resolution, httpx;
    - [CredentialSecrets] with [CredentialLaws], [Schemas] (Clusters.v): AES-GCM of the
      cluster tokens, pydantic's parsing of the cluster's answers;
    - [Sleep] (PveJobs.v), [BackupPublishers] (Backups.v): waiting between polls, the
      publishers of the two backup tasks;
    - [Broker] (Tasks.v): the queue a recovering worker fills;
    - [Redis], [RedisCommands] with [RedisLaws] (Redis.v): the Redis server as the client
      sees it (it may fail, and keys may expire) and as a script sees it;
    - [ConsoleSecrets], [ConsoleSockets] (Console.v): random tokens, the websockets of the
      browser and of the cluster;
    - [ContextVars], [FieldValidation] (Http.v): the context variables of a request and
      FastAPI's checks of parameters; [CreatedAt] (Listings.v): when rows were inserted.

    [exec m d e] runs a request on the committed database [d]: its result, the
    database it committed, the environment it left.  [wp m Q w] is the weakest
    precondition; [wp_run] executes a method symbolically, [start_run] starts from an
    [exec] equation, [keeps] (Keeps.v) checks a method against an invariant.

    ** The parts

    - Models.v, Database.v: app/models/ as records and enumerations, the tables with
      their unique, partial-unique, check and foreign-key constraints ([schema],
      [integrity]), sessions and queries.
    - AuditLog.v: security/access.py, services/audit.py.
    - Ipam.v: services/ipam.py over IpAddr.v (Python's [ipaddress]) and FreeOffset.v
      (the free-offset search).  IpText.v, IpamInv.v, IpamOps.v, IpamProps.v prove it.
    - Operations.v, OperationsProps.v: services/operations.py, the job service.
    - PowerRunner.v: services/power_runner.py, the worker of power and administrative
      operations.  PowerTrace.v (what it sends), PowerSettle.v (how it ends),
      PowerProps.v.
    - ProvRunner.v: services/provisioning_runner.py, the fifteen-step saga.  ProvInv.v
      (what each handler may write), ProvLedger.v (capacity), ProvRun.v (how a run
      ends), ProvSteps.v (the clone call and two handlers).
    - Provisioning.v: services/provisioning.py, the catalogue and the requests;
      ProvService.v.  ProvProps.v has the properties of both.
    - Workloads.v, WorkloadProps.v: services/workloads.py and who owns a machine.
    - Customer.v, CustomerProps.v: services/customer_portal.py.
    - Tasks.v, TaskProps.v: tasks/ and worker.py, recovery at worker start.
    - Auth.v, AuthProps.v, LoginProps.v: services/auth.py, security/tokens.py,
      dependencies.py.  Accounts.v, AccountProps.v: services/accounts.py.
    - Endpoints.v: security/endpoints.py, which addresses may be contacted, over the
      parts of [urllib.parse] and [ipaddress] it uses.  Client.v: proxmox/client.py, a
      definition per method; ClientProps.v, what it sends and answers.
    - Clusters.v: services/clusters.py, security/credentials.py, schemas/cluster.py.
      ClusterInv.v (clusters and credentials), ClusterProps.v (each call),
      ClusterSecrets.v (recorded runs: which clients send), ClusterResults.v.
    - Backups.v: services/backups.py (storages, targets, the requests for backups and
      restores), schemas/backup.py.  BackupRequests.v proves the requests.
    - BackupRunner.v, RestoreRunner.v: services/backup_runner.py, restore_runner.py.  The
      two share their shape, PveJobs.v: claim, submit one task, poll it, end both rows.
      BackupSize.v reads the transferred bytes out of a task log.  JobTrace.v (what a
      job sends, in recorded runs), JobEnds.v (how it ends), BackupProps.v: proved once
      for any job that satisfies the laws of JobTrace.v, which both runners do.
      BackupResults.v holds the witnesses.
    - Console.v: services/console.py, api/console.py, schemas/console.py, over Redis.v and
      UuidText.v (the text of a UUID and its parser).  ConsoleProps.v (sessions and their
      grants), ConsoleSocket.v (the live slot, the look-up of the connection, the
      handshake), DemoConsole.v (witnesses).
    - Listings.v: the queries of these services that only list, with PostgreSQL's ILIKE,
      and what they show.  Observability.v: services/observability.py and the heartbeat of
      worker.py; ObservabilityProps.v.
    - Http.v: core/middleware.py, core/errors.py and dependencies.py around an endpoint.
      Routers.v: api/, a definition per endpoint.  Api.v: the endpoints as one type indexed by the answer, with the roles
      each is for, and the application ([app]) that serves them as main.py puts it
      together.  ApiProps.v (who is served, identified answers, the address of an accepted
      job), HttpResults.v (witnesses).
    - Demo.v, DemoPower.v, DemoProv.v, DemoAuth.v, DemoNet.v, ClusterResults.v,
      BackupResults.v, DemoConsole.v, HttpResults.v: concrete environments and databases, on
      which the witnesses evaluate.

    How they interact: Operations.v and Customer.v record the operations that
    PowerRunner.v carries out, Backups.v those of the backup and restore runners,
    Provisioning.v the requests that ProvRunner.v carries out; ProvRunner.v calls the
    reservation methods of Ipam.v and assigns the machine that Workloads.v, Customer.v and
    Operations.v then serve; Tasks.v enqueues the unfinished rows of both kinds again.  Clusters.v opens the clients of Client.v and
    imports the machines that all of these serve; the runners see the cluster through
    the classes of PveApi.v and ProvApi.v, whose calls are the methods of Client.v.  Api.v
    is the only way in: it authenticates with Auth.v and calls a method of a service.

    ** What the theorems show

    - IPAM: no address is held twice, the invariant of pools, addresses and
      allocations, the life cycle of an address (a refinement), exhaustion and
      quarantine, the equivalence of the free-offset search with the naive one, the
      CIDR text round trip.
    - Jobs: what an accepted request implies, idempotency, no trace of a refusal; the
      runner settles every operation, submits at most the allowed attempts, resumes
      instead of resubmitting, and calls no cluster without the right to.
    - Provisioning: capacity is conserved, no request is stranded, a FAILED request
      holds nothing, at most one clone per run, one worker at a time, the least free
      VMID, the request as recorded and repeated, the initial password.
    - Ownership and tenants: row and history of a machine agree on its owner; the
      customer portal shows exactly the caller's machines; recovery misses nothing.
    - Accounts: theft of refresh tokens, the login throttle, tokens and sessions, the
      last administrator.
    - Audit: secrets are masked at any depth.
    - Clusters: one readable credential per active cluster, stored connections were
      tested, a secret is sent only to the endpoint it belongs to, removal and import.
      The client: vetted endpoints, requests that name their guest, checked answers.
    - Backups: an accepted request records the operation and run that the worker then
      finds; a worker ends both rows together; what is submitted, after which checks,
      and that it is submitted once over all redeliveries; the bytes of a task log.
    - Console: a grant is redeemed at most once and by its token only, it can be redeemed,
      the console it opens is checked against the database of that moment, one live slot
      per user and machine, how a handshake is refused and that a served one releases its
      slot.
    - HTTP: only a current user of an endpoint's audience is served and any other request
      changes nothing; every answer names its request; the address of an accepted job
      answers with the job.
    - Reports: the available addresses of a pool are those IPAM would give out, the state
      report says "ok" exactly when nothing is wrong, reading the audit trail is itself
      recorded, a label reads back; the search for organizations is literal and its pages
      hold every match once.

    ** Bounds and fuel

    Polling loops run on the configured number of attempts ([wait_task_loop],
    [poll_loop]), which the source's [range] bounds too: running out is the timeout of
    the source; [poll_loop] of PveJobs.v counts an attempt per iteration, so the
    attempts left ([poll_fuel]) bound it.  [next_vmid] runs on the 999,900 candidates of the source's range.
    The random-offset and free-offset loops of IPAM run on the source's own bounds.
    No theorem assumes that fuel is enough: each states what the code answers.

    ** Not modelled, and why

    - Interleaving inside a transaction: row locks, advisory locks and SKIP LOCKED are
      the [env_locked] parameter; a method runs as one transaction.  Concurrency between
      runs is modelled where the code handles it: leases, unique indexes, version
      counters.
    - SQLAlchemy's expiry of attributes after a rollback: the model reads the row again
      where the source reads an expired attribute (ProvRunner.v).
    - [created_at]/[updated_at] are not columns: [CreatedAt] gives the first by identifier.
      Text is ordered by its bytes, where PostgreSQL orders by its collation.  The purge
      of audit logs.
    - The pattern checks of the pydantic schemas, which the framework runs before the
      services; the numeric bounds that theorems use are definitions.
    - In services/clusters.py the overview and the node metrics (floating-point figures
      fetched concurrently).
    - In services/console.py the copying of frames in [_relay]: it is a call of
      [ConsoleSockets] that ends or fails.
    - Fractional JSON numbers in the answers of a cluster (a JSON number is an integer,
      [json] of Models.v).
    - Routing, the parsing of bodies, CORS and the answer 500 to an unhandled exception are
      those of FastAPI and Starlette; api/health.py, core/logging.py and cli/. *)
From stdpp Require Import base gmap strings list pretty fin_maps sorting.
From Stdlib Require Export ZArith.
From stdpp Require Export base gmap strings list pretty.

#[global] Open Scope string_scope.
#[global] Open Scope list_scope.
#[global] Open Scope Z_scope.

(** ** Scopes and record update *)

Declare Scope pve_scope.
Delimit Scope pve_scope with pve.
#[global] Open Scope pve_scope.

(** [Eta R] rebuilds a record from its projections; [Upd proj] is the
    functional update of one field, derived from it on demand.  Rows of the
    database are ORM objects in the source: an attribute assignment
    [row.f = v] is [row <| f := v |>]. *)
Class Eta (R : Type) := eta : R → R.
Class Upd {R F : Type} (proj : R → F) := upd : (F → F) → R → R.
#[global] Hint Mode Upd - - + : typeclass_instances.

Ltac derive_upd :=
  match goal with
  | |- @Upd ?R ?F ?proj =>
    let body := constr:(fun (f : F → F) (r : R) =>
       ltac:(let t := constr:(@eta R _ r) in
             let t := eval unfold eta in t in
             let t := match t with
                      | ?e _ => let e := eval red in e in eval cbv beta in (e r)
                      end in
             let p := eval pattern (proj r) in t in
             match p with
             | ?g _ => let t' := eval cbv beta in (g (f (proj r))) in exact t'
             end)) in
    exact body
  end.
#[global] Hint Extern 0 (Upd _) => derive_upd : typeclass_instances.

Notation "r <| p ::= f |>" := (upd (proj:=p) f r)
  (at level 1, left associativity, format "r  <| p  ::=  f |>") : pve_scope.
Notation "r <| p := v |>" := (upd (proj:=p) (λ _, v) r)
  (at level 1, left associativity, format "r  <| p  :=  v |>") : pve_scope.

(** ** Values that reach JSON columns *)

(** A Python value that is stored in, or read from, a JSON column.  [JUuid u]
    is the string [str(u)] of a UUID, kept symbolic. *)
Inductive json :=
| JNull
| JBool (b : bool)
| JInt (z : Z)
| JStr (s : string)
| JUuid (u : N)
| JList (l : list json)
| JObj (fields : list (string * json)).

(** [d.get(key)] on a JSON object. *)
Fixpoint obj_get (key : string) (fields : list (string * json)) : option json :=
  match fields with
  | [] => None
  | (k, v) :: rest => if decide (k = key) then Some v else obj_get key rest
  end.

(** [d[key] = v]: an existing key keeps its position. *)
Fixpoint obj_set (key : string) (v : json) (fields : list (string * json))
  : list (string * json) :=
  match fields with
  | [] => [(key, v)]
  | (k, w) :: rest =>
    if decide (k = key) then (k, v) :: rest else (k, w) :: obj_set key v rest
  end.

(** [{**d, **e}]. *)
Definition obj_merge (d e : list (string * json)) : list (string * json) :=
  foldl (λ acc kv, obj_set kv.1 kv.2 acc) d e.

Definition json_of_opt {A} (f : A → json) (o : option A) : json :=
  match o with Some a => f a | None => JNull end.

Lemma obj_get_set_eq key v fields : obj_get key (obj_set key v fields) = Some v.
Proof.
  induction fields as [|[k w] rest IH]; simpl; repeat case_decide; simpl;
    repeat case_decide; simplify_eq; done.
Qed.

Lemma obj_get_set_ne key key' v fields :
  key ≠ key' → obj_get key' (obj_set key v fields) = obj_get key' fields.
Proof.
  intros Hne. induction fields as [|[k w] rest IH]; simpl; repeat case_decide; simpl;
    repeat case_decide; simplify_eq; done.
Qed.

(** ** Python strings: the ASCII part of [str.lower], [str.upper] *)

Definition ascii_lower (a : Ascii.ascii) : Ascii.ascii :=
  let n := Ascii.nat_of_ascii a in
  if (65 <=? n)%nat && (n <=? 90)%nat then Ascii.ascii_of_nat (n + 32) else a.

Definition ascii_upper (a : Ascii.ascii) : Ascii.ascii :=
  let n := Ascii.nat_of_ascii a in
  if (97 <=? n)%nat && (n <=? 122)%nat then Ascii.ascii_of_nat (n - 32) else a.

Fixpoint str_map (f : Ascii.ascii → Ascii.ascii) (s : string) : string :=
  match s with
  | EmptyString => EmptyString
  | String a r => String (f a) (str_map f r)
  end.

Definition str_lower : string → string := str_map ascii_lower.
Definition str_upper : string → string := str_map ascii_upper.

Lemma str_upper_lower s : str_upper (str_lower s) = str_upper s.
Proof.
  induction s as [|a s IH]; [done|]. unfold str_upper, str_lower in *. simpl. f_equal; [|done].
  destruct a as [[] [] [] [] [] [] [] []]; reflexivity.
Qed.

(** [needle in hay]. *)
Fixpoint str_contains (needle hay : string) : bool :=
  String.prefix needle hay ||
  match hay with
  | EmptyString => false
  | String _ rest => str_contains needle rest
  end.

Definition is_space (a : Ascii.ascii) : bool :=
  let n := Ascii.nat_of_ascii a in
  ((9 <=? n)%nat && (n <=? 13)%nat) || ((28 <=? n)%nat && (n <=? 32)%nat).

Fixpoint str_lstrip (s : string) : string :=
  match s with
  | EmptyString => EmptyString
  | String a r => if is_space a then str_lstrip r else s
  end.

Fixpoint str_rstrip (s : string) : string :=
  match s with
  | EmptyString => EmptyString
  | String a r =>
    match str_rstrip r with
    | EmptyString => if is_space a then EmptyString else String a EmptyString
    | r' => String a r'
    end
  end.

(** [s.strip()]. *)
Definition str_strip (s : string) : string := str_rstrip (str_lstrip s).

(** The truth value of a string, and [a or b] on strings. *)
Definition str_nonempty (s : string) : bool := bool_decide (s ≠ "").
Definition str_or (o : option string) (default : string) : string :=
  match o with Some s => if str_nonempty s then s else default | None => default end.

(** ** Exceptions and the state-and-exception monad *)

(** What a service may raise.  [AppError] is app/core/errors.py; the others are
    the Python, SQLAlchemy, httpx and redis exceptions that the modelled code can reach
    ([ConnectionClosed] is also Starlette's [WebSocketDisconnect]). *)
(** An entry of [RequestValidationError.errors()]: where in the request, what, and why. *)
Record validation_error := ValidationError {
  ve_location : list string; ve_type : string; ve_message : string }.

Inductive exn :=
| AppError (status_code : Z) (code message : string) (details : list (string * json))
| RequestValidationError (errors : list validation_error)
| TransportError
| IntegrityError
| AssertionError
| AttributeError
| RuntimeError
| KeyError
| ValueError
| OverflowError
| TypeError
| RedisError
| TimeoutError
| ConnectionClosed.

Inductive outcome (A : Type) :=
| Ok (a : A)
| Raise (e : exn).
Arguments Ok {A} a.
Arguments Raise {A} e.

Definition app_error (status : Z) (code message : string) : exn :=
  AppError status code message [].

(** A computation over a state [S] that returns or raises; what it did to the
    state before raising stays done, as in the source. *)
Definition M (S A : Type) : Type := S → outcome A * S.

#[export] Instance M_ret {S} : MRet (M S) := λ A a s, (Ok a, s).
#[export] Instance M_bind {S} : MBind (M S) := λ A B f m s,
  match m s with
  | (Ok a, s') => f a s'
  | (Raise e, s') => (Raise e, s')
  end.
#[export] Instance M_fmap {S} : FMap (M S) := λ A B f m s,
  match m s with
  | (Ok a, s') => (Ok (f a), s')
  | (Raise e, s') => (Raise e, s')
  end.

Definition raise {S A} (e : exn) : M S A := λ s, (Raise e, s).
Definition get_state {S} : M S S := λ s, (Ok s, s).
Definition put_state {S} (s : S) : M S () := λ _, (Ok tt, s).
Definition gets {S A} (f : S → A) : M S A := λ s, (Ok (f s), s).
Definition modify {S} (f : S → S) : M S () := λ s, (Ok tt, f s).

(** [try: m except ...: h]; [h] re-raises what it does not handle. *)
Definition try_except {S A} (m : M S A) (h : exn → M S A) : M S A := λ s,
  match m s with
  | (Raise e, s') => h e s'
  | r => r
  end.

(** [try: m finally: f]: what [f] raises replaces the outcome of [m]. *)
Definition try_finally {S A} (m : M S A) (f : M S ()) : M S A := λ s,
  match m s with
  | (r, s') => match f s' with
               | (Ok _, s'') => (r, s'')
               | (Raise e, s'') => (Raise e, s'')
               end
  end.

Definition when {S} (b : bool) (m : M S ()) : M S () := if b then m else mret tt.

(** [if cond: raise e]. *)
Definition raise_if {S} (b : bool) (e : exn) : M S () := when b (raise e).

(** [assert x is not None]. *)
Definition assert_some {S A} (o : option A) : M S A :=
  match o with Some a => mret a | None => raise AssertionError end.

(** [if x is None: raise e]. *)
Definition or_raise {S A} (e : exn) (o : option A) : M S A :=
  match o with Some a => mret a | None => raise e end.

(** ** Weakest preconditions: the proof rules of the monad *)

(** [wp m Q s]: the run of [m] from [s] ends in an outcome and state of [Q]. *)
Definition wp {S A} (m : M S A) (Q : outcome A → S → Prop) (s : S) : Prop :=
  Q (m s).1 (m s).2.

Section wp.
Context {S A B : Type}.
Implicit Types (Q : outcome A → S → Prop) (s : S).

Lemma wp_ret (a : A) Q s : Q (Ok a) s → wp (mret a) Q s.
Proof. done. Qed.

Lemma wp_raise e Q s : Q (Raise e) s → wp (raise e) Q s.
Proof. done. Qed.

Lemma wp_bind (m : M S B) (f : B → M S A) Q s :
  wp m (λ r s', match r with Ok b => wp (f b) Q s' | Raise e => Q (Raise e) s' end) s →
  wp (m ≫= f) Q s.
Proof. unfold wp, mbind, M_bind. by destruct (m s) as [[b|e] s']. Qed.

Lemma wp_bind_inv (m : M S B) (f : B → M S A) Q s :
  wp (m ≫= f) Q s →
  wp m (λ r s', match r with Ok b => wp (f b) Q s' | Raise e => Q (Raise e) s' end) s.
Proof. unfold wp, mbind, M_bind. by destruct (m s) as [[b|e] s']. Qed.

Lemma wp_mono (m : M S A) Q Q' s :
  wp m Q s → (∀ r s', Q r s' → Q' r s') → wp m Q' s.
Proof. unfold wp. auto. Qed.

Lemma wp_try (m : M S A) (h : exn → M S A) Q s :
  wp m (λ r s', match r with Ok a => Q (Ok a) s' | Raise e => wp (h e) Q s' end) s →
  wp (try_except m h) Q s.
Proof. unfold wp, try_except. destruct (m s) as [[b|e] s']; done. Qed.

Lemma wp_finally (m : M S A) (f : M S ()) Q s :
  wp m (λ r, wp f (λ r' s', Q match r' with Ok _ => r | Raise e => Raise e end s')) s →
  wp (try_finally m f) Q s.
Proof. unfold wp, try_finally. destruct (m s) as [r s1]; simpl. by destruct (f s1) as [[]]. Qed.

Lemma wp_gets (f : S → A) Q s : Q (Ok (f s)) s → wp (gets f) Q s.
Proof. done. Qed.

Lemma wp_and (m : M S A) Q Q' s :
  wp m Q s → wp m Q' s → wp m (λ r s', Q r s' ∧ Q' r s') s.
Proof. done. Qed.

Lemma wp_run (m : M S A) Q s r s' : wp m Q s → m s = (r, s') → Q r s'.
Proof. unfold wp. intros HQ Hm. by rewrite Hm in HQ. Qed.

Lemma wp_intro (m : M S A) Q s : (∀ r s', m s = (r, s') → Q r s') → wp m Q s.
Proof. unfold wp. intros HQ. apply HQ. apply surjective_pairing. Qed.
End wp.

(** Two statements at once. *)
Lemma wp_seq {S A B C} (m : M S C) (n : M S B) (k : B → M S A) (Q : outcome A → S → Prop) s :
  wp (m ≫= λ _, n) (λ r s', match r with Ok b => wp (k b) Q s' | Raise e => Q (Raise e) s' end) s →
  wp (m ≫= λ _, n ≫= k) Q s.
Proof.
  intros Hwp%wp_bind_inv. apply wp_bind. eapply wp_mono; [exact Hwp|].
  intros [c|e] s'; [apply wp_bind|done].
Qed.

Lemma wp_modify {S} (f : S → S) (Q : outcome () → S → Prop) s :
  Q (Ok tt) (f s) → wp (modify f) Q s.
Proof. done. Qed.

Lemma wp_raise_if {S} b e (Q : outcome () → S → Prop) s :
  (b = true → Q (Raise e) s) → (b = false → Q (Ok tt) s) → wp (raise_if b e) Q s.
Proof. destruct b; unfold wp, raise_if, when; simpl; auto. Qed.

Lemma wp_assert_some {S A} (o : option A) (Q : outcome A → S → Prop) s :
  (o = None → Q (Raise AssertionError) s) → (∀ a, o = Some a → Q (Ok a) s) →
  wp (assert_some o) Q s.
Proof. destruct o; unfold wp; simpl; auto. Qed.

Lemma wp_or_raise {S A} e (o : option A) (Q : outcome A → S → Prop) s :
  (o = None → Q (Raise e) s) → (∀ a, o = Some a → Q (Ok a) s) →
  wp (or_raise e o) Q s.
Proof. destruct o; unfold wp; simpl; auto. Qed.

(** ** Loops *)

(** [for x in l: f(x)]. *)
Fixpoint for_each {S A} (l : list A) (f : A → M S ()) : M S () :=
  match l with
  | [] => mret tt
  | x :: l => f x;; for_each l f
  end.

(** A loop with an invariant on the visited prefix. *)
Lemma wp_for_each {S A} (I : S → Prop) (l : list A) f (Q : outcome () → S → Prop) s :
  I s →
  (∀ x s, x ∈ l → I s →
     wp (f x) (λ r s', match r with Ok _ => I s' | Raise e => Q (Raise e) s' end) s) →
  (∀ s, I s → Q (Ok tt) s) →
  wp (for_each l f) Q s.
Proof.
  intros HI Hf HQ. revert s HI Hf. induction l as [|x l IH]; intros s HI Hf; simpl.
  { apply wp_ret. auto. }
  apply wp_bind. eapply wp_mono; [apply (Hf x s); [apply list_elem_of_here|done]|].
  intros [[]|e] s' HI'; [|done]. apply IH; [done|].
  intros y s'' Hy. apply Hf. by apply list_elem_of_further.
Qed.

(** A loop that only raises. *)
Lemma wp_for_each_raise_if {S A} (l : list A) (b : A → bool) e
    (Q : outcome () → S → Prop) s :
  (∀ x, x ∈ l → b x = true → Q (Raise e) s) →
  ((∀ x, x ∈ l → b x = false) → Q (Ok tt) s) →
  wp (for_each l (λ x, raise_if (b x) e)) Q s.
Proof.
  intros Hr Ho. induction l as [|x l IH]; simpl.
  { apply wp_ret, Ho. by intros ? ?%not_elem_of_nil. }
  apply wp_bind, wp_raise_if; intros Hb.
  - eapply Hr; [apply list_elem_of_here|done].
  - apply IH.
    + intros y Hy. apply Hr. by apply list_elem_of_further.
    + intros Hall. apply Ho. intros y [->|Hy]%elem_of_cons; auto.
Qed.

(** A loop that checks each item and changes nothing. *)
Lemma wp_for_each_check {S A} (P : A → Prop) (l : list A) f (Q : outcome () → S → Prop) s :
  (∀ x, x ∈ l →
     wp (f x) (λ r s', match r with Ok _ => s' = s ∧ P x | Raise e => Q (Raise e) s' end) s) →
  ((∀ x, x ∈ l → P x) → Q (Ok tt) s) →
  wp (for_each l f) Q s.
Proof.
  intros Hf HQ. induction l as [|x l IH]; simpl.
  { apply wp_ret, HQ. by intros ? ?%not_elem_of_nil. }
  apply wp_bind. eapply wp_mono; [apply Hf, list_elem_of_here|].
  intros [[]|e] s'; [|done]. intros [-> Hx]. apply IH.
  - intros y Hy. apply Hf. by apply list_elem_of_further.
  - intros Hall. apply HQ. intros y [->|Hy]%elem_of_cons; auto.
Qed.
