(* ===== verification/Models.v ===== *)
(** * Data model

    The ORM classes of app/models/ as records, one row each, and their
    enumerations.  A UUID is an [N], a timestamp a [Z] counting microseconds, a
    [JSON] column a list of key/value pairs, a digest an [N].  The columns
    [created_at]/[updated_at] that only the database server fills are left out
    where no modelled code reads them. *)
From S2P Require Import Prelude.

(** ** app/models/auth.py *)

Inductive UserRole := SUPER_ADMIN | OPERATOR | CUSTOMER.

Record user := User {
  u_id : N; u_email : string; u_display_name : string; u_role : UserRole;
  u_password_hash : string; u_is_active : bool; u_session_epoch : Z;
  u_last_login_at : option Z; u_created_by_id : option N;
  u_disabled_at : option Z; u_deleted_at : option Z; u_version : Z }.

Record organization := Organization {
  org_id : N; org_name : string; org_is_active : bool; org_created_by_id : N;
  org_version : Z }.

Record organization_member := OrganizationMember {
  om_id : N; om_organization_id : N; om_user_id : N; om_added_by_id : N }.

Record refresh_token := RefreshToken {
  rt_id : N; rt_user_id : N; rt_family_id : N; rt_token_hash : N;
  rt_parent_id : option N; rt_replaced_by_id : option N; rt_expires_at : Z;
  rt_revoked_at : option Z; rt_reuse_detected_at : option Z }.

(** The primary key is the HMAC digest [lt_key_hash]. *)
Record login_throttle := LoginThrottle {
  lt_key_hash : N; lt_failure_count : Z; lt_window_started_at : Z;
  lt_locked_until : option Z }.

Record audit_log := AuditLog {
  al_action : string; al_outcome : string; al_actor_user_id : option N;
  al_actor_role : option UserRole; al_organization_id : option N;
  al_workload_id : option N; al_operation_id : option N;
  al_source_ip : option string; al_user_agent : option string;
  al_pve_upid : option string; al_resource_type : option string;
  al_resource_id : option json; al_request_id : option string;
  al_before : option (list (string * json)); al_after : option (list (string * json));
  al_result : string; al_error_code : option string }.

(** ** app/models/cluster.py *)

Record cluster := Cluster {
  cl_id : N; cl_name : string; cl_api_base_url : string;
  cl_ca_bundle_pem : option string; cl_is_active : bool;
  cl_last_connection_error_code : option string; cl_last_connected_at : option Z;
  cl_disabled_at : option Z; cl_version : Z }.

Record cluster_credential := ClusterCredential {
  cc_id : N; cc_cluster_id : N; cc_token_identifier : string;
  cc_secret_ciphertext : string; cc_secret_nonce : string; cc_key_version : string;
  cc_is_active : bool; cc_last_used_at : option Z; cc_retired_at : option Z }.

(** ** app/models/operation.py *)

Inductive PowerAction := START | SHUTDOWN | STOP | REBOOT | RESET.
Inductive AdminVmAction := UPDATE_SPEC | DELETE.
Inductive OperationStatus :=
| OS_QUEUED | OS_RUNNING | OS_SUCCEEDED | OS_FAILED | OS_TIMEOUT.

Definition PowerAction_value (a : PowerAction) : string :=
  match a with
  | START => "start" | SHUTDOWN => "shutdown" | STOP => "stop"
  | REBOOT => "reboot" | RESET => "reset"
  end.

Definition AdminVmAction_value (a : AdminVmAction) : string :=
  match a with UPDATE_SPEC => "update_spec" | DELETE => "delete" end.

Definition OperationStatus_value (s : OperationStatus) : string :=
  match s with
  | OS_QUEUED => "QUEUED" | OS_RUNNING => "RUNNING" | OS_SUCCEEDED => "SUCCEEDED"
  | OS_FAILED => "FAILED" | OS_TIMEOUT => "TIMEOUT"
  end.

(** [PowerAction(value)], [None] where Python raises [ValueError]. *)
Definition PowerAction_of_value (s : string) : option PowerAction :=
  if decide (s = "start") then Some START
  else if decide (s = "shutdown") then Some SHUTDOWN
  else if decide (s = "stop") then Some STOP
  else if decide (s = "reboot") then Some REBOOT
  else if decide (s = "reset") then Some RESET
  else None.

(** [AdminVmAction(value)]; membership in
    [{item.value for item in AdminVmAction}] is [is_Some]. *)
Definition AdminVmAction_of_value (s : string) : option AdminVmAction :=
  if decide (s = "update_spec") then Some UPDATE_SPEC
  else if decide (s = "delete") then Some DELETE
  else None.

Definition TERMINAL_OPERATION_STATUSES : list OperationStatus :=
  [OS_SUCCEEDED; OS_FAILED; OS_TIMEOUT].

Record workload := Workload {
  wl_id : N; wl_cluster_id : N; wl_vmid : Z; wl_node : string; wl_kind : string;
  wl_name : option string; wl_power_state : string; wl_cpu_cores : option Z;
  wl_memory_bytes : option Z; wl_disk_bytes : option Z; wl_is_template : bool;
  wl_is_present : bool; wl_organization_id : option N; wl_observed_at : Z;
  wl_version : Z }.

Record workload_assignment := WorkloadAssignment {
  wa_id : N; wa_workload_id : N; wa_organization_id : N; wa_assigned_by_id : N;
  wa_assigned_at : Z; wa_revoked_by_id : option N; wa_revoked_at : option Z;
  wa_revoke_reason : option string }.

Record operation := Operation {
  op_id : N; op_operation_type : string; op_action : string;
  op_status : OperationStatus; op_requested_by_id : N; op_source_ip : string;
  op_organization_id : option N; op_cluster_id : N; op_workload_id : N;
  op_idempotency_key_hash : N; op_request_fingerprint : N;
  op_celery_task_id : N; op_result : list (string * json);
  op_error_code : option string; op_error_summary : option string;
  op_retryable : option bool; op_attempt_count : Z; op_requested_at : Z;
  op_started_at : option Z; op_finished_at : option Z; op_heartbeat_at : option Z;
  op_version : Z }.

Record pve_task := PveTask {
  pt_id : N; pt_operation_id : N; pt_cluster_id : N; pt_workload_id : N;
  pt_step_name : string; pt_upid : string; pt_status : string; pt_pve_node : string;
  pt_pve_exit_status : option string; pt_submitted_at : Z;
  pt_last_polled_at : option Z; pt_completed_at : option Z; pt_poll_attempts : Z;
  pt_error_code : option string; pt_error_summary : option string }.

(** ** app/models/ipam.py *)

(** An [ipaddress.ip_address]: its version (4 or 6) and integer value. *)
Record ip_addr := IpAddr { ip_version : Z; ip_int : Z }.

(** An [ipaddress.ip_network]: version, network address, prefix length. *)
Record ip_net := IpNet { net_version : Z; net_address : Z; net_prefixlen : Z }.

Inductive IpAddressState := AVAILABLE | RESERVED | ASSIGNED | QUARANTINED | DISABLED.
Inductive IpAllocationKind := AUTOMATIC | MANUAL.
Inductive IpAllocationStatus := AL_RESERVED | AL_ASSIGNED | AL_QUARANTINED | AL_RELEASED.
Inductive AllocationStrategy := SEQUENTIAL | RANDOM.

Definition IpAllocationKind_value (k : IpAllocationKind) : string :=
  match k with AUTOMATIC => "AUTOMATIC" | MANUAL => "MANUAL" end.
Definition AllocationStrategy_value (s : AllocationStrategy) : string :=
  match s with SEQUENTIAL => "SEQUENTIAL" | RANDOM => "RANDOM" end.

Record ip_pool := IpPool {
  pool_id : N; pool_name : string; pool_cluster_id : option N; pool_cidr : ip_net;
  pool_gateway : option ip_addr; pool_dns_servers : list ip_addr;
  pool_bridge : string; pool_vlan_tag : option Z; pool_ip_family : Z;
  pool_allocation_strategy : AllocationStrategy; pool_quarantine_seconds : Z;
  pool_next_offset : Z; pool_is_active : bool; pool_created_by_id : N;
  pool_version : Z }.

Record ip_pool_exclusion := IpPoolExclusion {
  ex_id : N; ex_pool_id : N; ex_start_address : ip_addr; ex_end_address : ip_addr;
  ex_reason : option string }.

Record ip_address := IpAddress {
  addr_id : N; addr_pool_id : N; addr_address : ip_addr; addr_state : IpAddressState;
  addr_reserved_for : option string; addr_quarantined_until : option Z;
  addr_last_allocated_at : option Z; addr_version : Z }.

Record ip_allocation := IpAllocation {
  alloc_id : N; alloc_ip_address_id : N; alloc_workload_id : option N;
  alloc_provisioning_request_id : option N; alloc_kind : IpAllocationKind;
  alloc_status : IpAllocationStatus; alloc_allocated_by_id : N;
  alloc_confirmed_at : option Z; alloc_released_at : option Z;
  alloc_release_reason : option string; alloc_version : Z }.

(** ** app/models/provisioning.py *)

Inductive ProvisioningStatus :=
| PS_QUEUED | PS_RUNNING | PS_SUCCEEDED | PS_FAILED | PS_MANUAL_REVIEW.
Inductive ProvisioningStepStatus :=
| ST_PENDING | ST_RUNNING | ST_SUCCEEDED | ST_FAILED.
Inductive TemplateOsType := LINUX | WINDOWS.

Definition TemplateOsType_value (t : TemplateOsType) : string :=
  match t with LINUX => "LINUX" | WINDOWS => "WINDOWS" end.

(** [TemplateOsType(value)], [None] where Python raises [ValueError]. *)
Definition TemplateOsType_of_value (s : string) : option TemplateOsType :=
  if decide (s = "LINUX") then Some LINUX
  else if decide (s = "WINDOWS") then Some WINDOWS
  else None.

Record product := Product {
  prod_id : N; prod_name : string; prod_cpu_cores : Z; prod_memory_bytes : Z;
  prod_disk_bytes : Z; prod_is_enabled : bool; prod_created_by_id : N }.

Record template := Template {
  tpl_id : N; tpl_name : string; tpl_source_workload_id : N; tpl_source_disk : string;
  tpl_default_storage : string; tpl_default_bridge : string;
  tpl_default_vlan_tag : option Z; tpl_cloud_init_enabled : bool; tpl_linux_only : bool;
  tpl_os_type : string; tpl_is_enabled : bool; tpl_created_by_id : N }.

Record provisioning_node := ProvisioningNode {
  pn_id : N; pn_cluster_id : N; pn_name : string; pn_is_enabled : bool;
  pn_is_maintenance : bool; pn_available_memory_bytes : Z;
  pn_available_storage_bytes : Z; pn_last_selected_at : option Z }.

Record provisioning_request := ProvisioningRequest {
  prq_id : N; prq_requested_by_id : N; prq_idempotency_key_hash : N;
  prq_request_fingerprint : N; prq_product_id : N; prq_template_id : N;
  prq_organization_id : N; prq_target_cluster_id : N; prq_target_node_id : option N;
  prq_target_vmid : option Z; prq_target_name : string; prq_ip_pool_id : N;
  prq_requested_ip_address : option ip_addr; prq_ip_address_id : option N;
  prq_workload_id : option N; prq_status : ProvisioningStatus;
  prq_current_step : string; prq_spec_snapshot : list (string * json);
  prq_initial_password_ciphertext : option string; prq_initial_password_nonce : option string;
  prq_initial_password_key_version : option string;
  prq_initial_password_cleared_at : option Z; prq_celery_task_id : N; prq_clone_submitted : bool;
  prq_error_code : option string; prq_error_summary : option string;
  prq_requested_at : Z; prq_started_at : option Z; prq_finished_at : option Z; prq_heartbeat_at : option Z;
  prq_runner_id : option N; prq_lease_expires_at : option Z; prq_version : Z }.

Record provisioning_step := ProvisioningStep {
  pst_id : N; pst_provisioning_request_id : N; pst_step_order : Z; pst_step_name : string;
  pst_status : ProvisioningStepStatus; pst_attempt_count : Z; pst_pve_upid : option string;
  pst_safe_result : list (string * json); pst_error_code : option string;
  pst_error_summary : option string; pst_started_at : option Z; pst_finished_at : option Z }.

(** ** app/models/backup.py *)

Record backup_target := BackupTarget {
  bt_id : N; bt_cluster_id : N; bt_storage_id : string; bt_datastore : option string;
  bt_namespace : option string; bt_is_enabled : bool; bt_last_observed_available : bool;
  bt_last_checked_at : option Z; bt_created_by_id : N; bt_version : Z }.

(** [status] is a string column that only ever holds an [OperationStatus]. *)
Record backup_run := BackupRun {
  br_id : N; br_operation_id : N; br_backup_target_id : N; br_workload_id : N;
  br_organization_id : option N; br_mode : string; br_compression : string;
  br_status : OperationStatus; br_snapshot_volume_id : option string;
  br_snapshot_time : option Z; br_size_bytes : option Z; br_transferred_bytes : option Z;
  br_started_at : option Z; br_finished_at : option Z }.

Record restore_run := RestoreRun {
  rr_id : N; rr_operation_id : N; rr_backup_run_id : N; rr_cluster_id : N;
  rr_source_workload_id : N; rr_target_node : string; rr_target_vmid : Z;
  rr_target_name : string; rr_status : OperationStatus; rr_started_at : option Z;
  rr_finished_at : option Z }.

(** ** Record eta rules and decidable equality *)

#[export] Instance eta_user : Eta user := λ r, User (u_id r) (u_email r) (u_display_name r)
  (u_role r) (u_password_hash r) (u_is_active r) (u_session_epoch r) (u_last_login_at r)
  (u_created_by_id r) (u_disabled_at r) (u_deleted_at r) (u_version r).
#[export] Instance eta_organization : Eta organization := λ r, Organization (org_id r)
  (org_name r) (org_is_active r) (org_created_by_id r) (org_version r).
#[export] Instance eta_organization_member : Eta organization_member := λ r, OrganizationMember
  (om_id r) (om_organization_id r) (om_user_id r) (om_added_by_id r).
#[export] Instance eta_refresh_token : Eta refresh_token := λ r, RefreshToken (rt_id r)
  (rt_user_id r) (rt_family_id r) (rt_token_hash r) (rt_parent_id r) (rt_replaced_by_id r)
  (rt_expires_at r) (rt_revoked_at r) (rt_reuse_detected_at r).
#[export] Instance eta_login_throttle : Eta login_throttle := λ r, LoginThrottle (lt_key_hash
  r) (lt_failure_count r) (lt_window_started_at r) (lt_locked_until r).
#[export] Instance eta_audit_log : Eta audit_log := λ r, AuditLog (al_action r) (al_outcome r)
  (al_actor_user_id r) (al_actor_role r) (al_organization_id r) (al_workload_id r)
  (al_operation_id r) (al_source_ip r) (al_user_agent r) (al_pve_upid r) (al_resource_type r)
  (al_resource_id r) (al_request_id r) (al_before r) (al_after r) (al_result r) (al_error_code
  r).
#[export] Instance eta_cluster : Eta cluster := λ r, Cluster (cl_id r) (cl_name r)
  (cl_api_base_url r) (cl_ca_bundle_pem r) (cl_is_active r) (cl_last_connection_error_code r)
  (cl_last_connected_at r) (cl_disabled_at r) (cl_version r).
#[export] Instance eta_cluster_credential : Eta cluster_credential := λ r, ClusterCredential
  (cc_id r) (cc_cluster_id r) (cc_token_identifier r) (cc_secret_ciphertext r) (cc_secret_nonce
  r) (cc_key_version r) (cc_is_active r) (cc_last_used_at r) (cc_retired_at r).
#[export] Instance eta_workload : Eta workload := λ r, Workload (wl_id r) (wl_cluster_id r)
  (wl_vmid r) (wl_node r) (wl_kind r) (wl_name r) (wl_power_state r) (wl_cpu_cores r)
  (wl_memory_bytes r) (wl_disk_bytes r) (wl_is_template r) (wl_is_present r)
  (wl_organization_id r) (wl_observed_at r) (wl_version r).
#[export] Instance eta_workload_assignment : Eta workload_assignment := λ r, WorkloadAssignment
  (wa_id r) (wa_workload_id r) (wa_organization_id r) (wa_assigned_by_id r) (wa_assigned_at r)
  (wa_revoked_by_id r) (wa_revoked_at r) (wa_revoke_reason r).
#[export] Instance eta_operation : Eta operation := λ r, Operation (op_id r) (op_operation_type
  r) (op_action r) (op_status r) (op_requested_by_id r) (op_source_ip r) (op_organization_id r)
  (op_cluster_id r) (op_workload_id r) (op_idempotency_key_hash r) (op_request_fingerprint r)
  (op_celery_task_id r) (op_result r) (op_error_code r) (op_error_summary r) (op_retryable r)
  (op_attempt_count r) (op_requested_at r) (op_started_at r) (op_finished_at r)
  (op_heartbeat_at r) (op_version r).
#[export] Instance eta_pve_task : Eta pve_task := λ r, PveTask (pt_id r) (pt_operation_id r)
  (pt_cluster_id r) (pt_workload_id r) (pt_step_name r) (pt_upid r) (pt_status r) (pt_pve_node
  r) (pt_pve_exit_status r) (pt_submitted_at r) (pt_last_polled_at r) (pt_completed_at r)
  (pt_poll_attempts r) (pt_error_code r) (pt_error_summary r).
#[export] Instance eta_ip_addr : Eta ip_addr := λ r, IpAddr (ip_version r) (ip_int r).
#[export] Instance eta_ip_net : Eta ip_net := λ r, IpNet (net_version r) (net_address r)
  (net_prefixlen r).
#[export] Instance eta_ip_pool : Eta ip_pool := λ r, IpPool (pool_id r) (pool_name r)
  (pool_cluster_id r) (pool_cidr r) (pool_gateway r) (pool_dns_servers r) (pool_bridge r)
  (pool_vlan_tag r) (pool_ip_family r) (pool_allocation_strategy r) (pool_quarantine_seconds r)
  (pool_next_offset r) (pool_is_active r) (pool_created_by_id r) (pool_version r).
#[export] Instance eta_ip_pool_exclusion : Eta ip_pool_exclusion := λ r, IpPoolExclusion (ex_id
  r) (ex_pool_id r) (ex_start_address r) (ex_end_address r) (ex_reason r).
#[export] Instance eta_ip_address : Eta ip_address := λ r, IpAddress (addr_id r) (addr_pool_id
  r) (addr_address r) (addr_state r) (addr_reserved_for r) (addr_quarantined_until r)
  (addr_last_allocated_at r) (addr_version r).
#[export] Instance eta_ip_allocation : Eta ip_allocation := λ r, IpAllocation (alloc_id r)
  (alloc_ip_address_id r) (alloc_workload_id r) (alloc_provisioning_request_id r) (alloc_kind
  r) (alloc_status r) (alloc_allocated_by_id r) (alloc_confirmed_at r) (alloc_released_at r)
  (alloc_release_reason r) (alloc_version r).
#[export] Instance eta_provisioning_node : Eta provisioning_node := λ r, ProvisioningNode
  (pn_id r) (pn_cluster_id r) (pn_name r) (pn_is_enabled r) (pn_is_maintenance r)
  (pn_available_memory_bytes r) (pn_available_storage_bytes r) (pn_last_selected_at r).

#[export] Instance eta_provisioning_request : Eta provisioning_request := λ r, ProvisioningRequest (prq_id r)
  (prq_requested_by_id r) (prq_idempotency_key_hash r) (prq_request_fingerprint r)
  (prq_product_id r) (prq_template_id r) (prq_organization_id r) (prq_target_cluster_id r)
  (prq_target_node_id r) (prq_target_vmid r) (prq_target_name r) (prq_ip_pool_id r)
  (prq_requested_ip_address r) (prq_ip_address_id r) (prq_workload_id r) (prq_status r)
  (prq_current_step r) (prq_spec_snapshot r) (prq_initial_password_ciphertext r)
  (prq_initial_password_nonce r) (prq_initial_password_key_version r)
  (prq_initial_password_cleared_at r) (prq_celery_task_id r) (prq_clone_submitted r)
  (prq_error_code r) (prq_error_summary r) (prq_requested_at r) (prq_started_at r)
  (prq_finished_at r) (prq_heartbeat_at r) (prq_runner_id r) (prq_lease_expires_at r)
  (prq_version r).

#[export] Instance eta_provisioning_step : Eta provisioning_step := λ r, ProvisioningStep (pst_id r)
  (pst_provisioning_request_id r) (pst_step_order r) (pst_step_name r) (pst_status r)
  (pst_attempt_count r) (pst_pve_upid r) (pst_safe_result r) (pst_error_code r)
  (pst_error_summary r) (pst_started_at r) (pst_finished_at r).
#[export] Instance eta_product : Eta product := λ r, Product (prod_id r) (prod_name r)
  (prod_cpu_cores r) (prod_memory_bytes r) (prod_disk_bytes r) (prod_is_enabled r)
  (prod_created_by_id r).
#[export] Instance eta_template : Eta template := λ r, Template (tpl_id r) (tpl_name r)
  (tpl_source_workload_id r) (tpl_source_disk r) (tpl_default_storage r) (tpl_default_bridge r)
  (tpl_default_vlan_tag r) (tpl_cloud_init_enabled r) (tpl_linux_only r) (tpl_os_type r)
  (tpl_is_enabled r) (tpl_created_by_id r).

#[export] Instance eta_backup_target : Eta backup_target := λ r, BackupTarget (bt_id r)
  (bt_cluster_id r) (bt_storage_id r) (bt_datastore r) (bt_namespace r) (bt_is_enabled r)
  (bt_last_observed_available r) (bt_last_checked_at r) (bt_created_by_id r) (bt_version r).
#[export] Instance eta_backup_run : Eta backup_run := λ r, BackupRun (br_id r)
  (br_operation_id r) (br_backup_target_id r) (br_workload_id r) (br_organization_id r)
  (br_mode r) (br_compression r) (br_status r) (br_snapshot_volume_id r) (br_snapshot_time r)
  (br_size_bytes r) (br_transferred_bytes r) (br_started_at r) (br_finished_at r).
#[export] Instance eta_restore_run : Eta restore_run := λ r, RestoreRun (rr_id r)
  (rr_operation_id r) (rr_backup_run_id r) (rr_cluster_id r) (rr_source_workload_id r)
  (rr_target_node r) (rr_target_vmid r) (rr_target_name r) (rr_status r) (rr_started_at r)
  (rr_finished_at r).

#[export] Instance UserRole_eq_dec : EqDecision UserRole.
Proof. solve_decision. Defined.
#[export] Instance PowerAction_eq_dec : EqDecision PowerAction.
Proof. solve_decision. Defined.
#[export] Instance AdminVmAction_eq_dec : EqDecision AdminVmAction.
Proof. solve_decision. Defined.
#[export] Instance OperationStatus_eq_dec : EqDecision OperationStatus.
Proof. solve_decision. Defined.
#[export] Instance IpAddressState_eq_dec : EqDecision IpAddressState.
Proof. solve_decision. Defined.
#[export] Instance IpAllocationKind_eq_dec : EqDecision IpAllocationKind.
Proof. solve_decision. Defined.
#[export] Instance IpAllocationStatus_eq_dec : EqDecision IpAllocationStatus.
Proof. solve_decision. Defined.
#[export] Instance AllocationStrategy_eq_dec : EqDecision AllocationStrategy.
Proof. solve_decision. Defined.
#[export] Instance ProvisioningStatus_eq_dec : EqDecision ProvisioningStatus.
Proof. solve_decision. Defined.
#[export] Instance ProvisioningStepStatus_eq_dec : EqDecision ProvisioningStepStatus.
Proof. solve_decision. Defined.
#[export] Instance TemplateOsType_eq_dec : EqDecision TemplateOsType.
Proof. solve_decision. Defined.
#[export] Instance ip_addr_eq_dec : EqDecision ip_addr.
Proof. solve_decision. Defined.
#[export] Instance ip_net_eq_dec : EqDecision ip_net.
Proof. solve_decision. Defined.
