(* ===== verification/Database.v ===== *)
(** * Database, session and transactions

    The PostgreSQL schema of app/models/ as one record of finite maps with its
    unique, partial-unique and check constraints, and the SQLAlchemy session of
    app/db.py: a working copy that [flush] and [commit] check against the
    constraints and [rollback] discards.  A query that the source runs through
    [session.get], [session.scalar(select ...)], a [func.count()] or a bulk
    [update]/[delete] is one of the primitives below. *)
From stdpp Require Import sorting.
From S2P Require Import Prelude Models.

(** ** The tables *)

Record db := DB {
  db_users : gmap N user;
  db_organizations : gmap N organization;
  db_members : gmap N organization_member;
  db_refresh_tokens : gmap N refresh_token;
  db_login_throttles : gmap N login_throttle;
  db_audit_logs : list audit_log;
  db_clusters : gmap N cluster;
  db_credentials : gmap N cluster_credential;
  db_workloads : gmap N workload;
  db_assignments : gmap N workload_assignment;
  db_operations : gmap N operation;
  db_pve_tasks : gmap N pve_task;
  db_pools : gmap N ip_pool;
  db_exclusions : gmap N ip_pool_exclusion;
  db_addresses : gmap N ip_address;
  db_allocations : gmap N ip_allocation;
  db_nodes : gmap N provisioning_node;
  db_requests : gmap N provisioning_request;
  db_steps : gmap N provisioning_step;
  db_products : gmap N product;
  db_templates : gmap N template;
  db_backup_targets : gmap N backup_target;
  db_backup_runs : gmap N backup_run;
  db_restore_runs : gmap N restore_run }.

#[export] Instance eta_db : Eta db := λ d,
  DB (db_users d) (db_organizations d) (db_members d) (db_refresh_tokens d)
     (db_login_throttles d) (db_audit_logs d) (db_clusters d) (db_credentials d)
     (db_workloads d) (db_assignments d) (db_operations d) (db_pve_tasks d)
     (db_pools d) (db_exclusions d) (db_addresses d) (db_allocations d)
     (db_nodes d) (db_requests d) (db_steps d) (db_products d) (db_templates d)
     (db_backup_targets d) (db_backup_runs d) (db_restore_runs d).

Definition empty_db : db := DB ∅ ∅ ∅ ∅ ∅ [] ∅ ∅ ∅ ∅ ∅ ∅ ∅ ∅ ∅ ∅ ∅ ∅ ∅ ∅ ∅ ∅ ∅ ∅.

(** A row type: where its table is and what its primary key is. *)
Class Table (R : Type) := {
  rows : db → gmap N R;
  set_rows : (gmap N R → gmap N R) → db → db;
  key : R → N }.

#[export] Instance user_table : Table user :=
  {| rows := db_users; set_rows f d := d <| db_users ::= f |>; key := u_id |}.
#[export] Instance organization_table : Table organization :=
  {| rows := db_organizations; set_rows f d := d <| db_organizations ::= f |>; key := org_id |}.
#[export] Instance member_table : Table organization_member :=
  {| rows := db_members; set_rows f d := d <| db_members ::= f |>; key := om_id |}.
#[export] Instance refresh_token_table : Table refresh_token :=
  {| rows := db_refresh_tokens; set_rows f d := d <| db_refresh_tokens ::= f |>; key := rt_id |}.
#[export] Instance login_throttle_table : Table login_throttle :=
  {| rows := db_login_throttles; set_rows f d := d <| db_login_throttles ::= f |>;
     key := lt_key_hash |}.
#[export] Instance cluster_table : Table cluster :=
  {| rows := db_clusters; set_rows f d := d <| db_clusters ::= f |>; key := cl_id |}.
#[export] Instance credential_table : Table cluster_credential :=
  {| rows := db_credentials; set_rows f d := d <| db_credentials ::= f |>; key := cc_id |}.
#[export] Instance workload_table : Table workload :=
  {| rows := db_workloads; set_rows f d := d <| db_workloads ::= f |>; key := wl_id |}.
#[export] Instance assignment_table : Table workload_assignment :=
  {| rows := db_assignments; set_rows f d := d <| db_assignments ::= f |>; key := wa_id |}.
#[export] Instance operation_table : Table operation :=
  {| rows := db_operations; set_rows f d := d <| db_operations ::= f |>; key := op_id |}.
#[export] Instance pve_task_table : Table pve_task :=
  {| rows := db_pve_tasks; set_rows f d := d <| db_pve_tasks ::= f |>; key := pt_id |}.
#[export] Instance pool_table : Table ip_pool :=
  {| rows := db_pools; set_rows f d := d <| db_pools ::= f |>; key := pool_id |}.
#[export] Instance exclusion_table : Table ip_pool_exclusion :=
  {| rows := db_exclusions; set_rows f d := d <| db_exclusions ::= f |>; key := ex_id |}.
#[export] Instance address_table : Table ip_address :=
  {| rows := db_addresses; set_rows f d := d <| db_addresses ::= f |>; key := addr_id |}.
#[export] Instance allocation_table : Table ip_allocation :=
  {| rows := db_allocations; set_rows f d := d <| db_allocations ::= f |>; key := alloc_id |}.
#[export] Instance node_table : Table provisioning_node :=
  {| rows := db_nodes; set_rows f d := d <| db_nodes ::= f |>; key := pn_id |}.
#[export] Instance request_table : Table provisioning_request :=
  {| rows := db_requests; set_rows f d := d <| db_requests ::= f |>; key := prq_id |}.
#[export] Instance step_table : Table provisioning_step :=
  {| rows := db_steps; set_rows f d := d <| db_steps ::= f |>; key := pst_id |}.
#[export] Instance product_table : Table product :=
  {| rows := db_products; set_rows f d := d <| db_products ::= f |>; key := prod_id |}.
#[export] Instance template_table : Table template :=
  {| rows := db_templates; set_rows f d := d <| db_templates ::= f |>; key := tpl_id |}.
#[export] Instance backup_target_table : Table backup_target :=
  {| rows := db_backup_targets; set_rows f d := d <| db_backup_targets ::= f |>; key := bt_id |}.
#[export] Instance backup_run_table : Table backup_run :=
  {| rows := db_backup_runs; set_rows f d := d <| db_backup_runs ::= f |>; key := br_id |}.
#[export] Instance restore_run_table : Table restore_run :=
  {| rows := db_restore_runs; set_rows f d := d <| db_restore_runs ::= f |>; key := rr_id |}.

(** Every row sits under its own primary key. *)
Definition keyed (R : Type) `{Table R} (d : db) : Prop :=
  ∀ i (r : R), rows d !! i = Some r → key r = i.

#[export] Instance keyed_dec {R} `{Table R} d : Decision (keyed R d).
Proof.
  refine (cast_if (decide (map_Forall (λ i (r : R), key r = i) (rows d)))); [abstract done..].
Defined.

(** ** Queries *)

(** [select(R).where(P)], in the order the database happens to return. *)
Definition select_rows {R} `{Table R} (P : R → bool) (d : db) : list R :=
  filter (λ r, P r = true) ((map_to_list (rows d)).*2).

(** [session.scalar(select(R).where(P))]: the first row, if any. *)
Definition first_row {R} `{Table R} (P : R → bool) (d : db) : option R :=
  head (select_rows P d).

(** [select(func.count()).where(P)]. *)
Definition count_rows {R} `{Table R} (P : R → bool) (d : db) : Z :=
  Z.of_nat (length (select_rows P d)).

Section queries.
Context {R : Type} `{Table R}.
Implicit Types (P : R → bool) (d : db).

Lemma elem_of_select P d r :
  r ∈ select_rows P d ↔ P r = true ∧ ∃ i, rows d !! i = Some r.
Proof.
  unfold select_rows. rewrite list_elem_of_filter, list_elem_of_fmap.
  split.
  - intros [HP [[i r'] [-> Hin]]]. split; [done|]. exists i. by apply elem_of_map_to_list.
  - intros [HP [i Hi]]. split; [done|]. exists (i, r).
    split; [done|]. by apply elem_of_map_to_list.
Qed.

Lemma first_row_Some P d r :
  first_row P d = Some r → P r = true ∧ ∃ i, rows d !! i = Some r.
Proof.
  unfold first_row. intros Hh. apply elem_of_select.
  destruct (select_rows P d); simplify_eq/=. apply list_elem_of_here.
Qed.

Lemma first_row_None P d :
  first_row P d = None → ∀ i r, rows d !! i = Some r → P r = false.
Proof.
  unfold first_row. intros Hh i r Hi. destruct (P r) eqn:HP; [|done].
  assert (r ∈ select_rows P d) as Hin by (apply elem_of_select; eauto).
  destruct (select_rows P d); [|done]. by apply not_elem_of_nil in Hin.
Qed.

Lemma first_row_is_None P d :
  (∀ i r, rows d !! i = Some r → P r = false) → first_row P d = None.
Proof.
  intros Hall. destruct (first_row P d) eqn:Hf; [|done].
  apply first_row_Some in Hf as [HP [i Hi]]. by rewrite (Hall i _ Hi) in HP.
Qed.

Lemma first_row_unique P d r i :
  rows d !! i = Some r → P r = true →
  (∀ j s, rows d !! j = Some s → P s = true → s = r) → first_row P d = Some r.
Proof.
  intros Hi HP Hu. destruct (first_row P d) as [s|] eqn:Hf.
  - apply first_row_Some in Hf as [HPs [j Hj]]. f_equal. eauto.
  - eapply first_row_None in Hf; [|done]. congruence.
Qed.

Lemma count_rows_0 P d :
  count_rows P d ≤ 0 → ∀ i r, rows d !! i = Some r → P r = false.
Proof.
  unfold count_rows. intros Hc. apply first_row_None. unfold first_row.
  destruct (select_rows P d); [done|]. simpl in Hc. lia.
Qed.
End queries.

(** ** Constraints *)

(** A unique index over the rows where [f] is not [None]. *)
Definition unique_on {R K} `{Table R} (f : R → option K) (d : db) : Prop :=
  ∀ i j (r s : R) k,
    rows d !! i = Some r → rows d !! j = Some s → f r = Some k → f s = Some k → i = j.

Definition unique_onb {R K} `{Table R, EqDecision K} (f : R → option K) (d : db) : bool :=
  bool_decide (NoDup (omap f ((map_to_list (rows d)).*2))).

Definition check_onb {R} `{Table R} (p : R → bool) (d : db) : bool :=
  bool_decide (Forall (λ r, p r = true) ((map_to_list (rows d)).*2)).

Lemma NoDup_omap_fst {A B C} (f : A → option C) (l : list (B * A)) :
  NoDup l.*1 → NoDup (omap f l.*2) →
  ∀ i j x y k, (i, x) ∈ l → (j, y) ∈ l → f x = Some k → f y = Some k → i = j.
Proof.
  induction l as [|[b a] l IH]; simpl; intros Hnd1 Hnd2 i j x y k Hx Hy Hfx Hfy.
  { by apply not_elem_of_nil in Hx. }
  apply NoDup_cons in Hnd1 as [Hni Hnd1].
  assert (∀ i' z, (i', z) ∈ l → f z = Some k → k ∈ omap f l.*2) as Hin.
  { intros i' z Hz Hfz. apply list_elem_of_omap. exists z. split; [|done].
    apply list_elem_of_fmap. by exists (i', z). }
  assert (NoDup (omap f l.*2)) as Hnd2'.
  { destruct (f a); [by apply NoDup_cons in Hnd2 as [_ ?]|done]. }
  apply elem_of_cons in Hx as [[= -> ->]|Hx], Hy as [[= -> ->]|Hy]; [done| | |].
  - rewrite Hfx in Hnd2. apply NoDup_cons in Hnd2 as [Hn _]. by destruct Hn; eauto.
  - rewrite Hfy in Hnd2. apply NoDup_cons in Hnd2 as [Hn _]. by destruct Hn; eauto.
  - by eapply IH.
Qed.

Lemma unique_onb_true {R K} `{Table R, EqDecision K} (f : R → option K) d :
  unique_onb f d = true → unique_on f d.
Proof.
  unfold unique_onb. intros Hnd%bool_decide_eq_true i j r s k Hi Hj Hr Hs.
  eapply (NoDup_omap_fst f (map_to_list (rows d))); [apply NoDup_fst_map_to_list|done| | |..];
    try apply elem_of_map_to_list; eauto.
Qed.

Lemma unique_onb_complete {R K} `{Table R, EqDecision K} (f : R → option K) d :
  unique_on f d → unique_onb f d = true.
Proof.
  intros Hu. unfold unique_onb. apply bool_decide_eq_true.
  assert (∀ i j r s k, (i, r) ∈ map_to_list (rows d) → (j, s) ∈ map_to_list (rows d) →
            f r = Some k → f s = Some k → i = j) as Hu'.
  { intros i j r s k Hi%elem_of_map_to_list Hj%elem_of_map_to_list. by eapply Hu. }
  pose proof (NoDup_fst_map_to_list (rows d)) as Hnd.
  generalize dependent (map_to_list (rows d)). intros l Hu' Hnd.
  induction l as [|[b a] l IH]; simpl in *; [constructor|].
  apply NoDup_cons in Hnd as [Hni Hnd].
  assert (NoDup (omap f l.*2)) as IH'.
  { apply IH; [|done]. intros i j r s k ??. apply (Hu' i j r s k); by apply elem_of_cons; right. }
  destruct (f a) as [k|] eqn:Hfa; [|done].
  apply NoDup_cons. split; [|done].
  rewrite list_elem_of_omap. intros (s & Hs & Hfs).
  apply list_elem_of_fmap in Hs as [[j s'] [-> Hj]]. simpl in *.
  assert (b = j) as -> by (eapply (Hu' b j a s' k); eauto using list_elem_of_here, list_elem_of_further).
  apply Hni, list_elem_of_fmap. by exists (j, s').
Qed.

Lemma check_onb_true {R} `{Table R} (p : R → bool) d :
  check_onb p d = true ↔ ∀ i r, rows d !! i = Some r → p r = true.
Proof.
  unfold check_onb. rewrite bool_decide_eq_true, Forall_forall. split.
  - intros Hall i r Hi. apply Hall, list_elem_of_fmap. exists (i, r).
    split; [done|]. by apply elem_of_map_to_list.
  - intros Hall r Hr. apply list_elem_of_fmap in Hr as [[i r'] [-> Hi%elem_of_map_to_list]].
    by eapply Hall.
Qed.

(** The partial index predicates of app/models/. *)
Definition op_active (o : operation) : bool :=
  match op_status o with OS_QUEUED | OS_RUNNING => true | _ => false end.

Definition alloc_active (a : ip_allocation) : bool :=
  match alloc_status a with AL_RELEASED => false | _ => true end.

Definition prq_live (q : provisioning_request) : bool :=
  match prq_status q with PS_FAILED => false | _ => true end.

Definition only {K} (b : bool) (k : K) : option K := if b then Some k else None.

(** One index or check constraint per entry, in the order of app/models/. *)
Definition uq_users_email : user → option string := λ u, Some (u_email u).
Definition uq_organizations_name : organization → option string := λ o, Some (org_name o).
Definition uq_members : organization_member → option (N * N) :=
  λ m, Some (om_organization_id m, om_user_id m).
Definition uq_refresh_tokens_hash : refresh_token → option N := λ t, Some (rt_token_hash t).
Definition uq_clusters_name : cluster → option string := λ c, Some (cl_name c).
Definition uq_clusters_url : cluster → option string := λ c, Some (cl_api_base_url c).
Definition uq_cluster_credentials_active_cluster : cluster_credential → option N :=
  λ c, only (cc_is_active c) (cc_cluster_id c).
Definition uq_workloads_vmid : workload → option (N * Z) :=
  λ w, Some (wl_cluster_id w, wl_vmid w).
Definition ck_workloads_kind (w : workload) : bool :=
  bool_decide (wl_kind w = "QEMU") || bool_decide (wl_kind w = "LXC").
Definition uq_workload_assignments_active_workload : workload_assignment → option N :=
  λ a, match wa_revoked_at a with None => Some (wa_workload_id a) | Some _ => None end.
Definition uq_operations_idempotency : operation → option (N * N) :=
  λ o, Some (op_requested_by_id o, op_idempotency_key_hash o).
Definition uq_operations_active_workload : operation → option N :=
  λ o, only (op_active o) (op_workload_id o).
Definition uq_pve_tasks_upid : pve_task → option (N * string) :=
  λ t, Some (pt_cluster_id t, pt_upid t).
Definition uq_pve_tasks_step : pve_task → option (N * string * string) :=
  λ t, Some (pt_operation_id t, pt_step_name t, pt_upid t).
Definition uq_ip_pools_name : ip_pool → option string := λ p, Some (pool_name p).
Definition ck_ip_pools_family (p : ip_pool) : bool :=
  bool_decide (pool_ip_family p = 4) || bool_decide (pool_ip_family p = 6).
Definition ck_ip_pools_vlan (p : ip_pool) : bool :=
  match pool_vlan_tag p with
  | None => true
  | Some v => bool_decide (1 ≤ v) && bool_decide (v ≤ 4094)
  end.
Definition ck_ip_pools_quarantine (p : ip_pool) : bool :=
  bool_decide (0 ≤ pool_quarantine_seconds p).
Definition uq_ip_pool_exclusions : ip_pool_exclusion → option (N * ip_addr * ip_addr) :=
  λ x, Some (ex_pool_id x, ex_start_address x, ex_end_address x).
Definition uq_ip_addresses : ip_address → option (N * ip_addr) :=
  λ a, Some (addr_pool_id a, addr_address a).
Definition uq_ip_allocations_active_address : ip_allocation → option N :=
  λ a, only (alloc_active a) (alloc_ip_address_id a).
Definition uq_ip_allocations_active_provisioning_request : ip_allocation → option N :=
  λ a, if alloc_active a then alloc_provisioning_request_id a else None.
Definition uq_provisioning_nodes : provisioning_node → option (N * string) :=
  λ n, Some (pn_cluster_id n, pn_name n).
Definition uq_provisioning_requests : provisioning_request → option (N * N) :=
  λ q, Some (prq_requested_by_id q, prq_idempotency_key_hash q).
Definition uq_provisioning_active_vmid : provisioning_request → option (N * Z) :=
  λ q, match prq_target_vmid q with
       | Some v => only (prq_live q) (prq_target_cluster_id q, v)
       | None => None
       end.
Definition uq_products_name : product → option string := λ p, Some (prod_name p).
Definition ck_products_cpu (p : product) : bool := 0 <? prod_cpu_cores p.
Definition ck_products_memory (p : product) : bool := 0 <? prod_memory_bytes p.
Definition ck_products_disk (p : product) : bool := 0 <? prod_disk_bytes p.
Definition uq_templates_name : template → option string := λ t, Some (tpl_name t).
Definition uq_templates_source : template → option N := λ t, Some (tpl_source_workload_id t).
Definition ck_templates_os_type (t : template) : bool :=
  bool_decide (tpl_os_type t = "LINUX") || bool_decide (tpl_os_type t = "WINDOWS").
Definition ck_templates_os_type_legacy_flag (t : template) : bool :=
  (bool_decide (tpl_os_type t = "LINUX") && tpl_linux_only t) ||
  (bool_decide (tpl_os_type t = "WINDOWS") && negb (tpl_linux_only t)).
Definition uq_provisioning_steps_order : provisioning_step → option (N * Z) :=
  λ s, Some (pst_provisioning_request_id s, pst_step_order s).
Definition uq_provisioning_steps_name : provisioning_step → option (N * string) :=
  λ s, Some (pst_provisioning_request_id s, pst_step_name s).

Definition uq_backup_targets_storage : backup_target → option (N * string) :=
  λ t, Some (bt_cluster_id t, bt_storage_id t).
Definition uq_backup_runs_operation : backup_run → option N := λ r, Some (br_operation_id r).
Definition uq_restore_runs_operation : restore_run → option N := λ r, Some (rr_operation_id r).
Definition rr_active (r : restore_run) : bool :=
  match rr_status r with OS_QUEUED | OS_RUNNING => true | _ => false end.
Definition uq_restore_runs_active_target : restore_run → option (N * Z) :=
  λ r, only (rr_active r) (rr_cluster_id r, rr_target_vmid r).

(** Foreign keys, where a service deletes rows of the referenced table. *)
Definition fk_requests_product (d : db) : bool :=
  check_onb (λ q, bool_decide (is_Some (db_products d !! prq_product_id q))) d.
Definition fk_requests_template (d : db) : bool :=
  check_onb (λ q, bool_decide (is_Some (db_templates d !! prq_template_id q))) d.

Definition schema : list (db → bool) := [
  unique_onb uq_users_email; unique_onb uq_organizations_name; unique_onb uq_members;
  unique_onb uq_refresh_tokens_hash; unique_onb uq_clusters_name;
  unique_onb uq_clusters_url; unique_onb uq_cluster_credentials_active_cluster;
  unique_onb uq_workloads_vmid; check_onb ck_workloads_kind;
  unique_onb uq_workload_assignments_active_workload;
  unique_onb uq_operations_idempotency; unique_onb uq_operations_active_workload;
  unique_onb uq_pve_tasks_upid; unique_onb uq_pve_tasks_step;
  unique_onb uq_ip_pools_name; check_onb ck_ip_pools_family; check_onb ck_ip_pools_vlan;
  check_onb ck_ip_pools_quarantine; unique_onb uq_ip_pool_exclusions;
  unique_onb uq_ip_addresses; unique_onb uq_ip_allocations_active_address;
  unique_onb uq_ip_allocations_active_provisioning_request;
  unique_onb uq_provisioning_nodes; unique_onb uq_provisioning_requests;
  unique_onb uq_provisioning_active_vmid;
  unique_onb uq_products_name; check_onb ck_products_cpu; check_onb ck_products_memory;
  check_onb ck_products_disk; unique_onb uq_templates_name; unique_onb uq_templates_source;
  check_onb ck_templates_os_type; check_onb ck_templates_os_type_legacy_flag;
  unique_onb uq_provisioning_steps_order; unique_onb uq_provisioning_steps_name;
  fk_requests_product; fk_requests_template;
  unique_onb uq_backup_targets_storage; unique_onb uq_backup_runs_operation;
  unique_onb uq_restore_runs_operation; unique_onb uq_restore_runs_active_target ].

(** What PostgreSQL enforces of a database state. *)
Definition integrity (d : db) : bool := forallb (λ c, c d) schema.

Lemma integrity_elim (c : db → bool) d : In c schema → integrity d = true → c d = true.
Proof. unfold integrity. rewrite forallb_forall. auto. Qed.

(** [integrity_unique]: an index of [schema], as a proposition about the tables. *)
Lemma integrity_unique {R K} `{Table R, EqDecision K} (f : R → option K) d :
  In (unique_onb f) schema → integrity d = true → unique_on f d.
Proof. intros Hin Hi. by apply unique_onb_true, (integrity_elim _ d). Qed.

(** ** Sessions *)

(** A session over an environment [E] (clock, randomness, remote systems): the
    committed database, the session's working copy, whether a pending insert
    reuses a primary key, and the environment. *)
Record world (E : Type) := World {
  w_db : db; w_tx : db; w_dup : bool; w_env : E }.
Arguments World {E} _ _ _ _.
Arguments w_db {E} _.
Arguments w_tx {E} _.
Arguments w_dup {E} _.
Arguments w_env {E} _.

#[export] Instance eta_world {E} : Eta (world E) := λ w,
  World (w_db w) (w_tx w) (w_dup w) (w_env w).

Abbreviation DBM E := (M (world E)).

Section session.
Context {E : Type}.

(** [session.get(R, id)] and [select(R).where(R.id == id)]. *)
Definition db_get R `{Table R} (id : N) : DBM E (option R) :=
  gets (λ w, rows (w_tx w) !! id).

(** [session.get] of a nullable reference. *)
Definition db_get_opt R `{Table R} (id : option N) : DBM E (option R) :=
  match id with Some i => db_get R i | None => mret None end.

Definition db_scalar {R} `{Table R} (P : R → bool) : DBM E (option R) :=
  gets (λ w, first_row P (w_tx w)).

Definition db_select {R} `{Table R} (P : R → bool) : DBM E (list R) :=
  gets (λ w, select_rows P (w_tx w)).

(** [select(R).where(P).order_by(le).limit(1).with_for_update(skip_locked=True)]. *)
Definition db_scalar_ordered {R} `{Table R} (le : R → R → Prop) `{!RelDecision le}
    (skip : E → N → bool) (P : R → bool) : DBM E (option R) :=
  gets (λ w, head (merge_sort le
    (select_rows (λ r, P r && negb (skip (w_env w) (key r))) (w_tx w)))).

Definition db_count {R} `{Table R} (P : R → bool) : DBM E Z :=
  gets (λ w, count_rows P (w_tx w)).

(** The state of a tracked row after attribute assignments. *)
Definition db_save {R} `{Table R} (r : R) : DBM E () :=
  modify (λ w, w <| w_tx ::= set_rows <[key r := r]> |>).

(** [session.add(r)] of a new row. *)
Definition db_add {R} `{Table R} (r : R) : DBM E () :=
  modify (λ w, w <| w_dup ::= λ b, b || bool_decide (is_Some (rows (w_tx w) !! key r)) |>
                 <| w_tx ::= set_rows <[key r := r]> |>).

(** [session.delete(r)]. *)
Definition db_delete {R} `{Table R} (r : R) : DBM E () :=
  modify (λ w, w <| w_tx ::= set_rows (delete (key r)) |>).

(** [update(R).where(P).values(...)]. *)
Definition db_update_where {R} `{Table R} (P : R → bool) (f : R → R) : DBM E () :=
  modify (λ w, w <| w_tx ::= set_rows (fmap (λ r, if P r then f r else r)) |>).

(** [delete(R).where(P)]. *)
Definition db_delete_where {R} `{Table R} (P : R → bool) : DBM E () :=
  modify (λ w, w <| w_tx ::= set_rows (filter (λ kr, P kr.2 = false)) |>).

(** [session.flush()]: the pending rows meet the constraints, or
    [IntegrityError]. *)
Definition flush : DBM E () :=
  λ w, if w_dup w || negb (integrity (w_tx w)) then (Raise IntegrityError, w)
       else (Ok tt, w).

(** [session.commit()]. *)
Definition commit : DBM E () :=
  flush;; modify (λ w, w <| w_db := w_tx w |>).

(** [session.rollback()]. *)
Definition rollback : DBM E () :=
  modify (λ w, w <| w_tx := w_db w |> <| w_dup := false |>).

(** [try: m except IntegrityError: session.rollback(); raise e]. *)
Definition or_conflict (m : DBM E ()) (e : exn) : DBM E () :=
  try_except m (λ x,
    match x with
    | IntegrityError => rollback;; raise e
    | _ => raise x
    end).

(** A request or a task: it opens a session on the committed database, and what
    it did not commit is discarded when the session closes. *)
Definition exec {A} (m : DBM E A) (d : db) (e : E) : outcome A * db * E :=
  let '(r, w) := m (World d d false e) in (r, w_db w, w_env w).
End session.

(** ** The Python runtime *)

(** [datetime.now(UTC)] (in microseconds), [uuid4()], [SystemRandom.randrange],
    [secrets.token_urlsafe] (as the digest's preimage, an [N]), the rows that
    other transactions hold locked (what SKIP LOCKED leaves out), and the logging
    context variables of app/core/. *)
Class Runtime (E : Type) := {
  env_now : E → Z * E;
  env_uuid4 : E → N * E;
  env_randrange : Z → E → Z * E;
  env_token : E → N * E;
  env_locked : E → N → bool;
  env_request_id : E → option string;
  env_source_ip : E → option string;
  env_user_agent : E → option string }.

Definition from_env {E A} (f : E → A * E) : DBM E A :=
  λ w, (Ok (f (w_env w)).1, w <| w_env := (f (w_env w)).2 |>).

Definition datetime_now {E} `{Runtime E} : DBM E Z := from_env env_now.
Definition uuid4 {E} `{Runtime E} : DBM E N := from_env env_uuid4.
Definition randrange {E} `{Runtime E} (n : Z) : DBM E Z := from_env (env_randrange n).
Definition token_urlsafe {E} `{Runtime E} : DBM E N := from_env env_token.

(** [timedelta(seconds=n)]. *)
Definition seconds (n : Z) : Z := n * 1000000.

(** ** Proof rules of the session primitives *)

Section session_wp.
Context {E : Type}.
Implicit Types (w : world E).

Lemma wp_db_get R `{Table R} id Q w :
  (∀ o, rows (w_tx w) !! id = o → Q (Ok o) w) → wp (db_get R id) Q w.
Proof. intros HQ. by apply HQ. Qed.

Lemma wp_db_scalar {R} `{Table R} (P : R → bool) Q w :
  (∀ o, first_row P (w_tx w) = o → Q (Ok o) w) → wp (db_scalar P) Q w.
Proof. intros HQ. by apply HQ. Qed.

Lemma wp_db_scalar_ordered {R} `{Table R} (le : R → R → Prop) `{!RelDecision le}
    skip (P : R → bool) Q w :
  (∀ r i, P r = true → rows (w_tx w) !! i = Some r → Q (Ok (Some r)) w) →
  ((∀ i r, rows (w_tx w) !! i = Some r → P r = true → skip (w_env w) (key r) = true) →
    Q (Ok None) w) →
  wp (db_scalar_ordered le skip P) Q w.
Proof.
  intros Hs Hn. apply wp_gets. set (l := select_rows _ _).
  assert (merge_sort le l ≡ₚ l) as Hp by apply merge_sort_Permutation.
  destruct (merge_sort le l) as [|r l'] eqn:Hl; simpl.
  - apply Hn. intros i r Hi HP. destruct (skip (w_env w) (key r)) eqn:Hsk; [done|].
    apply Permutation_nil in Hp.
    assert (r ∈ l) as Hin by (apply elem_of_select; rewrite HP, Hsk; eauto).
    rewrite Hp in Hin. by apply not_elem_of_nil in Hin.
  - assert (r ∈ l) as Hin by (rewrite <-Hp; apply list_elem_of_here).
    apply elem_of_select in Hin as [HP [i Hi]]. apply andb_true_iff in HP as [HP _].
    by eapply Hs.
Qed.

Lemma wp_db_select {R} `{Table R} (P : R → bool) Q w :
  Q (Ok (select_rows P (w_tx w))) w → wp (db_select P) Q w.
Proof. done. Qed.

Lemma wp_db_count {R} `{Table R} (P : R → bool) Q w :
  Q (Ok (count_rows P (w_tx w))) w → wp (db_count P) Q w.
Proof. done. Qed.

Lemma wp_db_save {R} `{Table R} (r : R) Q w :
  Q (Ok tt) (World (w_db w) (set_rows <[key r := r]> (w_tx w)) (w_dup w) (w_env w)) →
  wp (db_save r) Q w.
Proof. done. Qed.

Lemma wp_db_add {R} `{Table R} (r : R) Q w :
  (∀ b, b = w_dup w || bool_decide (is_Some (rows (w_tx w) !! key r)) →
    Q (Ok tt) (World (w_db w) (set_rows <[key r := r]> (w_tx w)) b (w_env w))) →
  wp (db_add r) Q w.
Proof. intros HQ. by apply HQ. Qed.

Lemma wp_db_delete {R} `{Table R} (r : R) Q w :
  Q (Ok tt) (World (w_db w) (set_rows (delete (key r)) (w_tx w)) (w_dup w) (w_env w)) →
  wp (db_delete r) Q w.
Proof. done. Qed.

Lemma wp_flush Q w :
  (w_dup w || negb (integrity (w_tx w)) = true → Q (Raise IntegrityError) w) →
  (w_dup w = false → integrity (w_tx w) = true → Q (Ok tt) w) → wp flush Q w.
Proof.
  unfold wp, flush. destruct (w_dup w) eqn:?, (integrity (w_tx w)) eqn:?; simpl; auto.
Qed.

Lemma wp_commit Q w :
  (w_dup w || negb (integrity (w_tx w)) = true → Q (Raise IntegrityError) w) →
  (w_dup w = false → integrity (w_tx w) = true →
    Q (Ok tt) (World (w_tx w) (w_tx w) false (w_env w))) →
  wp commit Q w.
Proof.
  intros Hbad Hok. unfold commit. apply wp_bind, wp_flush; [done|].
  intros Hd Hi. apply wp_modify. destruct w as [d t b e]; simpl in *. subst b. auto.
Qed.

Lemma wp_rollback Q w :
  Q (Ok tt) (World (w_db w) (w_db w) false (w_env w)) → wp rollback Q w.
Proof. done. Qed.

Lemma wp_or_conflict (m : DBM E ()) e Q w :
  wp m (λ r w', match r with
                | Raise IntegrityError => Q (Raise e) (World (w_db w') (w_db w') false (w_env w'))
                | _ => Q r w'
                end) w →
  wp (or_conflict m e) Q w.
Proof.
  intros Hm. apply wp_try. eapply wp_mono; [done|].
  intros [a|x] w' HQ; [done|]. by destruct x.
Qed.

Lemma wp_from_env {A} (f : E → A * E) Q w :
  (∀ a e', f (w_env w) = (a, e') → Q (Ok a) (World (w_db w) (w_tx w) (w_dup w) e')) →
  wp (from_env f) Q w.
Proof. intros HQ. apply HQ. by destruct (f (w_env w)). Qed.
End session_wp.

(** ** Symbolic execution *)

(** Reads of the working copy, reduced to the tables they concern. *)
Ltac db_simpl :=
  cbn [w_db w_tx w_dup w_env rows set_rows key upd
       user_table organization_table member_table refresh_token_table
       login_throttle_table cluster_table credential_table workload_table
       assignment_table operation_table pve_task_table pool_table exclusion_table
       address_table allocation_table node_table request_table step_table product_table
       template_table
       db_users db_organizations db_members db_refresh_tokens db_login_throttles
       db_audit_logs db_clusters db_credentials db_workloads db_assignments
       db_operations db_pve_tasks db_pools db_exclusions db_addresses
       db_allocations db_nodes db_requests db_steps db_products db_templates] in *.

(** Rules that later files add. *)
Ltac wp_hook := fail.

(** One rule of the monad or of the session. *)
Ltac wp_step :=
  match goal with
  | |- wp (mbind _ _) _ _ => apply wp_bind
  | |- wp (mret _) _ _ => apply wp_ret
  | |- wp (raise _) _ _ => apply wp_raise
  | |- wp (raise_if _ _) _ _ => apply wp_raise_if; intros ?
  | |- wp (when ?b _) _ _ => unfold when; destruct b eqn:?
  | |- wp (assert_some _) _ _ => apply wp_assert_some; [intros ?|intros ? ?]
  | |- wp (or_raise _ _) _ _ => apply wp_or_raise; [intros ?|intros ? ?]
  | |- wp (gets _) _ _ => apply wp_gets
  | |- wp (db_get _ _) _ _ => apply wp_db_get; intros ? ?
  | |- wp (db_scalar _) _ _ => apply wp_db_scalar; intros ? ?
  | |- wp (db_select _) _ _ => apply wp_db_select
  | |- wp (db_count _) _ _ => apply wp_db_count
  | |- wp (db_save _) _ _ => apply wp_db_save
  | |- wp (db_add _) _ _ => apply wp_db_add; intros ? ?
  | |- wp (db_delete _) _ _ => apply wp_db_delete
  | |- wp flush _ _ => apply wp_flush; [intros ?|intros ? ?]
  | |- wp commit _ _ => apply wp_commit; [intros ?|intros ? ?]
  | |- wp rollback _ _ => apply wp_rollback
  | |- wp (or_conflict _ _) _ _ => apply wp_or_conflict
  | |- wp datetime_now _ _ => apply wp_from_env; intros ? ? ?
  | |- wp uuid4 _ _ => apply wp_from_env; intros ? ? ?
  | |- wp token_urlsafe _ _ => apply wp_from_env; intros ? ? ?
  | |- wp (randrange _) _ _ => apply wp_from_env; intros ? ? ?
  | |- wp (if ?b then _ else _) _ _ => destruct b eqn:?
  | |- wp (match ?x with _ => _ end) _ _ => destruct x eqn:?
  | |- wp _ _ _ => wp_hook
  end; cbv beta iota; cbn [w_db w_tx w_dup w_env].

Ltac wp_run := repeat wp_step.

(** After a successful [flush], the key of an added row was not in use. *)
Ltac fresh_row :=
  simpl in *; subst; simpl in *;
  repeat match goal with
    | Hd : bool_decide (is_Some (?m !! ?k)) = false |- _ =>
      rewrite ?Hd in *; apply bool_decide_eq_false, eq_None_not_Some in Hd
    | Hd : _ || _ = false |- _ => apply orb_false_iff in Hd as [? ?]
    end.

(** What [exec] gives, from the triple of its body. *)
Lemma exec_wp {E A} (m : DBM E A) d e r d' e' (Q : outcome A → world E → Prop) :
  exec m d e = (r, d', e') → wp m Q (World d d false e) →
  ∃ w, Q r w ∧ w_db w = d' ∧ w_env w = e'.
Proof.
  unfold exec, wp. destruct (m _) as [r' w]. intros [= -> <- <-] HQ. by exists w.
Qed.

(** The environment a run leaves. *)
Lemma exec_env {E A} (m : DBM E A) d e r d' e' :
  exec m d e = (r, d', e') → w_env (m (World d d false e)).2 = e'.
Proof. unfold exec. destruct (m _) as [r' w]. by intros [= _ _ <-]. Qed.

(** [keyed] is kept by writes through the primary key. *)
Lemma lookup_insert_key {R} (k : R → N) (m : gmap N R) r :
  (∀ i s, m !! i = Some s → k s = i) → ∀ i s, <[k r := r]> m !! i = Some s → k s = i.
Proof. intros Hm i s [[<- <-]|[? ?]]%lookup_insert_Some; eauto. Qed.

Lemma lookup_fmap_key {R} (k : R → N) (m : gmap N R) (P : R → bool) f :
  (∀ r, k (f r) = k r) →
  (∀ i s, m !! i = Some s → k s = i) →
  ∀ i s, ((λ r, if P r then f r else r) <$> m) !! i = Some s → k s = i.
Proof.
  intros Hf Hm i s. rewrite lookup_fmap, fmap_Some. intros (r & Hr & ->).
  destruct (P r); [rewrite Hf|]; eauto.
Qed.

(** An update whose condition names the primary key. *)
Lemma update_one {R} (k : R → N) (m : gmap N R) (P : R → bool) f id :
  (∀ i s, m !! i = Some s → k s = i) → (∀ r, P r = true → k r = id) →
  (λ r, if P r then f r else r) <$> m =
    match m !! id with
    | Some r => if P r then <[id := f r]> m else m
    | None => m
    end.
Proof.
  intros Hm HP. apply map_eq. intros i. rewrite lookup_fmap.
  destruct (m !! i) as [s|] eqn:Hi; simpl; destruct (decide (i = id)) as [->|Hne].
  - rewrite Hi. destruct (P s); [by rewrite lookup_insert_eq|done].
  - assert (P s = false) as ->
      by (apply not_true_iff_false; intros Hs; apply Hne; rewrite <-(Hm _ _ Hi); auto).
    destruct (m !! id) as [r|]; [destruct (P r)|]; by rewrite ?lookup_insert_ne.
  - by rewrite Hi.
  - destruct (m !! id) as [r|]; [destruct (P r)|]; by rewrite ?lookup_insert_ne.
Qed.

Lemma exec_elim {E A} (m : DBM E A) d e r d' e' (P : outcome A → db → Prop) :
  exec m d e = (r, d', e') → wp m (λ r w, P r (w_db w)) (World d d false e) → P r d'.
Proof. intros Hrun Hwp. eapply exec_wp in Hrun; [|exact Hwp]. by destruct Hrun as (w & ? & <- & _). Qed.

(** Start the symbolic execution of the run [H], for a goal about its outcome and
    the database it left. *)
Ltac start_run H :=
  match type of H with
  | exec _ _ _ = (?r, ?d', _) =>
    pattern r, d'; refine (exec_elim _ _ _ _ _ _ _ H _); cbv beta; clear H
  end.

(** ** Saves that cannot violate a constraint *)

Section shrink.
Context {R K : Type} `{Table R, EqDecision K}.

(** A row whose key in an index did not change, or that left the index. *)
Lemma unique_onb_save (f : R → option K) d d' i r r' :
  rows d !! i = Some r → rows d' = <[i := r']> (rows d) →
  (∀ k, f r' = Some k → f r = Some k) →
  unique_onb f d = true → unique_onb f d' = true.
Proof.
  intros Hi Hd Hf Hu%unique_onb_true. apply unique_onb_complete.
  intros j k s t x Hj Hk Hs Ht. rewrite Hd in Hj, Hk.
  apply lookup_insert_Some in Hj as [[<- <-]|[Hne Hj]], Hk as [[<- <-]|[Hne' Hk]]; eauto.
Qed.

(** A new row whose key no other row has. *)
Lemma unique_onb_insert (f : R → option K) d d' i r :
  rows d' = <[i := r]> (rows d) →
  (∀ j s k, rows d !! j = Some s → f s = Some k → f r = Some k → False) →
  unique_onb f d = true → unique_onb f d' = true.
Proof.
  intros Hd Hf Hu%unique_onb_true. apply unique_onb_complete.
  intros j k s t x Hj Hk Hs Ht. rewrite Hd in Hj, Hk.
  apply lookup_insert_Some in Hj as [[<- <-]|[Hne Hj]], Hk as [[<- <-]|[Hne' Hk]];
    solve [done | by exfalso; eauto | eauto].
Qed.

Lemma check_onb_save (p : R → bool) d d' i r' :
  rows d' = <[i := r']> (rows d) → p r' = true → check_onb p d = true → check_onb p d' = true.
Proof.
  intros Hd Hp Hc. rewrite check_onb_true in *. intros j s Hj. rewrite Hd in Hj.
  apply lookup_insert_Some in Hj as [[<- <-]|[? ?]]; eauto.
Qed.
End shrink.

Lemma integrity_forall d : integrity d = true ↔ Forall (λ c, c d = true) schema.
Proof. unfold integrity. by rewrite forallb_forall, List.Forall_forall. Qed.

Lemma unique_onb_rows {R K} `{Table R, EqDecision K} (f : R → option K) d d' :
  rows d' = rows d → unique_onb f d = true → unique_onb f d' = true.
Proof. unfold unique_onb. by intros ->. Qed.

Lemma check_onb_rows {R} `{Table R} (p : R → bool) d d' :
  rows d' = rows d → check_onb p d = true → check_onb p d' = true.
Proof. unfold check_onb. by intros ->. Qed.

(** The constraints on the other tables are the same propositions. *)
Ltac integrity_rest :=
  rewrite !integrity_forall; unfold schema; intros;
  repeat match goal with H : Forall _ (_ :: _) |- _ => apply Forall_cons in H as [? H] end;
  repeat first [apply Forall_nil_2 | apply Forall_cons_2]; cbv beta in *;
  try match goal with
  | H : unique_onb ?f _ = true |- unique_onb ?f _ = true =>
    refine (unique_onb_rows f _ _ _ H); reflexivity
  | H : check_onb ?f _ = true |- check_onb ?f _ = true =>
    refine (check_onb_rows f _ _ _ H); reflexivity
  | H : fk_requests_product _ = true |- fk_requests_product _ = true => exact H
  | H : fk_requests_template _ = true |- fk_requests_template _ = true => exact H
  end.

Lemma integrity_save_operation d o o' :
  db_operations d !! op_id o' = Some o →
  op_requested_by_id o' = op_requested_by_id o →
  op_idempotency_key_hash o' = op_idempotency_key_hash o →
  op_workload_id o' = op_workload_id o →
  (op_active o' = true → op_active o = true) →
  integrity d = true → integrity (set_rows <[op_id o' := o']> d) = true.
Proof.
  intros Ho Hu Hk Hw Ha. integrity_rest.
  - eapply (unique_onb_save uq_operations_idempotency d _ (op_id o') o o'); try done.
    unfold uq_operations_idempotency. by rewrite Hu, Hk.
  - eapply (unique_onb_save uq_operations_active_workload d _ (op_id o') o o'); try done.
    unfold uq_operations_active_workload, only. rewrite Hw.
    destruct (op_active o'); [by rewrite Ha|done].
Qed.

Lemma integrity_save_workload d w w' :
  db_workloads d !! wl_id w' = Some w →
  wl_cluster_id w' = wl_cluster_id w → wl_vmid w' = wl_vmid w → wl_kind w' = wl_kind w →
  integrity d = true → integrity (set_rows <[wl_id w' := w']> d) = true.
Proof.
  intros Hw Hc Hv Hk. integrity_rest.
  - eapply (unique_onb_save uq_workloads_vmid d _ (wl_id w') w w'); try done.
    unfold uq_workloads_vmid. by rewrite Hc, Hv.
  - eapply (check_onb_save ck_workloads_kind d _ (wl_id w') w'); try done.
    match goal with Hck : check_onb ck_workloads_kind d = true |- _ =>
      pose proof (proj1 (check_onb_true _ _) Hck _ _ Hw) as Hold end.
    unfold ck_workloads_kind in *. by rewrite Hk.
Qed.

Lemma integrity_save_task d t t' :
  db_pve_tasks d !! pt_id t' = Some t →
  pt_cluster_id t' = pt_cluster_id t → pt_upid t' = pt_upid t →
  pt_operation_id t' = pt_operation_id t → pt_step_name t' = pt_step_name t →
  integrity d = true → integrity (set_rows <[pt_id t' := t']> d) = true.
Proof.
  intros Ht Hc Hu Ho Hs. integrity_rest.
  - eapply (unique_onb_save uq_pve_tasks_upid d _ (pt_id t') t t'); try done.
    unfold uq_pve_tasks_upid. by rewrite Hc, Hu.
  - eapply (unique_onb_save uq_pve_tasks_step d _ (pt_id t') t t'); try done.
    unfold uq_pve_tasks_step. by rewrite Ho, Hs, Hu.
Qed.

(** The log has no constraint. *)
Lemma integrity_log d log : integrity (d <| db_audit_logs := log |>) = integrity d.
Proof. by destruct d. Qed.

(** A change of rows that keeps their index keys. *)
Lemma unique_onb_fmap {R K} `{Table R, EqDecision K} (f : R → option K) (g : R → R) d d' :
  rows d' = g <$> rows d → (∀ r, f (g r) = f r) → unique_onb f d = true → unique_onb f d' = true.
Proof.
  intros Hd Hf Hu%unique_onb_true. apply unique_onb_complete.
  intros i j r s x Hi Hj Hr Hs. rewrite Hd, lookup_fmap in Hi, Hj.
  apply fmap_Some in Hi as (r0 & Hi & ->), Hj as (s0 & Hj & ->). rewrite Hf in Hr, Hs. eauto.
Qed.

Lemma check_onb_fmap {R} `{Table R} (p : R → bool) (g : R → R) d d' :
  rows d' = g <$> rows d → (∀ r, p (g r) = p r) → check_onb p d = true → check_onb p d' = true.
Proof.
  intros Hd Hp. rewrite !check_onb_true. intros Hc i r Hi. rewrite Hd, lookup_fmap in Hi.
  apply fmap_Some in Hi as (r0 & Hi & ->). rewrite Hp. eauto.
Qed.

(** A commit of tables that satisfy the schema. *)
Lemma wp_commit_sound {E} Q (w : world E) :
  w_dup w = false → integrity (w_tx w) = true →
  Q (Ok tt) (World (w_tx w) (w_tx w) false (w_env w)) → wp commit Q w.
Proof.
  intros Hd Hi HQ. apply wp_commit; [|done]. rewrite Hd, Hi. done.
Qed.
