(* ===== verification/AuditLog.v ===== *)
(** * Authorization and the audit trail

    app/security/access.py and app/services/audit.py: the caller's identity, the
    role check every service starts with, and the audit events that every state
    change appends, with secret-bearing fields masked; what is masked. *)
From S2P Require Import Prelude Models Database.

(** ** app/security/access.py *)

Record Principal := mkPrincipal {
  p_user_id : N; p_email : string; p_role : UserRole; p_session_epoch : Z }.

Definition FORBIDDEN : exn :=
  app_error 403 "FORBIDDEN" "You do not have permission to perform this action.".

Definition require_service_role {S} (principal : Principal) (roles : list UserRole) : M S () :=
  raise_if (bool_decide (p_role principal ∉ roles)) FORBIDDEN.

(** ** app/services/audit.py *)

Definition SENSITIVE_PARTS : list string :=
  ["password"; "secret"; "token"; "authorization"; "cookie"; "private_key"; "ca_bundle"].
Definition MASK : json := JStr "[REDACTED]".

Definition dash_to_underscore (a : Ascii.ascii) : Ascii.ascii :=
  if decide (Ascii.nat_of_ascii a = 45%nat) then Ascii.ascii_of_nat 95 else a.

(** [any(part in normalized_key for part in _SENSITIVE_PARTS)]. *)
Definition sensitive_key (key : string) : bool :=
  let normalized_key := str_map dash_to_underscore (str_lower key) in
  existsb (λ part, str_contains part normalized_key) SENSITIVE_PARTS.

(** Mask every value under a sensitive key, at any depth.  List items are
    visited with the empty key. *)
Fixpoint sanitize_audit_value (value : json) (key : string) : json :=
  if sensitive_key key then MASK else
  match value with
  | JObj fields => JObj (map (λ kv, (kv.1, sanitize_audit_value kv.2 kv.1)) fields)
  | JList items => JList (map (λ item, sanitize_audit_value item "") items)
  | _ => value
  end.

Definition sanitize_object (o : option (list (string * json)))
  : option (list (string * json)) :=
  match o with
  | None => None
  | Some fields =>
    match sanitize_audit_value (JObj fields) "" with
    | JObj fields' => Some fields'
    | _ => None
    end
  end.

(** The keyword arguments of [add_audit_event]. *)
Record audit_args := AuditArgs {
  a_action : string; a_outcome : string; a_request_id : option string;
  a_actor_user_id : option N; a_actor_role : option UserRole;
  a_organization_id : option N; a_workload_id : option N; a_operation_id : option N;
  a_source_ip : option string; a_user_agent : option string; a_pve_upid : option string;
  a_target_type : option string; a_target_id : option json;
  a_details : option (list (string * json)); a_before : option (list (string * json));
  a_after : option (list (string * json)); a_error_code : option string }.

#[export] Instance eta_audit_args : Eta audit_args := λ r,
  AuditArgs (a_action r) (a_outcome r) (a_request_id r) (a_actor_user_id r)
    (a_actor_role r) (a_organization_id r) (a_workload_id r) (a_operation_id r)
    (a_source_ip r) (a_user_agent r) (a_pve_upid r) (a_target_type r) (a_target_id r)
    (a_details r) (a_before r) (a_after r) (a_error_code r).

(** The call with only its required arguments. *)
Definition audit_event (action outcome : string) (request_id : option string) : audit_args :=
  AuditArgs action outcome request_id None None None None None None None None None None
    None None None None.

(** The fields every request-scoped service is constructed with. *)
Record service := Service {
  self_principal : Principal; self_request_id : string; self_source_ip : string }.

(** The actor and origin arguments a service passes with its audit events. *)
Definition self_audit (self : service) (action outcome : string) : audit_args :=
  (audit_event action outcome (Some (self_request_id self)))
    <| a_actor_user_id := Some (p_user_id (self_principal self)) |>
    <| a_actor_role := Some (p_role (self_principal self)) |>
    <| a_source_ip := Some (self_source_ip self) |>.

(** Python's [a or b] on optional strings. *)
Definition opt_or (a b : option string) : option string :=
  match a with Some s => if str_nonempty s then a else b | None => b end.

Section audit.
Context {E : Type} `{Runtime E}.

Definition add_audit_event (a : audit_args) : DBM E () :=
  let combined_after :=
    match a_after a with Some x => Some x | None => a_details a end in
  e ← gets w_env;
  modify (λ w, w <| w_tx ::= λ d, d <| db_audit_logs ::= λ l, l ++ [
    {| al_action := a_action a;
       al_outcome := a_outcome a;
       al_actor_user_id := a_actor_user_id a;
       al_actor_role := a_actor_role a;
       al_organization_id := a_organization_id a;
       al_workload_id := a_workload_id a;
       al_operation_id := a_operation_id a;
       al_source_ip := opt_or (a_source_ip a) (env_source_ip e);
       al_user_agent :=
         opt_or (Some (String.substring 0 512
           (str_or (opt_or (a_user_agent a) (env_user_agent e)) ""))) None;
       al_pve_upid := a_pve_upid a;
       al_resource_type := a_target_type a;
       al_resource_id := a_target_id a;
       al_request_id := opt_or (a_request_id a) (env_request_id e);
       al_before := sanitize_object (a_before a);
       al_after := sanitize_object combined_after;
       al_result := a_outcome a;
       al_error_code := a_error_code a |}] |> |>).

(** An audit event changes nothing but the audit log. *)
Lemma wp_add_audit_event a Q (w : world E) :
  (∀ log, Q (Ok tt) (World (w_db w) ((w_tx w) <| db_audit_logs := log |>)
                           (w_dup w) (w_env w))) →
  wp (add_audit_event a) Q w.
Proof. intros HQ. unfold add_audit_event. apply wp_bind, wp_gets, wp_modify. apply HQ. Qed.
End audit.

Ltac wp_hook ::=
  match goal with
  | |- wp (add_audit_event _) _ _ => apply wp_add_audit_event; intros ?
  | |- wp (require_service_role _ _) _ _ => apply wp_raise_if; intros ?
  end.

(** ** The audit trail: properties

    Every audit event is one more row of the log, with the secrets of its payload
    masked at any depth. *)

(** Induction on a JSON value with its nested lists. *)
Section json_ind.
Context (P : json → Prop).
Context (Hnull : P JNull) (Hbool : ∀ b, P (JBool b)) (Hint : ∀ z, P (JInt z)).
Context (Hstr : ∀ s, P (JStr s)) (Huuid : ∀ u, P (JUuid u)).
Context (Hlist : ∀ l, Forall P l → P (JList l)).
Context (Hobj : ∀ fields, Forall (λ kv, P kv.2) fields → P (JObj fields)).

Fixpoint json_nested_ind (j : json) : P j :=
  match j with
  | JNull => Hnull
  | JBool b => Hbool b
  | JInt z => Hint z
  | JStr s => Hstr s
  | JUuid u => Huuid u
  | JList l => Hlist l (list_ind (Forall P) (Forall_nil_2 P)
      (λ x l IH, Forall_cons_2 P x l (json_nested_ind x) IH) l)
  | JObj fields => Hobj fields (list_ind (Forall (λ kv, P kv.2)) (Forall_nil_2 _)
      (λ kv l IH, Forall_cons_2 (λ kv, P kv.2) kv l (json_nested_ind kv.2) IH) fields)
  end.
End json_ind.

(** No value under a sensitive key, at any depth, but the mask. *)
Fixpoint masked (value : json) (key : string) : Prop :=
  if sensitive_key key then value = MASK else
  match value with
  | JObj fields => fold_right (λ kv P, masked kv.2 kv.1 ∧ P) True fields
  | JList items => fold_right (λ item P, masked item "" ∧ P) True items
  | _ => True
  end.

Definition masked_object (o : option (list (string * json))) : Prop :=
  match o with Some fields => masked (JObj fields) "" | None => True end.

Lemma sanitize_masked value key : masked (sanitize_audit_value value key) key.
Proof.
  revert key. induction value as [| | | | |l IH|fields IH] using json_nested_ind; intros key;
    simpl; destruct (sensitive_key key) eqn:Hk; simpl; rewrite ?Hk; try done.
  - induction IH as [|x l Hx Hl IH]; simpl; [done|]. by split.
  - induction IH as [|kv l Hkv Hl IH]; simpl; [done|]. by split.
Qed.

(** What is masked already is left alone. *)
Lemma sanitize_fixpoint value key :
  masked value key → sanitize_audit_value value key = value.
Proof.
  revert key. induction value as [| | | | |l IH|fields IH] using json_nested_ind; intros key;
    simpl; destruct (sensitive_key key) eqn:Hk; simpl; intros Hm; try done.
  - f_equal. induction IH as [|x l Hx Hl IH]; simpl in *; [done|].
    destruct Hm as [Hm1 Hm2]. f_equal; auto.
  - f_equal. induction IH as [|[k v] l Hkv Hl IH]; simpl in *; [done|].
    destruct Hm as [Hm1 Hm2]. f_equal; [f_equal|]; auto.
Qed.

Lemma sanitize_object_masked o : masked_object (sanitize_object o).
Proof.
  destruct o as [fields|]; [|done]. unfold sanitize_object.
  pose proof (sanitize_masked (JObj fields) "") as Hm.
  by destruct (sanitize_audit_value (JObj fields) "").
Qed.

Section properties.
Context {E : Type} `{Runtime E}.

End properties.
