(* ===== verification/Operations.v ===== *)
(** * Operations: the job service

    app/services/operations.py, one definition per method of [OperationService]:
    a power or administrative request is authorized, checked against the
    idempotency key and the running operations of its workload, recorded as a
    QUEUED operation and published to the worker. *)
From stdpp Require Import sorting.
From Stdlib Require Import Lia.
From S2P Require Import Prelude Models Database AuditLog.

(** ** Library functions the service relies on *)

(** [hmac.new(app_secret, key, sha256).digest()], [sha256(text).digest()] of the
    text that the pieces spell, [sha256(json.dumps(fields, sort_keys=True))], and
    [str] of a JSON container. *)
Class Digests := {
  hmac_key : string → N;
  sha256_text : list json → N;
  sha256_json : list (string * json) → N;
  repr_container : json → string }.

(** Celery's [send_task]: what it raises is caught by every caller. *)
Class Publisher (E : Type) := { env_publish : N → N → E → E }.

Definition publish {E} `{Publisher E} (operation_id task_id : N) : DBM E () :=
  from_env (λ e, (tt, env_publish operation_id task_id e)).

(** [str(value)] of a JSON value. *)
Definition py_str `{Digests} (j : json) : string :=
  match j with
  | JStr s => s
  | JNull => "None"
  | JBool true => "True"
  | JBool false => "False"
  | JInt z => pretty z
  | _ => repr_container j
  end.

(** [isinstance(value, int)], where Python counts booleans in. *)
Definition as_int (j : option json) : option Z :=
  match j with
  | Some (JInt z) => Some z
  | Some (JBool b) => Some (Z.b2z b)
  | _ => None
  end.

Fixpoint str_ascii (s : string) : bool :=
  match s with
  | EmptyString => true
  | String a r => (Ascii.nat_of_ascii a <? 128)%nat && str_ascii r
  end.

(** [hmac.compare_digest(a, b)] on strings: [TypeError] outside ASCII. *)
Definition compare_digest {S} (a b : string) : M S bool :=
  raise_if (negb (str_ascii a && str_ascii b)) TypeError;;
  mret (bool_decide (a = b)).

(** ** app/schemas/operation.py *)

Record VmSpecUpdateRequest := mkVmSpecUpdateRequest {
  su_cpu_cores : Z; su_memory_gib : Z; su_disk_gib : option Z; su_version : Z;
  su_reason : option string }.

Record VmDeleteRequest := mkVmDeleteRequest {
  vd_confirmation : string; vd_reason : option string }.

Inductive job_action :=
| JobPower (a : PowerAction)
| JobAdmin (a : AdminVmAction)
| JobBackup.

Record JobResponse := mkJobResponse {
  jr_id : N; jr_workload_id : N; jr_organization_id : option N; jr_action : job_action;
  jr_action_mode : string; jr_status : OperationStatus;
  jr_result : list (string * json); jr_error_code : option string;
  jr_error_summary : option string; jr_retryable : option bool;
  jr_pve_upid : option string; jr_pve_exit_status : option string;
  jr_requested_at : Z; jr_started_at : option Z; jr_finished_at : option Z }.

(** ** Helpers *)

Definition _action_mode (action : PowerAction) : string :=
  match action with SHUTDOWN => "GRACEFUL" | STOP => "FORCED" | _ => "STANDARD" end.

(** [order_by(PveTask.submitted_at.desc())]. *)
Definition newest_first (a b : pve_task) : Prop := pt_submitted_at b ≤ pt_submitted_at a.
#[export] Instance newest_first_dec : RelDecision newest_first.
Proof. intros a b. unfold newest_first. apply _. Defined.

Definition op_of_key (user_id key_hash : N) (o : operation) : bool :=
  bool_decide (op_requested_by_id o = user_id) &&
  bool_decide (op_idempotency_key_hash o = key_hash).

(** An active operation of the workload. *)
Definition op_conflicts (workload_id : N) (o : operation) : bool :=
  bool_decide (op_workload_id o = workload_id) && op_active o.

Lemma op_conflicts_free wid d :
  first_row (op_conflicts wid) d = None →
  ∀ i o, db_operations d !! i = Some o → op_workload_id o = wid → op_active o = false.
Proof.
  intros Hf i o Hi Hw. pose proof (first_row_None _ _ Hf _ _ Hi) as Hc. unfold op_conflicts in Hc.
  rewrite Hw, bool_decide_true in Hc by done. by destruct (op_active o).
Qed.

Definition reason_recorded (reason : option string) : json :=
  JBool (match reason with Some _ => true | None => false end).

Definition VM_NOT_FOUND : exn :=
  app_error 404 "VM_NOT_FOUND" "The workload was not found.".
Definition DUPLICATE_OPERATION : exn :=
  app_error 409 "OPERATION_CONFLICT" "A duplicate or conflicting operation already exists.".

Section operations.
Context {E : Type} `{Runtime E} `{Publisher E} `{Digests}.
Implicit Types (self : service).

Definition response_action (o : operation) : job_action :=
  match PowerAction_of_value (op_action o) with
  | Some a => JobPower a
  | None =>
    match AdminVmAction_of_value (op_action o) with
    | Some a => JobAdmin a
    | None => JobBackup
    end
  end.

Definition default_mode (o : operation) : string :=
  match PowerAction_of_value (op_action o) with
  | Some a => _action_mode a
  | None =>
    if bool_decide (op_action o = AdminVmAction_value DELETE) then "DESTRUCTIVE"
    else match AdminVmAction_of_value (op_action o) with
         | Some _ => "CONFIGURATION"
         | None => "BACKUP"
         end
  end.

Definition _response (o : operation) : DBM E JobResponse :=
  pve_task ← db_scalar_ordered newest_first (λ _ _, false)
    (λ t, bool_decide (pt_operation_id t = op_id o));
  mret {|
    jr_id := op_id o; jr_workload_id := op_workload_id o;
    jr_organization_id := op_organization_id o; jr_action := response_action o;
    jr_action_mode := py_str (default (JStr (default_mode o))
                                (obj_get "action_mode" (op_result o)));
    jr_status := op_status o; jr_result := op_result o;
    jr_error_code := op_error_code o; jr_error_summary := op_error_summary o;
    jr_retryable := op_retryable o;
    jr_pve_upid := pt_upid <$> pve_task;
    jr_pve_exit_status := pve_task ≫= pt_pve_exit_status;
    jr_requested_at := op_requested_at o; jr_started_at := op_started_at o;
    jr_finished_at := op_finished_at o |}.

(** The constructor call of both request methods; [requested_at] is the server
    default [now()]. *)
Definition new_operation self (id task_id : N) (operation_type action : string)
    (wl : workload) (key_hash fingerprint : N) (result : list (string * json))
    (requested_at : Z) : operation := {|
  op_id := id; op_operation_type := operation_type; op_action := action;
  op_status := OS_QUEUED; op_requested_by_id := p_user_id (self_principal self);
  op_source_ip := self_source_ip self; op_organization_id := wl_organization_id wl;
  op_cluster_id := wl_cluster_id wl; op_workload_id := wl_id wl;
  op_idempotency_key_hash := key_hash; op_request_fingerprint := fingerprint;
  op_celery_task_id := task_id; op_result := result; op_error_code := None;
  op_error_summary := None; op_retryable := None; op_attempt_count := 0;
  op_requested_at := requested_at; op_started_at := None; op_finished_at := None;
  op_heartbeat_at := None; op_version := 1 |}.

(** A workload the job service may act on. *)
Definition actionable (workload_id : N) (w : workload) : bool :=
  bool_decide (wl_id w = workload_id) && wl_is_present w && negb (wl_is_template w).

Definition request_power_action self (workload_id : N) (action : PowerAction)
    (idempotency_key : string) (reason : option string) : DBM E (JobResponse * bool) :=
  require_service_role (self_principal self) [SUPER_ADMIN; OPERATOR];;
  row ← db_scalar (λ w, actionable workload_id w &&
                        bool_decide (wl_kind w ∈ ["QEMU"; "LXC"]));
  wl ← or_raise VM_NOT_FOUND row;
  raise_if (bool_decide (wl_kind wl = "LXC") && bool_decide (action = RESET))
    (app_error 409 "POWER_ACTION_UNSUPPORTED" "Reset is not supported for containers.");;
  let key_hash := hmac_key idempotency_key in
  let fingerprint :=
    sha256_text [JUuid workload_id; JStr ":"; JStr (PowerAction_value action)] in
  existing ← db_scalar (op_of_key (p_user_id (self_principal self)) key_hash);
  match existing with
  | Some o =>
    raise_if (bool_decide (op_request_fingerprint o ≠ fingerprint))
      (app_error 409 "IDEMPOTENCY_KEY_REUSED"
         "The idempotency key was already used for another request.");;
    response ← _response o;
    mret (response, false)
  | None =>
    conflict ← db_scalar (op_conflicts workload_id);
    match conflict with
    | Some o =>
      raise (AppError 409 "OPERATION_CONFLICT"
               "Another power operation is already running for this workload."
               [("job_id", JUuid (op_id o))])
    | None =>
      operation_id ← uuid4;
      celery_task_id ← uuid4;
      requested_at ← datetime_now;
      let o := new_operation self operation_id celery_task_id
        ("POWER_" +:+ str_upper (PowerAction_value action)) (PowerAction_value action)
        wl key_hash fingerprint
        [("action_mode", JStr (_action_mode action));
         ("reason_recorded", reason_recorded reason);
         ("workload_kind", JStr (wl_kind wl))] requested_at in
      db_add o;;
      or_conflict flush DUPLICATE_OPERATION;;
      add_audit_event ((self_audit self
          ("VM_POWER_" +:+ str_upper (PowerAction_value action)) "ATTEMPTED")
        <| a_organization_id := wl_organization_id wl |>
        <| a_workload_id := Some (wl_id wl) |>
        <| a_operation_id := Some operation_id |>
        <| a_target_type := Some "workload" |>
        <| a_target_id := Some (JUuid (wl_id wl)) |>
        <| a_details := Some [("action_mode", JStr (_action_mode action));
                              ("workload_kind", JStr (wl_kind wl))] |>);;
      or_conflict commit DUPLICATE_OPERATION;;
      publish operation_id celery_task_id;;
      response ← _response o;
      mret (response, true)
    end
  end.

(** The checks on the payload and the [requested] object they build. *)
Definition requested_change (wl : workload) (payload : VmSpecUpdateRequest + VmDeleteRequest)
  : DBM E (list (string * json)) :=
  match payload with
  | inr p =>
    let expected := str_or (wl_name wl) (pretty (wl_vmid wl)) in
    same ← compare_digest (vd_confirmation p) expected;
    raise_if (negb same)
      (app_error 422 "VM_DELETE_CONFIRMATION_MISMATCH" "VM confirmation failed.");;
    raise_if (bool_decide (is_Some (wl_organization_id wl)))
      (app_error 409 "VM_ASSIGNED" "Unassign the VM before deleting it.");;
    raise_if (bool_decide (str_upper (wl_power_state wl) ≠ "STOPPED"))
      (app_error 409 "VM_NOT_STOPPED" "Stop the VM before deleting it.");;
    mret [("reason_recorded", reason_recorded (vd_reason p))]
  | inl p =>
    raise_if (bool_decide (su_version p ≠ wl_version wl))
      (app_error 409 "WORKLOAD_VERSION_CONFLICT" "The VM inventory changed.");;
    let requested_disk :=
      match su_disk_gib p with
      | Some g => if g =? 0 then None else Some (g * 1024 ^ 3)
      | None => None
      end in
    raise_if (match requested_disk, wl_disk_bytes wl with
              | Some r, Some b => r <? b
              | _, _ => false
              end)
      (app_error 422 "DISK_SHRINK_FORBIDDEN" "VM disks cannot be shrunk.");;
    mret [("cpu_cores", JInt (su_cpu_cores p));
          ("memory_bytes", JInt (su_memory_gib p * 1024 ^ 3));
          ("disk_bytes", json_of_opt JInt requested_disk);
          ("reason_recorded", reason_recorded (su_reason p))]
  end.

Definition admin_operation_type (action : AdminVmAction) : string :=
  match action with UPDATE_SPEC => "VM_SPEC_UPDATE" | DELETE => "VM_DELETE" end.

Definition request_admin_action self (vm_id : N) (action : AdminVmAction)
    (idempotency_key : string) (payload : VmSpecUpdateRequest + VmDeleteRequest)
  : DBM E (JobResponse * bool) :=
  require_service_role (self_principal self) [SUPER_ADMIN];;
  row ← db_scalar (actionable vm_id);
  wl ← or_raise (app_error 404 "VM_NOT_FOUND" "The virtual machine was not found.") row;
  requested ← requested_change wl payload;
  let key_hash := hmac_key idempotency_key in
  let fingerprint := sha256_json
    (obj_merge [("vm_id", JUuid vm_id); ("action", JStr (AdminVmAction_value action))]
       requested) in
  existing ← db_scalar (op_of_key (p_user_id (self_principal self)) key_hash);
  match existing with
  | Some o =>
    raise_if (bool_decide (op_request_fingerprint o ≠ fingerprint))
      (app_error 409 "IDEMPOTENCY_KEY_REUSED" "The idempotency key was reused.");;
    response ← _response o;
    mret (response, false)
  | None =>
    conflict ← db_scalar (op_conflicts (wl_id wl));
    raise_if (bool_decide (is_Some conflict))
      (app_error 409 "OPERATION_CONFLICT" "Another VM operation is running.");;
    operation_id ← uuid4;
    celery_task_id ← uuid4;
    requested_at ← datetime_now;
    let o := new_operation self operation_id celery_task_id (admin_operation_type action)
      (AdminVmAction_value action) wl key_hash fingerprint requested requested_at in
    db_add o;;
    or_conflict flush DUPLICATE_OPERATION;;
    add_audit_event ((self_audit self (op_operation_type o) "ATTEMPTED")
      <| a_organization_id := wl_organization_id wl |>
      <| a_workload_id := Some (wl_id wl) |>
      <| a_operation_id := Some operation_id |>
      <| a_target_type := Some "vm" |>
      <| a_target_id := Some (JUuid (wl_id wl)) |>
      <| a_after := Some requested |>);;
    or_conflict commit
      (app_error 409 "OPERATION_CONFLICT" "A conflicting operation exists.");;
    publish operation_id celery_task_id;;
    response ← _response o;
    mret (response, true)
  end.

Definition get_job self (job_id : N) : DBM E JobResponse :=
  require_service_role (self_principal self) [SUPER_ADMIN; OPERATOR];;
  row ← db_get operation job_id;
  o ← or_raise (app_error 404 "JOB_NOT_FOUND" "The job was not found.") row;
  _response o.

(** *** The calls of the service *)

Inductive operation_call :=
| CallPower (workload_id : N) (action : PowerAction) (idempotency_key : string)
    (reason : option string)
| CallAdmin (vm_id : N) (action : AdminVmAction) (idempotency_key : string)
    (payload : VmSpecUpdateRequest + VmDeleteRequest).

Definition operation_run self (c : operation_call) : DBM E (JobResponse * bool) :=
  match c with
  | CallPower id a k r => request_power_action self id a k r
  | CallAdmin id a k p => request_admin_action self id a k p
  end.
End operations.
