(* ===== verification/PveApi.v ===== *)
(** * The Proxmox VE interface

    The [PowerApi] protocol of app/services/power_runner.py as a type class: what
    the runner may ask of a cluster.  A call answers a value or an [AppError]
    (app/proxmox/client.py turns every transport, status and format problem into
    one).  [traced] is any such environment with a record of the calls. *)
From S2P Require Import Prelude Models Database.

(** An [AppError], as a value. *)
Record pve_error := PveError {
  pe_status : Z; pe_code : string; pe_message : string;
  pe_details : list (string * json) }.

Definition exn_of (e : pve_error) : exn :=
  AppError (pe_status e) (pe_code e) (pe_message e) (pe_details e).

(** [try: m except AppError as exc: h exc]. *)
Definition catch_app {S A} (m : M S A) (h : pve_error → M S A) : M S A :=
  try_except m (λ x,
    match x with
    | AppError st code message details => h (PveError st code message details)
    | _ => raise x
    end).

Abbreviation json_object := (list (string * json)).

(** A call to a cluster, named by its id: [submit kind node vmid action],
    [task_status node upid], ... *)
Class PowerApi (E : Type) := {
  (** [CredentialCipher.decrypt]: [None] for [InvalidTag] or [UnicodeDecodeError] *)
  api_decrypt : cluster → cluster_credential → option string;
  (** [ProxmoxClient(...)]: the constructor's [AppError], if any *)
  api_connect : cluster → cluster_credential → string → option pve_error;
  api_submit_guest_power_action : N → string → string → Z → string → E → (pve_error + string) * E;
  api_get_task_status : N → string → string → E → (pve_error + json_object) * E;
  api_get_guest_status : N → string → string → Z → E → (pve_error + json_object) * E;
  api_get_guest_config : N → string → string → Z → E → (pve_error + json_object) * E;
  api_configure_guest : N → string → string → Z → Z → Z → E → (pve_error + ()) * E;
  api_resize_guest_disk : N → string → string → Z → string → Z → E → (pve_error + ()) * E;
  api_delete_guest : N → string → string → Z → E → (pve_error + string) * E;
  (** [asyncio.sleep] of that many milliseconds *)
  api_sleep : Z → E → E }.

Definition sleep {E} `{PowerApi E} (ms : Z) : DBM E () := from_env (λ e, (tt, api_sleep ms e)).

(** The client [_open_client] yields: a connected one or [UnavailablePowerApi]. *)
Inductive client :=
| Connected (cluster_id : N)
| UnavailablePowerApi (error : pve_error).

Section call.
Context {E A : Type}.

(** A method of the client, its [AppError] as a value. *)
Definition call (c : client) (f : N → E → (pve_error + A) * E) : DBM E (pve_error + A) :=
  match c with
  | Connected cluster_id => from_env (f cluster_id)
  | UnavailablePowerApi error => mret (inl error)
  end.

(** The same, raising. *)
Definition call_or_raise (c : client) (f : N → E → (pve_error + A) * E) : DBM E A :=
  r ← call c f;
  match r with
  | inl error => raise (exn_of error)
  | inr a => mret a
  end.
End call.

(** ** Recording environments *)

(** What reached a cluster, and what it answered to a submission. *)
Inductive event :=
| Submitted (cluster_id : N) (vmid : Z) (action : string) (answer : pve_error + string)
| Deleted (cluster_id : N) (vmid : Z) (answer : pve_error + string)
| Configured (cluster_id : N) (vmid cores memory_mib : Z)
| Resized (cluster_id : N) (vmid : Z) (disk : string) (size : Z)
| Cloned (cluster_id : N) (vmid : Z) (answer : pve_error + string)
| SetValues (cluster_id : N) (vmid : Z) (values : list (string * string))
| Asked (cluster_id : N).

Record traced (E : Type) := Traced { tr_env : E; tr_events : list event }.
Arguments Traced {E} _ _.
Arguments tr_env {E} _.
Arguments tr_events {E} _.

Definition quiet {E A} (f : E → A * E) (t : traced E) : A * traced E :=
  ((f (tr_env t)).1, Traced (f (tr_env t)).2 (tr_events t)).

(** Run [f] and append the event of its answer. *)
Definition recorded {E A} (ev : A → event) (f : E → A * E) (t : traced E) : A * traced E :=
  let r := f (tr_env t) in (r.1, Traced r.2 (tr_events t ++ [ev r.1])).

#[export] Instance traced_runtime {E} `{Runtime E} : Runtime (traced E) :=
  {| env_now := quiet env_now;
     env_uuid4 := quiet env_uuid4;
     env_randrange n := quiet (env_randrange n);
     env_token := quiet env_token;
     env_locked t := env_locked (tr_env t);
     env_request_id t := env_request_id (tr_env t);
     env_source_ip t := env_source_ip (tr_env t);
     env_user_agent t := env_user_agent (tr_env t) |}.

#[export] Instance traced_api {E} `{PowerApi E} : PowerApi (traced E) :=
  {| api_decrypt := api_decrypt;
     api_connect := api_connect;
     api_submit_guest_power_action c kind node vmid action :=
       recorded (Submitted c vmid action) (api_submit_guest_power_action c kind node vmid action);
     api_get_task_status c node upid := recorded (λ _, Asked c) (api_get_task_status c node upid);
     api_get_guest_status c kind node vmid :=
       recorded (λ _, Asked c) (api_get_guest_status c kind node vmid);
     api_get_guest_config c kind node vmid :=
       recorded (λ _, Asked c) (api_get_guest_config c kind node vmid);
     api_configure_guest c kind node vmid cores memory :=
       recorded (λ _, Configured c vmid cores memory)
         (api_configure_guest c kind node vmid cores memory);
     api_resize_guest_disk c kind node vmid disk size :=
       recorded (λ _, Resized c vmid disk size) (api_resize_guest_disk c kind node vmid disk size);
     api_delete_guest c kind node vmid :=
       recorded (Deleted c vmid) (api_delete_guest c kind node vmid);
     api_sleep ms t := Traced (api_sleep ms (tr_env t)) (tr_events t) |}.

(** ** Proof rules *)

Section call_wp.
Context {E A : Type}.

Lemma wp_call (c : client) (f : N → E → (pve_error + A) * E) Q w :
  (∀ error, c = UnavailablePowerApi error → Q (Ok (inl error)) w) →
  (∀ i r e', c = Connected i → f i (w_env w) = (r, e') →
     Q (Ok r) (World (w_db w) (w_tx w) (w_dup w) e')) →
  wp (call c f) Q w.
Proof.
  intros Hun Hc. destruct c as [i|error]; [|by apply Hun].
  apply wp_from_env. intros r e' Hf. by eapply Hc.
Qed.

Lemma wp_catch_app {S} (m : M S A) h (Q : outcome A → S → Prop) s :
  wp m (λ r s', match r with
                | Raise (AppError st code message details) =>
                  wp (h (PveError st code message details)) Q s'
                | _ => Q r s'
                end) s →
  wp (catch_app m h) Q s.
Proof. intros Hm. apply wp_try. eapply wp_mono; [exact Hm|]. by intros [a|[]] s'. Qed.
End call_wp.
