(* ===== verification/Keeps.v ===== *)
(** * Invariants of a session

    [keeps J m]: whatever [m] does, returning or raising, it leads from states of [J]
    to states of [J].  The rules follow the shape of a computation, so that one
    pass over a handler's text checks it against an invariant. *)
From S2P Require Import Prelude Models Database AuditLog PveApi.

Definition keeps {E A} (J : world E → Prop) (m : DBM E A) : Prop :=
  ∀ w, J w → wp m (λ _, J) w.

(** An invariant of the committed tables and of the working copy. *)
Definition both {E} (I : db → E → Prop) (w : world E) : Prop :=
  I (w_db w) (w_env w) ∧ I (w_tx w) (w_env w).

Create HintDb inv.

Section structure.
Context {E : Type} (J : world E → Prop).

Lemma inv_ret {A} (a : A) : keeps J (mret a).
Proof. by intros w. Qed.

Lemma inv_raise {A} x : keeps J (raise (A := A) x).
Proof. by intros w. Qed.

Lemma inv_bind {A B} (m : DBM E A) (f : A → DBM E B) :
  keeps J m → (∀ a, keeps J (f a)) → keeps J (m ≫= f).
Proof.
  intros Hm Hf w Hw. apply wp_bind. eapply wp_mono; [by apply Hm|].
  intros [a|x] w' HJ; [by apply Hf|done].
Qed.

Lemma inv_try {A} (m : DBM E A) h :
  keeps J m → (∀ x, keeps J (h x)) → keeps J (try_except m h).
Proof.
  intros Hm Hh w Hw. apply wp_try. eapply wp_mono; [by apply Hm|].
  intros [a|x] w' HJ; [done|by apply Hh].
Qed.

Lemma inv_gets {A} (f : world E → A) : keeps J (gets f).
Proof. by intros w. Qed.

Lemma inv_raise_if b x : keeps J (raise_if b x).
Proof. by destruct b; intros w. Qed.

Lemma inv_when b m : (b = true → keeps J m) → keeps J (when b m).
Proof. intros Hm. destruct b; [by apply Hm|apply inv_ret]. Qed.

Lemma inv_or_raise {A} x (o : option A) : keeps J (or_raise x o).
Proof. by destruct o; intros w. Qed.

Lemma inv_assert_some {A} (o : option A) : keeps J (assert_some o).
Proof. by destruct o; intros w. Qed.

Lemma inv_flush : keeps J flush.
Proof. intros w Hw. by apply wp_flush. Qed.

Lemma inv_for_each {A} (l : list A) f :
  (∀ x, keeps J (f x)) → keeps J (for_each l f).
Proof.
  intros Hf. induction l as [|x l IH]; simpl; [apply inv_ret|].
  apply inv_bind; [done|]. by intros _.
Qed.
End structure.

Section tables.
Context {E : Type} (I : db → E → Prop).

Lemma inv_commit : keeps (both I) commit.
Proof. intros w [Hd Ht]. by apply wp_commit. Qed.

Lemma inv_rollback : keeps (both I) rollback.
Proof. intros w [Hd Ht]. by apply wp_rollback. Qed.

Lemma inv_or_conflict m x : keeps (both I) m → keeps (both I) (or_conflict m x).
Proof.
  intros Hm. apply inv_try; [done|]. intros []; try apply inv_raise.
  apply inv_bind; [apply inv_rollback|]. intros _. apply inv_raise.
Qed.

(** A write to the working copy. *)
Lemma inv_modify (f : db → db) (m : DBM E ()) :
  (∀ w, m w = (Ok tt, World (w_db w) (f (w_tx w)) (w_dup (m w).2) (w_env w))) →
  (∀ d e, I d e → I (f d) e) → keeps (both I) m.
Proof. intros Hm Hf w [Hd Ht]. unfold wp. rewrite Hm. split; [done|by apply Hf]. Qed.

Lemma inv_db_save {R} `{Table R} (r : R) :
  (∀ d e, I d e → I (set_rows <[key r := r]> d) e) → keeps (both I) (db_save r).
Proof.
  intros Hr. apply (inv_modify (set_rows <[key r := r]>)); [|exact Hr]. intros w. reflexivity.
Qed.

Lemma inv_db_add {R} `{Table R} (r : R) :
  (∀ d e, I d e → I (set_rows <[key r := r]> d) e) → keeps (both I) (db_add r).
Proof.
  intros Hr. apply (inv_modify (set_rows <[key r := r]>)); [|exact Hr]. intros w. reflexivity.
Qed.

Lemma inv_audit `{Runtime E} a :
  (∀ d log e, I d e → I (d <| db_audit_logs := log |>) e) → keeps (both I) (add_audit_event a).
Proof.
  intros Hl w [Hd Ht]. apply wp_add_audit_event. intros log. split; [done|by apply Hl].
Qed.

(** A step of the environment. *)
Lemma inv_from_env {A} (f : E → A * E) :
  (∀ d e, I d e → I d (f e).2) → keeps (both I) (from_env f).
Proof.
  intros Hf w [Hd Ht]. apply wp_from_env. intros a e' He.
  pose proof (Hf _ _ Hd). pose proof (Hf _ _ Ht). rewrite He in *. by split.
Qed.

Lemma inv_call {A} c (f : N → E → (pve_error + A) * E) :
  (∀ i d e, I d e → I d (f i e).2) → keeps (both I) (call c f).
Proof. intros Hf. destruct c; [apply inv_from_env, Hf|by intros w]. Qed.

Lemma inv_call_or_raise {A} c (f : N → E → (pve_error + A) * E) :
  (∀ i d e, I d e → I d (f i e).2) → keeps (both I) (call_or_raise c f).
Proof.
  intros Hf. apply inv_bind; [by apply inv_call|].
  intros [error|a]; [apply inv_raise|apply inv_ret].
Qed.
End tables.

(** What is committed satisfies the constraints: commits check them. *)
Section committed.
Context {E : Type}.

Definition committed (w : world E) : Prop := integrity (w_db w) = true.

Lemma committed_commit : keeps committed commit.
Proof. intros w Hw. apply wp_commit; [done|]. by intros _ Hi. Qed.

Lemma committed_rollback : keeps committed rollback.
Proof. by intros w Hw. Qed.

Lemma committed_or_conflict m x : keeps committed m → keeps committed (or_conflict m x).
Proof.
  intros Hm. apply inv_try; [done|]. intros []; try apply inv_raise.
  apply inv_bind; [apply committed_rollback|]. intros _. apply inv_raise.
Qed.

Lemma committed_modify (m : DBM E ()) :
  (∀ w, w_db (m w).2 = w_db w) → keeps committed m.
Proof. intros Hm w Hw. unfold wp, committed. by rewrite Hm. Qed.

Lemma committed_from_env {A} (f : E → A * E) : keeps committed (from_env f).
Proof. intros w Hw. by apply wp_from_env. Qed.

Lemma committed_call {A} c (f : N → E → (pve_error + A) * E) : keeps committed (call_or_raise c f).
Proof.
  apply inv_bind; [destruct c; [apply committed_from_env|apply inv_ret]|].
  intros [error|a]; [apply inv_raise|apply inv_ret].
Qed.
End committed.

(** One rule by the shape of the computation. *)
Ltac inv_hook := fail.

Ltac inv_step :=
  match goal with
  | |- ∀ _, _ => intros ?
  | |- keeps _ (mbind _ _) => apply inv_bind
  | |- keeps _ (mret _) => apply inv_ret
  | |- keeps _ (raise _) => apply inv_raise
  | |- keeps _ (gets _) => apply inv_gets
  | |- keeps _ (db_get _ _) => apply inv_gets
  | |- keeps _ (db_scalar _) => apply inv_gets
  | |- keeps _ (db_select _) => apply inv_gets
  | |- keeps _ (db_count _) => apply inv_gets
  | |- keeps _ (db_scalar_ordered _ _ _) => apply inv_gets
  | |- keeps _ (raise_if _ _) => apply inv_raise_if
  | |- keeps _ (require_service_role _ _) => apply inv_raise_if
  | |- keeps _ (when _ _) => apply inv_when
  | |- keeps _ (or_raise _ _) => apply inv_or_raise
  | |- keeps _ (assert_some _) => apply inv_assert_some
  | |- keeps _ (try_except _ _) => apply inv_try
  | |- keeps _ flush => apply inv_flush
  | |- keeps _ commit => apply inv_commit
  | |- keeps _ rollback => apply inv_rollback
  | |- keeps _ (or_conflict _ _) => apply inv_or_conflict
  | |- keeps _ (for_each _ _) => apply inv_for_each
  | |- keeps _ (if ?b then _ else _) => destruct b eqn:?
  | |- keeps _ (match ?x with _ => _ end) => destruct x eqn:?
  | |- keeps _ _ => inv_hook
  end; cbv beta iota.

Ltac inv_run := repeat inv_step.
