(* ===== verification/PowerRunner.v ===== *)
(** * The power operation runner

    app/services/power_runner.py: [PowerOperationRunner.run] as the worker executes
    it for a QUEUED or redelivered operation.  The row objects the source mutates
    are passed along and saved where it commits; polling loops carry fuel that the
    bound on attempts provides. *)
From Stdlib Require Import Lia.
From S2P Require Import Prelude Models Database AuditLog Operations PveApi.

(** ** app/core/config.py: the settings the runner reads *)

Record Settings := mkSettings {
  operation_lease_seconds : Z; pve_action_max_attempts : Z;
  pve_task_timeout_seconds : Z; pve_task_max_poll_attempts : Z;
  pve_task_poll_interval_ms : Z }.

Definition RETRYABLE_ERROR_CODES : list string :=
  ["CLUSTER_UNREACHABLE"; "PVE_UPSTREAM_ERROR"; "PVE_TIMEOUT"].

Definition retryable_code (code : string) : bool :=
  bool_decide (code ∈ RETRYABLE_ERROR_CODES).

Definition op_terminal (o : operation) : bool :=
  bool_decide (op_status o ∈ TERMINAL_OPERATION_STATUSES).

Definition is_admin_action (o : operation) : bool :=
  bool_decide (is_Some (AdminVmAction_of_value (op_action o))).

Definition _safe_error_summary (error_code : option string) : option string :=
  match error_code with
  | Some c => if str_nonempty c then Some ("Workload operation failed (" +:+ c +:+ ").") else None
  | None => None
  end.

(** [value == s] for a JSON value. *)
Definition json_is (j : option json) (s : string) : bool :=
  match j with Some (JStr x) => bool_decide (x = s) | _ => false end.

Section runner.
Context {E : Type} `{Runtime E} `{PowerApi E} `{Digests}.
Context (settings : Settings).

Definition default_str (fields : json_object) (key d : string) : string :=
  py_str (default (JStr d) (obj_get key fields)).

Definition _finish (o : operation) (actor : option user) (status : OperationStatus)
    (retryable : bool) (error_code : option string) (task : option pve_task) : DBM E () :=
  now ← datetime_now;
  db_save (o <| op_status := status |>
             <| op_finished_at := Some now |>
             <| op_heartbeat_at := Some now |>
             <| op_error_code := error_code |>
             <| op_error_summary := _safe_error_summary error_code |>
             <| op_retryable := Some retryable |>
             <| op_version := op_version o + 1 |>);;
  add_audit_event ((audit_event (op_operation_type o)
      (if bool_decide (status = OS_SUCCEEDED) then "SUCCEEDED" else "FAILED") None)
    <| a_actor_user_id := Some (match actor with Some a => u_id a | None => op_requested_by_id o end) |>
    <| a_actor_role := u_role <$> actor |>
    <| a_organization_id := op_organization_id o |>
    <| a_workload_id := Some (op_workload_id o) |>
    <| a_operation_id := Some (op_id o) |>
    <| a_source_ip := Some (op_source_ip o) |>
    <| a_pve_upid := pt_upid <$> task |>
    <| a_target_type := Some (if is_admin_action o then "vm" else "workload") |>
    <| a_target_id := Some (JUuid (op_workload_id o)) |>
    <| a_details := Some
         [("action_mode", default (JStr "STANDARD") (obj_get "action_mode" (op_result o)));
          ("workload_kind", default (JStr "") (obj_get "workload_kind" (op_result o)));
          ("status", JStr (OperationStatus_value status));
          ("error_code", JStr (str_or error_code ""))] |>);;
  commit.

Definition _finish_from_error (o : operation) (actor : option user) (error : pve_error)
    (submission : bool) (task : option pve_task) : DBM E () :=
  let is_timeout := bool_decide (pe_code error = "PVE_TIMEOUT") in
  _finish o actor (if is_timeout then OS_TIMEOUT else OS_FAILED)
    (retryable_code (pe_code error) && negb (submission && is_timeout))
    (Some (pe_code error)) task.

(** [_open_client]: the client of the workload's cluster. *)
Definition _open_client (wl : workload) : DBM E client :=
  row ← db_get cluster (wl_cluster_id wl);
  credential ← db_scalar (λ c,
    bool_decide (cc_cluster_id c = wl_cluster_id wl) && cc_is_active c);
  match row, credential with
  | Some cl, Some cred =>
    if negb (cl_is_active cl) then
      mret (UnavailablePowerApi (PveError 409 "CLUSTER_UNAVAILABLE"
                                   "The workload cluster is unavailable." []))
    else
      match api_decrypt cl cred with
      | None =>
        mret (UnavailablePowerApi (PveError 500 "CREDENTIAL_DECRYPTION_FAILED"
          "The stored Proxmox credential could not be decrypted." []))
      | Some token_secret =>
        match api_connect cl cred token_secret with
        | Some error => mret (UnavailablePowerApi error)
        | None => mret (Connected (cl_id cl))
        end
      end
  | _, _ =>
    mret (UnavailablePowerApi (PveError 409 "CLUSTER_UNAVAILABLE"
                                 "The workload cluster is unavailable." []))
  end.

Definition get_guest_status (c : client) (wl : workload) : DBM E (pve_error + json_object) :=
  call c (λ i, api_get_guest_status i (wl_kind wl) (wl_node wl) (wl_vmid wl)).

(** [None] when the operation was finished from the error. *)
Definition _safe_guest_status (o : operation) (actor : option user) (wl : workload)
    (c : client) : DBM E (option json_object) :=
  status ← get_guest_status c wl;
  match status with
  | inr s => mret (Some s)
  | inl error => _finish_from_error o actor error false None;; mret None
  end.

(** The result of an action that has nothing to do; [inl] is the raised error. *)
Definition _no_op_result (action : PowerAction) (status : json_object)
  : pve_error + option json_object :=
  let state := str_lower (default_str status "status" "unknown") in
  match action with
  | START =>
    inr (if bool_decide (state = "running")
         then Some [("no_op", JBool true);
                    ("message", JStr "The workload is already running.");
                    ("final_power_state", JStr "RUNNING")]
         else None)
  | SHUTDOWN | STOP =>
    inr (if bool_decide (state = "stopped")
         then Some [("no_op", JBool true);
                    ("message", JStr "The workload is already stopped.");
                    ("final_power_state", JStr "STOPPED")]
         else None)
  | REBOOT | RESET =>
    if bool_decide (state ≠ "running")
    then inl (PveError 409 "VM_NOT_RUNNING" "The workload is not running." [])
    else inr None
  end.

(** The attempts [attempt, attempt + 1, ...] of [range(1, max_attempts + 1)]. *)
Fixpoint submit_attempts (n : nat) (attempt : Z) (o : operation) (actor : option user)
    (wl : workload) (c : client) : DBM E (option string) :=
  match n with
  | O => mret None
  | S n =>
    answer ← call c (λ i, api_submit_guest_power_action i (wl_kind wl) (wl_node wl)
                            (wl_vmid wl) (op_action o));
    match answer with
    | inr upid => mret (Some upid)
    | inl error =>
      let retryable := retryable_code (pe_code error) in
      let ambiguous_timeout := bool_decide (pe_code error = "PVE_TIMEOUT") in
      if retryable && negb ambiguous_timeout && (attempt <? pve_action_max_attempts settings)
      then sleep (Z.min (1000 * 2 ^ (attempt - 1)) 5000);;
           submit_attempts n (attempt + 1) o actor wl c
      else _finish_from_error o actor error true None;; mret None
    end
  end.

Definition _submit (o : operation) (actor : option user) (wl : workload) (c : client)
  : DBM E (option string) :=
  submit_attempts (Z.to_nat (pve_action_max_attempts settings)) 1 o actor wl c.

Definition expected_state (action : PowerAction) : string :=
  match action with SHUTDOWN | STOP => "STOPPED" | _ => "RUNNING" end.

(** The part of [_poll] after the task was seen stopped with exit status OK. *)
Definition poll_succeeded (o : operation) (action : PowerAction) (actor : option user)
    (wl : workload) (task : pve_task) (c : client) : DBM E () :=
  let task := task <| pt_status := "SUCCEEDED" |> in
  db_save task;;
  final_state ← _safe_guest_status o actor wl c;
  match final_state with
  | None => mret tt
  | Some state =>
    now ← datetime_now;
    let wl := wl <| wl_power_state := str_upper (default_str state "status" "unknown") |>
                 <| wl_observed_at := now |> in
    db_save wl;;
    if bool_decide (wl_power_state wl ≠ expected_state action)
    then _finish o actor OS_FAILED true (Some "PVE_STATE_MISMATCH") (Some task)
    else
      let o := o <| op_result := obj_merge (op_result o)
        [("no_op", JBool false); ("final_power_state", JStr (wl_power_state wl))] |> in
      _finish o actor OS_SUCCEEDED false None (Some task)
  end.

(** One iteration's verdict on the task, after [get_task_status] answered. *)
Definition poll_answer (o : operation) (action : PowerAction) (actor : option user)
    (wl : workload) (task : pve_task) (c : client) (status : json_object) : DBM E () :=
  if negb (json_is (obj_get "status" status) "stopped") then
    let task := task <| pt_status := "FAILED" |>
                     <| pt_error_code := Some "PVE_INVALID_RESPONSE" |> in
    db_save task;;
    _finish o actor OS_FAILED false (Some "PVE_INVALID_RESPONSE") (Some task)
  else
    now ← datetime_now;
    let exit_status := obj_get "exitstatus" status in
    let task := task
      <| pt_pve_exit_status := match exit_status with
                               | None | Some JNull => None
                               | Some j => Some (py_str j)
                               end |>
      <| pt_completed_at := Some now |> in
    if negb (json_is exit_status "OK") then
      let task := task <| pt_status := "FAILED" |> in
      db_save task;;
      _finish o actor OS_FAILED false (Some "PVE_TASK_FAILED") (Some task)
    else poll_succeeded o action actor wl task c.

(** The loop of [_poll].  Each iteration counts an attempt, so the attempts left
    bound the iterations. *)
Fixpoint poll_loop (fuel : nat) (deadline : Z) (o : operation) (action : PowerAction)
    (actor : option user) (wl : workload) (task : pve_task) (c : client) : DBM E () :=
  now ← datetime_now;
  if (now <? deadline) && (pt_poll_attempts task <? pve_task_max_poll_attempts settings) then
    match fuel with
    | O => raise RuntimeError
    | S fuel =>
      polled_at ← datetime_now;
      let task := task <| pt_poll_attempts := pt_poll_attempts task + 1 |>
                       <| pt_last_polled_at := Some polled_at |> in
      let o := o <| op_heartbeat_at := Some polled_at |> in
      db_save task;; db_save o;;
      answer ← call c (λ i, api_get_task_status i (pt_pve_node task) (pt_upid task));
      match answer with
      | inl error =>
        if retryable_code (pe_code error) then
          commit;; sleep (pve_task_poll_interval_ms settings);;
          poll_loop fuel deadline o action actor wl task c
        else
          let task := task <| pt_status := "FAILED" |>
                           <| pt_error_code := Some (pe_code error) |> in
          db_save task;;
          _finish_from_error o actor error false (Some task)
      | inr status =>
        if json_is (obj_get "status" status) "running" then
          commit;; sleep (pve_task_poll_interval_ms settings);;
          poll_loop fuel deadline o action actor wl task c
        else poll_answer o action actor wl task c status
      end
    end
  else
    let task := task <| pt_status := "TIMEOUT" |>
                     <| pt_error_code := Some "PVE_TASK_TIMEOUT" |> in
    db_save task;;
    _finish o actor OS_TIMEOUT true (Some "PVE_TASK_TIMEOUT") (Some task).

Definition poll_fuel (task : pve_task) : nat :=
  Z.to_nat (pve_task_max_poll_attempts settings - pt_poll_attempts task).

Definition _poll (o : operation) (action : PowerAction) (actor : option user)
    (wl : workload) (task : pve_task) (c : client) : DBM E () :=
  now ← datetime_now;
  poll_loop (poll_fuel task) (now + seconds (pve_task_timeout_seconds settings))
    o action actor wl task c.

(** *** Administrative operations *)

Definition is_digit (a : Ascii.ascii) : bool :=
  let n := Ascii.nat_of_ascii a in (48 <=? n)%nat && (n <=? 57)%nat.

Fixpoint all_digits (s : string) : bool :=
  match s with EmptyString => true | String a r => is_digit a && all_digits r end.

Definition drop_prefix (p s : string) : option string :=
  if String.prefix p s
  then Some (String.substring (String.length p) (String.length s - String.length p) s)
  else None.

(** [re.fullmatch(r"(?:scsi|virtio|sata|ide)\d+", key)]. *)
Definition is_disk_key (key : string) : bool :=
  existsb (λ p, match drop_prefix p key with
                | Some rest => str_nonempty rest && all_digits rest
                | None => false
                end) ["scsi"; "virtio"; "sata"; "ide"].

Definition DISK_LAYOUT (message : string) : exn :=
  app_error 409 "VM_DISK_LAYOUT_UNSUPPORTED" message.

Definition _resizable_disk (kind : string) (config : json_object) : DBM E string :=
  if bool_decide (kind = "LXC") then
    raise_if (bool_decide (obj_get "rootfs" config = None))
      (DISK_LAYOUT "The root disk was not found.");;
    mret "rootfs"
  else
    match List.filter (λ kv, is_disk_key kv.1 &&
                        negb (str_contains "media=cdrom" (py_str kv.2)) &&
                        negb (str_contains "cloudinit" (py_str kv.2))) config with
    | [disk] => mret disk.1
    | _ => raise (DISK_LAYOUT "Exactly one VM disk is required.")
    end.

Definition guest_call {A} (c : client) (wl : workload)
    (f : N → string → string → Z → E → (pve_error + A) * E) : DBM E A :=
  call_or_raise c (λ i, f i (wl_kind wl) (wl_node wl) (wl_vmid wl)).

(** The disk part of [_apply_spec], when the requested size is larger. *)
Definition grow_disk (wl : workload) (c : client) (size : Z) : DBM E workload :=
  config ← guest_call c wl api_get_guest_config;
  disk ← _resizable_disk (wl_kind wl) config;
  guest_call c wl (λ i kind node vmid, api_resize_guest_disk i kind node vmid disk size);;
  mret (wl <| wl_disk_bytes := Some size |>).

(** It returns the operation and saves the workload. *)
Definition _apply_spec (o : operation) (wl : workload) (c : client) : DBM E operation :=
  match as_int (obj_get "cpu_cores" (op_result o)),
        as_int (obj_get "memory_bytes" (op_result o)) with
  | Some cores, Some memory_bytes =>
    guest_call c wl (λ i kind node vmid,
      api_configure_guest i kind node vmid cores (memory_bytes / 1024 ^ 2));;
    wl ← match as_int (obj_get "disk_bytes" (op_result o)) with
         | Some size =>
           if default 0 (wl_disk_bytes wl) <? size then grow_disk wl c size else mret wl
         | None => mret wl
         end;
    now ← datetime_now;
    db_save (wl <| wl_cpu_cores := Some cores |>
                <| wl_memory_bytes := Some memory_bytes |>
                <| wl_observed_at := now |>
                <| wl_version := wl_version wl + 1 |>);;
    mret (o <| op_result := obj_merge (op_result o) [("applied", JBool true)] |>)
  | _, _ => raise (app_error 500 "OPERATION_PAYLOAD_INVALID" "The VM operation is invalid.")
  end.

Fixpoint poll_delete_loop (n : nat) (o : operation) (actor : option user) (wl : workload)
    (task : pve_task) (c : client) : DBM E () :=
  match n with
  | O =>
    let task := task <| pt_status := "TIMEOUT" |> in
    db_save task;;
    _finish o actor OS_TIMEOUT true (Some "PVE_TASK_TIMEOUT") (Some task)
  | S n =>
    now ← datetime_now;
    let task := task <| pt_poll_attempts := pt_poll_attempts task + 1 |>
                     <| pt_last_polled_at := Some now |> in
    db_save task;;
    status ← call_or_raise c (λ i, api_get_task_status i (pt_pve_node task) (pt_upid task));
    if json_is (obj_get "status" status) "running" then
      commit;; sleep (pve_task_poll_interval_ms settings);;
      poll_delete_loop n o actor wl task c
    else
      now ← datetime_now;
      let task := task
        <| pt_pve_exit_status := Some (default_str status "exitstatus" "") |>
        <| pt_completed_at := Some now |> in
      if negb (json_is (obj_get "status" status) "stopped") ||
         negb (json_is (obj_get "exitstatus" status) "OK") then
        let task := task <| pt_status := "FAILED" |> in
        db_save task;;
        _finish o actor OS_FAILED false (Some "PVE_TASK_FAILED") (Some task)
      else
        let task := task <| pt_status := "SUCCEEDED" |> in
        now ← datetime_now;
        db_save task;;
        db_save (wl <| wl_is_present := false |>
                    <| wl_observed_at := now |>
                    <| wl_version := wl_version wl + 1 |>);;
        _finish (o <| op_result := obj_merge (op_result o) [("deleted", JBool true)] |>)
          actor OS_SUCCEEDED false None (Some task)
  end.

Definition _poll_delete (o : operation) (actor : option user) (wl : workload)
    (task : pve_task) (c : client) : DBM E () :=
  poll_delete_loop (Z.to_nat (pve_task_max_poll_attempts settings)) o actor wl task c.

Definition new_task (id : N) (o : operation) (wl : workload) (step upid : string)
    (submitted_at : Z) : pve_task := {|
  pt_id := id; pt_operation_id := op_id o; pt_cluster_id := wl_cluster_id wl;
  pt_workload_id := wl_id wl; pt_step_name := step; pt_upid := upid;
  pt_status := "RUNNING"; pt_pve_node := wl_node wl; pt_pve_exit_status := None;
  pt_submitted_at := submitted_at; pt_last_polled_at := None; pt_completed_at := None;
  pt_poll_attempts := 0; pt_error_code := None; pt_error_summary := None |}.

(** Claim the operation: RUNNING, one more attempt. *)
Definition claimed (o : operation) (started_at now : Z) : operation :=
  o <| op_status := OS_RUNNING |>
    <| op_started_at := Some (default started_at (op_started_at o)) |>
    <| op_heartbeat_at := Some now |>
    <| op_attempt_count := op_attempt_count o + 1 |>
    <| op_version := op_version o + 1 |>.

(** The delete branch of [_run_admin_action]. *)
Definition delete_guest (o : operation) (actor : option user) (wl : workload) (c : client)
  : DBM E () :=
  current ← guest_call c wl api_get_guest_status;
  raise_if (bool_decide (str_lower (default_str current "status" "unknown") ≠ "stopped"))
    (app_error 409 "VM_NOT_STOPPED" "Stop the VM before deleting it.");;
  upid ← guest_call c wl api_delete_guest;
  now ← datetime_now;
  id ← uuid4;
  let task := new_task id o wl "delete" upid now in
  db_add task;;
  commit;;
  _poll_delete o actor wl task c.

Definition _run_admin_action (o : operation) : DBM E () :=
  wl ← db_get workload (op_workload_id o);
  actor ← db_get user (op_requested_by_id o);
  match wl with
  | Some wl =>
    if negb (wl_is_present wl) || wl_is_template wl
    then _finish o actor OS_FAILED false (Some "VM_NOT_FOUND") None
    else if negb (match actor with
                  | Some a => u_is_active a && bool_decide (u_role a = SUPER_ADMIN)
                  | None => false
                  end)
    then _finish o actor OS_FAILED false (Some "PERMISSION_REVOKED") None
    else
      started_at ← match op_started_at o with
                   | Some t => mret t | None => datetime_now
                   end;
      now ← datetime_now;
      let o := claimed o started_at now in
      db_save o;;
      commit;;
      c ← _open_client wl;
      catch_app
        (if bool_decide (op_action o = AdminVmAction_value UPDATE_SPEC) then
           o ← _apply_spec o wl c;
           _finish o actor OS_SUCCEEDED false None None
         else delete_guest o actor wl c)
        (λ error, _finish_from_error o actor error false None)
  | None => _finish o actor OS_FAILED false (Some "VM_NOT_FOUND") None
  end.

(** *** Power operations *)

(** The workload can still take the action. *)
Definition runnable (o : operation) (wl : workload) : bool :=
  wl_is_present wl && negb (wl_is_template wl) &&
  bool_decide (wl_kind wl ∈ ["QEMU"; "LXC"]) &&
  negb (bool_decide (wl_kind wl = "LXC") &&
        bool_decide (op_action o = PowerAction_value RESET)).

(** The join on organization_members and active organizations. *)
Definition customer_member (o : operation) (actor : user) (d : db) : bool :=
  bool_decide (is_Some (first_row (λ m : organization_member,
    bool_decide (om_user_id m = u_id actor) &&
    bool_decide (Some (om_organization_id m) = op_organization_id o) &&
    match db_organizations d !! om_organization_id m with
    | Some org => org_is_active org
    | None => false
    end) d)).

(** The requester may still run this operation on this workload. *)
Definition actor_authorized (o : operation) (actor : option user) (wl : workload) (d : db)
  : bool :=
  match actor with
  | None => false
  | Some a =>
    u_is_active a &&
    match u_role a with
    | CUSTOMER =>
      customer_member o a d &&
      bool_decide (wl_organization_id wl = op_organization_id o) &&
      bool_decide (op_action o ∈
        [PowerAction_value START; PowerAction_value SHUTDOWN; PowerAction_value STOP;
         PowerAction_value REBOOT])
    | SUPER_ADMIN | OPERATOR => true
    end
  end.

(** Submit, record the task, poll. *)
Definition submit_and_poll (o : operation) (action : PowerAction) (actor : option user)
    (wl : workload) (c : client) : DBM E () :=
  upid ← _submit o actor wl c;
  match upid with
  | None => mret tt
  | Some upid =>
    id ← uuid4;
    now ← datetime_now;
    let task := new_task id o wl ("power_" +:+ PowerAction_value action) upid now in
    db_add task;;
    heartbeat ← datetime_now;
    let o := o <| op_heartbeat_at := Some heartbeat |> in
    db_save o;;
    commit;;
    _poll o action actor wl task c
  end.

(** The branch of [run] without a recorded task. *)
Definition start_power (o : operation) (action : PowerAction) (actor : option user)
    (wl : workload) (recovering_without_upid : bool) (c : client) : DBM E () :=
  current ← _safe_guest_status o actor wl c;
  match current with
  | None => mret tt
  | Some current =>
    match _no_op_result action current with
    | inl error => _finish_from_error o actor error false None
    | inr (Some no_op) =>
      now ← datetime_now;
      db_save (wl <| wl_power_state := str_upper (default_str current "status" "unknown") |>
                  <| wl_observed_at := now |>);;
      _finish (o <| op_result := obj_merge (op_result o) no_op |>)
        actor OS_SUCCEEDED false None None
    | inr None =>
      if recovering_without_upid && bool_decide (action ∈ [REBOOT; RESET])
      then _finish o actor OS_FAILED false (Some "OPERATION_STATE_UNKNOWN") None
      else submit_and_poll o action actor wl c
    end
  end.

(** A RUNNING operation without a task whose lease another worker holds. *)
Definition lease_held (o : operation) (task : option pve_task) (now : Z) : bool :=
  bool_decide (op_status o = OS_RUNNING) && bool_decide (task = None) &&
  match (match op_heartbeat_at o with Some h => Some h | None => op_started_at o end) with
  | Some lease_start => now - seconds (operation_lease_seconds settings) <? lease_start
  | None => false
  end.

(** After the checks: claim the operation, then act. *)
Definition run_power (o : operation) (actor : option user) (wl : workload) : DBM E () :=
  task ← db_scalar (λ t, bool_decide (pt_operation_id t = op_id o));
  now ← datetime_now;
  if lease_held o task now then rollback
  else
    let recovering_without_upid := bool_decide (op_status o = OS_RUNNING) in
    let o := claimed o now now in
    db_save o;;
    commit;;
    action ← or_raise ValueError (PowerAction_of_value (op_action o));
    c ← _open_client wl;
    match task with
    | None => start_power o action actor wl recovering_without_upid c
    | Some task => _poll o action actor wl task c
    end.

Definition run (operation_id : N) : DBM E () :=
  row ← db_get operation operation_id;
  match row with
  | None => mret tt
  | Some o =>
    if op_terminal o then mret tt
    else if is_admin_action o then _run_admin_action o
    else
      row ← db_get workload (op_workload_id o);
      actor ← db_get user (op_requested_by_id o);
      d ← gets w_tx;
      match row with
      | Some wl =>
        if negb (runnable o wl) then _finish o actor OS_FAILED false (Some "VM_NOT_FOUND") None
        else if negb (actor_authorized o actor wl d)
        then _finish o actor OS_FAILED false (Some "PERMISSION_REVOKED") None
        else run_power o actor wl
      | None => _finish o actor OS_FAILED false (Some "VM_NOT_FOUND") None
      end
  end.

(** [run_power_operation]: an [AppError] rolls the session back. *)
Definition run_power_operation (operation_id : N) : DBM E () :=
  try_except (run operation_id) (λ x,
    match x with
    | AppError _ _ _ _ => rollback;; raise x
    | _ => raise x
    end).
End runner.
