(* ===== verification/PowerTrace.v ===== *)
(** * What the power runner sends to a cluster

    The runner in a recording environment: which submissions it makes, in which
    order, and what made it repeat one. *)
From Stdlib Require Import Lia.
From S2P Require Import Prelude Models Database AuditLog Operations PveApi PowerRunner.

(** ** Observations of the environment *)

(** [m] leaves the observation [g] of the environment as it was. *)
Definition env_keeps {E A X} (g : E → X) (m : DBM E A) : Prop :=
  ∀ w, g (w_env (m w).2) = g (w_env w).

Create HintDb keeps.

Section keeps.
Context {E X : Type} (g : E → X).

Lemma keeps_ret {A} (a : A) : env_keeps g (mret a).
Proof. by intros w. Qed.

Lemma keeps_raise {A} e : env_keeps g (raise (A := A) e).
Proof. by intros w. Qed.

Lemma keeps_bind {A B} (m : DBM E A) (f : A → DBM E B) :
  env_keeps g m → (∀ a, env_keeps g (f a)) → env_keeps g (m ≫= f).
Proof.
  intros Hm Hf w. unfold mbind, M_bind. specialize (Hm w).
  destruct (m w) as [[a|e] w']; simpl in *; [|done]. by rewrite (Hf a w').
Qed.

Lemma keeps_try {A} (m : DBM E A) h :
  env_keeps g m → (∀ e, env_keeps g (h e)) → env_keeps g (try_except m h).
Proof.
  intros Hm Hh w. unfold try_except. specialize (Hm w).
  destruct (m w) as [[a|e] w']; simpl in *; [done|]. by rewrite (Hh e w').
Qed.

Lemma keeps_catch_app {A} (m : DBM E A) h :
  env_keeps g m → (∀ e, env_keeps g (h e)) → env_keeps g (catch_app m h).
Proof. intros Hm Hh. apply keeps_try; [done|]. intros []; auto using keeps_raise. Qed.

Lemma keeps_raise_if b e : env_keeps g (raise_if b e).
Proof. by destruct b; intros w. Qed.

Lemma keeps_or_raise {A} e (o : option A) : env_keeps g (or_raise e o).
Proof. by destruct o; intros w. Qed.

Lemma keeps_gets {A} (f : world E → A) : env_keeps g (gets f).
Proof. by intros w. Qed.

Lemma keeps_db_get R `{Table R} id : env_keeps g (db_get R id).
Proof. by intros w. Qed.

Lemma keeps_db_scalar {R} `{Table R} (P : R → bool) : env_keeps g (db_scalar P).
Proof. by intros w. Qed.

Lemma keeps_db_save {R} `{Table R} (r : R) : env_keeps g (db_save r).
Proof. by intros w. Qed.

Lemma keeps_db_add {R} `{Table R} (r : R) : env_keeps g (db_add r).
Proof. by intros w. Qed.

Lemma keeps_commit : env_keeps g commit.
Proof.
  apply keeps_bind; [|by intros ? w]. intros w. unfold flush. by destruct (_ || _).
Qed.

Lemma keeps_rollback : env_keeps g rollback.
Proof. by intros w. Qed.

Lemma keeps_audit `{Runtime E} a : env_keeps g (add_audit_event a).
Proof. by intros w. Qed.

Lemma keeps_from_env {A} (f : E → A * E) :
  (∀ e, g (f e).2 = g e) → env_keeps g (from_env f).
Proof. intros Hf w. apply Hf. Qed.

Lemma keeps_call {A} c (f : N → E → (pve_error + A) * E) :
  (∀ i e, g (f i e).2 = g e) → env_keeps g (call c f).
Proof. intros Hf. destruct c; [by apply keeps_from_env|apply keeps_ret]. Qed.

Lemma keeps_call_or_raise {A} c (f : N → E → (pve_error + A) * E) :
  (∀ i e, g (f i e).2 = g e) → env_keeps g (call_or_raise c f).
Proof.
  intros Hf. apply keeps_bind; [by apply keeps_call|].
  intros [e|a]; auto using keeps_ret, keeps_raise.
Qed.
End keeps.

(** A read, then the rest. *)
Lemma bind_db_scalar {E R B} `{Table R} (P : R → bool) (k : option R → DBM E B) w :
  (db_scalar P ≫= k) w = k (first_row P (w_tx w)) w.
Proof. done. Qed.

Lemma bind_db_get {E R B} `{Table R} id (k : option R → DBM E B) w :
  (db_get R id ≫= k) w = k (rows (w_tx w) !! id) w.
Proof. done. Qed.

#[export] Hint Resolve keeps_ret keeps_raise keeps_raise_if keeps_or_raise keeps_gets
  keeps_db_get keeps_db_scalar keeps_db_save keeps_db_add keeps_commit keeps_rollback
  keeps_audit : keeps.

(** Walk through a handler. *)
Ltac keeps_step :=
  match goal with
  | |- env_keeps _ _ => solve [auto with keeps nocore]
  | |- env_keeps _ (_ ≫= _) => apply keeps_bind; [|intros ?]
  | |- env_keeps _ (catch_app _ _) => apply keeps_catch_app; [|intros ?]
  | |- env_keeps _ (match ?x with _ => _ end) => destruct x
  | |- env_keeps _ (let _ := _ in _) => cbv zeta
  end.
Ltac keeps_auto := repeat keeps_step.

(** ** Submissions *)

(** The answers to the power actions that were submitted, in order. *)
Definition submissions (events : list event) : list (pve_error + string) :=
  omap (λ ev, match ev with Submitted _ _ _ answer => Some answer | _ => None end) events.

Definition sent {E} (t : traced E) : list (pve_error + string) := submissions (tr_events t).

Lemma sent_snoc {E} (e : E) l ev :
  sent (Traced e (l ++ [ev])) =
    submissions l ++ match ev with Submitted _ _ _ answer => [answer] | _ => [] end.
Proof. unfold sent, submissions. simpl. rewrite omap_app. by destruct ev. Qed.

(** A submission may be repeated only after the cluster refused it for sure. *)
Definition definite_failure (answer : pve_error + string) : Prop :=
  ∃ error, answer = inl error ∧
    (pe_code error = "CLUSTER_UNREACHABLE" ∨ pe_code error = "PVE_UPSTREAM_ERROR").

Fixpoint disciplined (l : list (pve_error + string)) : Prop :=
  match l with
  | [] | [_] => True
  | answer :: rest => definite_failure answer ∧ disciplined rest
  end.

Lemma disciplined_cons a l : definite_failure a → disciplined l → disciplined (a :: l).
Proof. destruct l; simpl; auto. Qed.

(** [m] sends some disciplined submissions, at most [n]. *)
Definition sends {E A} (n : nat) (m : DBM (traced E) A) : Prop :=
  ∀ w, ∃ l, sent (w_env (m w).2) = sent (w_env w) ++ l ∧ disciplined l ∧ (length l ≤ n)%nat.

Section sends.
Context {E : Type}.

Lemma sends_keeps {A} n (m : DBM (traced E) A) : env_keeps sent m → sends n m.
Proof.
  intros Hm w. exists []. rewrite Hm, app_nil_r. split; [done|]. split; [done|simpl; lia].
Qed.

Lemma sends_after {A B} n (m : DBM (traced E) A) (f : A → DBM (traced E) B) :
  env_keeps sent m → (∀ a, sends n (f a)) → sends n (m ≫= f).
Proof.
  intros Hm Hf w. unfold mbind, M_bind. specialize (Hm w).
  destruct (m w) as [[a|e] w']; simpl in *.
  - destruct (Hf a w') as (l & Hl & ?). exists l. by rewrite Hl, Hm.
  - exists []. rewrite Hm, app_nil_r. split; [done|]. split; [done|simpl; lia].
Qed.

Lemma sends_before {A B} n (m : DBM (traced E) A) (f : A → DBM (traced E) B) :
  sends n m → (∀ a, env_keeps sent (f a)) → sends n (m ≫= f).
Proof.
  intros Hm Hf w. unfold mbind, M_bind. specialize (Hm w).
  destruct (m w) as [[a|e] w']; simpl in *; [by rewrite (Hf a w')|done].
Qed.

Lemma sends_catch {A} n (m : DBM (traced E) A) h :
  sends n m → (∀ e, env_keeps sent (h e)) → sends n (try_except m h).
Proof.
  intros Hm Hh w. unfold try_except. specialize (Hm w).
  destruct (m w) as [[a|e] w']; simpl in *; [done|by rewrite (Hh e w')].
Qed.
End sends.

Section trace.
Context {E : Type} `{Runtime E} `{PowerApi E} `{Digests}.
Context (settings : Settings).

(** Everything but [submit_guest_power_action] makes no submission. *)
Lemma keeps_now : env_keeps sent (datetime_now (E := traced E)).
Proof. by apply keeps_from_env. Qed.

Lemma keeps_uuid4 : env_keeps sent (uuid4 (E := traced E)).
Proof. by apply keeps_from_env. Qed.

Lemma keeps_sleep ms : env_keeps sent (sleep (E := traced E) ms).
Proof. by apply keeps_from_env. Qed.

Lemma recorded_keeps {A} (ev : A → event) (f : E → A * E) e :
  (∀ a, submissions [ev a] = []) → sent (recorded ev f e).2 = sent e.
Proof.
  intros Hev. unfold recorded, sent, submissions in *. simpl.
  by rewrite omap_app, Hev, app_nil_r.
Qed.
End trace.

(** Nothing but a call to the cluster is an event. *)
Lemma events_now {E} `{Runtime E} : env_keeps tr_events (datetime_now (E := traced E)).
Proof. by apply keeps_from_env. Qed.

#[export] Hint Resolve events_now : keeps.
#[export] Hint Resolve keeps_now keeps_uuid4 keeps_sleep : keeps.
#[export] Hint Extern 1 (env_keeps sent (call _ _)) =>
  apply keeps_call; intros ? ?; apply recorded_keeps; reflexivity : keeps.
#[export] Hint Extern 1 (env_keeps sent (call_or_raise _ _)) =>
  apply keeps_call_or_raise; intros ? ?; apply recorded_keeps; reflexivity : keeps.
#[export] Hint Extern 1 (env_keeps sent (guest_call _ _ _)) =>
  apply keeps_call_or_raise; intros ? ?; apply recorded_keeps; reflexivity : keeps.

Section discipline.
Context {E : Type} `{Runtime E} `{PowerApi E} `{Digests}.
Context (settings : Settings).
Implicit Types (o : operation) (wl : workload) (c : client).
Implicit Types (actor : option user) (action : PowerAction).

Lemma keeps_finish o actor status retryable code (task : option pve_task) :
  env_keeps sent (_finish (E := traced E) o actor status retryable code task).
Proof. unfold _finish. keeps_auto. Qed.
#[local] Hint Resolve keeps_finish : keeps.

Lemma events_finish o actor status retryable code (task : option pve_task) :
  env_keeps tr_events (_finish (E := traced E) o actor status retryable code task).
Proof. unfold _finish. keeps_auto. Qed.

Lemma keeps_finish_from_error o actor error submission (task : option pve_task) :
  env_keeps sent (_finish_from_error (E := traced E) o actor error submission task).
Proof. unfold _finish_from_error. keeps_auto. Qed.
#[local] Hint Resolve keeps_finish_from_error : keeps.

Lemma keeps_open_client wl : env_keeps sent (_open_client (E := traced E) wl).
Proof. unfold _open_client. keeps_auto. Qed.
#[local] Hint Resolve keeps_open_client : keeps.

Lemma keeps_safe_guest_status o actor wl c :
  env_keeps sent (_safe_guest_status (E := traced E) o actor wl c).
Proof. unfold _safe_guest_status, get_guest_status. keeps_auto. Qed.
#[local] Hint Resolve keeps_safe_guest_status : keeps.

Lemma keeps_poll_answer o action actor wl task c status :
  env_keeps sent (poll_answer (E := traced E) o action actor wl task c status).
Proof. unfold poll_answer, poll_succeeded. keeps_auto. Qed.
#[local] Hint Resolve keeps_poll_answer : keeps.

Lemma keeps_poll_loop fuel deadline o action actor wl task c :
  env_keeps sent (poll_loop (E := traced E) settings fuel deadline o action actor wl task c).
Proof.
  revert o task. induction fuel as [|fuel IH]; intros o task; simpl; keeps_auto; apply IH.
Qed.
#[local] Hint Resolve keeps_poll_loop : keeps.

Lemma keeps_poll o action actor wl task c :
  env_keeps sent (_poll (E := traced E) settings o action actor wl task c).
Proof. unfold _poll. keeps_auto. Qed.
#[local] Hint Resolve keeps_poll : keeps.

Lemma keeps_poll_delete_loop n o actor wl task c :
  env_keeps sent (poll_delete_loop (E := traced E) settings n o actor wl task c).
Proof.
  revert o task. induction n as [|n IH]; intros o task; simpl; keeps_auto; apply IH.
Qed.

Lemma keeps_admin_action o : env_keeps sent (_run_admin_action (E := traced E) settings o).
Proof.
  unfold _run_admin_action, _apply_spec, grow_disk, _resizable_disk, delete_guest, _poll_delete.
  keeps_auto. apply keeps_poll_delete_loop.
Qed.
#[local] Hint Resolve keeps_admin_action : keeps.

(** The retry loop: it repeats only after a definite failure. *)
Lemma sends_submit_attempts n attempt o actor wl c :
  sends n (submit_attempts (E := traced E) settings n attempt o actor wl c).
Proof.
  revert attempt. induction n as [|n IH]; intros attempt; simpl.
  { apply sends_keeps. keeps_auto. }
  destruct c as [i|error]; simpl.
  - intros w. unfold mbind, M_bind, from_env. simpl. unfold recorded.
    set (r := api_submit_guest_power_action _ _ _ _ _ _).
    destruct r as [[error|upid] e'] eqn:Hr; simpl.
    + destruct (retryable_code (pe_code error) && negb _ && _) eqn:Hb; simpl.
      * rewrite !andb_true_iff in Hb. destruct Hb as [[Hret Hto] _].
        match goal with |- context [submit_attempts settings n (attempt + 1) _ _ _ _ ?w1] =>
          destruct (IH (attempt + 1) w1) as (l & Hl & Hd & Hn) end.
        exists (inl error :: l). rewrite Hl. simpl. rewrite sent_snoc, <-app_assoc. simpl.
        split; [done|]. split; [|simpl; lia]. apply disciplined_cons; [|done].
        exists error. split; [done|]. apply bool_decide_eq_true in Hret.
        apply negb_true_iff, bool_decide_eq_false in Hto.
        unfold RETRYABLE_ERROR_CODES in Hret. rewrite !elem_of_cons in Hret.
        destruct Hret as [?|[?|[?|Hret]]]; [by left|by right|done|by apply not_elem_of_nil in Hret].
      * exists [inl error].
        match goal with |- context [_finish_from_error ?a ?b ?d ?f ?g ?w1] =>
          pose proof (keeps_finish_from_error a b d f g w1) as Hk;
          destruct (_finish_from_error a b d f g w1) as [[u|x] w2] end;
          simpl in *; rewrite Hk, sent_snoc; (split; [done|]); (split; [done|]); simpl; lia.
    + exists [inr upid]. rewrite sent_snoc. split; [done|]. split; [done|]. simpl; lia.
  - apply sends_after; [keeps_auto|]. intros [e|upid]; [|apply sends_keeps; keeps_auto].
    destruct (_ && _); [|apply sends_keeps; keeps_auto].
    apply sends_after; [keeps_auto|]. intros _. intros w.
    destruct (IH (attempt + 1) w) as (l & Hl & Hd & Hn). exists l. split; [done|]. split; [done|]. lia.
Qed.

Lemma sends_start_power n o action actor wl recovering c :
  n = Z.to_nat (pve_action_max_attempts settings) →
  sends n (start_power (E := traced E) settings o action actor wl recovering c).
Proof.
  intros ->. unfold start_power. apply sends_after; [keeps_auto|].
  intros [current|]; [|apply sends_keeps; keeps_auto].
  destruct (_no_op_result _ _) as [error|[no_op|]];
    try solve [apply sends_keeps; keeps_auto].
  match goal with |- sends _ (if ?b then _ else _) => destruct b end;
    [apply sends_keeps; keeps_auto|].
  unfold submit_and_poll. apply sends_before; [apply sends_submit_attempts|intros ?; keeps_auto].
Qed.

Lemma sends_run_power_operation operation_id :
  sends (Z.to_nat (pve_action_max_attempts settings))
    (run_power_operation (E := traced E) settings operation_id).
Proof.
  unfold run_power_operation. apply sends_catch; [|intros []; keeps_auto].
  unfold run. apply sends_after; [keeps_auto|].
  intros [o|]; [|apply sends_keeps; keeps_auto].
  destruct (op_terminal o); [apply sends_keeps; keeps_auto|].
  destruct (is_admin_action o); [apply sends_keeps; keeps_auto|].
  do 3 (apply sends_after; [keeps_auto|intros ?]).
  match goal with |- sends _ (match ?x with _ => _ end) => destruct x as [wl|] end;
    [|apply sends_keeps; keeps_auto].
  repeat (match goal with |- sends _ (if ?b then _ else _) => destruct b end;
    [apply sends_keeps; keeps_auto|]).
  unfold run_power. do 2 (apply sends_after; [keeps_auto|intros ?]).
  match goal with |- sends _ (if ?b then _ else _) => destruct b end;
    [apply sends_keeps; keeps_auto|].
  do 4 (apply sends_after; [keeps_auto|intros ?]).
  match goal with |- sends _ (match ?x with _ => _ end) => destruct x end;
    [apply sends_keeps; keeps_auto|by apply sends_start_power].
Qed.

(** With its task on record, a power operation is only polled. *)
Lemma resumed_sends_nothing o actor wl t (w : world (traced E)) :
  first_row (λ t, bool_decide (pt_operation_id t = op_id o)) (w_tx w) = Some t →
  sent (w_env (run_power settings o actor wl w).2) = sent (w_env w).
Proof.
  intros Ht. unfold run_power. rewrite bind_db_scalar, Ht.
  match goal with |- sent (w_env (?m _).2) = _ => enough (env_keeps sent m) by auto end.
  keeps_auto.
Qed.

(** [run] on a power operation that has not ended, its reads done. *)
Lemma run_checks o (w : world (traced E)) :
  db_operations (w_tx w) !! op_id o = Some o → op_terminal o = false →
  is_admin_action o = false →
  let actor := db_users (w_tx w) !! op_requested_by_id o in
  run settings (op_id o) w =
    match db_workloads (w_tx w) !! op_workload_id o with
    | Some wl =>
      if negb (runnable o wl) then _finish o actor OS_FAILED false (Some "VM_NOT_FOUND") None
      else if negb (actor_authorized o actor wl (w_tx w))
      then _finish o actor OS_FAILED false (Some "PERMISSION_REVOKED") None
      else run_power settings o actor wl
    | None => _finish o actor OS_FAILED false (Some "VM_NOT_FOUND") None
    end w.
Proof.
  intros Ho Ht Ha. unfold run. rewrite bind_db_get. simpl (rows _ !! _).
  by rewrite Ho, Ht, Ha, !bind_db_get.
Qed.

(** An [AppError] handler keeps what the body keeps. *)
Lemma run_operation_env o {X} (g : traced E → X) (w : world (traced E)) x :
  g (w_env (run settings (op_id o) w).2) = x →
  g (w_env (run_power_operation settings (op_id o) w).2) = x.
Proof.
  unfold run_power_operation, try_except. destruct (run _ _ w) as [[u|[]] w']; done.
Qed.
End discipline.
