(* ===== verification/PowerSettle.v ===== *)
(** * The power runner settles an operation

    How a run of [PowerOperationRunner] ends: the tracking invariant of a claimed
    operation, the outcome of every part of the runner, and the fuel of its polling
    loops. *)
From Stdlib Require Import Lia.
From S2P Require Import Prelude Models Database AuditLog Operations PveApi PowerRunner.

(** ** Rules for the calls *)

Section rules.
Context {E A : Type}.

(** A call of the client: some answer and some environment. *)
Lemma wp_call_any (c : client) (f : N → E → (pve_error + A) * E) Q w :
  (∀ answer e', Q (Ok answer) (World (w_db w) (w_tx w) (w_dup w) e')) → wp (call c f) Q w.
Proof.
  intros HQ. apply wp_call; intros; [|apply HQ].
  destruct w. apply HQ.
Qed.

Lemma wp_call_or_raise (c : client) (f : N → E → (pve_error + A) * E) Q w :
  (∀ error e', Q (Raise (exn_of error)) (World (w_db w) (w_tx w) (w_dup w) e')) →
  (∀ a e', Q (Ok a) (World (w_db w) (w_tx w) (w_dup w) e')) → wp (call_or_raise c f) Q w.
Proof.
  intros Hr Ho. apply wp_bind, wp_call_any. intros [error|a] e'; [apply wp_raise|apply wp_ret]; auto.
Qed.

Lemma wp_sleep `{PowerApi E} ms Q (w : world E) :
  (∀ e', Q (Ok tt) (World (w_db w) (w_tx w) (w_dup w) e')) → wp (sleep ms) Q w.
Proof. intros HQ. apply wp_from_env. intros [] e' _. apply HQ. Qed.
End rules.

Ltac wp_hook ::=
  match goal with
  | |- wp (add_audit_event _) _ _ => apply wp_add_audit_event; intros ?
  | |- wp (require_service_role _ _) _ _ => apply wp_raise_if; intros ?
  | |- wp (call _ _) _ _ => apply wp_call_any; intros ? ?
  | |- wp (get_guest_status _ _) _ _ => apply wp_call_any; intros ? ?
  | |- wp (call_or_raise _ _) _ _ => apply wp_call_or_raise; [intros ? ?|intros ? ?]
  | |- wp (guest_call _ _ _) _ _ => apply wp_call_or_raise; [intros ? ?|intros ? ?]
  | |- wp (sleep _) _ _ => apply wp_sleep; intros ?
  | |- wp (catch_app _ _) _ _ => apply wp_catch_app
  end.

(** ** The tracking invariant *)

(** The columns the runner never changes. *)
Definition op_ident (o : operation) : N * N * N * N * string :=
  (op_id o, op_requested_by_id o, op_idempotency_key_hash o, op_workload_id o, op_action o).
Definition wl_ident (wl : workload) : N * N * Z * string :=
  (wl_id wl, wl_cluster_id wl, wl_vmid wl, wl_kind wl).
Definition task_ident (t : pve_task) : N * N * string * N * string :=
  (pt_id t, pt_cluster_id t, pt_upid t, pt_operation_id t, pt_step_name t).

(** The tables satisfy the schema and hold the rows the runner works on, the
    operation still QUEUED or RUNNING. *)
Record tracked (o : operation) (d : db) : Prop := {
  tracked_integrity : integrity d = true;
  tracked_op : ∃ o0, db_operations d !! op_id o = Some o0 ∧ op_ident o0 = op_ident o ∧
                     op_active o0 = true;
  tracked_active : op_active o = true }.

Record live (o : operation) (wl : workload) (task : option pve_task) (d : db) : Prop := {
  live_integrity : integrity d = true;
  live_op : ∃ o0, db_operations d !! op_id o = Some o0 ∧ op_ident o0 = op_ident o ∧
                  op_active o0 = true;
  live_active : op_active o = true;
  live_wl : ∃ w0, db_workloads d !! wl_id wl = Some w0 ∧ wl_ident w0 = wl_ident wl;
  live_task : ∀ t, task = Some t →
                ∃ t0, db_pve_tasks d !! pt_id t = Some t0 ∧ task_ident t0 = task_ident t }.

(** What a request asked for, as a fact about the workload row. *)
Definition goal_reached (o : operation) (wl : workload) : Prop :=
  match PowerAction_of_value (op_action o), AdminVmAction_of_value (op_action o) with
  | Some a, _ => wl_power_state wl = expected_state a
  | None, Some UPDATE_SPEC =>
    wl_cpu_cores wl = as_int (obj_get "cpu_cores" (op_result o)) ∧
    wl_memory_bytes wl = as_int (obj_get "memory_bytes" (op_result o))
  | None, Some DELETE => wl_is_present wl = false
  | None, None => False
  end.

(** The operation has ended: with a reason, or with the workload as requested. *)
Definition finished (id wid : N) (d : db) : Prop :=
  ∃ o, db_operations d !! id = Some o ∧ op_terminal o = true ∧
    is_Some (op_finished_at o) ∧ is_Some (op_retryable o) ∧
    (op_error_code o = None ↔ op_status o = OS_SUCCEEDED) ∧
    (op_status o = OS_SUCCEEDED →
       ∃ wl, db_workloads d !! wid = Some wl ∧ goal_reached o wl).

Definition concluded {E} (id wid : N) (r : outcome ()) (w : world E) : Prop :=
  r = Ok tt ∧ integrity (w_db w) = true ∧ finished id wid (w_db w).

(** The row a cluster's task identifier would need exists already. *)
Definition task_clash (t s : pve_task) : bool :=
  bool_decide (pt_id s = pt_id t) ||
  bool_decide (uq_pve_tasks_upid s = uq_pve_tasks_upid t) ||
  bool_decide (uq_pve_tasks_step s = uq_pve_tasks_step t).

(** Ended, or the cluster answered with a task identifier on record already. *)
Definition settled {E} (id wid : N) (r : outcome ()) (w : world E) : Prop :=
  concluded id wid r w ∨
  (r = Raise IntegrityError ∧ integrity (w_db w) = true ∧
   ∃ t s, pt_operation_id t = id ∧ pt_workload_id t = wid ∧
     first_row (task_clash t) (w_db w) = Some s).

Ltac split_ident :=
  unfold op_ident, wl_ident, task_ident in *;
  repeat match goal with H : (_, _) = (_, _) |- _ => injection H as H; intros end;
  repeat match goal with H : @eq (_ * _) (_, _) (_, _) |- _ => injection H as H; intros end.

(** A commit of tables known to satisfy the schema does not raise. *)
Ltac flush_ok :=
  match goal with
  | Hf : ?b || negb (integrity ?d) = true |- _ =>
    let Hb := fresh in let Hi := fresh in
    exfalso; assert (b = false) as Hb by done; assert (integrity d = true) as Hi
      by first [done | match goal with
          Hl : live _ _ _ _ |- _ => exact (live_integrity _ _ _ _ Hl) end];
    rewrite Hb, Hi in Hf; discriminate Hf
  end.

Section saves.
Implicit Types (o : operation) (wl : workload) (t : pve_task) (d : db).

Lemma live_save_op o o' wl task d :
  live o wl task d → op_ident o' = op_ident o → op_active o' = true →
  live o' wl task (set_rows <[op_id o' := o']> d).
Proof.
  intros [Hi (o0 & Ho & Hid & Ha) _ Hw Ht] Heq Ha'.
  split; [|exists o'; split; [apply lookup_insert_eq|done]|done..].
  split_ident. apply (integrity_save_operation d o0 o'); try done; congruence.
Qed.

Lemma live_save_wl o wl wl' task d :
  live o wl task d → wl_ident wl' = wl_ident wl →
  live o wl task (set_rows <[wl_id wl' := wl']> d).
Proof.
  intros [Hi Ho Hact (w0 & Hw & Hid) Ht] Heq.
  split; [|done|done| |done].
  2: { exists wl'. split; [|done]. split_ident. replace (wl_id wl) with (wl_id wl').
       apply lookup_insert_eq. }
  split_ident. apply (integrity_save_workload d w0 wl'); try done; congruence.
Qed.

Lemma live_save_task o wl t t' d :
  live o wl (Some t) d → task_ident t' = task_ident t →
  live o wl (Some t') (set_rows <[pt_id t' := t']> d).
Proof.
  intros [Hi Ho Hact Hw Ht] Heq. destruct (Ht t) as (t0 & Ht0 & Hid); [done|].
  split; [|done..|].
  - split_ident. apply (integrity_save_task d t0 t'); try done; congruence.
  - intros ? [= <-]. exists t'. split; [apply lookup_insert_eq|done].
Qed.

Lemma live_same_op o o' wl task d :
  live o wl task d → op_ident o' = op_ident o → op_status o' = op_status o →
  live o' wl task d.
Proof.
  intros [Hi (o0 & Ho & Hid & Ha) Hact Hw Ht] Heq Hst. split; try done.
  - exists o0. split_ident. split_and!; [congruence| |done]. unfold op_ident. congruence.
  - unfold op_active in *. by rewrite Hst.
Qed.

Lemma live_no_task o wl task d : live o wl task d → live o wl None d.
Proof. intros []. by split. Qed.

Lemma live_new_task o wl t d :
  live o wl None d → keyed pve_task d → first_row (task_clash t) d = None →
  db_pve_tasks d !! pt_id t = None ∧
  live o wl (Some t) (set_rows <[pt_id t := t]> d).
Proof.
  intros [Hi Ho Ha Hw _] Hk Hf.
  assert (∀ i s, db_pve_tasks d !! i = Some s →
    i ≠ pt_id t ∧ uq_pve_tasks_upid s ≠ uq_pve_tasks_upid t ∧
    uq_pve_tasks_step s ≠ uq_pve_tasks_step t) as Hne.
  { intros i s Hs. pose proof (first_row_None _ _ Hf _ _ Hs) as Hc. unfold task_clash in Hc.
    rewrite !orb_false_iff, !bool_decide_eq_false in Hc. rewrite <-(Hk _ _ Hs). tauto. }
  split.
  { apply eq_None_not_Some. intros [s Hs]. by apply Hne in Hs as [? _]. }
  split; [|done..|].
  - revert Hi. integrity_rest.
    + eapply (unique_onb_insert uq_pve_tasks_upid d _ (pt_id t) t); try done.
      intros j s k Hj Hs Ht. apply Hne in Hj as (_ & Hn & _). congruence.
    + eapply (unique_onb_insert uq_pve_tasks_step d _ (pt_id t) t); try done.
      intros j s k Hj Hs Ht. apply Hne in Hj as (_ & _ & Hn). congruence.
  - intros ? [= <-]. exists t. split; [apply lookup_insert_eq|done].
Qed.
End saves.

Section settle.
Context {E : Type} `{Runtime E} `{PowerApi E} `{Digests}.
Context (settings : Settings).
Implicit Types (o : operation) (wl : workload) (c : client) (w : world E).
Implicit Types (actor : option user) (action : PowerAction).

(** The row [_finish] writes. *)
Definition ended o (status : OperationStatus) (retryable : bool) (code : option string)
    (now : Z) : operation :=
  o <| op_status := status |> <| op_finished_at := Some now |>
    <| op_heartbeat_at := Some now |> <| op_error_code := code |>
    <| op_error_summary := _safe_error_summary code |>
    <| op_retryable := Some retryable |> <| op_version := op_version o + 1 |>.

(** [_finish] on a live operation commits that row and one audit event. *)
Lemma wp_finish_row o actor status retryable code utask Q w :
  tracked o (w_tx w) → w_dup w = false → status ∈ TERMINAL_OPERATION_STATUSES →
  (∀ now log e' d', d' = (set_rows <[op_id o := ended o status retryable code now]> (w_tx w))
       <| db_audit_logs := log |> → integrity d' = true → Q (Ok tt) (World d' d' false e')) →
  wp (_finish o actor status retryable code utask) Q w.
Proof.
  intros [Hi (o0 & Ho & Hid & Ha) _] Hd Hst HQ. unfold _finish. do 3 wp_step. intros.
  match goal with |- context [db_save ?o2] => set (o' := o2) end.
  assert (integrity (set_rows <[op_id o' := o']> (w_tx w)) = true) as Hi'.
  { split_ident. apply (integrity_save_operation _ o0); simpl; try done; congruence. }
  wp_run; [by flush_ok|]. by eapply HQ.
Qed.

(** Every branch ends in [_finish], with an error code exactly on failure. *)
Lemma wp_finish_tracked id wid o actor status retryable code utask w :
  op_id o = id → tracked o (w_tx w) → w_dup w = false →
  status ∈ TERMINAL_OPERATION_STATUSES → (code = None ↔ status = OS_SUCCEEDED) →
  (status = OS_SUCCEEDED →
     ∃ wl', db_workloads (w_tx w) !! wid = Some wl' ∧ goal_reached o wl') →
  wp (_finish o actor status retryable code utask) (concluded id wid) w.
Proof.
  intros <- Hl Hd Hst Hcode Hgoal. apply wp_finish_row; [done..|].
  intros now log e' d' -> Hi. split_and!; [done|done|].
  exists (ended o status retryable code now). split_and!; try done.
  - apply lookup_insert_eq.
  - by apply bool_decide_eq_true.
Qed.

Lemma wp_finish id wid o actor status retryable code utask wl task w :
  op_id o = id → wl_id wl = wid →
  live o wl task (w_tx w) → w_dup w = false →
  status ∈ TERMINAL_OPERATION_STATUSES → (code = None ↔ status = OS_SUCCEEDED) →
  (status = OS_SUCCEEDED →
     ∃ wl', db_workloads (w_tx w) !! wid = Some wl' ∧ goal_reached o wl') →
  wp (_finish o actor status retryable code utask) (concluded id wid) w.
Proof. intros ? _ []. intros. by apply wp_finish_tracked. Qed.

Lemma wp_finish_from_error id wid o actor error submission utask wl task w :
  op_id o = id → wl_id wl = wid →
  live o wl task (w_tx w) → w_dup w = false →
  wp (_finish_from_error o actor error submission utask) (concluded id wid) w.
Proof.
  intros Ho Hw Hl Hd. unfold _finish_from_error. eapply wp_finish; try done;
    destruct (bool_decide _); try done; by (repeat constructor).
Qed.

Lemma wp_open_client wl Q w : (∀ c, Q (Ok c) w) → wp (_open_client wl) Q w.
Proof. intros HQ. unfold _open_client. wp_run; apply HQ. Qed.

Lemma wp_safe_guest_status o actor wl c task Q w :
  live o wl task (w_tx w) → w_dup w = false →
  (∀ s e', Q (Ok (Some s)) (World (w_db w) (w_tx w) (w_dup w) e')) →
  (∀ w', concluded (op_id o) (wl_id wl) (Ok tt) w' → Q (Ok None) w') →
  wp (_safe_guest_status o actor wl c) Q w.
Proof.
  intros Hl Hd Hs Hn. unfold _safe_guest_status. do 2 wp_step.
  destruct answer as [error|s]; [|apply wp_ret, Hs].
  apply wp_bind. eapply wp_mono; [eapply wp_finish_from_error; done|].
  intros r w' Hc. pose proof Hc as [-> _]. by apply wp_ret, Hn.
Qed.

Lemma wp_poll_succeeded o action actor wl task c w :
  live o wl (Some task) (w_tx w) → w_dup w = false →
  PowerAction_of_value (op_action o) = Some action →
  wp (poll_succeeded o action actor wl task c) (concluded (op_id o) (wl_id wl)) w.
Proof.
  intros Hl Hd Ha. unfold poll_succeeded. do 2 wp_step.
  match goal with |- context [set_rows <[key ?t := ?t]> _] =>
    pose proof (live_save_task _ _ _ t _ Hl eq_refl) as Hl1; set (task1 := t) in * end.
  apply wp_bind. eapply wp_safe_guest_status; [exact Hl1|done|..].
  2: { intros w' Hc. by apply wp_ret. }
  intros s e'. do 4 wp_step.
  match goal with |- context [set_rows <[key ?r := ?r]> (set_rows _ _)] =>
    pose proof (live_save_wl _ _ r _ _ Hl1 eq_refl) as Hl2; set (wl1 := r) in * end.
  destruct (bool_decide _) eqn:Hst;
    (eapply wp_finish; [done|done| |done|by repeat constructor|done|]).
  - exact Hl2.
  - done.
  - by eapply live_same_op.
  - intros _. exists wl1. split; [apply lookup_insert_eq|].
    apply bool_decide_eq_false in Hst. unfold goal_reached. simpl. rewrite Ha.
    by destruct (decide (wl_power_state wl1 = expected_state action)).
Qed.

Lemma wp_poll_answer o action actor wl task c status w :
  live o wl (Some task) (w_tx w) → w_dup w = false →
  PowerAction_of_value (op_action o) = Some action →
  wp (poll_answer o action actor wl task c status) (concluded (op_id o) (wl_id wl)) w.
Proof.
  intros Hl Hd Ha. unfold poll_answer. wp_step.
  { do 2 wp_step. eapply wp_finish; try done; [by eapply live_save_task|by repeat constructor]. }
  do 2 wp_step. wp_step.
  { do 2 wp_step. eapply wp_finish; try done; [by eapply live_save_task|by repeat constructor]. }
  eapply wp_poll_succeeded; [|done..].
  destruct Hl as [? ? ? ? Ht]. split; try done. intros t [= <-]. exact (Ht task eq_refl).
Qed.

(** Each round of the loop counts an attempt, so the fuel is never exhausted. *)
Lemma wp_poll_loop fuel deadline o action actor wl task c w :
  live o wl (Some task) (w_tx w) → w_dup w = false →
  PowerAction_of_value (op_action o) = Some action →
  pve_task_max_poll_attempts settings - pt_poll_attempts task ≤ Z.of_nat fuel →
  wp (poll_loop settings fuel deadline o action actor wl task c)
    (concluded (op_id o) (wl_id wl)) w.
Proof.
  revert o task w. induction fuel as [|fuel IH]; intros o task w Hl Hd Ha Hf; simpl;
    do 2 wp_step; destruct (_ && _) eqn:Hb.
  { apply andb_true_iff in Hb as [_ Hb%Z.ltb_lt]. lia. }
  1, 3: do 2 wp_step; eapply wp_finish; try done; [by eapply live_save_task|by repeat constructor].
  do 2 wp_step.
  match goal with |- context [db_save ?t ≫= _] =>
    match type of t with pve_task => set (task1 := t) end end.
  match goal with |- context [db_save ?t ≫= _] =>
    match type of t with operation => set (o1 := t) end end.
  assert (live o1 wl (Some task1) (set_rows <[op_id o1 := o1]>
            (set_rows <[pt_id task1 := task1]> (w_tx w)))) as Hl1.
  { apply (live_save_op o); [by apply (live_save_task _ _ task)|done|by apply Hl]. }
  do 4 wp_step. apply wp_bind, wp_call_any. intros [error|status] e'2; wp_step.
  - do 2 wp_step; [by flush_ok|]. do 2 wp_step.
    apply (IH o1 task1); [done..|]. simpl. lia.
  - do 2 wp_step. eapply wp_finish_from_error; try done. by eapply live_save_task.
  - do 2 wp_step; [by flush_ok|]. do 2 wp_step.
    apply (IH o1 task1); [done..|]. simpl. lia.
  - by apply (wp_poll_answer o1).
Qed.

Lemma wp_poll o action actor wl task c w :
  live o wl (Some task) (w_tx w) → w_dup w = false →
  PowerAction_of_value (op_action o) = Some action →
  wp (_poll settings o action actor wl task c) (concluded (op_id o) (wl_id wl)) w.
Proof.
  intros Hl Hd Ha. unfold _poll. do 2 wp_step. apply wp_poll_loop; [done..|].
  unfold poll_fuel. lia.
Qed.

(** [_submit] answers a task identifier or has finished the operation. *)
Lemma wp_submit_attempts n attempt o actor wl c task Q w :
  live o wl task (w_tx w) → w_dup w = false →
  (0 < n)%nat → attempt + Z.of_nat n = pve_action_max_attempts settings + 1 →
  (∀ upid e', Q (Ok (Some upid)) (World (w_db w) (w_tx w) (w_dup w) e')) →
  (∀ w', concluded (op_id o) (wl_id wl) (Ok tt) w' → Q (Ok None) w') →
  wp (submit_attempts settings n attempt o actor wl c) Q w.
Proof.
  intros Hl Hd Hn Hat Hs Hf. revert attempt w Hl Hd Hn Hat Hs.
  induction n as [|n IH]; intros attempt w Hl Hd Hn Hat Hs; simpl; [lia|].
  apply wp_bind, wp_call_any. intros [error|upid] e'; [|by apply wp_ret].
  destruct (_ && _) eqn:Hb.
  - rewrite !andb_true_iff, Z.ltb_lt in Hb. destruct Hb as [_ Hlt].
    do 2 wp_step. apply IH; [done|done|lia|lia|done].
  - apply wp_bind. eapply wp_mono; [by eapply wp_finish_from_error|].
    intros r w' Hc. pose proof Hc as [-> _]. by apply wp_ret, Hf.
Qed.

(** The commit of a new task row: a duplicate is the only obstacle. *)
Lemma wp_record_task o wl t base tx committed b (e : E) Q :
  tx = set_rows <[pt_id t := t]> base →
  live o wl None base → keyed pve_task base →
  b = bool_decide (is_Some (db_pve_tasks base !! pt_id t)) →
  (∀ s, first_row (task_clash t) base = Some s →
     Q (Raise IntegrityError) (World committed tx b e)) →
  (live o wl (Some t) tx → Q (Ok tt) (World tx tx false e)) →
  wp commit Q (World committed tx b e).
Proof.
  intros -> Hl Hk -> Hbad Hok. destruct (first_row (task_clash t) base) as [s|] eqn:Hs.
  - apply wp_commit; simpl; intros Hb; [by eapply Hbad|]. intros Hi. apply Hok.
    destruct Hl. split; try done. intros ? [= <-]. exists t. split; [apply lookup_insert_eq|done].
  - destruct (live_new_task _ _ _ _ Hl Hk Hs) as [Hn Hl']. rewrite Hn.
    apply wp_commit; [intros; by flush_ok|]. intros _ _. by apply Hok.
Qed.

(** After the task was recorded, or refused as a duplicate, the operation is
    settled. *)
Lemma wp_submit_and_poll o action actor wl c task w :
  live o wl task (w_tx w) → w_dup w = false → w_tx w = w_db w → keyed pve_task (w_tx w) →
  PowerAction_of_value (op_action o) = Some action →
  1 ≤ pve_action_max_attempts settings →
  wp (submit_and_poll settings o action actor wl c) (settled (op_id o) (wl_id wl)) w.
Proof.
  intros Hl Hd Htx Hk Ha Hmax. unfold submit_and_poll, _submit. apply wp_bind.
  eapply wp_submit_attempts; [exact Hl|done|lia|lia|..].
  2: { intros w' Hc. apply wp_ret. by left. }
  intros upid e'. do 4 wp_step.
  match goal with |- context [db_add ?t ≫= _] => set (task1 := t) end.
  do 4 wp_step.
  match goal with |- context [db_save ?t ≫= _] => set (o1 := t) end.
  do 2 wp_step.
  assert (live o1 wl None (set_rows <[op_id o1 := o1]> (w_tx w))) as Hl1.
  { apply (live_save_op o); [by eapply live_no_task|done|by apply Hl]. }
  apply wp_bind. eapply (wp_record_task o1 wl task1 (set_rows <[op_id o1 := o1]> (w_tx w)));
    [reflexivity|done|done|..].
  - subst b. simpl. by rewrite Hd.
  - intros s Hs. right. split_and!; [done|simpl; rewrite <-Htx; apply Hl|].
    exists task1, s. split_and!; [by destruct Hl|done|]. simpl. by rewrite <-Htx.
  - intros Hl2. eapply wp_mono; [by apply (wp_poll o1)|]. intros r w' Hc. by left.
Qed.

Lemma wp_start_power o action actor wl recovering c w :
  live o wl None (w_tx w) → w_dup w = false → w_tx w = w_db w → keyed pve_task (w_tx w) →
  PowerAction_of_value (op_action o) = Some action →
  1 ≤ pve_action_max_attempts settings →
  wp (start_power settings o action actor wl recovering c) (settled (op_id o) (wl_id wl)) w.
Proof.
  intros Hl Hd Htx Hk Ha Hmax. unfold start_power. apply wp_bind.
  eapply wp_safe_guest_status; [exact Hl|done|..].
  2: { intros w' Hc. apply wp_ret. by left. }
  intros s e'. destruct (_no_op_result _ _) as [error|[no_op|]] eqn:Hno.
  - eapply wp_mono; [by eapply wp_finish_from_error|]. intros r w' Hc. by left.
  - do 4 wp_step. eapply wp_mono; [|intros r w' Hc; by left].
    eapply wp_finish; try done.
    + by eapply live_same_op; [apply (live_save_wl _ wl)|..].
    + by repeat constructor.
    + intros _. eexists. split; [apply lookup_insert_eq|]. unfold goal_reached. simpl. rewrite Ha.
      rewrite <-str_upper_lower. unfold _no_op_result in Hno.
      destruct action; simplify_eq/=; by case_bool_decide as Hs; simplify_eq/=; rewrite Hs.
  - match goal with |- wp (if ?b then _ else _) _ _ => destruct b end.
    + eapply wp_mono; [|intros r w' Hc; by left]. eapply wp_finish; try done. by repeat constructor.
    + by eapply wp_submit_and_poll.
Qed.

(** *** Administrative operations *)

(** What a part of the admin branch leaves: settled, or an [AppError] that the
    handler turns into the end of the operation. *)
Definition handled o wl (r : outcome ()) w : Prop :=
  match r with
  | Raise (AppError _ _ _ _) => (∃ task, live o wl task (w_tx w)) ∧ w_dup w = false
  | _ => settled (op_id o) (wl_id wl) r w
  end.

Lemma handled_live o wl task error w :
  live o wl task (w_tx w) → w_dup w = false → handled o wl (Raise (exn_of error)) w.
Proof. intros. split; [by eexists|done]. Qed.

Lemma handled_concluded o wl r w :
  concluded (op_id o) (wl_id wl) r w → handled o wl r w.
Proof. intros Hc. pose proof Hc as [-> _]. by left. Qed.

Lemma wp_poll_delete_loop n o actor wl task c w :
  live o wl (Some task) (w_tx w) → w_dup w = false → op_action o = "delete" →
  wp (poll_delete_loop settings n o actor wl task c) (handled o wl) w.
Proof.
  intros Hl Hd Ha. revert task w Hl Hd. induction n as [|n IH]; intros task w Hl Hd; simpl.
  { do 2 wp_step. eapply wp_mono; [|apply handled_concluded]. eapply wp_finish; try done.
    - by eapply live_save_task.
    - by repeat constructor. }
  do 2 wp_step.
  match goal with |- context [db_save ?t ≫= _] => set (task1 := t) end.
  assert (live o wl (Some task1) (set_rows <[pt_id task1 := task1]> (w_tx w))) as Hl1
    by by apply (live_save_task _ _ task).
  do 2 wp_step. apply wp_bind, wp_call_or_raise; [intros error e2; by eapply handled_live|].
  intros status e2. wp_step.
  { do 2 wp_step; [by flush_ok|]. do 2 wp_step. by apply IH. }
  do 2 wp_step. wp_step.
  { do 2 wp_step. eapply wp_mono; [|apply handled_concluded]. eapply wp_finish; try done.
    - by apply (live_save_task _ _ task1).
    - by repeat constructor. }
  do 4 wp_step.
  match goal with |- context [set_rows <[key ?t := ?t]> (set_rows _ _)] => set (task2 := t) end.
  pose proof (live_save_task _ _ _ task2 _ Hl1 eq_refl) as Hl2.
  do 2 wp_step.
  match goal with |- context [set_rows <[key ?r := ?r]> (set_rows <[key task2 := _]> _)] =>
    set (wl1 := r) end.
  pose proof (live_save_wl _ _ wl1 _ _ Hl2 eq_refl) as Hl3.
  eapply wp_mono; [|apply handled_concluded]. eapply wp_finish; try done.
  - by eapply live_same_op.
  - by repeat constructor.
  - intros _. exists wl1. split; [apply lookup_insert_eq|]. unfold goal_reached. simpl. by rewrite Ha.
Qed.

Lemma wp_delete_guest o actor wl c w :
  live o wl None (w_tx w) → w_dup w = false → w_tx w = w_db w → keyed pve_task (w_tx w) →
  op_action o = "delete" →
  wp (delete_guest settings o actor wl c) (handled o wl) w.
Proof.
  intros Hl Hd Htx Hk Ha. unfold delete_guest.
  apply wp_bind, wp_call_or_raise; [intros error e1; by eapply handled_live|].
  intros current e1. do 2 wp_step; [by split; [exists None|]|].
  apply wp_bind, wp_call_or_raise; [intros error e2; by eapply handled_live|].
  intros upid e2. do 6 wp_step. apply wp_bind.
  match goal with |- context [set_rows <[key ?t := ?t]> _] => set (task1 := t) in * end.
  apply (wp_record_task o wl task1 (w_tx w)); try done.
  - subst. simpl. by rewrite Hd.
  - intros s Hs. right. split_and!; [done|simpl; rewrite <-Htx; apply Hl|].
    exists task1, s. split_and!; [done|done|]. simpl. by rewrite <-Htx.
  - intros Hl1. by apply wp_poll_delete_loop.
Qed.

(** The disk part reads and resizes on the cluster only. *)
Lemma wp_grow_disk wl c size Q w :
  (∀ error e', Q (Raise (exn_of error)) (World (w_db w) (w_tx w) (w_dup w) e')) →
  (∀ wl' e', wl_ident wl' = wl_ident wl →
     Q (Ok wl') (World (w_db w) (w_tx w) (w_dup w) e')) →
  wp (grow_disk wl c size) Q w.
Proof.
  intros Hr Ho. unfold grow_disk. apply wp_bind, wp_call_or_raise; [done|].
  intros config e1. apply wp_bind. unfold _resizable_disk.
  assert (∀ message w', w' = World (w_db w) (w_tx w) (w_dup w) e1 →
    Q (Raise (DISK_LAYOUT message)) w') as Hlay.
  { intros message w' ->. apply (Hr (PveError 409 "VM_DISK_LAYOUT_UNSUPPORTED" message [])). }
  wp_run; try by apply Hlay.
  all: first [apply (Hr _) | by apply Ho].
Qed.

Lemma wp_apply_spec o actor wl c w :
  live o wl None (w_tx w) → w_dup w = false → op_action o = "update_spec" →
  wp (o ← _apply_spec o wl c; _finish o actor OS_SUCCEEDED false None None) (handled o wl) w.
Proof.
  intros Hl Hd Ha. apply wp_bind. unfold _apply_spec.
  destruct (as_int _) as [cores|] eqn:Hc; [|apply wp_raise; by split; [exists None|]].
  destruct (as_int (obj_get "memory_bytes" _)) as [memory|] eqn:Hm;
    [|apply wp_raise; by split; [exists None|]].
  apply wp_bind, wp_call_or_raise; [intros error e1; by eapply handled_live|]. intros _ e1.
  apply wp_bind. match goal with |- wp _ ?Q _ => assert (∀ wl' e', wl_ident wl' = wl_ident wl →
    Q (Ok wl') (World (w_db w) (w_tx w) (w_dup w) e')) as Hfin end.
  { intros wl' e' Hid. do 4 wp_step. apply wp_ret.
    match goal with |- context [set_rows <[key ?r := ?r]> _] => set (wl1 := r) end.
    eapply wp_mono; [|apply handled_concluded]. eapply wp_finish; try done.
    - eapply live_same_op; [by apply (live_save_wl _ _ wl1)|done..].
    - by repeat constructor.
    - intros _. exists wl1. split.
      + replace (wl_id wl) with (wl_id wl1); [apply lookup_insert_eq|]. by split_ident.
      + unfold goal_reached. simpl. rewrite Ha. simpl. unfold obj_merge. simpl.
        by rewrite !obj_get_set_ne. }
  destruct (as_int (obj_get "disk_bytes" _)) as [size|]; [|by apply wp_ret, Hfin].
  destruct (_ <? _); [|by apply wp_ret, Hfin].
  apply wp_grow_disk; [intros error e2; by eapply handled_live|done].
Qed.

(** *** A whole run *)

(** A session that just began, on sound tables. *)
Record session_start (o : operation) w : Prop := {
  ss_tx : w_tx w = w_db w; ss_dup : w_dup w = false;
  ss_integrity : integrity (w_tx w) = true;
  ss_tasks : keyed pve_task (w_tx w); ss_workloads : keyed workload (w_tx w);
  ss_op : db_operations (w_tx w) !! op_id o = Some o; ss_active : op_active o = true }.

Lemma start_tracked o w : session_start o w → tracked o (w_tx w).
Proof. intros []. split; [done|by exists o|done]. Qed.

Lemma start_live o wl w :
  session_start o w → db_workloads (w_tx w) !! op_workload_id o = Some wl →
  wl_id wl = op_workload_id o ∧ live o wl None (w_tx w).
Proof.
  intros [] Hwl. assert (wl_id wl = op_workload_id o) as Hid by by apply ss_workloads0.
  split; [done|]. split; [done|by exists o|done|exists wl; by rewrite Hid|done].
Qed.

(** After the claim is committed. *)
Lemma live_claimed o wl started now d :
  live o wl None d →
  live (claimed o started now) wl None (set_rows <[op_id o := claimed o started now]> d).
Proof. intros Hl. by apply (live_save_op o (claimed o started now)). Qed.

Lemma finish_refused o actor code w wid :
  session_start o w →
  wp (_finish o actor OS_FAILED false (Some code) None) (settled (op_id o) wid) w.
Proof.
  intros Hs. eapply wp_mono; [|intros r w' Hc; by left].
  apply wp_finish_tracked; [done|by apply start_tracked|by apply Hs|by repeat constructor|done|done].
Qed.

(** Claim, commit, open the client, go on. *)
Lemma wp_claim o wl started now (k : client → DBM E ()) Q w :
  live o wl None (w_tx w) → w_dup w = false → keyed pve_task (w_tx w) →
  (∀ c w', live (claimed o started now) wl None (w_tx w') → w_dup w' = false →
     w_tx w' = w_db w' → keyed pve_task (w_tx w') → wp (k c) Q w') →
  wp (db_save (claimed o started now);; commit;; c ← _open_client wl; k c) Q w.
Proof.
  intros Hl Hd Hk HQ. pose proof (live_claimed _ _ started now _ Hl) as Hl1.
  do 4 wp_step; [by flush_ok|]. apply wp_bind, wp_open_client. intros c. by apply HQ.
Qed.

Lemma wp_admin_action o w :
  session_start o w → is_admin_action o = true →
  wp (_run_admin_action settings o) (settled (op_id o) (op_workload_id o)) w.
Proof.
  intros Hs Hadm. unfold _run_admin_action. do 2 wp_step. do 2 wp_step.
  destruct o0 as [wl|]; [|by apply finish_refused].
  destruct (start_live o wl w Hs) as [Hid Hl]; [done|]. rewrite <-Hid.
  wp_step; [by apply finish_refused|]. wp_step; [by apply finish_refused|].
  apply wp_bind.
  assert (∀ started w', w_tx w' = w_tx w → w_dup w' = w_dup w → wp (now ← datetime_now; let o := claimed o started now in
     db_save o;; commit;; c ← _open_client wl;
     catch_app (if bool_decide (op_action o = AdminVmAction_value UPDATE_SPEC)
       then o ← _apply_spec o wl c; _finish o o1 OS_SUCCEEDED false None None
       else delete_guest settings o o1 wl c)
       (λ error, _finish_from_error o o1 error false None)) (settled (op_id o) (wl_id wl)) w') as Hgo.
  - intros started w0 Htx Hd. do 2 wp_step.
    apply wp_claim; simpl; [by rewrite Htx|rewrite Hd; apply Hs|rewrite Htx; apply Hs|].
    intros c w' Hl1 Hd1 Htx1 Hk1. apply wp_catch_app.
    eapply wp_mono with (Q := handled (claimed o started a) wl).
    + case_bool_decide as Ha; [by apply wp_apply_spec|].
      apply wp_delete_guest; try done. apply bool_decide_eq_true in Hadm as [x Hx].
      unfold AdminVmAction_of_value in Hx. simpl in Ha. repeat case_decide; try done.
    + intros r w'' Hh. destruct r as [u|[]]; try exact Hh.
      destruct Hh as [[task Hl2] Hd2]. eapply wp_mono; [|intros r w3 Hc; by left].
      by eapply wp_finish_from_error.
  - destruct (op_started_at o); [apply wp_ret|wp_step]; cbv beta iota; by apply Hgo.
Qed.

(** How a run on a QUEUED or RUNNING operation may end. *)
Inductive run_ends o (d : db) (r : outcome ()) w : Prop :=
| run_settled : settled (op_id o) (op_workload_id o) r w → run_ends o d r w
| run_leased now :
    r = Ok tt → w_db w = d → lease_held settings o None now = true → run_ends o d r w
| run_unknown_action :
    r = Raise ValueError → PowerAction_of_value (op_action o) = None → run_ends o d r w.

Lemma wp_run_power o actor wl w :
  session_start o w → db_workloads (w_tx w) !! op_workload_id o = Some wl →
  1 ≤ pve_action_max_attempts settings →
  wp (run_power settings o actor wl) (run_ends o (w_db w)) w.
Proof.
  intros Hs Hwl Hmax. destruct (start_live o wl w Hs Hwl) as [Hid Hl].
  unfold run_power. do 4 wp_step. wp_step.
  { wp_step. eapply run_leased; [done|done|]. unfold lease_held in *.
    rewrite !andb_true_iff, !bool_decide_eq_true in *. destruct_and!. subst. by split_and!. }
  pose proof (live_claimed _ _ a a _ Hl) as Hl1.
  do 4 wp_step; [pose proof (ss_dup _ _ Hs); by flush_ok|].
  do 2 wp_step; [by apply run_unknown_action|].
  apply wp_bind, wp_open_client. intros c.
  apply wp_mono with (Q := settled (op_id o) (op_workload_id o)); [|by constructor].
  rewrite <-Hid. destruct o0 as [t|].
  - eapply wp_mono; [|intros r w' Hc; by left].
    apply (wp_poll (claimed o a a)); [|done|done].
    destruct Hl1. split; try done. intros ? [= <-]. exists t. split; [|done].
    match goal with Ht : first_row _ _ = Some t |- _ => apply first_row_Some in Ht as [_ [i Hi]] end.
    pose proof (ss_tasks _ _ Hs _ _ Hi) as Hk. simpl in Hk. by rewrite Hk.
  - apply (wp_start_power (claimed o a a)); try done. apply Hs.
Qed.

Lemma wp_run_operation o w :
  session_start o w → 1 ≤ pve_action_max_attempts settings →
  wp (run_power_operation settings (op_id o)) (run_ends o (w_db w)) w.
Proof.
  intros Hs Hmax. unfold run_power_operation. apply wp_try.
  eapply wp_mono with (Q := run_ends o (w_db w)).
  - unfold run. apply wp_bind, wp_db_get. intros row Hrow.
    assert (row = Some o) as -> by (rewrite <-Hrow; exact (ss_op _ _ Hs)).
    assert (op_terminal o = false) as ->.
    { pose proof (ss_active _ _ Hs). unfold op_terminal, op_active in *.
      apply bool_decide_eq_false. destruct (op_status o); try done; set_solver. }
    wp_step. { eapply wp_mono; [by apply wp_admin_action|]. by constructor. }
    do 6 wp_step.
    assert (∀ actor code, wp (_finish o actor OS_FAILED false (Some code) None)
              (run_ends o (w_db w)) w) as Hrefuse.
    { intros actor code. eapply wp_mono; [by apply finish_refused|]. by constructor. }
    destruct o0 as [wl|]; [|apply Hrefuse]. do 2 (wp_step; [apply Hrefuse|]).
    by apply wp_run_power.
  - intros [u|x] w' Hends; [done|].
    assert (∀ st code m ds, x ≠ AppError st code m ds) as Hx.
    { intros st code m ds ->. destruct Hends as [[[? _]|[? _]]| |]; done. }
    destruct x; try exact Hends. by destruct (Hx _ _ _ _ eq_refl).
Qed.

End settle.
