(* ===== verification/IpAddr.v ===== *)
(** * Addresses and networks

    What the services use of Python's [ipaddress] module: parsing and printing of
    IPv4 and IPv6 networks, membership, overlap and size.  Scope identifiers
    ("%eth0") are not modelled: PostgreSQL's INET and CIDR types have none. *)
From S2P Require Import Prelude Models.
From Stdlib Require Import Lia.

(** ** Masks *)

Definition max_prefixlen (version : Z) : Z := if decide (version = 4) then 32 else 128.
Definition ALL_ONES (version : Z) : Z := 2 ^ max_prefixlen version - 1.

(** [_ip_int_from_prefix]. *)
Definition ip_int_from_prefix (version prefixlen : Z) : Z :=
  Z.lxor (ALL_ONES version) (Z.shiftr (ALL_ONES version) prefixlen).

Definition netmask (n : ip_net) : Z := ip_int_from_prefix (net_version n) (net_prefixlen n).
Definition hostmask (n : ip_net) : Z := Z.lxor (netmask n) (ALL_ONES (net_version n)).
Definition network_address (n : ip_net) : ip_addr := IpAddr (net_version n) (net_address n).
Definition broadcast_address (n : ip_net) : ip_addr :=
  IpAddr (net_version n) (Z.lor (net_address n) (hostmask n)).
Definition num_addresses (n : ip_net) : Z :=
  ip_int (broadcast_address n) - net_address n + 1.

(** [a in n]. *)
Definition net_contains (n : ip_net) (a : ip_addr) : bool :=
  bool_decide (net_version n = ip_version a) &&
  bool_decide (Z.land (ip_int a) (netmask n) = net_address n).

(** [n.overlaps(m)]. *)
Definition overlaps (n m : ip_net) : bool :=
  net_contains m (network_address n) || net_contains m (broadcast_address n) ||
  net_contains n (network_address m) || net_contains n (broadcast_address m).

(** [IPv4Network((address, prefixlen), strict=False)] and its IPv6 twin. *)
Definition make_network (version address prefixlen : Z) : ip_net :=
  IpNet version (Z.land address (ip_int_from_prefix version prefixlen)) prefixlen.

(** ** Parsing *)

Fixpoint str_split (sep : Ascii.ascii) (s : string) : list string :=
  match s with
  | EmptyString => [EmptyString]
  | String a r =>
    match str_split sep r with
    | part :: parts =>
      if decide (a = sep) then EmptyString :: part :: parts
      else String a part :: parts
    | [] => []
    end
  end.

Definition DOT : Ascii.ascii := Ascii.ascii_of_nat 46.
Definition SLASH : Ascii.ascii := Ascii.ascii_of_nat 47.
Definition COLON : Ascii.ascii := Ascii.ascii_of_nat 58.

Definition digit_value (a : Ascii.ascii) : option Z :=
  let n := Z.of_nat (Ascii.nat_of_ascii a) in
  if (48 <=? n) && (n <=? 57) then Some (n - 48) else None.

Definition hex_value (a : Ascii.ascii) : option Z :=
  let n := Z.of_nat (Ascii.nat_of_ascii a) in
  if (48 <=? n) && (n <=? 57) then Some (n - 48)
  else if (97 <=? n) && (n <=? 102) then Some (n - 87)
  else if (65 <=? n) && (n <=? 70) then Some (n - 55)
  else None.

(** [int(s, base)] on a string of digits of that base, read left to right. *)
Fixpoint int_of_digits (value : Ascii.ascii → option Z) (base acc : Z) (s : string)
  : option Z :=
  match s with
  | EmptyString => Some acc
  | String a r => v ← value a; int_of_digits value base (acc * base + v) r
  end.

Definition str_is_empty (s : string) : bool := bool_decide (s = "").

(** [s.isascii() and s.isdigit()], then [int(s)]. *)
Definition int_of_string (s : string) : option Z :=
  if str_is_empty s then None else int_of_digits digit_value 10 0 s.

(** [_parse_octet]. *)
Definition parse_octet (s : string) : option Z :=
  v ← int_of_string s;
  if (3 <? String.length s)%nat then None
  else if (1 <? String.length s)%nat && String.prefix "0" s then None
  else if 255 <? v then None
  else Some v.

(** [_BaseV4._ip_int_from_string]. *)
Definition v4_int_from_string (s : string) : option Z :=
  match str_split DOT s with
  | [a; b; c; d] =>
    a ← parse_octet a; b ← parse_octet b; c ← parse_octet c; d ← parse_octet d;
    Some (((a * 256 + b) * 256 + c) * 256 + d)
  | _ => None
  end.

(** [_parse_hextet]; the empty string has no digits and [int("", 16)] raises. *)
Definition parse_hextet (s : string) : option Z :=
  if str_is_empty s || (4 <? String.length s)%nat then None
  else int_of_digits hex_value 16 0 s.

Definition parse_hextets (acc : Z) (parts : list string) : option Z :=
  foldl (λ o s, i ← o; h ← parse_hextet s; Some (Z.lor (Z.shiftl i 16) h)) (Some acc) parts.

(** The position of the single empty part strictly inside the list: [None] when
    there are two, [Some None] when there is none. *)
Definition skip_index (parts : list string) : option (option nat) :=
  foldl (λ o i,
    o ← o;
    match parts !! i with
    | Some "" => match o with Some _ => None | None => Some (Some i) end
    | _ => Some o
    end) (Some None) (seq 1 (length parts - 2)).

(** The hexadecimal spelling of a part that stood for an embedded IPv4 address;
    the 32 bits are two hextets. *)
Definition hex_digit (v : Z) : Ascii.ascii :=
  Ascii.ascii_of_nat (Z.to_nat (if v <? 10 then 48 + v else 87 + v)).

Fixpoint hex_digits (fuel : nat) (v : Z) (acc : string) : string :=
  match fuel with
  | O => acc
  | S fuel => if v =? 0 then acc
              else hex_digits fuel (v / 16) (String (hex_digit (v mod 16)) acc)
  end.

(** [f"{v:x}"] for [0 <= v < 2**128]. *)
Definition hex_of_int (v : Z) : string := if v =? 0 then "0" else hex_digits 32 v "".

Definition has_dot (s : string) : bool := str_contains "." s.

Definition embed_v4 (parts : list string) : option (list string) :=
  match last parts with
  | Some l =>
    if has_dot l then
      v ← v4_int_from_string l;
      Some (take (length parts - 1) parts ++
            [hex_of_int (Z.land (Z.shiftr v 16) 65535); hex_of_int (Z.land v 65535)])
    else Some parts
  | None => None
  end.

(** [_BaseV6._ip_int_from_string]. *)
Definition v6_int_from_string (s : string) : option Z :=
  if str_is_empty s then None else
  let parts := str_split COLON s in
  if (length parts <? 3)%nat then None else
  parts ← embed_v4 parts;
  if (9 <? length parts)%nat then None else
  let first_empty := bool_decide (head parts = Some "") in
  let last_empty := bool_decide (last parts = Some "") in
  skip ← skip_index parts;
  match skip with
  | Some i =>
    let hi := if first_empty then (i - 1)%nat else i in
    let lo := if last_empty then (length parts - i - 2)%nat else (length parts - i - 1)%nat in
    if first_empty && negb (hi =? 0)%nat then None
    else if last_empty && negb (lo =? 0)%nat then None
    else if (8 <? hi + lo + 1)%nat then None
    else
      high ← parse_hextets 0 (take hi parts);
      parse_hextets (Z.shiftl high (16 * Z.of_nat (8 - (hi + lo))))
                    (drop (length parts - lo) parts)
  | None =>
    if negb (length parts =? 8)%nat || first_empty || last_empty then None
    else parse_hextets 0 parts
  end.

(** [_prefix_from_prefix_string]. *)
Definition prefix_from_prefix_string (version : Z) (s : string) : option Z :=
  p ← int_of_string s; if p <=? max_prefixlen version then Some p else None.

Definition bit_length (z : Z) : Z := if z =? 0 then 0 else Z.log2 z + 1.

(** [_count_righthand_zero_bits]. *)
Definition count_righthand_zero_bits (number bits : Z) : Z :=
  if number =? 0 then bits
  else Z.min bits (bit_length (Z.land (Z.lnot number) (number - 1))).

(** [_prefix_from_ip_int]. *)
Definition prefix_from_ip_int (version ip : Z) : option Z :=
  let trailing_zeroes := count_righthand_zero_bits ip (max_prefixlen version) in
  let prefixlen := max_prefixlen version - trailing_zeroes in
  if Z.shiftr ip trailing_zeroes =? Z.shiftl 1 prefixlen - 1 then Some prefixlen else None.

(** [_prefix_from_ip_string], IPv4 only: a netmask, else a hostmask. *)
Definition v4_prefix_from_ip_string (s : string) : option Z :=
  ip ← v4_int_from_string s;
  match prefix_from_ip_int 4 ip with
  | Some p => Some p
  | None => prefix_from_ip_int 4 (Z.lxor ip (ALL_ONES 4))
  end.

Definition v4_make_netmask (mask : string) : option Z :=
  match prefix_from_prefix_string 4 mask with
  | Some p => Some p
  | None => v4_prefix_from_ip_string mask
  end.

Definition v4_network (s : string) : option ip_net :=
  match str_split SLASH s with
  | [addr] => a ← v4_int_from_string addr; Some (make_network 4 a 32)
  | [addr; mask] =>
    a ← v4_int_from_string addr; p ← v4_make_netmask mask; Some (make_network 4 a p)
  | _ => None
  end.

Definition v6_network (s : string) : option ip_net :=
  match str_split SLASH s with
  | [addr] => a ← v6_int_from_string addr; Some (make_network 6 a 128)
  | [addr; mask] =>
    a ← v6_int_from_string addr; p ← prefix_from_prefix_string 6 mask;
    Some (make_network 6 a p)
  | _ => None
  end.

(** [ipaddress.ip_network(s, strict=False)], [None] for [ValueError]. *)
Definition ip_network (s : string) : option ip_net :=
  match v4_network s with Some n => Some n | None => v6_network s end.

(** ** Printing *)

Definition octet (v i : Z) : Z := Z.land (Z.shiftr v (8 * i)) 255.

Definition v4_string_from_int (v : Z) : string :=
  pretty (octet v 3) +:+ "." +:+ pretty (octet v 2) +:+ "." +:+
  pretty (octet v 1) +:+ "." +:+ pretty (octet v 0).

Definition hextets (v : Z) : list string :=
  map (λ i, hex_of_int (Z.land (Z.shiftr v (16 * i)) 65535)) [7; 6; 5; 4; 3; 2; 1; 0].

(** The loop of [_compress_hextets]: best start and length, current start and
    length, index. *)
Fixpoint longest_zeros (hs : list string) (index bs bl cs cl : Z) : Z * Z :=
  match hs with
  | [] => (bs, bl)
  | h :: rest =>
    if decide (h = "0") then
      let cl := cl + 1 in
      let cs := if cs =? -1 then index else cs in
      if bl <? cl then longest_zeros rest (index + 1) cs cl cs cl
      else longest_zeros rest (index + 1) bs bl cs cl
    else longest_zeros rest (index + 1) bs bl (-1) 0
  end.

Definition compress_hextets (hs : list string) : list string :=
  let '(start, len) := longest_zeros hs 0 (-1) 0 (-1) 0 in
  if 1 <? len then
    let stop := start + len in
    (if start =? 0 then [""] else []) ++ take (Z.to_nat start) hs ++ [""] ++
    drop (Z.to_nat stop) hs ++ (if stop =? Z.of_nat (length hs) then [""] else [])
  else hs.

Fixpoint str_join (sep : string) (parts : list string) : string :=
  match parts with
  | [] => ""
  | [p] => p
  | p :: rest => p +:+ sep +:+ str_join sep rest
  end.

(** [str(a)] for an address, [str(n)] for a network. *)
Definition ip_str (a : ip_addr) : string :=
  if decide (ip_version a = 4) then v4_string_from_int (ip_int a)
  else str_join ":" (compress_hextets (hextets (ip_int a))).

Definition net_str (n : ip_net) : string :=
  ip_str (network_address n) +:+ "/" +:+ pretty (net_prefixlen n).

Example parse_v4 : ip_network "10.1.2.3/255.255.255.0" = Some (IpNet 4 167838208 24).
Proof. vm_compute. reflexivity. Qed.
Example parse_v4_leading_zero : ip_network "10.01.2.3/24" = None.
Proof. vm_compute. reflexivity. Qed.
Example parse_v6 : net_str <$> ip_network "2001:db8::ff00:42:8329/64" = Some "2001:db8::/64".
Proof. vm_compute. reflexivity. Qed.
Example parse_v6_embedded : ip_str <$> (network_address <$> ip_network "::ffff:1.2.3.4")
  = Some "::ffff:102:304".
Proof. vm_compute. reflexivity. Qed.

(** ** Arithmetic of well-formed networks *)

Definition version_wf (v : Z) : Prop := v = 4 ∨ v = 6.

Record addr_wf (a : ip_addr) : Prop := {
  aw_version : version_wf (ip_version a);
  aw_lo : 0 ≤ ip_int a;
  aw_hi : ip_int a < 2 ^ max_prefixlen (ip_version a) }.

Record net_wf (n : ip_net) : Prop := {
  nw_version : version_wf (net_version n);
  nw_prefix : 0 ≤ net_prefixlen n ≤ max_prefixlen (net_version n);
  nw_lo : 0 ≤ net_address n;
  nw_hi : net_address n < 2 ^ max_prefixlen (net_version n);
  nw_host : Z.land (net_address n) (netmask n) = net_address n }.

(** The number of addresses of the network, as a power of two. *)
Definition block_size (n : ip_net) : Z := 2 ^ (max_prefixlen (net_version n) - net_prefixlen n).

Lemma max_prefixlen_pos v : 0 < max_prefixlen v.
Proof. unfold max_prefixlen. case_decide; lia. Qed.

Lemma ip_int_from_prefix_testbit v p i :
  0 ≤ p ≤ max_prefixlen v → 0 ≤ i →
  Z.testbit (ip_int_from_prefix v p) i =
    (max_prefixlen v - p <=? i) && (i <? max_prefixlen v).
Proof.
  intros Hp Hi. unfold ip_int_from_prefix, ALL_ONES.
  pose proof (max_prefixlen_pos v).
  rewrite Z.sub_1_r, <-Z.ones_equiv, Z.lxor_spec, Z.shiftr_spec by lia.
  rewrite !Z.testbit_ones by lia.
  destruct (Z.leb_spec (max_prefixlen v - p) i), (Z.ltb_spec i (max_prefixlen v)),
    (Z.ltb_spec (i + p) (max_prefixlen v)), (Z.leb_spec 0 i), (Z.leb_spec 0 (i + p));
    simpl; try reflexivity; lia.
Qed.

Lemma testbit_above a k i : 0 ≤ a < 2 ^ k → 0 ≤ k ≤ i → Z.testbit a i = false.
Proof.
  intros [Ha Hb] [Hk Hi]. destruct (decide (a = 0)) as [->|]; [apply Z.bits_0|].
  apply Z.bits_above_log2; [lia|].
  apply Z.log2_lt_pow2; [lia|]. eapply Z.lt_le_trans; [done|]. apply Z.pow_le_mono_r; lia.
Qed.

Lemma land_mask v p a :
  0 ≤ p ≤ max_prefixlen v → 0 ≤ a < 2 ^ max_prefixlen v →
  Z.land a (ip_int_from_prefix v p) =
    a / 2 ^ (max_prefixlen v - p) * 2 ^ (max_prefixlen v - p).
Proof.
  intros Hp Ha. rewrite <-Z.shiftr_div_pow2, <-Z.shiftl_mul_pow2 by lia.
  apply Z.bits_inj'. intros i Hi.
  rewrite Z.land_spec, ip_int_from_prefix_testbit by lia.
  rewrite Z.shiftl_spec by lia.
  destruct (Z.leb_spec (max_prefixlen v - p) i).
  - rewrite Z.shiftr_spec by lia. rewrite Z.sub_add.
    destruct (Z.ltb_spec i (max_prefixlen v)); simpl; [by rewrite andb_true_r|].
    rewrite (testbit_above a (max_prefixlen v)); [done|lia|].
    pose proof (max_prefixlen_pos v). lia.
  - simpl. rewrite andb_false_r, Z.testbit_neg_r by lia. done.
Qed.

Section net.
Context (n : ip_net) (Hn : net_wf n).

Lemma block_size_pos : 0 < block_size n.
Proof using Hn. destruct Hn. apply Z.pow_pos_nonneg; lia. Qed.

Lemma net_aligned : net_address n mod block_size n = 0.
Proof using Hn.
  destruct Hn as [_ Hp Hlo Hhi Hhost]. unfold netmask in Hhost.
  rewrite land_mask in Hhost by lia. fold (block_size n) in Hhost.
  rewrite <-Hhost. apply Z.mod_mul. pose proof block_size_pos. lia.
Qed.

Lemma hostmask_spec : hostmask n = block_size n - 1.
Proof using Hn.
  destruct Hn as [_ Hp _ _ _].
  unfold block_size. rewrite Z.sub_1_r, <-Z.ones_equiv.
  apply Z.bits_inj'. intros i Hi. unfold hostmask, netmask.
  rewrite Z.lxor_spec, ip_int_from_prefix_testbit by lia.
  unfold ALL_ONES. rewrite Z.sub_1_r, <-Z.ones_equiv.
  pose proof (max_prefixlen_pos (net_version n)).
  rewrite !Z.testbit_ones_nonneg by lia.
  destruct (Z.leb_spec (max_prefixlen (net_version n) - net_prefixlen n) i),
    (Z.ltb_spec i (max_prefixlen (net_version n))),
    (Z.ltb_spec i (max_prefixlen (net_version n) - net_prefixlen n));
    simpl; try reflexivity; lia.
Qed.

Lemma broadcast_spec : ip_int (broadcast_address n) = net_address n + (block_size n - 1).
Proof using Hn.
  simpl. rewrite hostmask_spec. pose proof net_aligned as Hal.
  destruct Hn as [_ Hp Hlo Hhi Hhost].
  assert (Z.land (net_address n) (block_size n - 1) = 0) as Hz.
  { unfold block_size in *. rewrite Z.sub_1_r, <-Z.ones_equiv, Z.land_ones by lia. done. }
  rewrite <-Z.lxor_lor by done. symmetry. by apply Z.add_nocarry_lxor.
Qed.

(** The source's [num_addresses] is the block size. *)
Lemma num_addresses_spec : num_addresses n = block_size n.
Proof using Hn. unfold num_addresses. rewrite broadcast_spec. lia. Qed.

Lemma block_fits : net_address n + block_size n ≤ 2 ^ max_prefixlen (net_version n).
Proof using Hn.
  pose proof net_aligned as Hal. pose proof block_size_pos as HB.
  destruct Hn as [_ Hp Hlo Hhi _].
  assert (2 ^ max_prefixlen (net_version n) = 2 ^ net_prefixlen n * block_size n) as Hpow.
  { unfold block_size. rewrite <-Z.pow_add_r by lia. f_equal. lia. }
  apply Z.div_exact in Hal; [|lia]. rewrite Hpow in *.
  assert (net_address n / block_size n < 2 ^ net_prefixlen n) by nia. nia.
Qed.

(** Membership is an interval test. *)
Lemma net_contains_spec a :
  addr_wf a →
  net_contains n a = true ↔
    net_version n = ip_version a ∧
    net_address n ≤ ip_int a < net_address n + block_size n.
Proof using Hn.
  intros [_ Hlo Hhi]. pose proof block_size_pos as HB. pose proof net_aligned as Hal.
  destruct Hn as [_ Hp ? ? _]. unfold net_contains, netmask.
  rewrite andb_true_iff, !bool_decide_eq_true.
  split; intros [Hv Ha]; (split; [done|]).
  - rewrite land_mask in Ha by (rewrite Hv in *; lia). fold (block_size n) in Ha.
    pose proof (Z.div_mod (ip_int a) (block_size n)).
    pose proof (Z.mod_pos_bound (ip_int a) (block_size n)). lia.
  - rewrite land_mask by (rewrite Hv in *; lia). fold (block_size n).
    apply Z.div_exact in Hal; [|lia].
    transitivity (block_size n * (net_address n / block_size n)); [|lia].
    rewrite Z.mul_comm. f_equal.
    symmetry. apply (Z.div_unique _ _ _ (ip_int a - net_address n)); lia.
Qed.

Lemma network_address_wf : addr_wf (network_address n).
Proof using Hn. destruct Hn. by constructor. Qed.

Lemma broadcast_address_wf : addr_wf (broadcast_address n).
Proof using Hn.
  pose proof broadcast_spec as Hb. pose proof block_fits. pose proof block_size_pos.
  destruct Hn. constructor; [done|rewrite Hb; lia|].
  simpl in *. rewrite Hb. lia.
Qed.

(** A host part added to the network address stays inside. *)
Lemma net_offset_contains o :
  0 ≤ o < num_addresses n →
  addr_wf (IpAddr (net_version n) (net_address n + o)) ∧
  net_contains n (IpAddr (net_version n) (net_address n + o)) = true.
Proof using Hn.
  rewrite num_addresses_spec. intros Ho. pose proof block_fits.
  assert (addr_wf (IpAddr (net_version n) (net_address n + o))) as Hw.
  { destruct Hn. constructor; simpl; [done|lia|lia]. }
  split; [done|]. apply net_contains_spec; [done|]. simpl. lia.
Qed.
End net.

(** [overlaps] is exactly "some address belongs to both". *)
Lemma overlaps_complete n m a :
  net_wf n → net_wf m → addr_wf a →
  net_contains n a = true → net_contains m a = true → overlaps n m = true.
Proof.
  intros Hn Hm Ha. rewrite !net_contains_spec by done. intros [Hv Hi] [Hv' Hi'].
  unfold overlaps. rewrite !orb_true_iff, !net_contains_spec
    by eauto using network_address_wf, broadcast_address_wf.
  rewrite !broadcast_spec by done. simpl.
  pose proof (block_size_pos n Hn). pose proof (block_size_pos m Hm).
  destruct (decide (net_address m ≤ net_address n)).
  - left. left. left. split; [congruence|lia].
  - left. right. split; [congruence|lia].
Qed.

Lemma make_network_wf v a p :
  version_wf v → 0 ≤ p ≤ max_prefixlen v → 0 ≤ a < 2 ^ max_prefixlen v →
  net_wf (make_network v a p).
Proof.
  intros Hv Hp Ha.
  assert (0 < 2 ^ (max_prefixlen v - p)) by (apply Z.pow_pos_nonneg; lia).
  unfold make_network. constructor; simpl; try done.
  - rewrite land_mask by done. apply Z.mul_nonneg_nonneg; [apply Z.div_pos|]; lia.
  - rewrite land_mask by done.
    pose proof (Z.mul_div_le a (2 ^ (max_prefixlen v - p))). lia.
  - unfold netmask. simpl. rewrite <-Z.land_assoc, Z.land_diag. done.
Qed.
