(* ===== verification/IpText.v ===== *)
(** * Addresses and networks as text

    Parsing gives well-formed networks only, and the textual form of an IPv4
    network reads back as that network: the CIDR and INET columns, which the
    services write with [str] and read with [ip_network], can be kept as values. *)
From Stdlib Require Import Lia.
From S2P Require Import Prelude Models IpAddr.

(** ** Numerals are bounded by their length *)

Lemma digit_value_bounds a v : digit_value a = Some v → 0 ≤ v < 10.
Proof. unfold digit_value. case_match eqn:Hb; intros ?; simplify_eq. lia. Qed.

Lemma hex_value_bounds a v : hex_value a = Some v → 0 ≤ v < 16.
Proof. unfold hex_value. repeat case_match; intros ?; simplify_eq; lia. Qed.

Lemma int_of_digits_bounds value base acc s v :
  0 < base → (∀ a x, value a = Some x → 0 ≤ x < base) → 0 ≤ acc →
  int_of_digits value base acc s = Some v →
  0 ≤ v < (acc + 1) * base ^ Z.of_nat (String.length s).
Proof.
  intros Hb Hv. revert acc. induction s as [|a s IH]; intros acc Hacc; cbn [int_of_digits].
  { intros ?; simplify_eq/=. change (base ^ Z.of_nat 0) with 1. lia. }
  intros (x & Hx & Hr)%bind_Some. apply Hv in Hx. apply IH in Hr; [|lia].
  cbn [String.length]. rewrite Nat2Z.inj_succ, Z.pow_succ_r by lia.
  assert (0 < base ^ Z.of_nat (String.length s)) by (apply Z.pow_pos_nonneg; lia).
  split; [lia|]. eapply Z.lt_le_trans; [apply Hr|]. rewrite Z.mul_assoc.
  apply Z.mul_le_mono_nonneg_r; [lia|]. nia.
Qed.

Lemma int_of_string_nonneg s v : int_of_string s = Some v → 0 ≤ v.
Proof.
  unfold int_of_string. case_match; [done|].
  intros Hv%int_of_digits_bounds; [lia|lia|apply digit_value_bounds|lia].
Qed.

Lemma parse_octet_bounds s v : parse_octet s = Some v → 0 ≤ v < 256.
Proof.
  unfold parse_octet. intros (x & Hx%int_of_string_nonneg & Hv)%bind_Some.
  repeat case_match; simplify_eq. lia.
Qed.

Lemma v4_int_bounds s v : v4_int_from_string s = Some v → 0 ≤ v < 2 ^ 32.
Proof.
  unfold v4_int_from_string. repeat case_match; try done.
  intros (a & Ha & (b & Hb & (c & Hc & (d & Hd & Hv)%bind_Some)%bind_Some)%bind_Some)%bind_Some.
  apply parse_octet_bounds in Ha, Hb, Hc, Hd. simplify_eq. lia.
Qed.

(** ** IPv6 *)

Lemma parse_hextet_bounds s v : parse_hextet s = Some v → 0 ≤ v < 2 ^ 16.
Proof.
  unfold parse_hextet. destruct (str_is_empty s); [done|].
  destruct (4 <? String.length s)%nat eqn:Hl; simpl; [done|].
  apply Nat.ltb_ge in Hl.
  intros Hv%int_of_digits_bounds; [|lia|apply hex_value_bounds|lia].
  split; [lia|]. eapply Z.lt_le_trans; [apply Hv|]. rewrite Z.mul_1_l.
  change (2 ^ 16) with (16 ^ 4). apply Z.pow_le_mono_r; lia.
Qed.

(** [i << 16 | h] with [h] below [1 << 16] appends a digit in base [2 ^ 16]. *)
Lemma append_hextet i h : 0 ≤ i → 0 ≤ h < 2 ^ 16 → Z.lor (Z.shiftl i 16) h = i * 2 ^ 16 + h.
Proof.
  intros Hi Hh. rewrite Z.shiftl_mul_pow2 by lia.
  assert (Z.land (i * 2 ^ 16) h = 0) as Hl.
  { apply Z.bits_inj'. intros k Hk. rewrite Z.land_spec, Z.bits_0.
    destruct (Z.ltb_spec k 16).
    - by rewrite Z.mul_pow2_bits_low by lia.
    - rewrite (testbit_above h 16) by lia. apply andb_false_r. }
  rewrite <-Z.lxor_lor by done. symmetry. by apply Z.add_nocarry_lxor.
Qed.

Lemma parse_hextets_None parts :
  foldl (λ o s, i ← o; h ← parse_hextet s; Some (Z.lor (Z.shiftl i 16) h)) None parts = None.
Proof. induction parts; simpl; auto. Qed.

Lemma parse_hextets_bounds acc parts v k :
  0 ≤ k → 0 ≤ acc < 2 ^ k → parse_hextets acc parts = Some v →
  0 ≤ v < 2 ^ (k + 16 * Z.of_nat (length parts)).
Proof.
  unfold parse_hextets. revert acc k.
  induction parts as [|p parts IH]; intros acc k Hk Hacc; simpl.
  { intros ?; simplify_eq. by rewrite Z.add_0_r. }
  destruct (parse_hextet p) as [h|] eqn:Hp; simpl; [|by rewrite parse_hextets_None].
  apply parse_hextet_bounds in Hp. rewrite append_hextet by lia.
  intros Hv. apply (IH _ (k + 16)) in Hv; [|lia|].
  - replace (k + 16 * _) with (k + 16 + 16 * Z.of_nat (length parts)) by lia. done.
  - rewrite Z.pow_add_r by lia. nia.
Qed.

Lemma v6_int_bounds s v : v6_int_from_string s = Some v → 0 ≤ v < 2 ^ 128.
Proof.
  unfold v6_int_from_string. destruct (str_is_empty s); [done|].
  destruct (_ <? 3)%nat; [done|]. intros (parts & _ & Hv)%bind_Some.
  destruct (9 <? length parts)%nat; [done|].
  apply bind_Some in Hv as (skip & _ & Hv).
  destruct skip as [i|].
  - set (hi := if bool_decide (head parts = Some "") then (i - 1)%nat else i) in *.
    set (lo := if bool_decide (last parts = Some "") then _ else _) in *.
    destruct (_ && _); [done|]. destruct (_ && _); [done|].
    destruct (8 <? hi + lo + 1)%nat eqn:H8; [done|]. apply Nat.ltb_ge in H8.
    apply bind_Some in Hv as (high & Hhigh & Hv).
    apply (parse_hextets_bounds _ _ _ 0) in Hhigh; [|lia|lia].
    set (k := 16 * Z.of_nat (8 - (hi + lo))) in *.
    assert (0 ≤ k) by lia.
    assert (0 ≤ high < 2 ^ (16 * Z.of_nat hi)) as Hb.
    { split; [lia|]. eapply Z.lt_le_trans; [apply Hhigh|].
      apply Z.pow_le_mono_r; [lia|]. rewrite length_take. lia. }
    apply (parse_hextets_bounds _ _ _ (16 * Z.of_nat hi + k)) in Hv; [|lia|].
    + split; [lia|]. eapply Z.lt_le_trans; [apply Hv|].
      apply Z.pow_le_mono_r; [lia|]. rewrite length_drop. lia.
    + rewrite Z.shiftl_mul_pow2, Z.pow_add_r by lia.
      assert (0 < 2 ^ k) by (apply Z.pow_pos_nonneg; lia). nia.
  - destruct (length parts =? 8)%nat eqn:H8; simpl in Hv; [|done].
    apply Nat.eqb_eq in H8. destruct (_ || _); [done|].
    apply (parse_hextets_bounds _ _ _ 0) in Hv; [|lia|lia]. rewrite H8 in Hv. done.
Qed.

(** ** Prefixes *)

Lemma prefix_from_prefix_string_bounds v s p :
  prefix_from_prefix_string v s = Some p → 0 ≤ p ≤ max_prefixlen v.
Proof.
  unfold prefix_from_prefix_string. intros (q & Hq%int_of_string_nonneg & Hp)%bind_Some.
  case_match eqn:Hle; simplify_eq. lia.
Qed.

Lemma prefix_from_ip_int_bounds v ip p :
  prefix_from_ip_int v ip = Some p → 0 ≤ p ≤ max_prefixlen v.
Proof.
  unfold prefix_from_ip_int. case_match; [|done]. intros ?; simplify_eq.
  pose proof (max_prefixlen_pos v). unfold count_righthand_zero_bits.
  destruct (ip =? 0); [lia|].
  assert (∀ z, 0 ≤ bit_length z) as Hb.
  { intros z. unfold bit_length. destruct (z =? 0); [lia|]. pose proof (Z.log2_nonneg z). lia. }
  pose proof (Hb (Z.land (Z.lnot ip) (ip - 1))). lia.
Qed.

Lemma v4_make_netmask_bounds s p : v4_make_netmask s = Some p → 0 ≤ p ≤ 32.
Proof.
  unfold v4_make_netmask. destruct (prefix_from_prefix_string 4 s) eqn:Hp.
  - intros ?; simplify_eq. by apply prefix_from_prefix_string_bounds in Hp.
  - unfold v4_prefix_from_ip_string. intros (ip & _ & Hv)%bind_Some.
    destruct (prefix_from_ip_int 4 ip) eqn:Hi; simplify_eq.
    + by apply prefix_from_ip_int_bounds in Hi.
    + by apply prefix_from_ip_int_bounds in Hv.
Qed.

(** Whatever text is accepted, the network it denotes is well formed: its host
    bits are zero and its prefix fits its family. *)
Lemma ip_network_wf s n : ip_network s = Some n → net_wf n.
Proof.
  unfold ip_network. destruct (v4_network s) as [m|] eqn:H4.
  - intros ?; simplify_eq. unfold v4_network in H4. repeat case_match; try done.
    + apply bind_Some in H4 as (a & Ha%v4_int_bounds & ?); simplify_eq.
      apply make_network_wf; [by left|change (max_prefixlen 4) with 32; lia|done].
    + apply bind_Some in H4 as (a & Ha%v4_int_bounds & H4).
      apply bind_Some in H4 as (p & Hp%v4_make_netmask_bounds & ?); simplify_eq.
      by apply make_network_wf; [left|..].
  - clear H4. unfold v6_network. repeat case_match; try done.
    + intros (a & Ha%v6_int_bounds & ?)%bind_Some; simplify_eq.
      apply make_network_wf; [by right|change (max_prefixlen 6) with 128; lia|done].
    + intros (a & Ha%v6_int_bounds & (p & Hp%prefix_from_prefix_string_bounds & ?)%bind_Some)%bind_Some;
        simplify_eq. by apply make_network_wf; [right|..].
Qed.

(** ** Round trip of IPv4 networks *)

Fixpoint str_free (sep : Ascii.ascii) (s : string) : bool :=
  match s with
  | EmptyString => true
  | String a r => bool_decide (a ≠ sep) && str_free sep r
  end.

Lemma str_split_nonempty sep s : ∃ p ps, str_split sep s = p :: ps.
Proof.
  induction s as [|a s (p & ps & IH)]; simpl; [eauto|]. rewrite IH. case_decide; eauto.
Qed.

Lemma str_split_app sep p s :
  str_free sep p = true → str_split sep (p +:+ String sep s) = p :: str_split sep s.
Proof.
  induction p as [|a p IH]; simpl.
  - intros _. destruct (str_split_nonempty sep s) as (q & qs & ->). by rewrite decide_True.
  - intros [Ha Hp]%andb_true_iff. rewrite IH by done. apply bool_decide_eq_true in Ha.
    by rewrite decide_False.
Qed.

Lemma str_split_single sep p : str_free sep p = true → str_split sep p = [p].
Proof.
  induction p as [|a p IH]; simpl; [done|]. intros [Ha Hp]%andb_true_iff.
  rewrite IH by done. apply bool_decide_eq_true in Ha. by rewrite decide_False.
Qed.

Lemma str_free_app sep p q : str_free sep (p +:+ q) = str_free sep p && str_free sep q.
Proof. induction p as [|a p IH]; simpl; [done|]. by rewrite IH, andb_assoc. Qed.

(** A decimal numeral below 256 reads back, and has no separator in it. *)
Definition octet_text_ok (k : Z) : bool :=
  bool_decide (parse_octet (pretty k) = Some k) &&
  bool_decide (int_of_string (pretty k) = Some k) &&
  str_free DOT (pretty k) && str_free SLASH (pretty k).

Lemma octet_text k : 0 ≤ k < 256 →
  parse_octet (pretty k) = Some k ∧ int_of_string (pretty k) = Some k ∧
  str_free DOT (pretty k) = true ∧ str_free SLASH (pretty k) = true.
Proof.
  intros Hk.
  assert (forallb octet_text_ok (map Z.of_nat (seq 0 256)) = true) as Hall
    by (vm_compute; reflexivity).
  rewrite forallb_forall in Hall. specialize (Hall k).
  assert (In k (map Z.of_nat (seq 0 256))) as Hin.
  { apply in_map_iff. exists (Z.to_nat k). split; [lia|]. apply in_seq. lia. }
  apply Hall in Hin. unfold octet_text_ok in Hin.
  rewrite !andb_true_iff, !bool_decide_eq_true in Hin. by destruct Hin as [[[? ?] ?] ?].
Qed.

Lemma octet_bounds v i : 0 ≤ octet v i < 256.
Proof.
  unfold octet. change 255 with (Z.ones 8). rewrite Z.land_ones by lia.
  apply Z.mod_pos_bound. lia.
Qed.

Lemma octets_compose v : 0 ≤ v < 2 ^ 32 →
  ((octet v 3 * 256 + octet v 2) * 256 + octet v 1) * 256 + octet v 0 = v.
Proof.
  intros Hv. unfold octet. change 255 with (Z.ones 8).
  rewrite !Z.land_ones, !Z.shiftr_div_pow2 by lia.
  change (2 ^ 8) with 256. change (2 ^ (8 * 3)) with (256 * 256 * 256).
  change (2 ^ (8 * 2)) with (256 * 256). change (2 ^ (8 * 1)) with 256.
  change (2 ^ (8 * 0)) with 1. rewrite Z.div_1_r.
  rewrite <-!Z.div_div by lia.
  pose proof (Z.div_mod v 256). pose proof (Z.div_mod (v / 256) 256).
  pose proof (Z.div_mod (v / 256 / 256) 256).
  rewrite (Z.mod_small (v / 256 / 256 / 256)); [lia|].
  split; [repeat apply Z.div_pos; lia|].
  repeat (apply Z.div_lt_upper_bound; [lia|]). lia.
Qed.

Lemma v4_string_parts v :
  str_split DOT (v4_string_from_int v) =
    [pretty (octet v 3); pretty (octet v 2); pretty (octet v 1); pretty (octet v 0)].
Proof.
  destruct (octet_text _ (octet_bounds v 3)) as (_ & _ & H3 & _).
  destruct (octet_text _ (octet_bounds v 2)) as (_ & _ & H2 & _).
  destruct (octet_text _ (octet_bounds v 1)) as (_ & _ & H1 & _).
  destruct (octet_text _ (octet_bounds v 0)) as (_ & _ & H0 & _).
  unfold v4_string_from_int. 
  repeat match goal with |- context ["." +:+ ?x] => change ("." +:+ x) with (String DOT x) end.
  rewrite (str_split_app _ _ _ H3), (str_split_app _ _ _ H2), (str_split_app _ _ _ H1).
  by rewrite (str_split_single _ _ H0).
Qed.

Lemma v4_string_parse v : 0 ≤ v < 2 ^ 32 → v4_int_from_string (v4_string_from_int v) = Some v.
Proof.
  intros Hv. unfold v4_int_from_string. rewrite v4_string_parts.
  rewrite (proj1 (octet_text _ (octet_bounds v 3))); cbn [mbind option_bind].
  rewrite (proj1 (octet_text _ (octet_bounds v 2))); cbn [mbind option_bind].
  rewrite (proj1 (octet_text _ (octet_bounds v 1))); cbn [mbind option_bind].
  rewrite (proj1 (octet_text _ (octet_bounds v 0))); cbn [mbind option_bind].
  f_equal. by apply octets_compose.
Qed.

Lemma v4_string_no_slash v : str_free SLASH (v4_string_from_int v) = true.
Proof.
  unfold v4_string_from_int. rewrite !str_free_app.
  by rewrite !(proj2 (proj2 (proj2 (octet_text _ (octet_bounds v _))))).
Qed.

(** The stored text of an IPv4 network is its value. *)
Lemma v4_network_roundtrip n : net_wf n → net_version n = 4 → ip_network (net_str n) = Some n.
Proof.
  intros [_ Hp Hlo Hhi Hhost] Hv. destruct n as [v a p]; simpl in *. subst v.
  change (max_prefixlen 4) with 32 in *.
  assert (v4_network (net_str (IpNet 4 a p)) = Some (IpNet 4 a p)) as H4.
  { unfold v4_network, net_str, ip_str. rewrite decide_True by done. cbn [ip_int network_address].
    change ("/" +:+ ?x) with (String SLASH x).
    destruct (octet_text p) as (_ & Hpi & _ & Hps); [lia|].
    rewrite str_split_app by apply v4_string_no_slash.
    cbn [net_prefixlen net_address]. rewrite (str_split_single _ _ Hps), v4_string_parse by done.
    cbn [mbind option_bind]. unfold v4_make_netmask, prefix_from_prefix_string. rewrite Hpi.
    cbn [mbind option_bind]. change (max_prefixlen 4) with 32.
    destruct (Z.leb_spec p 32); [|lia]. cbn [mbind option_bind].
    unfold make_network. unfold netmask in Hhost. simpl in Hhost. by rewrite Hhost. }
  unfold ip_network. by rewrite H4.
Qed.

(** The text of a well-formed IPv4 network, as the service stores it in a CIDR
    column, parses back to that very network; and whatever text parses, of either
    family, denotes a well-formed network (no host bits, a prefix its family
    allows), which [str] and [ip_network] then keep. *)
Theorem network_text_roundtrip s n :
  ip_network s = Some n → net_wf n ∧ (net_version n = 4 → ip_network (net_str n) = Some n).
Proof.
  intros Hn%ip_network_wf. split; [done|]. intros Hv. by apply v4_network_roundtrip.
Qed.

Lemma network_text_roundtrip_witness :
  net_str <$> ip_network "10.1.2.3/255.255.255.0" = Some "10.1.2.0/24" ∧
  ip_network "10.1.2.0/24" = Some (IpNet 4 167838208 24).
Proof.
  split; [vm_compute; reflexivity|].
  refine (proj2 (network_text_roundtrip "10.1.2.3/255.255.255.0" (IpNet 4 167838208 24) _) _);
    vm_compute; reflexivity.
Defined.
