(* ===== verification/FreeOffset.v ===== *)
(** * The free-offset search

    [IpamService._first_free_offset]: sort and merge the blocked ranges, then scan
    from [start] to the end of the pool and around from zero.  The search is
    proved equivalent to the naive reference "first free offset in cyclic order
    from [start]". *)
From stdpp Require Import sorting.
From Stdlib Require Import Lia.
From S2P Require Import Prelude.

(** Python's order on pairs of integers. *)
Definition range_le (a b : Z * Z) : Prop := a.1 < b.1 ∨ (a.1 = b.1 ∧ a.2 ≤ b.2).

#[export] Instance range_le_dec : RelDecision range_le.
Proof. intros a b. unfold range_le. apply _. Defined.
#[export] Instance range_le_trans : Transitive range_le.
Proof. intros [a1 a2] [b1 b2] [c1 c2]. unfold range_le. simpl. lia. Qed.
#[export] Instance range_le_total : Total range_le.
Proof. intros [a1 a2] [b1 b2]. unfold range_le. simpl. lia. Qed.

(** One iteration of the merging loop; the accumulator is the list [merged],
    last element first. *)
Definition merge_range (size : Z) (merged : list (Z * Z)) (r : Z * Z) : list (Z * Z) :=
  let '(low, high) := r in
  if (high <? 0) || (size <=? low) then merged
  else
    let low := Z.max 0 low in
    let high := Z.min (size - 1) high in
    match merged with
    | (last_low, last_high) :: rest =>
      if low <=? last_high + 1 then (last_low, Z.max last_high high) :: rest
      else (low, high) :: merged
    | [] => [(low, high)]
    end.

Definition merge_ranges (size : Z) (blocked : list (Z * Z)) : list (Z * Z) :=
  rev (foldl (merge_range size) [] (merge_sort range_le blocked)).

(** The inner loop: [inl] a returned offset, [inr] the cursor after the loop. *)
Fixpoint scan_ranges (range_end cursor : Z) (merged : list (Z * Z)) : Z + Z :=
  match merged with
  | [] => inr cursor
  | (low, high) :: rest =>
    if high <? cursor then scan_ranges range_end cursor rest
    else if range_end <? low then inr cursor
    else if cursor <? low then inl cursor
    else
      let cursor := Z.max cursor (high + 1) in
      if range_end <? cursor then inr cursor else scan_ranges range_end cursor rest
  end.

Definition scan_window (merged : list (Z * Z)) (window : Z * Z) : option Z :=
  let '(range_start, range_end) := window in
  if range_end <? range_start then None
  else
    match scan_ranges range_end range_start merged with
    | inl offset => Some offset
    | inr cursor => if cursor <=? range_end then Some cursor else None
    end.

Definition first_free_offset (size start : Z) (blocked : list (Z * Z)) : option Z :=
  let merged := merge_ranges size blocked in
  match scan_window merged (start, size - 1) with
  | Some offset => Some offset
  | None => scan_window merged (0, start - 1)
  end.

(** ** Reference *)

(** [any(low <= x <= high for low, high in ranges)]. *)
Definition in_ranges (ranges : list (Z * Z)) (x : Z) : bool :=
  existsb (λ r, (r.1 <=? x) && (x <=? r.2)) ranges.

Definition covered (ranges : list (Z * Z)) (x : Z) : Prop :=
  ∃ r, r ∈ ranges ∧ r.1 ≤ x ≤ r.2.

(** [o] is the first free offset at or after [a] within [[a, b]]. *)
Definition first_free_in (ranges : list (Z * Z)) (a b : Z) (o : option Z) : Prop :=
  match o with
  | Some x => a ≤ x ≤ b ∧ ¬ covered ranges x ∧ ∀ y, a ≤ y < x → covered ranges y
  | None => ∀ y, a ≤ y ≤ b → covered ranges y
  end.

Lemma covered_cons r ranges x :
  covered (r :: ranges) x ↔ r.1 ≤ x ≤ r.2 ∨ covered ranges x.
Proof.
  unfold covered. setoid_rewrite elem_of_cons. split.
  - intros (s & [->|?] & ?); eauto.
  - intros [?|(s & ? & ?)]; eauto.
Qed.

Lemma covered_perm l k x : l ≡ₚ k → covered l x ↔ covered k x.
Proof. intros Hp. unfold covered. by setoid_rewrite Hp. Qed.

Lemma covered_nil x : ¬ covered [] x.
Proof. intros (r & Hr%not_elem_of_nil & _). done. Qed.

(** ** Merging keeps coverage and separates the ranges *)

(** [acc], last first: non-empty ranges inside [[0,size)], each pair separated by
    at least one free offset. *)
Fixpoint separated (size : Z) (acc : list (Z * Z)) : Prop :=
  match acc with
  | [] => True
  | r :: rest =>
    0 ≤ r.1 ≤ r.2 ∧ r.2 < size ∧
    Forall (λ s : Z * Z, s.2 + 1 < r.1) rest ∧ separated size rest
  end.

Lemma merge_range_spec size acc low high x :
  0 < size → low ≤ high → separated size acc →
  Forall (λ s : Z * Z, s.1 ≤ Z.max 0 low) acc →
  separated size (merge_range size acc (low, high)) ∧
  Forall (λ s : Z * Z, s.1 ≤ Z.max 0 low) (merge_range size acc (low, high)) ∧
  (covered (merge_range size acc (low, high)) x ↔
     (0 ≤ x < size ∧ low ≤ x ≤ high) ∨ covered acc x).
Proof.
  intros Hsz Hlh Hsep Hlow. unfold merge_range.
  destruct (Z.ltb_spec high 0), (Z.leb_spec size low); simpl;
    try (split; [done|split; [done|]]; split; [auto|intros [?|?]; [lia|done]]).
  destruct acc as [|[ll lh] rest]; simpl in *.
  { split; [repeat split; auto; lia|]. split; [repeat constructor; simpl; lia|].
    rewrite covered_cons. simpl. intuition lia. }
  destruct Hsep as (Hr1 & Hr2 & Hrest & Hsep).
  apply Forall_cons in Hlow as [Hl Hlow]. simpl in *.
  destruct (Z.leb_spec (Z.max 0 low) (lh + 1)); simpl.
  - split; [repeat split; auto; lia|]. split; [by constructor|].
    rewrite !covered_cons. simpl. intuition lia.
  - split.
    { repeat split; auto; try lia. constructor; [simpl; lia|].
      eapply Forall_impl; [exact Hrest|]. intros ? ?; simpl in *; lia. }
    split; [constructor; [simpl; lia|constructor; [simpl; lia|done]]|].
    rewrite !covered_cons. simpl. intuition lia.
Qed.

Lemma merge_fold_spec size l acc x :
  0 < size → StronglySorted range_le l → Forall (λ r : Z * Z, r.1 ≤ r.2) l →
  separated size acc →
  (∀ r, r ∈ l → Forall (λ s : Z * Z, s.1 ≤ Z.max 0 r.1) acc) →
  separated size (foldl (merge_range size) acc l) ∧
  (covered (foldl (merge_range size) acc l) x ↔
     (0 ≤ x < size ∧ covered l x) ∨ covered acc x).
Proof.
  intros Hsz Hsort. revert acc. induction Hsort as [|[low high] l Hsort IH Hle]; intros acc Hne Hsep Hlow.
  { simpl. split; [done|]. split; [auto|]. intros [[_ []%covered_nil]|?]; done. }
  apply Forall_cons in Hne as [Hlh Hne]. simpl in *.
  destruct (merge_range_spec size acc low high x) as (Hs & Hf & Hc);
    [done|done|done|apply (Hlow (low, high)), list_elem_of_here|].
  destruct (IH (merge_range size acc (low, high))) as [IH1 IH2]; [done|done| |].
  { intros r Hr. eapply Forall_impl; [done|]. intros s ?.
    rewrite Forall_forall in Hle. specialize (Hle r Hr).
    unfold range_le in Hle. simpl in *. lia. }
  split; [done|]. rewrite IH2, Hc, covered_cons. simpl. tauto.
Qed.

(** The merged list, in ascending order. *)
Fixpoint ascending (size : Z) (l : list (Z * Z)) : Prop :=
  match l with
  | [] => True
  | r :: rest =>
    0 ≤ r.1 ≤ r.2 ∧ r.2 < size ∧
    Forall (λ s : Z * Z, r.2 + 1 < s.1) rest ∧ ascending size rest
  end.

Lemma ascending_snoc size l r :
  ascending size l → 0 ≤ r.1 ≤ r.2 → r.2 < size →
  Forall (λ s : Z * Z, s.2 + 1 < r.1) l → ascending size (l ++ [r]).
Proof.
  induction l as [|s l IH]; simpl; [repeat split; auto; lia|].
  intros (? & ? & Hall & Hasc) ? ? [Hs Hl]%Forall_cons.
  repeat split; try done; try lia; [|auto].
  apply Forall_app. split; [done|]. by repeat constructor.
Qed.

Lemma separated_ascending size acc : separated size acc → ascending size (rev acc).
Proof.
  induction acc as [|r acc IH]; simpl; [done|].
  intros (? & ? & ? & ?). apply ascending_snoc; auto.
  rewrite Forall_forall in *. intros s Hs. apply H1. rewrite list_elem_of_In in *. by apply in_rev.
Qed.

Lemma merge_ranges_spec size blocked :
  0 < size → Forall (λ r : Z * Z, r.1 ≤ r.2) blocked →
  ascending size (merge_ranges size blocked) ∧
  ∀ x, covered (merge_ranges size blocked) x ↔ 0 ≤ x < size ∧ covered blocked x.
Proof.
  intros Hsz Hne. unfold merge_ranges.
  assert (merge_sort range_le blocked ≡ₚ blocked) as Hp by apply merge_sort_Permutation.
  assert (StronglySorted range_le (merge_sort range_le blocked)) as Hs
    by apply (StronglySorted_merge_sort _).
  assert (Forall (λ r : Z * Z, r.1 ≤ r.2) (merge_sort range_le blocked)) as Hne'
    by by rewrite Hp.
  assert (∀ x, separated size (foldl (merge_range size) [] (merge_sort range_le blocked)) ∧
    (covered (foldl (merge_range size) [] (merge_sort range_le blocked)) x ↔
     (0 ≤ x < size ∧ covered (merge_sort range_le blocked) x) ∨ covered [] x)) as Hm.
  { intros x. apply merge_fold_spec; simpl; auto. }
  split; [apply separated_ascending, (Hm 0)|].
  intros x. destruct (Hm x) as [_ Hc].
  rewrite (covered_perm _ (foldl (merge_range size) [] (merge_sort range_le blocked)));
    [|symmetry; apply Permutation_rev].
  rewrite Hc, (covered_perm _ _ _ Hp). pose proof (covered_nil x). tauto.
Qed.

(** ** The scan finds the first free offset of its window *)

Lemma scan_ranges_spec size merged range_end cursor :
  ascending size merged → cursor ≤ range_end →
  first_free_in merged cursor range_end
    (match scan_ranges range_end cursor merged with
     | inl offset => Some offset
     | inr c => if c <=? range_end then Some c else None
     end).
Proof.
  revert cursor. induction merged as [|[low high] rest IH]; intros cursor Hasc Hcur; simpl.
  { destruct (Z.leb_spec cursor range_end); [|lia]. simpl.
    split; [lia|]. split; [apply covered_nil|]. intros y ?; lia. }
  destruct Hasc as (Hlh & Hsz & Hgap & Hasc). simpl in *.
  assert (∀ y, y ≤ high → ¬ covered rest y) as Hrest.
  { intros y Hy ([a b] & Hin & ?). rewrite Forall_forall in Hgap.
    specialize (Hgap _ Hin). simpl in *. lia. }
  assert (∀ o, first_free_in rest cursor range_end o → high < cursor →
            first_free_in ((low, high) :: rest) cursor range_end o) as Hskip.
  { intros [x|] Ho Hlt; simpl in *.
    - destruct Ho as (? & Hn & Hb). repeat split; try lia.
      + rewrite covered_cons. simpl. intros [?|?]; [lia|done].
      + intros y ?. rewrite covered_cons. right. auto.
    - intros y ?. rewrite covered_cons. right. auto. }
  destruct (Z.ltb_spec high cursor); [by apply Hskip; [apply IH|]|].
  destruct (Z.ltb_spec range_end low).
  { destruct (Z.leb_spec cursor range_end); [|lia]. simpl.
    repeat split; try lia. rewrite covered_cons. simpl. intros [?|Hc]; [lia|].
    eapply Hrest; [|done]. lia. }
  destruct (Z.ltb_spec cursor low).
  { simpl. repeat split; try lia. rewrite covered_cons. simpl.
    intros [?|Hc]; [lia|]. eapply Hrest; [|done]. lia. }
  replace (Z.max cursor (high + 1)) with (high + 1) by lia.
  destruct (Z.ltb_spec range_end (high + 1)).
  { destruct (Z.leb_spec (high + 1) range_end); [lia|]. simpl.
    intros y ?. rewrite covered_cons. simpl. left. lia. }
  specialize (IH (high + 1) Hasc ltac:(lia)).
  destruct (match scan_ranges range_end (high + 1) rest with
            | inl offset => Some offset
            | inr c => if c <=? range_end then Some c else None
            end) as [x|]; simpl in *.
  - destruct IH as (? & Hn & Hb). repeat split; try lia.
    + rewrite covered_cons. simpl. intros [?|?]; [lia|done].
    + intros y ?. rewrite covered_cons. simpl.
      destruct (decide (y ≤ high)); [left; lia|]. right. apply Hb. lia.
  - intros y ?. rewrite covered_cons. simpl.
    destruct (decide (y ≤ high)); [left; lia|]. right. apply IH. lia.
Qed.

Lemma scan_window_spec size merged a b :
  ascending size merged → first_free_in merged a b (scan_window merged (a, b)).
Proof.
  intros Hasc. unfold scan_window. destruct (Z.ltb_spec b a).
  - simpl. lia.
  - by eapply scan_ranges_spec.
Qed.

Lemma first_free_in_merged size blocked a b o :
  0 < size → Forall (λ r : Z * Z, r.1 ≤ r.2) blocked → 0 ≤ a → b < size →
  first_free_in (merge_ranges size blocked) a b o → first_free_in blocked a b o.
Proof.
  intros Hsz Hne Ha Hb. destruct (merge_ranges_spec size blocked Hsz Hne) as [_ Hc].
  destruct o as [x|]; simpl; setoid_rewrite Hc.
  - intros (? & Hn & Hall). split; [done|]. split; [|intros y ?; by apply Hall].
    intros Hcov. apply Hn. split; [lia|done].
  - intros Hall y Hy. by apply Hall.
Qed.

(** What the search promises, stated without the sorting and merging: the first
    free offset of [[start, size)], else the first free offset of [[0, start)]. *)
Definition cyclic_first_free (size start : Z) (blocked : list (Z * Z)) (o : option Z) : Prop :=
  match o with
  | Some x =>
    first_free_in blocked start (size - 1) (Some x) ∨
    (first_free_in blocked start (size - 1) None ∧
     first_free_in blocked 0 (start - 1) (Some x))
  | None =>
    first_free_in blocked start (size - 1) None ∧ first_free_in blocked 0 (start - 1) None
  end.

Lemma first_free_offset_cyclic size start blocked :
  0 < size → 0 ≤ start ≤ size → Forall (λ r : Z * Z, r.1 ≤ r.2) blocked →
  cyclic_first_free size start blocked (first_free_offset size start blocked).
Proof.
  intros Hsz Hs Hne. destruct (merge_ranges_spec size blocked Hsz Hne) as [Hasc _].
  unfold first_free_offset.
  pose proof (scan_window_spec size _ start (size - 1) Hasc) as H1.
  pose proof (scan_window_spec size _ 0 (start - 1) Hasc) as H2.
  apply first_free_in_merged in H1; [|done|done|lia|lia].
  apply first_free_in_merged in H2; [|done|done|lia|lia].
  destruct (scan_window _ (start, size - 1)) as [x|]; [by left|].
  destruct (scan_window _ (0, start - 1)) as [x|]; [by right|by split].
Qed.

(** An offset that the search returns is in the pool and unblocked. *)
Lemma first_free_offset_free size start blocked x :
  0 < size → 0 ≤ start ≤ size → Forall (λ r : Z * Z, r.1 ≤ r.2) blocked →
  first_free_offset size start blocked = Some x → 0 ≤ x < size ∧ ¬ covered blocked x.
Proof.
  intros Hsz Hs Hne Hf. pose proof (first_free_offset_cyclic size start blocked Hsz Hs Hne) as Hc.
  rewrite Hf in Hc. destruct Hc as [(? & ? & _)|[_ (? & ? & _)]]; split; auto; lia.
Qed.

Lemma in_ranges_covered ranges x : in_ranges ranges x = true ↔ covered ranges x.
Proof.
  unfold in_ranges, covered. rewrite existsb_exists. split.
  - intros (r & Hr & Hb). exists r. rewrite list_elem_of_In. split; [done|].
    apply andb_true_iff in Hb as [H1 H2]. lia.
  - intros (r & Hr & Hb). exists r. rewrite <-list_elem_of_In. split; [done|].
    apply andb_true_iff. lia.
Qed.

Lemma not_in_ranges ranges x : in_ranges ranges x = false ↔ ¬ covered ranges x.
Proof. rewrite <-in_ranges_covered. destruct (in_ranges ranges x); naive_solver. Qed.

(** ** The naive search *)

(** The offsets of the pool in the order of the search. *)
Definition cyclic_offsets (size start : Z) : list Z :=
  seqZ start (size - start) ++ seqZ 0 start.

(** Walk all offsets and take the first one outside the ranges. *)
Definition naive_free_offset (size start : Z) (blocked : list (Z * Z)) : option Z :=
  List.find (λ x, negb (in_ranges blocked x)) (cyclic_offsets size start).

Lemma first_free_in_unique ranges a b o o' :
  first_free_in ranges a b o → first_free_in ranges a b o' → o = o'.
Proof.
  destruct o as [x|], o' as [y|]; simpl; [|..|done].
  - intros (Hx & Hnx & Hlx) (Hy & Hny & Hly). f_equal.
    destruct (Z.lt_trichotomy x y) as [Hl|[?|Hl]]; [|done|].
    + destruct Hnx. apply Hly. lia.
    + destruct Hny. apply Hlx. lia.
  - intros (Hx & Hnx & _) Hall. destruct Hnx. by apply Hall.
  - intros Hall (Hy & Hny & _). destruct Hny. by apply Hall.
Qed.

Lemma find_seqZ ranges a n :
  0 ≤ n →
  first_free_in ranges a (a + n - 1) (List.find (λ x, negb (in_ranges ranges x)) (seqZ a n)).
Proof.
  intros Hn. revert a. pattern n. apply natlike_ind; [| |done]; clear n Hn.
  - intros a. simpl. lia.
  - intros n Hn IH a. rewrite seqZ_cons by lia. simpl.
    destruct (in_ranges ranges a) eqn:Ha; simpl.
    + apply in_ranges_covered in Ha. specialize (IH (Z.succ a)).
      replace (Z.pred (Z.succ n)) with n by lia.
      destruct (List.find _ _) as [x|]; simpl in *.
      * destruct IH as (Hx & Hnx & Hl). split; [lia|]. split; [done|].
        intros y Hy. destruct (decide (y = a)) as [->|]; [done|apply Hl; lia].
      * intros y Hy. destruct (decide (y = a)) as [->|]; [done|apply IH; lia].
    + apply not_in_ranges in Ha. split; [lia|]. split; [done|]. lia.
Qed.

Lemma find_app {A} (f : A → bool) l k :
  List.find f (l ++ k) = match List.find f l with Some x => Some x | None => List.find f k end.
Proof. induction l as [|x l IH]; simpl; [done|]. by destruct (f x). Qed.

(** C5: the sort-merge-scan search of [_first_free_offset] returns exactly what the
    naive walk over all offsets in cyclic order from [start] returns, for any list
    of non-empty blocked ranges, overlapping and out of bounds ones included. *)
Theorem first_free_offset_naive size start blocked :
  0 < size → 0 ≤ start < size → Forall (λ r : Z * Z, r.1 ≤ r.2) blocked →
  first_free_offset size start blocked = naive_free_offset size start blocked.
Proof.
  intros Hsz Hs Hne.
  pose proof (first_free_offset_cyclic size start blocked Hsz ltac:(lia) Hne) as Hc.
  pose proof (find_seqZ blocked start (size - start) ltac:(lia)) as H1.
  pose proof (find_seqZ blocked 0 start ltac:(lia)) as H2.
  replace (start + (size - start) - 1) with (size - 1) in H1 by lia.
  replace (0 + start - 1) with (start - 1) in H2 by lia.
  unfold naive_free_offset, cyclic_offsets. rewrite find_app.
  destruct (first_free_offset size start blocked) as [x|].
  - destruct Hc as [Hx|[Hn Hx]].
    + by rewrite (first_free_in_unique _ _ _ _ _ H1 Hx).
    + rewrite (first_free_in_unique _ _ _ _ _ H1 Hn). by eapply first_free_in_unique.
  - destruct Hc as [Hn1 Hn2]. rewrite (first_free_in_unique _ _ _ _ _ H1 Hn1).
    by rewrite (first_free_in_unique _ _ _ _ _ H2 Hn2).
Qed.

Lemma first_free_offset_naive_witness :
  first_free_offset 8 5 [(7, 9); (0, 0); (5, 6); (-3, 1)] =
  naive_free_offset 8 5 [(7, 9); (0, 0); (5, 6); (-3, 1)].
Proof.
  apply first_free_offset_naive; [lia|lia|]. repeat constructor; simpl; lia.
Defined.
