(* ===== verification/Ipam.v ===== *)
(** * IP address management: the service

    app/services/ipam.py, one definition per method of [IpamService].  A stored
    CIDR or INET column is the address value itself; [_network(str(pool.cidr))]
    and [_address(pool.gateway)] are then the stored value (the text round trip
    is [Ipam.network_roundtrip], in IpamText.v).  Advisory and row locks are not
    state: a service method runs as one transaction. *)
From stdpp Require Import sorting.
From Stdlib Require Import Lia.
From S2P Require Import Prelude Models Database AuditLog IpAddr FreeOffset.

(** ** app/schemas/ipam.py *)

Record IpRangeRequest := mkIpRangeRequest {
  rg_start : ip_addr; rg_end : ip_addr; rg_reason : option string }.

Record IpPoolCreate := mkIpPoolCreate {
  pc_name : string; pc_cluster_id : option N; pc_cidr : string;
  pc_gateway : option ip_addr; pc_dns_servers : list ip_addr; pc_bridge : string;
  pc_vlan_tag : option Z; pc_excluded_ranges : list IpRangeRequest;
  pc_allocation_strategy : AllocationStrategy; pc_quarantine_seconds : Z }.

(** A field read through [model_fields_set] is [None] when the request left it
    out and [Some v] when it was sent with value [v]. *)
Record IpPoolUpdate := mkIpPoolUpdate {
  pu_name : option string; pu_cluster_id : option (option N); pu_cidr : option string;
  pu_gateway : option (option ip_addr); pu_dns_servers : option (option (list ip_addr));
  pu_bridge : option string; pu_vlan_tag : option (option Z);
  pu_allocation_strategy : option AllocationStrategy;
  pu_quarantine_seconds : option Z; pu_version : Z }.

Record IpPoolResponse := mkIpPoolResponse {
  rp_id : N; rp_name : string; rp_cluster_id : option N; rp_cidr : ip_net;
  rp_prefix_length : Z; rp_gateway : option ip_addr; rp_dns_servers : list ip_addr;
  rp_bridge : string; rp_vlan_tag : option Z; rp_ip_family : Z;
  rp_allocation_strategy : AllocationStrategy; rp_quarantine_seconds : Z;
  rp_is_active : bool; rp_allocated_count : Z; rp_quarantined_count : Z;
  rp_availability_status : string; rp_version : Z }.

Record IpAddressResponse := mkIpAddressResponse {
  ra_id : N; ra_pool_id : N; ra_address : ip_addr; ra_state : IpAddressState;
  ra_reserved_for : option string; ra_quarantined_until : option Z;
  ra_workload_id : option N }.

Record IpAllocationResponse := mkIpAllocationResponse {
  rl_id : N; rl_pool_id : N; rl_ip_address_id : N; rl_address : ip_addr;
  rl_workload_id : N; rl_kind : IpAllocationKind; rl_status : IpAllocationStatus;
  rl_released_at : option Z; rl_quarantined_until : option Z }.

(** ** Helpers *)

Definition invalid (code message : string) : exn := app_error 422 code message.

Definition json_addr (a : ip_addr) : json := JStr (ip_str a).

(** [address.state == state], and the other equality tests of the queries. *)
Definition addr_in_state (s : IpAddressState) (a : ip_address) : bool :=
  bool_decide (addr_state a = s).
Definition addr_in_pool (pool : N) (a : ip_address) : bool :=
  bool_decide (addr_pool_id a = pool).
Definition alloc_in_status (s : IpAllocationStatus) (a : ip_allocation) : bool :=
  bool_decide (alloc_status a = s).
Definition alloc_of_request (request : N) (a : ip_allocation) : bool :=
  bool_decide (alloc_provisioning_request_id a = Some request).

(** [order_by(IpAddress.address)]: PostgreSQL orders INET by family, then value. *)
Definition addr_le (a b : ip_address) : Prop :=
  ip_version (addr_address a) < ip_version (addr_address b) ∨
  (ip_version (addr_address a) = ip_version (addr_address b) ∧
   ip_int (addr_address a) ≤ ip_int (addr_address b)).
#[export] Instance addr_le_dec : RelDecision addr_le.
Proof. intros a b. unfold addr_le. apply _. Defined.

(** [_special]: the network address, the IPv4 broadcast address, the gateway. *)
Definition special (pool : ip_pool) (network : ip_net) (candidate : ip_addr) : bool :=
  bool_decide (candidate = network_address network) ||
  (bool_decide (net_version network = 4) &&
   bool_decide (candidate = broadcast_address network)) ||
  match pool_gateway pool with
  | Some g => bool_decide (candidate = g)
  | None => false
  end.

(** The ranges [_automatic_candidate] must not pick an offset from. *)
Definition blocked_ranges (pool : ip_pool) (exclusions : list (Z * Z))
    (materialized : list Z) : list (Z * Z) :=
  let network := pool_cidr pool in
  let base := net_address network in
  map (λ r, (Z.max 0 (r.1 - base), Z.min (num_addresses network - 1) (r.2 - base)))
      exclusions ++
  map (λ value, (value - base, value - base)) materialized ++
  [(0, 0)] ++
  (if decide (net_version network = 4)
   then [(num_addresses network - 1, num_addresses network - 1)] else []) ++
  match pool_gateway pool with
  | Some g => [(ip_int g - base, ip_int g - base)]
  | None => []
  end.

(** Same cluster, or one of the two pools is global. *)
Definition same_scope (a b : option N) : bool :=
  bool_decide (a = b) || bool_decide (a = None) || bool_decide (b = None).

Section ipam.
Context {E : Type} `{Runtime E}.
Implicit Types (self : service) (pool : ip_pool).

(** [IpamService(...)]: the constructor's role check, then the method. *)
Definition ipam_service {A} self (method : DBM E A) : DBM E A :=
  require_service_role (self_principal self) [SUPER_ADMIN];; method.

Definition _network (value : string) : DBM E ip_net :=
  or_raise (invalid "INVALID_CIDR" "The CIDR is invalid.") (ip_network value).

Definition POOL_NOT_FOUND : exn :=
  app_error 404 "IP_POOL_NOT_FOUND" "The IP pool was not found.".
Definition CLUSTER_NOT_FOUND : exn :=
  app_error 404 "CLUSTER_NOT_FOUND" "The cluster was not found.".
Definition GATEWAY_OUTSIDE_POOL : exn :=
  invalid "GATEWAY_OUTSIDE_POOL" "The gateway must belong to the pool CIDR.".
Definition POOL_OVERLAP : exn :=
  app_error 409 "IP_POOL_OVERLAP" "The CIDR overlaps an existing pool in the same scope.".
Definition VERSION_CONFLICT : exn :=
  app_error 409 "IP_POOL_VERSION_CONFLICT" "The IP pool was modified by another request.".
Definition ADDRESS_UNAVAILABLE : exn :=
  app_error 409 "IP_ADDRESS_UNAVAILABLE" "The IP address is not available.".

Definition POOL_EXHAUSTED : exn :=
  app_error 409 "IP_POOL_EXHAUSTED" "No allocatable IP address remains in the pool.".

Definition _pool_response pool : DBM E IpPoolResponse :=
  assigned ← db_count (λ a, addr_in_pool (pool_id pool) a && addr_in_state ASSIGNED a);
  quarantined ← db_count (λ a, addr_in_pool (pool_id pool) a && addr_in_state QUARANTINED a);
  mret {|
    rp_id := pool_id pool; rp_name := pool_name pool;
    rp_cluster_id := pool_cluster_id pool; rp_cidr := pool_cidr pool;
    rp_prefix_length := net_prefixlen (pool_cidr pool);
    rp_gateway := pool_gateway pool; rp_dns_servers := pool_dns_servers pool;
    rp_bridge := pool_bridge pool; rp_vlan_tag := pool_vlan_tag pool;
    rp_ip_family := pool_ip_family pool;
    rp_allocation_strategy := pool_allocation_strategy pool;
    rp_quarantine_seconds := pool_quarantine_seconds pool;
    rp_is_active := pool_is_active pool;
    rp_allocated_count := assigned; rp_quarantined_count := quarantined;
    rp_availability_status := if pool_is_active pool then "AVAILABLE" else "DISABLED";
    rp_version := pool_version pool |}.

Definition _address_response (address : ip_address) (workload_id : option N)
  : IpAddressResponse :=
  {| ra_id := addr_id address; ra_pool_id := addr_pool_id address;
     ra_address := addr_address address; ra_state := addr_state address;
     ra_reserved_for := addr_reserved_for address;
     ra_quarantined_until := addr_quarantined_until address;
     ra_workload_id := workload_id |}.

(** It asserts that the allocation belongs to a workload. *)
Definition _allocation_response (allocation : ip_allocation) (address : ip_address) pool
  : DBM E IpAllocationResponse :=
  workload_id ← assert_some (alloc_workload_id allocation);
  mret {|
    rl_id := alloc_id allocation; rl_pool_id := pool_id pool;
    rl_ip_address_id := addr_id address; rl_address := addr_address address;
    rl_workload_id := workload_id; rl_kind := alloc_kind allocation;
    rl_status := alloc_status allocation; rl_released_at := alloc_released_at allocation;
    rl_quarantined_until := addr_quarantined_until address |}.

Definition _audit_and_commit self (action target_type : string) (target_id : N) pool
  : DBM E () :=
  add_audit_event ((self_audit self action "SUCCEEDED")
    <| a_target_type := Some target_type |>
    <| a_target_id := Some (JUuid target_id) |>
    <| a_details := Some [("pool_id", JUuid (pool_id pool))] |>);;
  commit.

(** The row of an active pool, locked. *)
Definition _locked_pool (id : N) : DBM E ip_pool :=
  pool ← db_get ip_pool id;
  pool ← or_raise POOL_NOT_FOUND pool;
  raise_if (negb (pool_is_active pool)) POOL_NOT_FOUND;;
  mret pool.

Definition _exclusion_bounds (id : N) : DBM E (list (Z * Z)) :=
  rows ← db_select (λ x, bool_decide (ex_pool_id x = id));
  mret (map (λ x, (ip_int (ex_start_address x), ip_int (ex_end_address x))) rows).

Definition _is_excluded (id : N) (address : ip_addr) : DBM E bool :=
  bounds ← _exclusion_bounds id;
  mret (in_ranges bounds (ip_int address)).

Definition _validated_candidate pool (candidate : ip_addr) (allow_special : bool)
  : DBM E ip_addr :=
  let network := pool_cidr pool in
  raise_if (bool_decide (ip_version candidate ≠ net_version network) ||
            negb (net_contains network candidate))
    (invalid "IP_OUTSIDE_POOL" "The IP address is outside the pool CIDR.");;
  raise_if (negb allow_special && special pool network candidate)
    (app_error 409 "IP_ADDRESS_EXCLUDED" "The IP address is reserved by the network.");;
  mret candidate.

(** Up to [n] draws of an unblocked offset. *)
Fixpoint random_offset (n : nat) (size : Z) (blocked : list (Z * Z)) : DBM E (option Z) :=
  match n with
  | O => mret None
  | S n =>
    random_offset_ ← randrange size;
    if negb (in_ranges blocked random_offset_) then mret (Some random_offset_)
    else random_offset n size blocked
  end.

(** The second half of [_automatic_candidate]: the drawn offset, else the first
    free one, becomes an address row, and the pool's cursor moves past it. *)
Definition materialize_offset pool (blocked : list (Z * Z)) (drawn : option Z)
  : DBM E ip_address :=
  let network := pool_cidr pool in
  offset ← or_raise POOL_EXHAUSTED
    (match drawn with
     | Some o => Some o
     | None => first_free_offset (num_addresses network) (pool_next_offset pool) blocked
     end);
  let candidate := IpAddr (net_version network) (net_address network + offset) in
  db_save (pool <| pool_next_offset := (offset + 1) mod num_addresses network |>);;
  id ← uuid4;
  let address := {|
    addr_id := id; addr_pool_id := pool_id pool; addr_address := candidate;
    addr_state := AVAILABLE; addr_reserved_for := None; addr_quarantined_until := None;
    addr_last_allocated_at := None; addr_version := 1 |} in
  db_add address;;
  flush;;
  mret address.

Definition _automatic_candidate pool : DBM E ip_address :=
  available ← db_scalar_ordered addr_le env_locked
    (λ a, addr_in_pool (pool_id pool) a && addr_in_state AVAILABLE a);
  match available with
  | Some a => mret a
  | None =>
    let network := pool_cidr pool in
    exclusions ← _exclusion_bounds (pool_id pool);
    materialized ← db_select (addr_in_pool (pool_id pool));
    let blocked := blocked_ranges pool exclusions
      (map (λ a, ip_int (addr_address a)) materialized) in
    drawn ←
      (if bool_decide (pool_allocation_strategy pool = RANDOM) && (2 <? num_addresses network)
       then random_offset 1024 (num_addresses network) blocked
       else mret None);
    materialize_offset pool blocked drawn
  end.

(** The address a request asks for, materialized on first use (shared by
    [allocate] and [reserve_for_provisioning]). *)
Definition requested_candidate pool (requested : ip_addr) : DBM E ip_address :=
  candidate ← _validated_candidate pool requested false;
  excluded ← _is_excluded (pool_id pool) candidate;
  raise_if excluded (app_error 409 "IP_ADDRESS_EXCLUDED" "The IP address is excluded.");;
  address ← db_scalar (λ a, addr_in_pool (pool_id pool) a &&
                            bool_decide (addr_address a = candidate));
  match address with
  | Some a => mret a
  | None =>
    id ← uuid4;
    let address := {|
      addr_id := id; addr_pool_id := pool_id pool; addr_address := candidate;
      addr_state := AVAILABLE; addr_reserved_for := None; addr_quarantined_until := None;
      addr_last_allocated_at := None; addr_version := 1 |} in
    db_add address;;
    flush;;
    mret address
  end.

Definition allocation_kind (requested : option ip_addr) : IpAllocationKind :=
  match requested with Some _ => MANUAL | None => AUTOMATIC end.

Definition select_address pool (requested : option ip_addr) : DBM E ip_address :=
  address ← match requested with
            | Some r => requested_candidate pool r
            | None => _automatic_candidate pool
            end;
  raise_if (bool_decide (addr_state address ≠ AVAILABLE)) ADDRESS_UNAVAILABLE;;
  mret address.

(** *** Pools *)

(** [for item in payload.excluded_ranges]. *)
Definition check_excluded_ranges (network : ip_net) (ranges : list IpRangeRequest)
  : DBM E () :=
  for_each ranges (λ item,
    raise_if (bool_decide (ip_version (rg_start item) ≠ net_version network) ||
              bool_decide (ip_version (rg_end item) ≠ net_version network))
      (invalid "IP_FAMILY_MISMATCH" "Excluded addresses must match the pool family.");;
    raise_if (negb (net_contains network (rg_start item)) ||
              negb (net_contains network (rg_end item)) ||
              (ip_int (rg_end item) <? ip_int (rg_start item)))
      (invalid "INVALID_EXCLUDED_RANGE" "An excluded range is outside the pool.")).

Definition check_dns (network : ip_net) (dns : list ip_addr) : DBM E () :=
  raise_if (existsb (λ a, bool_decide (ip_version a ≠ net_version network)) dns)
    (invalid "IP_FAMILY_MISMATCH" "DNS addresses must match the pool family.").

Definition check_gateway (network : ip_net) (gateway : option ip_addr) : DBM E () :=
  match gateway with
  | Some g => raise_if (negb (net_contains network g)) GATEWAY_OUTSIDE_POOL
  | None => mret tt
  end.

Definition check_cluster (cluster_id : option N) : DBM E () :=
  match cluster_id with
  | Some c => row ← db_get cluster c; or_raise CLUSTER_NOT_FOUND row;; mret tt
  | None => mret tt
  end.

(** [for existing in existing_pools], under the pool advisory lock. *)
Definition check_overlap (candidates : ip_pool → bool) (cluster_id : option N)
    (network : ip_net) : DBM E () :=
  existing_pools ← db_select candidates;
  for_each existing_pools (λ existing,
    raise_if (same_scope (pool_cluster_id existing) cluster_id &&
              overlaps network (pool_cidr existing)) POOL_OVERLAP).

Definition add_exclusions (id : N) (ranges : list IpRangeRequest) : DBM E () :=
  for_each ranges (λ item,
    exid ← uuid4;
    db_add {| ex_id := exid; ex_pool_id := id; ex_start_address := rg_start item;
              ex_end_address := rg_end item; ex_reason := rg_reason item |}).

Definition new_pool self (payload : IpPoolCreate) (id : N) (network : ip_net) : ip_pool := {|
  pool_id := id; pool_name := str_strip (pc_name payload);
  pool_cluster_id := pc_cluster_id payload; pool_cidr := network;
  pool_gateway := pc_gateway payload; pool_dns_servers := pc_dns_servers payload;
  pool_bridge := str_strip (pc_bridge payload); pool_vlan_tag := pc_vlan_tag payload;
  pool_ip_family := net_version network;
  pool_allocation_strategy := pc_allocation_strategy payload;
  pool_quarantine_seconds := pc_quarantine_seconds payload;
  pool_next_offset := 0; pool_is_active := true;
  pool_created_by_id := p_user_id (self_principal self); pool_version := 1 |}.

Definition create_pool self (payload : IpPoolCreate) : DBM E IpPoolResponse :=
  network ← _network (pc_cidr payload);
  check_gateway network (pc_gateway payload);;
  check_cluster (pc_cluster_id payload);;
  check_excluded_ranges network (pc_excluded_ranges payload);;
  check_dns network (pc_dns_servers payload);;
  check_overlap pool_is_active (pc_cluster_id payload) network;;
  id ← uuid4;
  let pool := new_pool self payload id network in
  db_add pool;;
  add_exclusions id (pc_excluded_ranges payload);;
  add_audit_event ((self_audit self "IP_POOL_CREATE" "SUCCEEDED")
    <| a_target_type := Some "ip_pool" |>
    <| a_target_id := Some (JUuid id) |>
    <| a_details := Some [("cidr", JStr (net_str network));
         ("excluded_range_count", JInt (Z.of_nat (length (pc_excluded_ranges payload))))] |>);;
  or_conflict commit
    (app_error 409 "IP_POOL_CONFLICT" "The IP pool already exists.");;
  _pool_response pool.

Definition get_pool (id : N) : DBM E IpPoolResponse :=
  pool ← db_get ip_pool id;
  pool ← or_raise POOL_NOT_FOUND pool;
  _pool_response pool.

(** The audited view of a pool. *)
Definition pool_audit pool : list (string * json) :=
  [("name", JStr (pool_name pool));
   ("cluster_id", json_of_opt JUuid (pool_cluster_id pool));
   ("cidr", JStr (net_str (pool_cidr pool)));
   ("gateway", json_of_opt json_addr (pool_gateway pool));
   ("dns_servers", JList (map json_addr (pool_dns_servers pool)));
   ("bridge", JStr (pool_bridge pool));
   ("vlan_tag", json_of_opt JInt (pool_vlan_tag pool));
   ("allocation_strategy", JStr (AllocationStrategy_value (pool_allocation_strategy pool)));
   ("quarantine_seconds", JInt (pool_quarantine_seconds pool))].

(** The attribute assignments of [update_pool]. *)
Definition updated_pool pool (payload : IpPoolUpdate) (target_cluster_id : option N)
    (target_network : ip_net) (target_gateway : option ip_addr)
    (target_dns : list ip_addr) : ip_pool :=
  pool
    <| pool_name := match pu_name payload with
                    | Some n => str_strip n | None => pool_name pool end |>
    <| pool_cluster_id := target_cluster_id |>
    <| pool_cidr := target_network |>
    <| pool_gateway := target_gateway |>
    <| pool_dns_servers := target_dns |>
    <| pool_bridge := match pu_bridge payload with
                      | Some b => str_strip b | None => pool_bridge pool end |>
    <| pool_vlan_tag := default (pool_vlan_tag pool) (pu_vlan_tag payload) |>
    <| pool_allocation_strategy :=
         default (pool_allocation_strategy pool) (pu_allocation_strategy payload) |>
    <| pool_quarantine_seconds :=
         default (pool_quarantine_seconds pool) (pu_quarantine_seconds payload) |>
    <| pool_ip_family := net_version target_network |>
    <| pool_version := pool_version pool + 1 |>.

Definition cidr_or_current pool (cidr : option string) : DBM E ip_net :=
  match cidr with
  | Some c => _network c
  | None => mret (pool_cidr pool)
  end.

Definition update_pool self (id : N) (payload : IpPoolUpdate) : DBM E IpPoolResponse :=
  pool ← _locked_pool id;
  raise_if (bool_decide (pool_version pool ≠ pu_version payload)) VERSION_CONFLICT;;
  let target_cluster_id := default (pool_cluster_id pool) (pu_cluster_id payload) in
  target_network ← cidr_or_current pool (pu_cidr payload);
  let target_gateway := default (pool_gateway pool) (pu_gateway payload) in
  let target_dns := match pu_dns_servers payload with
                    | Some dns => default [] dns
                    | None => pool_dns_servers pool
                    end in
  check_gateway target_network target_gateway;;
  check_dns target_network target_dns;;
  check_cluster target_cluster_id;;
  let addressing_changed :=
    bool_decide (target_network ≠ pool_cidr pool) ||
    bool_decide (target_cluster_id ≠ pool_cluster_id pool) ||
    bool_decide (target_gateway ≠ pool_gateway pool) in
  materialized_count ← db_count (addr_in_pool (pool_id pool));
  raise_if (addressing_changed && (0 <? materialized_count))
    (app_error 409 "IP_POOL_ADDRESSES_EXIST"
       "CIDR, cluster, or gateway cannot change after addresses have been used.");;
  exclusion_count ← db_count (λ x, bool_decide (ex_pool_id x = pool_id pool));
  raise_if (bool_decide (target_network ≠ pool_cidr pool) && (0 <? exclusion_count))
    (app_error 409 "IP_POOL_EXCLUSIONS_EXIST"
       "CIDR cannot change while the pool has excluded address ranges.");;
  check_overlap (λ p, pool_is_active p && bool_decide (pool_id p ≠ pool_id pool))
    target_cluster_id target_network;;
  let pool' := updated_pool pool payload target_cluster_id target_network
                 target_gateway target_dns in
  db_save pool';;
  add_audit_event ((self_audit self "IP_POOL_UPDATE" "SUCCEEDED")
    <| a_target_type := Some "ip_pool" |>
    <| a_target_id := Some (JUuid (pool_id pool)) |>
    <| a_before := Some (pool_audit pool) |>
    <| a_after := Some (pool_audit pool') |>);;
  or_conflict commit
    (app_error 409 "IP_POOL_CONFLICT"
       "The IP pool name or network conflicts with an existing pool.");;
  _pool_response pool'.

Definition request_holds_pool (id : N) (q : provisioning_request) : bool :=
  bool_decide (prq_ip_pool_id q = id) &&
  bool_decide (prq_status q ∈ [PS_QUEUED; PS_RUNNING; PS_MANUAL_REVIEW]).

Definition delete_pool self (id : N) (version : Z) : DBM E () :=
  pool ← _locked_pool id;
  raise_if (bool_decide (pool_version pool ≠ version)) VERSION_CONFLICT;;
  unavailable_count ← db_count
    (λ a, addr_in_pool (pool_id pool) a && negb (addr_in_state AVAILABLE a));
  active_request_count ← db_count (request_holds_pool (pool_id pool));
  raise_if ((0 <? unavailable_count) || (0 <? active_request_count))
    (AppError 409 "IP_POOL_IN_USE"
       "Release reserved, assigned, or quarantined addresses before deleting the pool."
       [("unavailable_addresses", JInt unavailable_count);
        ("active_provisioning_requests", JInt active_request_count)]);;
  db_save (pool <| pool_is_active := false |>
                <| pool_version := pool_version pool + 1 |>);;
  add_audit_event ((self_audit self "IP_POOL_DELETE" "SUCCEEDED")
    <| a_target_type := Some "ip_pool" |>
    <| a_target_id := Some (JUuid (pool_id pool)) |>
    <| a_before := Some [("name", JStr (pool_name pool));
         ("cidr", JStr (net_str (pool_cidr pool))); ("is_active", JBool true)] |>
    <| a_after := Some [("is_active", JBool false)] |>);;
  commit.

(** *** Addresses and allocations *)

Definition reserve_address self (id : N) (address : ip_addr) (reason : string)
  : DBM E IpAddressResponse :=
  pool ← _locked_pool id;
  candidate ← _validated_candidate pool address false;
  existing ← db_scalar (λ a, addr_in_pool (pool_id pool) a &&
                             bool_decide (addr_address a = candidate));
  item ← match existing with
         | Some a =>
           raise_if (bool_decide (addr_state a ≠ AVAILABLE)) ADDRESS_UNAVAILABLE;;
           let item := a <| addr_state := DISABLED |>
                         <| addr_reserved_for := Some reason |>
                         <| addr_quarantined_until := None |> in
           db_save item;; mret item
         | None =>
           aid ← uuid4;
           let item := {|
             addr_id := aid; addr_pool_id := pool_id pool; addr_address := candidate;
             addr_state := DISABLED; addr_reserved_for := Some reason;
             addr_quarantined_until := None; addr_last_allocated_at := None;
             addr_version := 1 |} in
           db_add item;; mret item
         end;
  _audit_and_commit self "IP_ADDRESS_EXCLUDE" "ip_address" (addr_id item) pool;;
  mret (_address_response item None).

Definition allocate self (id workload_id : N) (requested_address : option ip_addr)
  : DBM E IpAllocationResponse :=
  pool ← _locked_pool id;
  row ← db_scalar (λ w, bool_decide (wl_id w = workload_id) && wl_is_present w);
  workload ← or_raise
    (app_error 404 "WORKLOAD_NOT_FOUND" "The workload was not found.") row;
  raise_if (match pool_cluster_id pool with
            | Some c => bool_decide (wl_cluster_id workload ≠ c)
            | None => false
            end)
    (app_error 409 "IP_POOL_CLUSTER_MISMATCH" "The workload is in another cluster.");;
  let kind := allocation_kind requested_address in
  address ← select_address pool requested_address;
  now ← datetime_now;
  let address := address
    <| addr_state := ASSIGNED |>
    <| addr_last_allocated_at := Some now |>
    <| addr_quarantined_until := None |>
    <| addr_reserved_for := None |>
    <| addr_version := addr_version address + 1 |> in
  db_save address;;
  lid ← uuid4;
  let allocation := {|
    alloc_id := lid; alloc_ip_address_id := addr_id address;
    alloc_workload_id := Some (wl_id workload); alloc_provisioning_request_id := None;
    alloc_kind := kind; alloc_status := AL_ASSIGNED;
    alloc_allocated_by_id := p_user_id (self_principal self);
    alloc_confirmed_at := Some now; alloc_released_at := None;
    alloc_release_reason := None; alloc_version := 1 |} in
  db_add allocation;;
  add_audit_event ((self_audit self "IP_ALLOCATE" "SUCCEEDED")
    <| a_workload_id := Some (wl_id workload) |>
    <| a_target_type := Some "ip_allocation" |>
    <| a_target_id := Some (JUuid lid) |>
    <| a_details := Some [("pool_id", JUuid (pool_id pool));
                          ("kind", JStr (IpAllocationKind_value kind))] |>);;
  or_conflict commit ADDRESS_UNAVAILABLE;;
  _allocation_response allocation address pool.

Definition reserve_for_provisioning self (id provisioning_request_id : N)
    (requested_address : option ip_addr) : DBM E (ip_address * ip_allocation) :=
  pool ← _locked_pool id;
  existing ← db_scalar (λ l, alloc_of_request provisioning_request_id l &&
    (alloc_in_status AL_RESERVED l || alloc_in_status AL_ASSIGNED l));
  match existing with
  | Some l =>
    a ← db_get ip_address (alloc_ip_address_id l);
    address ← assert_some a;
    mret (address, l)
  | None =>
    let kind := allocation_kind requested_address in
    address ← select_address pool requested_address;
    now ← datetime_now;
    let address := address
      <| addr_state := RESERVED |>
      <| addr_last_allocated_at := Some now |>
      <| addr_version := addr_version address + 1 |> in
    db_save address;;
    lid ← uuid4;
    let allocation := {|
      alloc_id := lid; alloc_ip_address_id := addr_id address;
      alloc_workload_id := None;
      alloc_provisioning_request_id := Some provisioning_request_id;
      alloc_kind := kind; alloc_status := AL_RESERVED;
      alloc_allocated_by_id := p_user_id (self_principal self);
      alloc_confirmed_at := None; alloc_released_at := None;
      alloc_release_reason := None; alloc_version := 1 |} in
    db_add allocation;;
    or_conflict commit ADDRESS_UNAVAILABLE;;
    mret (address, allocation)
  end.

Definition confirm_provisioning_ip (provisioning_request_id workload_id : N) : DBM E () :=
  row ← db_scalar (λ l, alloc_of_request provisioning_request_id l &&
                        alloc_in_status AL_RESERVED l);
  match row with
  | None =>
    already ← db_scalar (λ l, alloc_of_request provisioning_request_id l &&
                              alloc_in_status AL_ASSIGNED l);
    match already with
    | Some _ => mret tt
    | None => raise (app_error 409 "IP_RESERVATION_MISSING"
                       "The provisioning IP reservation is missing.")
    end
  | Some allocation =>
    a ← db_get ip_address (alloc_ip_address_id allocation);
    address ← assert_some a;
    now ← datetime_now;
    db_save (allocation
      <| alloc_workload_id := Some workload_id |>
      <| alloc_status := AL_ASSIGNED |>
      <| alloc_confirmed_at := Some now |>
      <| alloc_version := alloc_version allocation + 1 |>);;
    db_save (address
      <| addr_state := ASSIGNED |>
      <| addr_version := addr_version address + 1 |>);;
    commit
  end.

(** The attribute assignments that put an allocation and its address into
    quarantine. *)
Definition quarantined_allocation (allocation : ip_allocation) (now : Z)
    (reason : string) : ip_allocation :=
  allocation
    <| alloc_status := AL_QUARANTINED |>
    <| alloc_released_at := Some now |>
    <| alloc_release_reason := Some reason |>
    <| alloc_version := alloc_version allocation + 1 |>.

Definition quarantined_address (address : ip_address) pool (now : Z) : ip_address :=
  address
    <| addr_state := QUARANTINED |>
    <| addr_quarantined_until := Some (now + seconds (pool_quarantine_seconds pool)) |>
    <| addr_version := addr_version address + 1 |>.

Definition quarantine_provisioning_ip (provisioning_request_id : N) : DBM E () :=
  row ← db_scalar (λ l, alloc_of_request provisioning_request_id l &&
                        alloc_in_status AL_RESERVED l);
  match row with
  | None => mret tt
  | Some allocation =>
    a ← db_get ip_address (alloc_ip_address_id allocation);
    address ← assert_some a;
    p ← db_get ip_pool (addr_pool_id address);
    pool ← assert_some p;
    now ← datetime_now;
    db_save (quarantined_allocation allocation now
               "Provisioning failed before clone completion");;
    db_save (quarantined_address address pool now);;
    commit
  end.

Definition release self (allocation_id : N) (reason : string)
  : DBM E IpAllocationResponse :=
  row ← db_get ip_allocation allocation_id;
  allocation ← or_raise (app_error 404 "IP_ALLOCATION_NOT_FOUND"
                           "The IP allocation was not found.") row;
  a ← db_get ip_address (alloc_ip_address_id allocation);
  address ← assert_some a;
  p ← db_get ip_pool (addr_pool_id address);
  pool ← assert_some p;
  match alloc_status allocation with
  | AL_RELEASED | AL_QUARANTINED => _allocation_response allocation address pool
  | _ =>
    now ← datetime_now;
    let allocation := quarantined_allocation allocation now reason in
    let address := quarantined_address address pool now in
    db_save allocation;;
    db_save address;;
    _audit_and_commit self "IP_RELEASE_TO_QUARANTINE" "ip_allocation"
      (alloc_id allocation) pool;;
    _allocation_response allocation address pool
  end.

Definition approve_release self (address_id : N) : DBM E IpAddressResponse :=
  row ← db_get ip_address address_id;
  address ← or_raise (app_error 404 "IP_ADDRESS_NOT_FOUND"
                        "The IP address was not found.") row;
  raise_if (bool_decide (addr_state address ≠ QUARANTINED))
    (app_error 409 "IP_ADDRESS_NOT_QUARANTINED" "The address is not quarantined.");;
  now ← datetime_now;
  raise_if (match addr_quarantined_until address with
            | Some u => now <? u | None => false end)
    (app_error 409 "IP_QUARANTINE_ACTIVE" "The quarantine period has not elapsed.");;
  row ← db_scalar (λ l, bool_decide (alloc_ip_address_id l = addr_id address) &&
                        alloc_in_status AL_QUARANTINED l);
  allocation ← or_raise (app_error 409 "IP_ALLOCATION_STATE_INVALID"
                           "No quarantined allocation exists.") row;
  db_save (allocation
    <| alloc_status := AL_RELEASED |>
    <| alloc_version := alloc_version allocation + 1 |>);;
  let address := address
    <| addr_state := AVAILABLE |>
    <| addr_quarantined_until := None |>
    <| addr_version := addr_version address + 1 |> in
  db_save address;;
  p ← db_get ip_pool (addr_pool_id address);
  pool ← assert_some p;
  _audit_and_commit self "IP_RELEASE_APPROVE" "ip_address" (addr_id address) pool;;
  mret (_address_response address None).

(** *** The calls of the service *)

Inductive ipam_call :=
| CallCreatePool (payload : IpPoolCreate)
| CallUpdatePool (id : N) (payload : IpPoolUpdate)
| CallDeletePool (id : N) (version : Z)
| CallReserveAddress (id : N) (address : ip_addr) (reason : string)
| CallAllocate (id workload_id : N) (requested : option ip_addr)
| CallReserveForProvisioning (id request : N) (requested : option ip_addr)
| CallConfirmProvisioningIp (request workload_id : N)
| CallQuarantineProvisioningIp (request : N)
| CallRelease (allocation_id : N) (reason : string)
| CallApproveRelease (address_id : N).

(** The method a call reaches; its result is dropped. *)
Definition ipam_method self (c : ipam_call) : DBM E () :=
  match c with
  | CallCreatePool payload => create_pool self payload;; mret tt
  | CallUpdatePool id payload => update_pool self id payload;; mret tt
  | CallDeletePool id version => delete_pool self id version
  | CallReserveAddress id a reason => reserve_address self id a reason;; mret tt
  | CallAllocate id wl req => allocate self id wl req;; mret tt
  | CallReserveForProvisioning id rq req => reserve_for_provisioning self id rq req;; mret tt
  | CallConfirmProvisioningIp rq wl => confirm_provisioning_ip rq wl
  | CallQuarantineProvisioningIp rq => quarantine_provisioning_ip rq
  | CallRelease id reason => release self id reason;; mret tt
  | CallApproveRelease id => approve_release self id;; mret tt
  end.

(** One service call: construction, role check, method. *)
Definition ipam_run self (c : ipam_call) : DBM E () :=
  ipam_service self (ipam_method self c).
End ipam.
