(* ===== verification/IpamInv.v ===== *)
(** * IP address management: the invariant

    What the tables of the IPAM service satisfy between requests, and one lemma
    per kind of write that keeps it: pools with disjoint blocks in a scope,
    addresses inside their pool and off its reserved offsets, and address states
    that agree with the allocation that holds them. *)
From stdpp Require Import sorting.
From Stdlib Require Import Lia.
From S2P Require Import Prelude Models Database AuditLog IpAddr IpText FreeOffset Ipam.

(** ** Well-formed rows *)

Record pool_wf (p : ip_pool) : Prop := {
  pw_net : net_wf (pool_cidr p);
  pw_gateway : ∀ g, pool_gateway p = Some g → net_contains (pool_cidr p) g = true;
  pw_next : 0 ≤ pool_next_offset p < num_addresses (pool_cidr p) }.

Record excl_wf (n : ip_net) (s t : ip_addr) : Prop := {
  xw_start : addr_wf s; xw_end : addr_wf t;
  xw_start_in : net_contains n s = true; xw_end_in : net_contains n t = true;
  xw_order : ip_int s ≤ ip_int t }.

(** An address the service may hand out: not a reserved address of the network,
    not in an excluded range. *)
Definition admissible (X : gmap N ip_pool_exclusion) (p : ip_pool) (a : ip_addr) : Prop :=
  special p (pool_cidr p) a = false ∧
  ∀ i x, X !! i = Some x → ex_pool_id x = pool_id p →
    ¬ ip_int (ex_start_address x) ≤ ip_int a ≤ ip_int (ex_end_address x).

Record addr_ok (X : gmap N ip_pool_exclusion) (p : ip_pool) (a : ip_address) : Prop := {
  ao_wf : addr_wf (addr_address a);
  ao_in : net_contains (pool_cidr p) (addr_address a) = true;
  ao_admissible : addr_state a ≠ DISABLED → admissible X p (addr_address a);
  ao_inactive : pool_is_active p = false → addr_state a = AVAILABLE }.

(** What the status of an allocation says about its address. *)
Definition alloc_matches (l : ip_allocation) (a : ip_address) : Prop :=
  match alloc_status l with
  | AL_RESERVED =>
    addr_state a = RESERVED ∧ alloc_workload_id l = None ∧
    is_Some (alloc_provisioning_request_id l)
  | AL_ASSIGNED => addr_state a = ASSIGNED ∧ is_Some (alloc_workload_id l)
  | AL_QUARANTINED =>
    addr_state a = QUARANTINED ∧ is_Some (alloc_released_at l) ∧
    is_Some (addr_quarantined_until a)
  | AL_RELEASED => True
  end.

Definition held (a : ip_address) : Prop :=
  addr_state a = RESERVED ∨ addr_state a = ASSIGNED ∨ addr_state a = QUARANTINED.

Record ipam_inv (P : gmap N ip_pool) (X : gmap N ip_pool_exclusion)
    (A : gmap N ip_address) (L : gmap N ip_allocation) : Prop := {
  ii_key_pool : ∀ i p, P !! i = Some p → pool_id p = i;
  ii_key_addr : ∀ i a, A !! i = Some a → addr_id a = i;
  ii_key_alloc : ∀ i l, L !! i = Some l → alloc_id l = i;
  ii_pool : ∀ i p, P !! i = Some p → pool_wf p;
  ii_next : ∀ i p, P !! i = Some p → pool_next_offset p ≠ 0 →
    ∃ j a, A !! j = Some a ∧ addr_pool_id a = i;
  ii_scope : ∀ i j p q, P !! i = Some p → P !! j = Some q → i ≠ j →
    pool_is_active p = true → pool_is_active q = true →
    same_scope (pool_cluster_id p) (pool_cluster_id q) = true →
    overlaps (pool_cidr p) (pool_cidr q) = false;
  ii_excl : ∀ i x, X !! i = Some x → ∃ p, P !! ex_pool_id x = Some p ∧
    excl_wf (pool_cidr p) (ex_start_address x) (ex_end_address x);
  ii_addr : ∀ i a, A !! i = Some a → ∃ p, P !! addr_pool_id a = Some p ∧ addr_ok X p a;
  ii_alloc : ∀ i l, L !! i = Some l →
    ∃ a, A !! alloc_ip_address_id l = Some a ∧ alloc_matches l a;
  ii_held : ∀ i a, A !! i = Some a → held a →
    ∃ j l, L !! j = Some l ∧ alloc_ip_address_id l = i ∧ alloc_active l = true }.

Definition ipam_tables_ok (d : db) : Prop :=
  ipam_inv (db_pools d) (db_exclusions d) (db_addresses d) (db_allocations d).

(** The state the service finds, and leaves. *)
Definition ipam_good (d : db) : Prop := integrity d = true ∧ ipam_tables_ok d.

Lemma ipam_inv_empty : ipam_inv ∅ ∅ ∅ ∅.
Proof. split; intros *; rewrite lookup_empty; done. Qed.

(** ** Facts about the guards *)

Lemma same_scope_comm a b : same_scope a b = same_scope b a.
Proof.
  unfold same_scope. rewrite (bool_decide_ext (a = b) (b = a)) by done.
  destruct (bool_decide (b = a)), (bool_decide (a = None)), (bool_decide (b = None)); done.
Qed.

Lemma overlaps_comm n m : overlaps n m = overlaps m n.
Proof.
  unfold overlaps.
  destruct (net_contains m (network_address n)), (net_contains m (broadcast_address n)),
    (net_contains n (network_address m)), (net_contains n (broadcast_address m)); done.
Qed.

(** ** The candidate search *)

Section blocked.
Context (pool : ip_pool) (Hnet : net_wf (pool_cidr pool)).
Context (exclusions : list (Z * Z)) (materialized : list Z).

Let base := net_address (pool_cidr pool).
Let size := num_addresses (pool_cidr pool).
Let blocked := blocked_ranges pool exclusions materialized.
Let candidate o := IpAddr (net_version (pool_cidr pool)) (base + o).

Lemma blocked_intro r x : r ∈ blocked → r.1 ≤ x ≤ r.2 → covered blocked x.
Proof. intros Hr Hx. by exists r. Qed.

(** An offset outside the blocked ranges is a free, unreserved address. *)
Lemma unblocked_offset o :
  0 ≤ o < size → ¬ covered blocked o →
  special pool (pool_cidr pool) (candidate o) = false ∧
  (∀ r, r ∈ exclusions → ¬ r.1 ≤ base + o ≤ r.2) ∧
  base + o ∉ materialized.
Proof using Hnet.
  intros Ho Hn. unfold blocked, blocked_ranges in *. cbv zeta in *.
  split; [|split].
  - unfold special. rewrite !orb_false_iff. split; [split|].
    + apply bool_decide_eq_false. intros Heq. apply Hn.
      unfold network_address, candidate in Heq. simplify_eq.
      exists (0, 0). rewrite !elem_of_app, list_elem_of_singleton. simpl. split; [tauto|lia].
    + apply andb_false_iff. destruct (decide (net_version (pool_cidr pool) = 4)) as [Hv|Hv];
        [|left; by apply bool_decide_eq_false].
      right. apply bool_decide_eq_false. intros Heq. apply Hn.
      exists (size - 1, size - 1). unfold size, num_addresses in *.
      rewrite <-Heq. unfold candidate, base. simpl ip_int. split; [|simpl; lia].
      rewrite !elem_of_app. do 3 right. left.
      apply list_elem_of_singleton. f_equal; lia.
    + destruct (pool_gateway pool) as [g|] eqn:Hg; [|done].
      apply bool_decide_eq_false. intros Heq. apply Hn.
      exists (ip_int g - base, ip_int g - base). subst g. split; [|simpl; lia].
      rewrite !elem_of_app. do 4 right. by apply list_elem_of_singleton.
  - intros [low high] Hr Hin. apply Hn. simpl in Hin.
    exists (Z.max 0 (low - base), Z.min (size - 1) (high - base)). split; [|simpl; lia].
    rewrite elem_of_app. left. apply list_elem_of_fmap. by exists (low, high).
  - intros Hm. apply Hn. exists (o, o). split; [|simpl; lia].
    rewrite !elem_of_app. right. left. apply list_elem_of_fmap. exists (base + o).
    split; [f_equal; unfold base; lia|done].
Qed.

(** ... and an offset inside them is not. *)
Lemma blocked_offset o :
  (∀ g, pool_gateway pool = Some g → net_contains (pool_cidr pool) g = true) →
  0 ≤ o < size → covered blocked o →
  special pool (pool_cidr pool) (candidate o) = true ∨
  (∃ r, r ∈ exclusions ∧ r.1 ≤ base + o ≤ r.2) ∨ base + o ∈ materialized.
Proof using Hnet.
  intros Hgw Ho ([low high] & Hr & Hin). unfold blocked, blocked_ranges in Hr. cbv zeta in Hr.
  rewrite !elem_of_app in Hr. unfold special. rewrite !orb_true_iff.
  destruct Hr as [Hr|[Hr|[Hr|[Hr|Hr]]]].
  - apply list_elem_of_fmap in Hr as ([l h] & [= -> ->] & Hr). right. left. exists (l, h).
    split; [done|]. unfold base. simpl in *. lia.
  - apply list_elem_of_fmap in Hr as (v & [= -> ->] & Hr). right. right.
    replace (base + o) with v; [done|]. unfold base. simpl in *. lia.
  - apply list_elem_of_singleton in Hr as [= -> ->]. simpl in Hin. left. left. left.
    apply bool_decide_eq_true. unfold candidate, network_address, base.
    f_equal. lia.
  - case_decide as Hv; [|by apply not_elem_of_nil in Hr].
    apply list_elem_of_singleton in Hr as [= -> ->]. simpl in Hin. left. left. right.
    rewrite andb_true_iff, !bool_decide_eq_true. split; [done|].
    unfold candidate, broadcast_address, base. f_equal. unfold num_addresses in Hin.
    simpl in Hin. lia.
  - destruct (pool_gateway pool) as [g|] eqn:Hg; [|by apply not_elem_of_nil in Hr].
    apply list_elem_of_singleton in Hr as [= -> ->]. simpl in Hin. left. right.
    apply bool_decide_eq_true. destruct g as [v z]. simpl in *.
    unfold candidate, base. f_equal; [|lia].
    specialize (Hgw _ eq_refl). unfold net_contains in Hgw.
    by apply andb_true_iff in Hgw as [Hv%bool_decide_eq_true _].
Qed.

Lemma blocked_ordered :
  (∀ r, r ∈ exclusions → base ≤ r.1 ≤ r.2 ∧ r.2 < base + size) →
  Forall (λ r : Z * Z, r.1 ≤ r.2) blocked.
Proof using Hnet.
  intros He. assert (0 < size) as Hs.
  { unfold size. rewrite num_addresses_spec by done. by apply block_size_pos. }
  unfold blocked, blocked_ranges. rewrite !Forall_app.
  split_and!.
  - apply Forall_forall. intros r Hr. apply list_elem_of_fmap in Hr as (s & -> & Hs').
    apply He in Hs'. fold base size. simpl. lia.
  - apply Forall_forall. intros r Hr. apply list_elem_of_fmap in Hr as (s & -> & _). done.
  - by repeat constructor.
  - case_decide; by repeat constructor.
  - destruct (pool_gateway pool); by repeat constructor.
Qed.
End blocked.

(** ** The writes of the service keep the invariant *)

Ltac by_lookup :=
  repeat match goal with
         | H : <[_:=_]> _ !! _ = Some _ |- _ => apply lookup_insert_Some in H as [[? ?]|[? ?]]
         end; simplify_eq.

Section writes.
Context {P : gmap N ip_pool} {X : gmap N ip_pool_exclusion}.
Context {A : gmap N ip_address} {L : gmap N ip_allocation}.
Context (Hinv : ipam_inv P X A L).

(** An active allocation is the reason its address is not available. *)
Lemma active_not_free j l a :
  L !! j = Some l → alloc_active l = true → A !! alloc_ip_address_id l = Some a → held a.
Proof using Hinv.
  intros Hl Hact Ha. destruct (ii_alloc _ _ _ _ Hinv _ _ Hl) as (a' & Ha' & Hm).
  unfold alloc_matches, alloc_active, held in *. simplify_eq.
  destruct (alloc_status l); simplify_eq; tauto.
Qed.

Lemma held_pool_active i a p :
  A !! i = Some a → P !! addr_pool_id a = Some p → held a → pool_is_active p = true.
Proof using Hinv.
  intros Ha Hp Hh. destruct (ii_addr _ _ _ _ Hinv _ _ Ha) as (q & Hq & Hok). simplify_eq.
  destruct (pool_is_active p) eqn:Hact; [done|]. apply (ao_inactive _ _ _ Hok) in Hact.
  destruct Hh as [Hh|[Hh|Hh]]; congruence.
Qed.

(** A pool row is added or replaced. *)
Lemma inv_put_pool k p :
  k = pool_id p → pool_wf p →
  (pool_next_offset p ≠ 0 → ∃ j a, A !! j = Some a ∧ addr_pool_id a = pool_id p) →
  (pool_is_active p = true → ∀ j q, P !! j = Some q → j ≠ pool_id p →
     pool_is_active q = true → same_scope (pool_cluster_id p) (pool_cluster_id q) = true →
     overlaps (pool_cidr p) (pool_cidr q) = false) →
  (∀ i x, X !! i = Some x → ex_pool_id x = pool_id p →
     excl_wf (pool_cidr p) (ex_start_address x) (ex_end_address x)) →
  (∀ i a, A !! i = Some a → addr_pool_id a = pool_id p → addr_ok X p a) →
  ipam_inv (<[k := p]> P) X A L.
Proof using Hinv.
  intros -> Hwf Hnext Hscope Hex Haddr. destruct Hinv as [Kp Ka Kl Hp Hn Hs Hx Ha Hl Hh].
  split; try done.
  - intros i q Hq. by_lookup; eauto.
  - intros i q Hq. by_lookup; eauto.
  - intros i q Hq. by_lookup; eauto.
  - intros i j q r Hq Hr Hne Hqa Hra Hsc. by_lookup; eauto.
    rewrite overlaps_comm. rewrite same_scope_comm in Hsc. eauto.
  - intros i x Hi. destruct (decide (ex_pool_id x = pool_id p)) as [He|He].
    + exists p. rewrite He, lookup_insert_eq. eauto.
    + rewrite lookup_insert_ne by done. eauto.
  - intros i a Hi. destruct (decide (addr_pool_id a = pool_id p)) as [He|He].
    + exists p. rewrite He, lookup_insert_eq. eauto.
    + rewrite lookup_insert_ne by done. eauto.
Qed.

(** An exclusion row is added to a pool that has no addresses yet. *)
Lemma inv_put_excl x p :
  P !! ex_pool_id x = Some p →
  excl_wf (pool_cidr p) (ex_start_address x) (ex_end_address x) →
  (∀ i a, A !! i = Some a → addr_pool_id a ≠ ex_pool_id x) →
  ipam_inv P (<[ex_id x := x]> X) A L.
Proof using Hinv.
  intros Hpx Hwf Hno. destruct Hinv as [Kp Ka Kl Hp Hn Hs Hx Ha Hl Hh].
  split; try done.
  - intros i y Hi. by_lookup; eauto.
  - intros i a Hi. destruct (Ha i a Hi) as (q & Hq & [? ? Hadm ?]). exists q. split; [done|].
    split; try done. intros Hst. destruct (Hadm Hst) as [Hsp Hr]. split; [done|].
    intros j y Hj Hy. by_lookup; eauto. exfalso. apply (Hno i a Hi). rewrite Hy.
    symmetry. eauto.
Qed.

(** An address row is added or replaced, no allocation changes. *)
Lemma inv_put_addr a p :
  P !! addr_pool_id a = Some p → addr_ok X p a → ¬ held a →
  (∀ b, A !! addr_id a = Some b → addr_pool_id b = addr_pool_id a ∧ ¬ held b) →
  ipam_inv P X (<[addr_id a := a]> A) L.
Proof using Hinv.
  intros Hpa Hok Hnh Hold. pose proof active_not_free as Hfree.
  destruct Hinv as [Kp Ka Kl Hp Hn Hs Hx Ha Hl Hh].
  split; try done.
  - intros i b Hi. by_lookup; eauto.
  - intros i q Hq Hne. destruct (Hn i q Hq Hne) as (j & b & Hb & Hbp).
    destruct (decide (j = addr_id a)) as [->|Hj].
    + exists (addr_id a), a. rewrite lookup_insert_eq. split; [done|].
      destruct (Hold _ Hb). congruence.
    + exists j, b. by rewrite lookup_insert_ne.
  - intros i b Hi. by_lookup; eauto.
  - intros i l Hi. destruct (Hl i l Hi) as (b & Hb & Hm).
    destruct (decide (alloc_ip_address_id l = addr_id a)) as [He|He].
    + exists a. rewrite He, lookup_insert_eq. split; [done|].
      unfold alloc_matches. destruct (alloc_active l) eqn:Hact.
      * exfalso. rewrite He in Hb. apply (Hold b Hb). eapply Hfree; eauto. by rewrite He.
      * unfold alloc_active in Hact. by destruct (alloc_status l).
    + exists b. by rewrite lookup_insert_ne.
  - intros i b Hi Hb. by_lookup; [done|eauto].
Qed.

(** An address changes hands together with its allocation row. *)
Lemma inv_move a a' l' :
  A !! addr_id a = Some a →
  addr_id a' = addr_id a → addr_pool_id a' = addr_pool_id a →
  addr_address a' = addr_address a →
  addr_state a ≠ DISABLED →
  (addr_state a' = AVAILABLE ∨
    ∃ p, P !! addr_pool_id a = Some p ∧ pool_is_active p = true) →
  alloc_ip_address_id l' = addr_id a → alloc_matches l' a' →
  (held a' → alloc_active l' = true) →
  (∀ l, L !! alloc_id l' = Some l → alloc_ip_address_id l = addr_id a) →
  (∀ j l, L !! j = Some l → alloc_ip_address_id l = addr_id a →
     alloc_active l = true → j = alloc_id l') →
  ipam_inv P X (<[addr_id a' := a']> A) (<[alloc_id l' := l']> L).
Proof using Hinv.
  intros Hrow Hid Hpool Haddr Hen Hact Hlip Hm Hheld Hsame Huniq.
  destruct Hinv as [Kp Ka Kl Hp Hn Hs Hx Ha Hl Hh]. rewrite Hid.
  split; try done.
  - intros i b Hi. by_lookup; eauto.
  - intros i l Hi. by_lookup; eauto.
  - intros i q Hq Hne. destruct (Hn i q Hq Hne) as (j & b & Hb & Hbp).
    destruct (decide (j = addr_id a)) as [->|Hj].
    + exists (addr_id a), a'. rewrite lookup_insert_eq. split; [done|]. congruence.
    + exists j, b. by rewrite lookup_insert_ne.
  - intros i b Hi. apply lookup_insert_Some in Hi as [[<- <-]|[? ?]]; [|eauto].
    destruct (Ha _ _ Hrow) as (p & Hpp & Hok). exists p. split; [congruence|].
    destruct Hok as [? ? ? Hina]. split; try (rewrite Haddr; auto).
    intros Hoff. destruct Hact as [?|(q & Hq & Hqa)]; [done|]. congruence.
  - intros i l Hi. apply lookup_insert_Some in Hi as [[<- <-]|[Hne Hi]].
    { exists a'. by rewrite Hlip, lookup_insert_eq. }
    destruct (Hl i l Hi) as (b & Hb & Hmb).
    destruct (decide (alloc_ip_address_id l = addr_id a)) as [He|He].
    + exists a'. rewrite He, lookup_insert_eq. split; [done|].
      destruct (alloc_active l) eqn:Hla; [by destruct Hne; symmetry; eauto|].
      unfold alloc_matches, alloc_active in *. by destruct (alloc_status l).
    + exists b. by rewrite lookup_insert_ne.
  - intros i b Hi Hb. apply lookup_insert_Some in Hi as [[<- <-]|[Hne Hi]].
    { exists (alloc_id l'), l'. rewrite lookup_insert_eq. auto. }
    destruct (Hh i b Hi Hb) as (j & l & Hj & Hlj & Hla). exists j, l. split; [|done].
    rewrite lookup_insert_ne; [done|]. intros <-. apply Hne. rewrite <-Hlj. symmetry. eauto.
Qed.
End writes.
