(* ===== verification/IpamOps.v ===== *)
(** * IP address management: the service keeps its invariant

    For every call of [IpamService]: the tables it leaves satisfy the invariant of
    IpamInv.v, each address makes only a move of its life cycle, and a call that
    raises leaves the database as it was. *)
From stdpp Require Import sorting.
From Stdlib Require Import Lia.
From S2P Require Import Prelude Models Database AuditLog IpAddr IpText FreeOffset Ipam IpamInv.

(** ** The life cycle of an address *)

(** One step of an address at time [now]: the specification that the handlers
    implement. *)
Inductive addr_move (now : Z) : ip_address → ip_address → Prop :=
| move_stay a : addr_move now a a
| move_exclude a b : addr_state a = AVAILABLE → addr_state b = DISABLED → addr_move now a b
| move_allocate a b : addr_state a = AVAILABLE → addr_state b = ASSIGNED → addr_move now a b
| move_reserve a b : addr_state a = AVAILABLE → addr_state b = RESERVED → addr_move now a b
| move_confirm a b : addr_state a = RESERVED → addr_state b = ASSIGNED → addr_move now a b
| move_quarantine a b u :
    addr_state a = RESERVED ∨ addr_state a = ASSIGNED →
    addr_state b = QUARANTINED → addr_quarantined_until b = Some u → now ≤ u →
    addr_move now a b
| move_approve a b u :
    addr_state a = QUARANTINED → addr_quarantined_until a = Some u → u ≤ now →
    addr_state b = AVAILABLE → addr_move now a b.

(** No row is lost, none changes its pool or value, each makes one move. *)
Definition addr_moves (now : Z) (A A' : gmap N ip_address) : Prop :=
  ∀ i a, A !! i = Some a → ∃ b, A' !! i = Some b ∧
    addr_pool_id b = addr_pool_id a ∧ addr_address b = addr_address a ∧ addr_move now a b.

Lemma addr_moves_refl now A : addr_moves now A A.
Proof. intros i a Ha. exists a. repeat split; [done|constructor]. Qed.

Lemma addr_moves_insert now A A' a b :
  (∀ i c, A !! i = Some c → A' !! i = Some c) →
  A' !! addr_id a = Some a → addr_id b = addr_id a →
  addr_pool_id b = addr_pool_id a → addr_address b = addr_address a →
  addr_move now a b → addr_moves now A (<[addr_id b := b]> A').
Proof.
  intros Hsub Ha Hid Hp Hadr Hm i c Hc. destruct (decide (i = addr_id b)) as [->|Hne].
  - apply Hsub in Hc. rewrite Hid, Ha in Hc. simplify_eq.
    exists b. by rewrite lookup_insert_eq.
  - exists c. rewrite lookup_insert_ne by done. split; [auto|]. repeat split. constructor.
Qed.

(** What a call that started at [d] leaves. *)
Record step_ok (now : Z) (d d' : db) : Prop := {
  so_good : ipam_good d';
  so_moves : addr_moves now (db_addresses d) (db_addresses d') }.

Lemma step_ok_refl now d : ipam_good d → step_ok now d d.
Proof. split; [done|apply addr_moves_refl]. Qed.

Definition ipam_post {E A} (now : Z) (d : db) (r : outcome A) (w : world E) : Prop :=
  match r with
  | Ok _ => step_ok now d (w_db w)
  | Raise e => w_db w = d
  end.

(** ** What the runtime provides *)

(** [SystemRandom.randrange(n)] is below [n]. *)
Class RuntimeLaws (E : Type) `{Runtime E} : Prop :=
  randrange_bounds : ∀ n e, 0 < n → 0 ≤ (env_randrange n e).1 < n.

(** ** Address selection *)

Section select.
Context {E : Type} `{RuntimeLaws E}.
Implicit Types (w : world E) (pool : ip_pool).

Record selected (d : db) w (a : ip_address) : Prop := {
  sel_db : w_db w = d;
  sel_dup : w_dup w = false;
  sel_inv : ipam_tables_ok (w_tx w);
  sel_row : db_addresses (w_tx w) !! addr_id a = Some a;
  sel_pool : ∃ p, db_pools (w_tx w) !! addr_pool_id a = Some p ∧ pool_is_active p = true;
  sel_state : addr_state a = AVAILABLE;
  sel_keep : ∀ i b, db_addresses d !! i = Some b → db_addresses (w_tx w) !! i = Some b }.

Definition select_post (d : db) (r : outcome ip_address) w : Prop :=
  match r with Ok a => selected d w a | Raise _ => w_db w = d end.

Context (d : db) (e : E) (Hgood : ipam_good d) (pool : ip_pool).
Context (Hpool : db_pools d !! pool_id pool = Some pool) (Hactive : pool_is_active pool = true).

Let Hinv : ipam_tables_ok d := proj2 Hgood.

(** An available row of the pool. *)
Lemma selected_row a i :
  db_addresses d !! i = Some a → addr_pool_id a = pool_id pool → addr_state a = AVAILABLE →
  selected d (World d d false e) a.
Proof using All.
  intros Ha Hp Hst. pose proof (ii_key_addr _ _ _ _ Hinv _ _ Ha) as <-.
  split; simpl; auto. exists pool. by rewrite Hp.
Qed.

(** A fresh row for an admissible address; the pool's cursor may have moved. *)
Lemma selected_fresh a next tx e' :
  0 ≤ next < num_addresses (pool_cidr pool) →
  db_pools tx = <[pool_id pool := pool <| pool_next_offset := next |>]> (db_pools d) →
  db_exclusions tx = db_exclusions d →
  db_addresses tx = <[addr_id a := a]> (db_addresses d) →
  db_allocations tx = db_allocations d →
  db_addresses d !! addr_id a = None → addr_pool_id a = pool_id pool →
  addr_state a = AVAILABLE → addr_wf (addr_address a) →
  net_contains (pool_cidr pool) (addr_address a) = true →
  admissible (db_exclusions d) pool (addr_address a) →
  selected d (World d tx false e') a.
Proof using All.
  intros Hnext HP HX HA HL Hfresh Hp Hst Hwf Hin Hadm.
  set (pool' := pool <| pool_next_offset := next |>) in *.
  assert (ipam_inv (db_pools d) (db_exclusions d) (<[addr_id a := a]> (db_addresses d))
            (db_allocations d)) as Hinv1.
  { apply (inv_put_addr Hinv a pool).
    - by rewrite Hp.
    - by split.
    - unfold held. rewrite Hst. by intros [?|[?|?]].
    - by rewrite Hfresh. }
  split; simpl; try done.
  - unfold ipam_tables_ok. rewrite HP, HX, HA, HL.
    change (pool_id pool) with (pool_id pool').
    destruct (ii_pool _ _ _ _ Hinv _ _ Hpool) as [? ? ?].
    apply (inv_put_pool Hinv1 _ pool'); [done| | | | |].
    + by split.
    + intros _. exists (addr_id a), a. by rewrite lookup_insert_eq.
    + intros _ j q Hq Hne Hqa Hsc.
      apply (ii_scope _ _ _ _ Hinv (pool_id pool) j pool q); auto.
    + intros i x Hx Hxp. destruct (ii_excl _ _ _ _ Hinv _ _ Hx) as (p & Hpp & Hw).
      simpl in Hxp. rewrite Hxp in Hpp. by simplify_eq.
    + intros i b Hb Hbp. destruct (ii_addr _ _ _ _ Hinv1 _ _ Hb) as (p & Hpp & [? ? Hadmb ?]).
      simpl in Hbp. rewrite Hbp in Hpp. simplify_eq. by split.
  - rewrite HA. apply lookup_insert_eq.
  - exists pool'. rewrite HP, Hp. split; [apply lookup_insert_eq|done].
  - intros i b Hb. rewrite HA, lookup_insert_ne; [done|]. intros <-. congruence.
Qed.

(** The exclusions the search reads are those of the pool. *)
Lemma exclusion_bounds_spec r :
  r ∈ map (λ x, (ip_int (ex_start_address x), ip_int (ex_end_address x)))
        (select_rows (λ x, bool_decide (ex_pool_id x = pool_id pool)) d) ↔
  ∃ i x, db_exclusions d !! i = Some x ∧ ex_pool_id x = pool_id pool ∧
    r = (ip_int (ex_start_address x), ip_int (ex_end_address x)).
Proof.
  rewrite list_elem_of_fmap. setoid_rewrite elem_of_select.
  setoid_rewrite bool_decide_eq_true. simpl. naive_solver.
Qed.

Lemma pool_exclusions_ordered r :
  r ∈ map (λ x, (ip_int (ex_start_address x), ip_int (ex_end_address x)))
        (select_rows (λ x, bool_decide (ex_pool_id x = pool_id pool)) d) →
  net_address (pool_cidr pool) ≤ r.1 ≤ r.2 ∧
  r.2 < net_address (pool_cidr pool) + num_addresses (pool_cidr pool).
Proof using All.
  intros (i & x & Hx & Hxp & ->)%exclusion_bounds_spec.
  destruct (ii_excl _ _ _ _ Hinv _ _ Hx) as (p & Hp & [Hs Ht Hsi Hti Hle]).
  rewrite Hxp, Hpool in Hp. simplify_eq/=.
  pose proof (pw_net _ (ii_pool _ _ _ _ Hinv _ _ Hpool)) as Hnet.
  rewrite num_addresses_spec by done.
  apply net_contains_spec in Hsi, Hti; try done. lia.
Qed.

Lemma wp_random_offset n size blocked (Q : outcome (option Z) → world E → Prop) w :
  0 < size →
  (∀ o e', (∀ x, o = Some x → 0 ≤ x < size ∧ ¬ covered blocked x) →
     Q (Ok o) (World (w_db w) (w_tx w) (w_dup w) e')) →
  wp (random_offset n size blocked) Q w.
Proof using H0.
  intros Hs HQ. revert w HQ. induction n as [|n IH]; intros w HQ; simpl.
  { apply wp_ret. destruct w; simpl. by apply HQ. }
  wp_step. wp_step. wp_step; wp_run.
  - apply HQ. intros x ?. simplify_eq. split.
    + pose proof (randrange_bounds size (w_env w) Hs) as Hb. by rewrite H1 in Hb.
    + apply not_in_ranges. by apply negb_true_iff.
  - apply IH. simpl. auto.
Qed.

(** The candidate of a request, before the check that it is available. *)
Definition candidate_post (r : outcome ip_address) w : Prop :=
  match r with
  | Ok a => w_db w = d ∧ (addr_state a = AVAILABLE → selected d w a)
  | Raise _ => w_db w = d
  end.

Lemma candidate_row a i r :
  rows d !! i = Some a → addr_in_pool (pool_id pool) a && r = true →
  addr_state a = AVAILABLE → selected d (World d d false e) a.
Proof using All.
  intros Ha [Hp%bool_decide_eq_true _]%andb_true_iff Hst. by eapply selected_row.
Qed.

Lemma wp_requested_candidate r :
  addr_wf r → wp (requested_candidate pool r) candidate_post (World d d false e).
Proof using All.
  intros Hr. unfold requested_candidate, _validated_candidate, _is_excluded, _exclusion_bounds.
  wp_run; try done; fresh_row.
  - match goal with Hf : first_row _ _ = Some _ |- _ => apply first_row_Some in Hf as [HP [j Hj]] end.
    split; [done|]. intros Hst. by eapply candidate_row.
  - split; [done|]. intros _.
    eapply (selected_fresh _ (pool_next_offset pool)); try done; simpl.
    + apply (ii_pool _ _ _ _ Hinv _ _ Hpool).
    + db_simpl. rewrite insert_id; [done|]. rewrite Hpool. by destruct pool.
    + by apply negb_false_iff.
    + split; [done|]. intros i x Hx Hxp Hin.
      match goal with Hi : in_ranges _ _ = false |- _ => apply not_in_ranges in Hi; apply Hi end.
      eexists. split; [apply exclusion_bounds_spec; eauto|done].
Qed.

Lemma wp_materialize_offset exclusions materialized drawn e' :
  (∀ r, r ∈ exclusions ↔ ∃ i x, db_exclusions d !! i = Some x ∧ ex_pool_id x = pool_id pool ∧
     r = (ip_int (ex_start_address x), ip_int (ex_end_address x))) →
  (∀ r, r ∈ exclusions → net_address (pool_cidr pool) ≤ r.1 ≤ r.2 ∧
     r.2 < net_address (pool_cidr pool) + num_addresses (pool_cidr pool)) →
  (∀ x, drawn = Some x → 0 ≤ x < num_addresses (pool_cidr pool) ∧
     ¬ covered (blocked_ranges pool exclusions materialized) x) →
  wp (materialize_offset pool (blocked_ranges pool exclusions materialized) drawn)
    candidate_post (World d d false e').
Proof using All.
  intros Hex Hord Hdrawn.
  pose proof (ii_pool _ _ _ _ Hinv _ _ Hpool) as [Hnet _ Hnext].
  pose proof (blocked_ordered pool Hnet exclusions materialized Hord) as Hbl.
  unfold materialize_offset. wp_run; try done. fresh_row. split; [done|]. intros _.
  match goal with
  | Hsel : match drawn with _ => _ end = Some ?o |- _ =>
    assert (0 ≤ o < num_addresses (pool_cidr pool) ∧
      ¬ covered (blocked_ranges pool exclusions materialized) o) as [Ho Hfree]
      by (destruct drawn; simplify_eq; [auto|];
          apply first_free_offset_free in Hsel; [done|lia|lia|done]);
    destruct (unblocked_offset pool Hnet exclusions materialized o Ho Hfree)
      as (Hsp & Hnx & _);
    destruct (net_offset_contains _ Hnet o Ho) as [Hwf Hin];
    eapply (selected_fresh _ ((o + 1) mod num_addresses (pool_cidr pool))); try done
  end.
  - apply Z.mod_pos_bound. lia.
  - split; [done|]. intros i x Hx Hxp.
    apply (Hnx (ip_int (ex_start_address x), ip_int (ex_end_address x))), Hex. eauto.
Qed.

Lemma wp_automatic_candidate :
  wp (_automatic_candidate pool) candidate_post (World d d false e).
Proof using All.
  unfold _automatic_candidate, _exclusion_bounds.
  wp_step. apply wp_db_scalar_ordered.
  { intros a i HP Hi. simpl in *. wp_run. split; [done|]. intros ?. by eapply (candidate_row a i). }
  intros _. pose proof (ii_pool _ _ _ _ Hinv _ _ Hpool) as [Hnet _ Hnext].
  do 6 wp_step. wp_step; wp_step; cbn [w_tx].
  - apply wp_random_offset; [lia|]. intros o e' Ho. simpl. apply wp_materialize_offset; auto.
    + apply exclusion_bounds_spec.
    + apply pool_exclusions_ordered.
  - wp_step. apply wp_materialize_offset; [| |done].
    + apply exclusion_bounds_spec.
    + apply pool_exclusions_ordered.
Qed.

(** The selected address is a row of an active pool, available and admissible. *)
Lemma wp_select_address requested :
  (∀ r, requested = Some r → addr_wf r) →
  wp (select_address pool requested) (select_post d) (World d d false e).
Proof using All.
  intros Hr. unfold select_address. wp_step.
  assert (wp match requested with Some r => requested_candidate pool r
             | None => _automatic_candidate pool end candidate_post (World d d false e)) as Hc.
  { destruct requested as [r|]; [apply wp_requested_candidate; auto|apply wp_automatic_candidate]. }
  eapply wp_mono; [exact Hc|]. intros [a|x] w' Hp; [|done]. destruct Hp as [Hdb Hsel].
  wp_run; simpl; [done|]. apply Hsel. by apply bool_decide_eq_false, dec_stable in H1.
Qed.
End select.

(** ** Exhaustion *)

(** No address of the pool can be handed out automatically: each one is reserved
    by the network, excluded, or has a row that is taken or locked. *)
Definition exhausted {E} `{Runtime E} (d : db) (e : E) (pool : ip_pool) : Prop :=
  ∀ a, addr_wf a → net_contains (pool_cidr pool) a = true →
    special pool (pool_cidr pool) a = true ∨
    (∃ i x, db_exclusions d !! i = Some x ∧ ex_pool_id x = pool_id pool ∧
       ip_int (ex_start_address x) ≤ ip_int a ≤ ip_int (ex_end_address x)) ∨
    (∃ i b, db_addresses d !! i = Some b ∧ addr_pool_id b = pool_id pool ∧
       addr_address b = a ∧ (addr_state b ≠ AVAILABLE ∨ env_locked e i = true)).

Section exhaustion.
Context {E : Type} `{RuntimeLaws E}.
Context (d : db) (e : E) (Hgood : ipam_good d) (pool : ip_pool).
Context (Hpool : db_pools d !! pool_id pool = Some pool) (Hactive : pool_is_active pool = true).

Let Hinv : ipam_tables_ok d := proj2 Hgood.
Let exclusions := map (λ x, (ip_int (ex_start_address x), ip_int (ex_end_address x)))
  (select_rows (λ x, bool_decide (ex_pool_id x = pool_id pool)) d).
Let materialized := map (λ a, ip_int (addr_address a))
  (select_rows (addr_in_pool (pool_id pool)) d).

Lemma no_offset_exhausted :
  (∀ i b, db_addresses d !! i = Some b →
     addr_in_pool (pool_id pool) b && addr_in_state AVAILABLE b = true →
     env_locked e (addr_id b) = true) →
  first_free_offset (num_addresses (pool_cidr pool)) (pool_next_offset pool)
    (blocked_ranges pool exclusions materialized) = None →
  exhausted d e pool.
Proof using All.
  intros Hlocked Hnone a Hwf Hin.
  pose proof (ii_pool _ _ _ _ Hinv _ _ Hpool) as [Hnet Hgw Hnext].
  pose proof (first_free_offset_cyclic (num_addresses (pool_cidr pool)) (pool_next_offset pool)
    (blocked_ranges pool exclusions materialized)) as Hc.
  rewrite Hnone in Hc. destruct Hc as [Hhi Hlo]; [lia|lia| |].
  { by apply blocked_ordered, pool_exclusions_ordered. }
  pose proof (proj1 (net_contains_spec _ Hnet a Hwf) Hin) as [Hv Hr].
  rewrite <-num_addresses_spec in Hr by done.
  set (o := ip_int a - net_address (pool_cidr pool)) in *.
  assert (covered (blocked_ranges pool exclusions materialized) o) as Hcov.
  { destruct (decide (pool_next_offset pool ≤ o)); [apply Hhi|apply Hlo]; unfold o; lia. }
  apply (blocked_offset pool Hnet) in Hcov; [|done|unfold o; lia].
  replace (net_address (pool_cidr pool) + o) with (ip_int a) in Hcov by (unfold o; lia).
  assert (IpAddr (net_version (pool_cidr pool)) (ip_int a) = a) as Ha
    by (destruct a; simpl in *; congruence).
  rewrite Ha in Hcov. destruct Hcov as [Hsp|[(r & Hr' & Hb)|Hm]]; [by left|right; left|right; right].
  - apply exclusion_bounds_spec in Hr' as (i & x & Hx & Hxp & ->). eauto.
  - apply list_elem_of_fmap in Hm as (b & Hb & Hrow).
    apply elem_of_select in Hrow as [Hbp [i Hi]]. simpl in Hi.
    pose proof (ii_key_addr _ _ _ _ Hinv _ _ Hi) as Hk.
    exists i, b. split; [done|]. pose proof Hbp as Hbp'. apply bool_decide_eq_true in Hbp'.
    destruct (ii_addr _ _ _ _ Hinv _ _ Hi) as (p & Hp & [Hbwf Hbin _ _]).
    rewrite Hbp', Hpool in Hp. simplify_eq. split; [done|]. split.
    + apply (net_contains_spec _ Hnet b.(addr_address) Hbwf) in Hbin as [Hbv _].
      destruct a, (addr_address b); simpl in *; congruence.
    + destruct (decide (addr_state b = AVAILABLE)) as [Hst|]; [right|by left].
      apply (Hlocked (addr_id b) b Hi). rewrite Hbp. simpl. by apply bool_decide_eq_true.
Qed.

Lemma wp_automatic_exhausted :
  wp (_automatic_candidate pool) (λ r _, r = Raise POOL_EXHAUSTED → exhausted d e pool)
    (World d d false e).
Proof using All.
  unfold _automatic_candidate, _exclusion_bounds.
  wp_step. apply wp_db_scalar_ordered; [intros; by wp_run|].
  intros Hlocked. simpl in Hlocked.
  assert (∀ drawn e', wp (materialize_offset pool
    (blocked_ranges pool exclusions materialized) drawn)
    (λ r _, r = Raise POOL_EXHAUSTED → exhausted d e pool) (World d d false e')) as Hm.
  { intros drawn e'. unfold materialize_offset. wp_run; try done.
    intros _. destruct drawn; [done|]. apply no_offset_exhausted; [|done].
    intros i b Hb HP. by apply (Hlocked i b). }
  do 6 wp_step. wp_step; wp_step; [|by wp_run].
  apply wp_random_offset.
  - destruct (ii_pool _ _ _ _ Hinv _ _ Hpool) as [? _ ?]. lia.
  - intros o e' _. apply Hm.
Qed.
End exhaustion.

(** ** The handlers *)

Lemma quarantine_nonneg d i pool :
  ipam_good d → db_pools d !! i = Some pool → 0 ≤ seconds (pool_quarantine_seconds pool).
Proof.
  intros Hgood Hp. assert (check_onb ck_ip_pools_quarantine d = true) as Hck.
  { apply integrity_elim; [simpl; tauto|apply Hgood]. }
  rewrite check_onb_true in Hck. apply Hck, bool_decide_eq_true in Hp. unfold seconds. lia.
Qed.

Section handlers.
Context {E : Type} `{RuntimeLaws E}.
Context (d : db) (e : E) (Hgood : ipam_good d).
Implicit Types (w : world E) (pool : ip_pool).

Let Hinv : ipam_tables_ok d := proj2 Hgood.
Let now := (env_now e).1.

(** A selected address is handed to a new allocation. *)
Lemma selected_taken t a a' l' k j w tx :
  selected d w a →
  db_pools tx = db_pools (w_tx w) → db_exclusions tx = db_exclusions (w_tx w) →
  db_addresses tx = <[k := a']> (db_addresses (w_tx w)) →
  db_allocations tx = <[j := l']> (db_allocations (w_tx w)) →
  integrity tx = true →
  k = addr_id a → addr_id a' = addr_id a → addr_pool_id a' = addr_pool_id a →
  addr_address a' = addr_address a →
  j = alloc_id l' → db_allocations (w_tx w) !! j = None →
  alloc_ip_address_id l' = addr_id a → alloc_active l' = true → alloc_matches l' a' →
  addr_move t a a' →
  step_ok t d tx.
Proof using Hgood.
  intros [Hdb Hdup Hinv' Hrow Hact Hst Hkeep] HP HX HA HL Hint Hk Hid Hp Hadr -> Hfresh
    Hlip Hla Hm Hmove. rewrite Hk, <-Hid in HA.
  split; [split; [done|]|].
  - unfold ipam_tables_ok. rewrite HP, HX, HA, HL.
    apply (inv_move Hinv' a a' l'); try done.
    + congruence.
    + by right.
    + by rewrite Hfresh.
    + intros j l Hl Hlip' Hact'. exfalso. eapply (active_not_free Hinv' j l a) in Hact'; eauto.
      * unfold held in Hact'. rewrite Hst in Hact'. by destruct Hact' as [?|[?|?]].
      * by rewrite Hlip'.
  - rewrite HA. by eapply addr_moves_insert.
Qed.

Lemma locked_row id pool :
  db_pools d !! id = Some pool → negb (pool_is_active pool) = false →
  db_pools d !! pool_id pool = Some pool ∧ pool_is_active pool = true.
Proof using Hgood.
  intros Hp Ha. rewrite (ii_key_pool _ _ _ _ Hinv _ _ Hp). by apply negb_false_iff in Ha.
Qed.

(** An allocation row and its address change together, the row being the only
    active one of that address. *)
Lemma allocation_moved t l a a' l' k j tx :
  db_allocations d !! alloc_id l = Some l → alloc_active l = true →
  db_addresses d !! alloc_ip_address_id l = Some a →
  db_pools tx = db_pools d → db_exclusions tx = db_exclusions d →
  db_addresses tx = <[k := a']> (db_addresses d) →
  db_allocations tx = <[j := l']> (db_allocations d) →
  integrity tx = true →
  k = addr_id a → addr_id a' = addr_id a → addr_pool_id a' = addr_pool_id a →
  addr_address a' = addr_address a →
  j = alloc_id l → alloc_id l' = alloc_id l →
  alloc_ip_address_id l' = alloc_ip_address_id l → alloc_matches l' a' →
  addr_state a' ≠ DISABLED → (held a' → alloc_active l' = true) →
  addr_move t a a' →
  step_ok t d tx.
Proof using Hgood.
  intros Hl Hla Ha HP HX HA HL Hint Hk Hid Hp Hadr Hj Hlid Hlip Hm Hdis Hheld Hmove.
  pose proof (ii_key_addr _ _ _ _ Hinv _ _ Ha) as Hka. subst k j.
  pose proof (active_not_free Hinv _ _ _ Hl Hla Ha) as Hha.
  destruct (ii_addr _ _ _ _ Hinv _ _ Ha) as (p & Hpp & _).
  rewrite <-Hid in HA. rewrite <-Hlid in HL.
  split; [split; [done|]|].
  - unfold ipam_tables_ok. rewrite HP, HX, HA, HL.
    apply (inv_move Hinv a a' l'); try done.
    + by rewrite Hka.
    + destruct Hha as [?|[?|?]]; congruence.
    + right. exists p. split; [done|]. by eapply held_pool_active.
    + congruence.
    + intros l0. rewrite Hlid, Hl. intros [= <-]. congruence.
    + intros j l0 Hl0 Hlip0 Hact0. rewrite Hlid.
      apply (integrity_unique uq_ip_allocations_active_address d) with (r := l0) (s := l)
        (k := addr_id a); [|apply Hgood|done|done| |].
      * simpl; tauto.
      * unfold uq_ip_allocations_active_address, only. by rewrite Hact0, Hlip0.
      * unfold uq_ip_allocations_active_address, only. by rewrite Hla, Hka.
  - rewrite HA. eapply addr_moves_insert; try done. by rewrite Hka.
Qed.

Lemma wp_allocate self id workload_id requested :
  (∀ r, requested = Some r → addr_wf r) →
  wp (allocate self id workload_id requested) (ipam_post now d) (World d d false e).
Proof using All.
  intros Hr. unfold allocate, _locked_pool.
  wp_run; try done. subst.
  match goal with Hp : rows _ !! id = Some _, Ha : negb _ = false |- _ =>
    destruct (locked_row _ _ Hp Ha) as [Hrow Hact] end.
  eapply wp_mono; [by apply wp_select_address|].
  intros [b|x] w' Hsel; [|done]. pose proof Hsel as [Hdb Hdup _ _ _ Hst _].
  unfold _allocation_response. wp_run; try done. clear Hdb. fresh_row.
  eapply selected_taken; [exact Hsel|reflexivity..|done| |reflexivity| | | | | | | |]; try done.
  by eapply move_allocate.
Qed.

Lemma wp_reserve_for_provisioning self id request requested :
  (∀ r, requested = Some r → addr_wf r) →
  wp (reserve_for_provisioning self id request requested) (ipam_post now d) (World d d false e).
Proof using All.
  intros Hr. unfold reserve_for_provisioning, _locked_pool.
  wp_run; try done; subst; try by apply step_ok_refl.
  match goal with Hp : rows _ !! id = Some _, Ha : negb _ = false |- _ =>
    destruct (locked_row _ _ Hp Ha) as [Hrow Hact] end.
  eapply wp_mono; [by apply wp_select_address|].
  intros [b|x] w' Hsel; [|done]. pose proof Hsel as [Hdb Hdup _ _ _ Hst _].
  wp_run; try done. clear Hdb. fresh_row.
  eapply selected_taken; [exact Hsel|reflexivity..|done| |reflexivity| | | | | | | |]; try done.
  by eapply move_reserve.
Qed.

(** The row of a query on allocations, and what its status says of its address. *)
Lemma allocation_row (P : ip_allocation → bool) (s : IpAllocationStatus) l :
  first_row (λ l, P l && alloc_in_status s l) d = Some l →
  db_allocations d !! alloc_id l = Some l ∧ alloc_status l = s ∧ P l = true.
Proof using Hgood.
  intros [[HP Hs%bool_decide_eq_true]%andb_true_iff [i Hi]]%first_row_Some.
  by rewrite (ii_key_alloc _ _ _ _ Hinv _ _ Hi).
Qed.

Lemma allocation_address l a :
  db_allocations d !! alloc_id l = Some l → db_addresses d !! alloc_ip_address_id l = Some a →
  alloc_matches l a.
Proof using Hgood.
  intros Hl Ha. destruct (ii_alloc _ _ _ _ Hinv _ _ Hl) as (b & Hb & Hm). congruence.
Qed.

(** The row of an allocation and its address are written together. *)
Ltac move_allocation :=
  match goal with
  | Hl : db_allocations d !! alloc_id ?l = Some ?l, Ha : db_addresses d !! _ = Some ?a |- _ =>
    pose proof (allocation_address _ _ Hl Ha) as Hm; unfold alloc_matches in Hm;
    eapply (allocation_moved _ l a);
      [exact Hl| |exact Ha|reflexivity..|done|reflexivity| | | | | | | | | |]; try done
  end.

Lemma wp_confirm_provisioning_ip request workload_id :
  wp (confirm_provisioning_ip request workload_id) (ipam_post now d) (World d d false e).
Proof using All.
  unfold confirm_provisioning_ip. wp_run; try done; subst; try by apply step_ok_refl.
  simpl in *.
  match goal with Hf : first_row _ _ = Some _ |- _ =>
    apply allocation_row in Hf as (Hl & Hst & _) end.
  move_allocation; [by (unfold alloc_active; rewrite Hst)|].
  rewrite Hst in Hm. destruct Hm as (? & _). by apply move_confirm.
Qed.

(** Quarantining an active, not yet quarantined allocation. *)
Lemma quarantine_moved t l a pool reason tx :
  db_allocations d !! alloc_id l = Some l →
  alloc_status l = AL_RESERVED ∨ alloc_status l = AL_ASSIGNED →
  db_addresses d !! alloc_ip_address_id l = Some a →
  db_pools d !! addr_pool_id a = Some pool →
  db_pools tx = db_pools d → db_exclusions tx = db_exclusions d →
  db_addresses tx = <[addr_id a := quarantined_address a pool t]> (db_addresses d) →
  db_allocations tx = <[alloc_id l := quarantined_allocation l t reason]> (db_allocations d) →
  integrity tx = true →
  step_ok t d tx.
Proof using Hgood.
  intros Hl Hst Ha Hp HP HX HA HL Hint.
  pose proof (allocation_address _ _ Hl Ha) as Hm. unfold alloc_matches in Hm.
  eapply (allocation_moved _ l a); try done.
  - unfold alloc_active. by destruct Hst as [-> | ->].
  - eapply move_quarantine with (u := t + seconds (pool_quarantine_seconds pool)); try done.
    + destruct Hst as [Hs|Hs]; rewrite Hs in Hm; tauto.
    + apply Z.le_sub_le_add_l; rewrite Z.sub_diag; by apply (quarantine_nonneg d (addr_pool_id a)).
Qed.

Lemma wp_quarantine_provisioning_ip request :
  wp (quarantine_provisioning_ip request) (ipam_post now d) (World d d false e).
Proof using All.
  unfold quarantine_provisioning_ip. wp_run; try done; subst; try by apply step_ok_refl.
  simpl in *.
  match goal with Hf : first_row _ _ = Some _ |- _ =>
    apply allocation_row in Hf as (Hl & Hst & _) end.
  match goal with Hn : env_now e = _ |- _ => unfold now; rewrite Hn end.
  eapply quarantine_moved; try done. by left.
Qed.

(** [release] may raise [AssertionError] after its commit, when the allocation
    belongs to no workload yet. *)
Definition release_post (id : N) {A} (r : outcome A) w : Prop :=
  match r with
  | Ok _ => step_ok now d (w_db w)
  | Raise x =>
    w_db w = d ∨
    (x = AssertionError ∧ step_ok now d (w_db w) ∧
     ∃ l, db_allocations d !! id = Some l ∧ alloc_status l = AL_RESERVED)
  end.

Lemma wp_release self id reason :
  wp (release self id reason) (release_post id) (World d d false e).
Proof using All.
  unfold release, _audit_and_commit, _allocation_response.
  wp_run; try (by left); subst; try by apply step_ok_refl.
  all: simpl in *;
    match goal with Hn : env_now e = _ |- _ => unfold now; rewrite Hn end;
    match goal with Hl : db_allocations d !! ?i = Some ?l |- _ =>
      pose proof (ii_key_alloc _ _ _ _ Hinv _ _ Hl) as Hkl; subst i end.
  2, 4: eapply quarantine_moved; eauto.
  - right. split; [done|]. split; [|eauto]. eapply quarantine_moved; eauto.
  - exfalso. match goal with Hs : alloc_status ?l = _, Ha : db_addresses d !! _ = Some ?a |- _ =>
      assert (alloc_matches l a) as Hm by (by apply allocation_address);
      unfold alloc_matches in Hm; rewrite Hs in Hm; destruct Hm as [_ [? ?]]; congruence end.
Qed.

Lemma wp_approve_release self id :
  wp (approve_release self id) (ipam_post now d) (World d d false e).
Proof using All.
  unfold approve_release, _audit_and_commit. wp_run; try done; subst.
  simpl in *.
  match goal with Hn : env_now e = _ |- _ => unfold now; rewrite Hn end.
  match goal with Hf : first_row _ _ = Some ?l, Ha : db_addresses d !! id = Some ?a |- _ =>
    apply allocation_row in Hf as (Hl & Hst & Hip%bool_decide_eq_true);
    rewrite (ii_key_addr _ _ _ _ Hinv _ _ Ha) in Hip; rewrite <-Hip in Ha end.
  move_allocation; [by (unfold alloc_active; rewrite Hst)|by intros [?|[?|?]]|].
  rewrite Hst in Hm. destruct Hm as (? & _ & [u Hu]).
  eapply (move_approve _ _ _ u); try done.
  match goal with Hb : match _ with _ => _ end = false |- _ => rewrite Hu in Hb end.
  simpl in *. lia.
Qed.

(** An address leaves the allocatable set. *)
Lemma excluded_moved t a k pool tx :
  db_pools d !! pool_id pool = Some pool → pool_is_active pool = true →
  db_pools tx = db_pools d → db_exclusions tx = db_exclusions d →
  db_addresses tx = <[k := a]> (db_addresses d) →
  db_allocations tx = db_allocations d → integrity tx = true →
  k = addr_id a → addr_pool_id a = pool_id pool → addr_state a = DISABLED →
  addr_wf (addr_address a) → net_contains (pool_cidr pool) (addr_address a) = true →
  (∀ b, db_addresses d !! addr_id a = Some b →
     addr_pool_id b = addr_pool_id a ∧ addr_address b = addr_address a ∧
     addr_state b = AVAILABLE) →
  step_ok t d tx.
Proof using Hgood.
  intros Hp Hact HP HX HA HL Hint -> Hap Hst Hwf Hin Hold.
  split; [split; [done|]|].
  - unfold ipam_tables_ok. rewrite HP, HX, HA, HL. apply (inv_put_addr Hinv a pool).
    + by rewrite Hap.
    + split; try done; congruence.
    + unfold held. rewrite Hst. by intros [?|[?|?]].
    + intros b Hb. destruct (Hold b Hb) as (? & ? & Hb'). split; [done|].
      unfold held. rewrite Hb'. by intros [?|[?|?]].
  - rewrite HA. intros i c Hc. destruct (decide (i = addr_id a)) as [->|Hne].
    + destruct (Hold c Hc) as (? & ? & ?). exists a. rewrite lookup_insert_eq.
      repeat split; try done. by apply move_exclude.
    + exists c. rewrite lookup_insert_ne by done. repeat split; [done|constructor].
Qed.

Lemma wp_reserve_address self id address reason :
  addr_wf address →
  wp (reserve_address self id address reason) (ipam_post now d) (World d d false e).
Proof using All.
  intros Hwf. unfold reserve_address, _locked_pool, _validated_candidate, _audit_and_commit.
  wp_run; try done; fresh_row;
    match goal with
    | Hp : db_pools d !! _ = Some _, Ha : negb _ = false, Hn : negb (net_contains _ _) = false |- _ =>
      destruct (locked_row _ _ Hp Ha) as [Hrow Hact]; apply negb_false_iff in Hn
    end.
  - match goal with Hf : first_row _ _ = Some ?a |- _ =>
      apply first_row_Some in Hf as [[Hip%bool_decide_eq_true Had%bool_decide_eq_true]%andb_true_iff
        [j Hj]]; simpl in Hj; pose proof (ii_key_addr _ _ _ _ Hinv _ _ Hj) as <-
    end.
    match goal with Hb : bool_decide (_ ≠ _) = false |- _ =>
      apply bool_decide_eq_false, dec_stable in Hb end.
    eapply excluded_moved; [exact Hrow|done|reflexivity..|done|reflexivity| | | | |];
      simpl; try congruence.
    intros b Hb. by simplify_eq.
  - eapply excluded_moved; [exact Hrow|done|reflexivity..|done|reflexivity| | | | |];
      simpl; congruence.
Qed.

(** *** Pools *)

Lemma wp_delete_pool self id version :
  wp (delete_pool self id version) (ipam_post now d) (World d d false e).
Proof using All.
  unfold delete_pool, _locked_pool. wp_run; try done. subst.
  match goal with
  | Hp : rows _ !! _ = Some _, Ha : negb _ = false |- _ =>
      destruct (locked_row _ _ Hp Ha) as [Hrow Hact]
  end.
  match goal with Hc : _ || _ = false |- _ => apply orb_false_iff in Hc as [Hc%Z.ltb_ge _];
    pose proof (count_rows_0 _ _ Hc) as Hfree end.
  split; [split; [done|]|apply addr_moves_refl]. simpl.
  destruct (ii_pool _ _ _ _ Hinv _ _ Hrow) as [Hnet Hgw Hnext].
  apply (inv_put_pool Hinv); simpl; try done.
  - intros Hne. by apply (ii_next _ _ _ _ Hinv _ a).
  - intros i x Hx Hxp. destruct (ii_excl _ _ _ _ Hinv _ _ Hx) as (p & Hp & Hw).
    rewrite Hxp in Hp. by simplify_eq.
  - intros i b Hb Hbp. destruct (ii_addr _ _ _ _ Hinv _ _ Hb) as (p & Hp & [? ? Hadm ?]).
    rewrite Hbp in Hp. simplify_eq. split; try done. intros _. simpl in Hb.
    apply Hfree in Hb. unfold addr_in_pool, addr_in_state in Hb.
    rewrite (bool_decide_true _ Hbp) in Hb. simpl in Hb.
    by apply negb_false_iff, bool_decide_eq_true in Hb.
Qed.

(** The loops of [create_pool]. *)
Lemma wp_check_excluded_ranges network ranges (Q : outcome () → world E → Prop) w :
  (∀ x, Q (Raise x) w) →
  (∀ r, r ∈ ranges → addr_wf (rg_start r) ∧ addr_wf (rg_end r)) →
  ((∀ r, r ∈ ranges → excl_wf network (rg_start r) (rg_end r)) → Q (Ok tt) w) →
  wp (check_excluded_ranges network ranges) Q w.
Proof.
  intros Hr Hwf HQ. unfold check_excluded_ranges.
  apply (wp_for_each_check (λ r, excl_wf network (rg_start r) (rg_end r))); [|done].
  intros r Hin. wp_run; auto. split; [done|]. destruct (Hwf r Hin).
  match goal with Hb : _ || _ || _ = false |- _ =>
    rewrite !orb_false_iff, !negb_false_iff in Hb; destruct Hb as [[? ?] ?%Z.ltb_ge] end.
  by split.
Qed.

Lemma wp_check_overlap P cluster_id network (Q : outcome () → world E → Prop) w :
  (∀ x, Q (Raise x) w) →
  ((∀ i p, db_pools (w_tx w) !! i = Some p → P p = true →
      same_scope (pool_cluster_id p) cluster_id = true → overlaps network (pool_cidr p) = false) →
    Q (Ok tt) w) →
  wp (check_overlap P cluster_id network) Q w.
Proof.
  intros Hr HQ. unfold check_overlap. wp_run.
  apply wp_for_each_raise_if; [auto|]. intros Hall. apply HQ. intros i p Hi HP Hsc.
  specialize (Hall p). rewrite Hsc in Hall. apply Hall, elem_of_select. eauto.
Qed.
Lemma wp_check_gateway network gateway (Q : outcome () → world E → Prop) w :
  (∀ x, Q (Raise x) w) →
  ((∀ g, gateway = Some g → net_contains network g = true) → Q (Ok tt) w) →
  wp (check_gateway network gateway) Q w.
Proof.
  intros Hr HQ. unfold check_gateway. wp_run; auto; apply HQ; intros g ?; simplify_eq.
  by apply negb_false_iff.
Qed.

Lemma wp_check_dns network dns (Q : outcome () → world E → Prop) w :
  (∀ r, Q r w) → wp (check_dns network dns) Q w.
Proof. intros HQ. unfold check_dns. wp_run; auto. Qed.

Lemma wp_check_cluster cluster_id (Q : outcome () → world E → Prop) w :
  (∀ r, Q r w) → wp (check_cluster cluster_id) Q w.
Proof. intros HQ. unfold check_cluster. wp_run; auto. Qed.

(** The exclusions of a pool that has no address. *)
Lemma wp_add_exclusions id p ranges (Q : outcome () → world E → Prop) w :
  id = pool_id p →
  (∀ r, r ∈ ranges → excl_wf (pool_cidr p) (rg_start r) (rg_end r)) →
  (w_dup w = false → ipam_tables_ok (w_tx w) ∧ db_pools (w_tx w) !! pool_id p = Some p ∧
     ∀ i a, db_addresses (w_tx w) !! i = Some a → addr_pool_id a ≠ pool_id p) →
  (∀ w', w_db w' = w_db w →
     (w_dup w' = false → w_dup w = false ∧ ipam_tables_ok (w_tx w') ∧
        db_addresses (w_tx w') = db_addresses (w_tx w)) →
     Q (Ok tt) w') →
  wp (add_exclusions id ranges) Q w.
Proof.
  intros -> Hwf Hok HQ. unfold add_exclusions.
  apply (wp_for_each (λ w', w_db w' = w_db w ∧
    (w_dup w' = false → w_dup w = false ∧ ipam_tables_ok (w_tx w') ∧
       db_pools (w_tx w') !! pool_id p = Some p ∧
       db_addresses (w_tx w') = db_addresses (w_tx w)))).
  - split; [done|]. intros Hd. destruct (Hok Hd) as (? & ? & _). by split_and!.
  - intros r w' Hr [Hdb Hw']. wp_run. split; [done|]. simpl. intros Hdup. subst.
    apply orb_false_iff in Hdup as [Hdup _]. destruct (Hw' Hdup) as (Hd & Hi & Hp & HA).
    destruct (Hok Hd) as (_ & _ & Hno).
    split_and!; try done. unfold ipam_tables_ok in *. db_simpl.
    apply (inv_put_excl Hi {| ex_pool_id := pool_id p |} p); simpl; auto.
    intros i b Hb. rewrite HA in Hb. eauto.
  - intros w' [Hdb Hw']. apply HQ; [done|]. intros Hd. destruct (Hw' Hd) as (? & ? & ? & ?).
    by split_and!.
Qed.

(** What the request schema guarantees of a payload. *)
Definition ranges_wf (ranges : list IpRangeRequest) : Prop :=
  ∀ r, r ∈ ranges → addr_wf (rg_start r) ∧ addr_wf (rg_end r).

Lemma new_pool_ok self payload id network tx :
  net_wf network →
  (∀ g, pc_gateway payload = Some g → net_contains network g = true) →
  (∀ i p, db_pools d !! i = Some p → pool_is_active p = true →
     same_scope (pool_cluster_id p) (pc_cluster_id payload) = true →
     overlaps network (pool_cidr p) = false) →
  db_pools d !! id = None →
  db_pools tx = <[id := new_pool self payload id network]> (db_pools d) →
  db_exclusions tx = db_exclusions d → db_addresses tx = db_addresses d →
  db_allocations tx = db_allocations d →
  ipam_tables_ok tx ∧ db_pools tx !! id = Some (new_pool self payload id network) ∧
  ∀ i a, db_addresses tx !! i = Some a → addr_pool_id a ≠ id.
Proof using Hgood.
  intros Hnet Hgw Hscope Hfresh HP HX HA HL.
  assert (∀ i a, db_addresses d !! i = Some a → addr_pool_id a ≠ id) as Hno.
  { intros i a Ha Heq. destruct (ii_addr _ _ _ _ Hinv _ _ Ha) as (p & Hp & _). congruence. }
  split; [|rewrite HP, HA; split; [apply lookup_insert_eq|done]].
  unfold ipam_tables_ok. rewrite HP, HX, HA, HL. apply (inv_put_pool Hinv); [done|..]; simpl.
  - split; simpl; try done. rewrite num_addresses_spec by done.
    split; [done|]. by apply block_size_pos.
  - done.
  - intros _ j q Hq Hne Hqa Hsc. rewrite same_scope_comm in Hsc. eauto.
  - intros i x Hx Hxp. destruct (ii_excl _ _ _ _ Hinv _ _ Hx) as (p & Hp & _). congruence.
  - intros i a Ha Hap. exfalso. by eapply Hno.
Qed.

Lemma wp_create_pool self payload :
  ranges_wf (pc_excluded_ranges payload) →
  wp (create_pool self payload) (ipam_post now d) (World d d false e).
Proof using All.
  intros Hwf. unfold create_pool, _network. wp_step. wp_step; [done|].
  match goal with Hn : ip_network _ = Some ?n |- _ => apply ip_network_wf in Hn as Hnet end.
  wp_step. apply wp_check_gateway; [done|]. intros Hgw.
  wp_step. apply wp_check_cluster. intros [[]|?]; [|done].
  wp_step. apply wp_check_excluded_ranges; [done|done|]. intros Hranges.
  wp_step. apply wp_check_dns. intros [[]|?]; [|done].
  wp_step. apply wp_check_overlap; [done|]. intros Hscope.
  do 4 wp_step. wp_step.
  match goal with |- wp (add_exclusions ?id _) _ (World _ ?tx _ _) =>
    pose proof (λ Hf, new_pool_ok self payload id a tx Hnet Hgw Hscope Hf
                  eq_refl eq_refl eq_refl eq_refl) as Hok;
    apply (wp_add_exclusions _ (new_pool self payload id a)); [done|done| |] end.
  { intros Hb. apply Hok. fresh_row. done. }
  intros w' Hdb Hw'.
  unfold _pool_response. wp_run; try done. simpl in *.
  match goal with Hd : w_dup w' = false |- _ => destruct (Hw' Hd) as (_ & Hi & HA) end.
  split; [by split|]. simpl in *. rewrite HA. apply addr_moves_refl.
Qed.

Lemma wp_cidr_or_current pool cidr (Q : outcome ip_net → world E → Prop) w :
  net_wf (pool_cidr pool) → (∀ x, Q (Raise x) w) → (∀ n, net_wf n → Q (Ok n) w) →
  wp (cidr_or_current pool cidr) Q w.
Proof.
  intros Hnet Hr HQ. unfold cidr_or_current, _network. wp_run; auto.
  apply HQ. by eapply ip_network_wf.
Qed.

(** The guards of [update_pool], as facts about the row it writes. *)
Lemma updated_pool_ok pool payload cluster_id network gateway dns tx :
  db_pools d !! pool_id pool = Some pool → pool_is_active pool = true → net_wf network →
  (∀ g, gateway = Some g → net_contains network g = true) →
  (∀ i a, db_addresses d !! i = Some a → addr_pool_id a = pool_id pool →
     network = pool_cidr pool ∧ gateway = pool_gateway pool) →
  (∀ i x, db_exclusions d !! i = Some x → ex_pool_id x = pool_id pool →
     network = pool_cidr pool) →
  (∀ i q, db_pools d !! i = Some q → i ≠ pool_id pool → pool_is_active q = true →
     same_scope (pool_cluster_id q) cluster_id = true →
     overlaps network (pool_cidr q) = false) →
  db_pools tx = <[pool_id pool := updated_pool pool payload cluster_id network gateway dns]>
                  (db_pools d) →
  db_exclusions tx = db_exclusions d → db_addresses tx = db_addresses d →
  db_allocations tx = db_allocations d → integrity tx = true →
  step_ok now d tx.
Proof using Hgood.
  intros Hrow Hact Hnet Hgw Haddr Hexcl Hscope HP HX HA HL Hint.
  destruct (ii_pool _ _ _ _ Hinv _ _ Hrow) as [_ _ Hnext].
  split; [split; [done|]|rewrite HA; apply addr_moves_refl].
  unfold ipam_tables_ok. rewrite HP, HX, HA, HL. apply (inv_put_pool Hinv); [done|..]; simpl.
  - split; simpl; try done. destruct (decide (pool_next_offset pool = 0)) as [->|Hne].
    + rewrite num_addresses_spec by done. split; [done|]. by apply block_size_pos.
    + destruct (ii_next _ _ _ _ Hinv _ _ Hrow Hne) as (j & b & Hb & Hbp).
      destruct (Haddr _ _ Hb Hbp) as [-> _]. done.
  - intros Hne. by apply (ii_next _ _ _ _ Hinv _ pool).
  - intros _ j q Hq Hne Hqa Hsc. rewrite same_scope_comm in Hsc. eauto.
  - intros i x Hx Hxp. destruct (ii_excl _ _ _ _ Hinv _ _ Hx) as (p & Hp & Hw).
    rewrite Hxp in Hp. rewrite (Hexcl i x Hx Hxp). by simplify_eq.
  - intros i b Hb Hbp. destruct (Haddr _ _ Hb Hbp) as [-> ->].
    destruct (ii_addr _ _ _ _ Hinv _ _ Hb) as (p & Hp & [? ? Hadm ?]).
    rewrite Hbp in Hp. simplify_eq. by split.
Qed.

Lemma wp_update_pool self id payload :
  wp (update_pool self id payload) (ipam_post now d) (World d d false e).
Proof using All.
  unfold update_pool, _locked_pool. wp_run; try done. subst.
  match goal with
  | Hp : rows _ !! _ = Some _, Ha : negb _ = false |- _ =>
      destruct (locked_row _ _ Hp Ha) as [Hrow Hact]
  end.
  apply wp_cidr_or_current; [apply (ii_pool _ _ _ _ Hinv _ _ Hrow)|done|].
  intros network Hnet. wp_step. apply wp_check_gateway; [done|]. intros Hgw.
  wp_step. apply wp_check_dns. intros [[]|?]; [|done].
  wp_step. apply wp_check_cluster. intros [[]|?]; [|done].
  wp_run; try done. apply wp_check_overlap; [done|]. intros Hscope.
  unfold _pool_response. wp_run; try done. simpl in *.
  match goal with
  | Ha : (?c1 || ?c2 || ?c3) && (0 <? ?n) = false, Hx : ?c1 && (0 <? ?m) = false |- _ =>
    rename Ha into Hnoaddr; rename Hx into Hnoexcl
  end.
  eapply updated_pool_ok; try done.
  - intros i b Hb Hbp. apply andb_false_iff in Hnoaddr as [Hc|Hc%Z.ltb_ge].
    + rewrite !orb_false_iff, !bool_decide_eq_false in Hc. destruct Hc as [[? ?] ?].
      split; by apply dec_stable.
    + pose proof (count_rows_0 _ _ Hc _ _ Hb) as Hn. by apply bool_decide_eq_false in Hn.
  - intros i x Hx Hxp. apply andb_false_iff in Hnoexcl as [Hc|Hc%Z.ltb_ge].
    + apply bool_decide_eq_false in Hc. by apply dec_stable.
    + pose proof (count_rows_0 _ _ Hc _ _ Hx) as Hn. by apply bool_decide_eq_false in Hn.
  - intros i q Hq Hne Hqa Hsc. apply (Hscope i q Hq); [|done].
    rewrite Hqa. apply bool_decide_eq_true. by rewrite (ii_key_pool _ _ _ _ Hinv _ _ Hq).
Qed.

(** *** Every call *)

(** What the request schema guarantees of the arguments of a call. *)
Definition call_wf (c : ipam_call) : Prop :=
  match c with
  | CallCreatePool payload => ranges_wf (pc_excluded_ranges payload)
  | CallReserveAddress _ a _ => addr_wf a
  | CallAllocate _ _ requested | CallReserveForProvisioning _ _ requested =>
    ∀ r, requested = Some r → addr_wf r
  | _ => True
  end.

(** What a call may leave: the database as it was, or a good state with every
    address moved lawfully; a raised error means the former, but for the
    assertion that [release] makes after its commit. *)
Definition run_post (c : ipam_call) (r : outcome ()) w : Prop :=
  step_ok now d (w_db w) ∧
  match r with
  | Ok _ => True
  | Raise x =>
    w_db w = d ∨
    (x = AssertionError ∧ ∃ id reason l, c = CallRelease id reason ∧
       db_allocations d !! id = Some l ∧ alloc_status l = AL_RESERVED)
  end.

Lemma run_post_unit c (m : DBM E ()) :
  wp m (ipam_post now d) (World d d false e) → wp m (run_post c) (World d d false e).
Proof using Hgood.
  intros Hm. eapply wp_mono; [exact Hm|]. intros [a|x] w Hp; (split; [|auto]); [done|].
  unfold ipam_post in Hp. rewrite Hp. by apply step_ok_refl.
Qed.

Lemma run_post_drop {A} c (m : DBM E A) :
  wp m (ipam_post now d) (World d d false e) →
  wp (m;; mret tt) (run_post c) (World d d false e).
Proof using Hgood.
  intros Hm. apply run_post_unit. wp_step. eapply wp_mono; [exact Hm|]. by intros [a|x] w.
Qed.

Lemma wp_ipam_run self c :
  call_wf c → wp (ipam_run self c) (run_post c) (World d d false e).
Proof using All.
  intros Hwf. unfold ipam_run, ipam_service. wp_run.
  { split; [by apply step_ok_refl|by left]. }
  destruct c; simpl in *;
    lazymatch goal with
    | |- wp (release _ _ _ ≫= _) _ _ => wp_step; eapply wp_mono; [apply wp_release|]
    | |- _ => first [apply run_post_drop|apply run_post_unit];
      auto using wp_create_pool, wp_update_pool, wp_delete_pool, wp_reserve_address,
        wp_allocate, wp_reserve_for_provisioning, wp_confirm_provisioning_ip,
        wp_quarantine_provisioning_ip, wp_approve_release
    end.
  intros [a|x] w; simpl.
  - intros Hok. by split.
  - intros [Hdb|(-> & Hok & l & ? & ?)].
    + split; [rewrite Hdb; by apply step_ok_refl|by left].
    + split; [done|]. right. split; [done|]. by eexists _, _, l.
Qed.
End handlers.

(** ** Runs *)

Section runs.
Context {E : Type} `{RuntimeLaws E}.

(** One request to the service: it leaves a good state, every address has made at
    most one move of its life cycle, and a call that raised changed nothing (the
    exception being the assertion of [release] on a provisioning reservation). *)
Lemma ipam_run_ok self c d e r d' e' :
  ipam_good d → call_wf c → exec (ipam_run self c) d e = (r, d', e') →
  step_ok (env_now e).1 d d' ∧
  match r with
  | Ok _ => True
  | Raise x =>
    d' = d ∨
    (x = AssertionError ∧ ∃ id reason l, c = CallRelease id reason ∧
       db_allocations d !! id = Some l ∧ alloc_status l = AL_RESERVED)
  end.
Proof using All.
  intros Hgood Hwf Hrun. eapply exec_wp in Hrun; [|by apply wp_ipam_run].
  by destruct Hrun as (w & Hp & <- & _).
Qed.

(** The states of a database under IPAM calls, interleaved with transactions of
    other services that leave the four IPAM tables alone. *)
Inductive ipam_reach : db → Prop :=
| reach_init d :
    integrity d = true → db_pools d = ∅ → db_exclusions d = ∅ → db_addresses d = ∅ →
    db_allocations d = ∅ → ipam_reach d
| reach_call self c d e r d' e' :
    ipam_reach d → call_wf c → exec (ipam_run self c) d e = (r, d', e') → ipam_reach d'
| reach_other d d' :
    ipam_reach d → integrity d' = true → db_pools d' = db_pools d →
    db_exclusions d' = db_exclusions d → db_addresses d' = db_addresses d →
    db_allocations d' = db_allocations d → ipam_reach d'.

Lemma ipam_reach_good d : ipam_reach d → ipam_good d.
Proof using All.
  induction 1 as [d Hi HP HX HA HL|self c d e r d' e' _ IH Hwf Hrun|d d' _ IH Hi HP HX HA HL].
  - split; [done|]. unfold ipam_tables_ok. rewrite HP, HX, HA, HL. apply ipam_inv_empty.
  - by eapply ipam_run_ok in Hrun as [[Hgood _] _].
  - split; [done|]. unfold ipam_tables_ok. rewrite HP, HX, HA, HL. apply IH.
Qed.
End runs.
