(* ===== verification/ProvApi.v ===== *)
(** * What provisioning asks of its surroundings

    The [ProvisioningApi] protocol of app/services/provisioning_runner.py as a type
    class, and the secret cipher of app/security/provisioning_secrets.py over the
    AES-GCM of the cryptography package.  The task status, the credential and the
    connection are those of PveApi.v: both runners use app/proxmox/client.py. *)
From S2P Require Import Prelude Models Database AuditLog PveApi.

(** ** The cluster *)

(** The arguments of [clone_qemu_template]. *)
Record clone_args := mkCloneArgs {
  cl_source_node : string; cl_source_vmid : Z; cl_target_node : string; cl_target_vmid : Z;
  cl_clone_name : string; cl_clone_storage : string }.

Class ProvisioningApi (E : Type) := {
  api_get_guests : N → E → (pve_error + list json_object) * E;
  api_clone_qemu_template : N → clone_args → E → (pve_error + string) * E;
  api_configure_qemu : N → string → Z → list (string * string) → E → (pve_error + ()) * E;
  api_resize_qemu_disk : N → string → Z → string → Z → E → (pve_error + ()) * E;
  api_submit_vm_power_action : N → string → Z → string → E → (pve_error + string) * E;
  api_get_vm_status : N → string → Z → E → (pve_error + json_object) * E }.

(** The recording environment sees clones and configuration values. *)
#[export] Instance traced_provisioning {E} `{ProvisioningApi E} : ProvisioningApi (traced E) :=
  {| api_get_guests c := recorded (λ _, Asked c) (api_get_guests c);
     api_clone_qemu_template c a :=
       recorded (Cloned c (cl_target_vmid a)) (api_clone_qemu_template c a);
     api_configure_qemu c node vmid values :=
       recorded (λ _, SetValues c vmid values) (api_configure_qemu c node vmid values);
     api_resize_qemu_disk c node vmid disk size :=
       recorded (λ _, Resized c vmid disk size) (api_resize_qemu_disk c node vmid disk size);
     api_submit_vm_power_action c node vmid action :=
       recorded (Submitted c vmid action) (api_submit_vm_power_action c node vmid action);
     api_get_vm_status c node vmid := recorded (λ _, Asked c) (api_get_vm_status c node vmid) |}.

(** ** app/security/provisioning_secrets.py *)

Record EncryptedProvisioningSecret := mkEncryptedProvisioningSecret {
  eps_ciphertext : string; eps_nonce : string; eps_key_version : string }.

(** [os.urandom(12)], and AES-GCM under the key that HKDF derives from the
    application's: [None] stands for [InvalidTag] and [UnicodeDecodeError].  The
    associated data is the triple whose text the source formats. *)
Class ProvisioningSecrets (E : Type) := {
  env_urandom : E → string * E;
  aesgcm_encrypt : string → string → N * N * string → string;
  aesgcm_decrypt : string → string → N * N * string → option string }.

(** What the package documents: decryption undoes encryption under the same nonce
    and associated data. *)
Class AesGcmLaws (E : Type) `{ProvisioningSecrets E} : Prop :=
  aesgcm_round_trip nonce plaintext ad :
    aesgcm_decrypt nonce (aesgcm_encrypt nonce plaintext ad) ad = Some plaintext.

#[export] Instance traced_secrets {E} `{ProvisioningSecrets E} : ProvisioningSecrets (traced E) :=
  {| env_urandom := quiet env_urandom;
     aesgcm_encrypt := aesgcm_encrypt;
     aesgcm_decrypt := aesgcm_decrypt |}.

Section cipher.
Context {E : Type} `{ProvisioningSecrets E}.

Definition key_version : string := "v1".

Definition _associated_data (cluster_id request_id : N) (version : string) : N * N * string :=
  (cluster_id, request_id, version).

(** [ProvisioningSecretCipher.encrypt]. *)
Definition encrypt_secret (secret : string) (cluster_id request_id : N)
  : DBM E EncryptedProvisioningSecret :=
  nonce ← from_env env_urandom;
  mret (mkEncryptedProvisioningSecret
    (aesgcm_encrypt nonce secret (_associated_data cluster_id request_id key_version))
    nonce key_version).

(** [ProvisioningSecretCipher.decrypt]. *)
Definition decrypt_secret (encrypted : EncryptedProvisioningSecret) (cluster_id request_id : N)
  : option string :=
  aesgcm_decrypt (eps_nonce encrypted) (eps_ciphertext encrypted)
    (_associated_data cluster_id request_id (eps_key_version encrypted)).
End cipher.
