(* ===== verification/ProvRunner.v ===== *)
(** * The provisioning runner

    app/services/provisioning_runner.py: the saga that turns a provisioning request
    into a running machine of an organization, one definition per method of
    [ProvisioningRunner].  [self._request] is the row of the session's identity map:
    reading an attribute reads the working copy, assigning one writes it. *)
From stdpp Require Import sorting.
From S2P Require Import Prelude Models Database AuditLog Operations PveApi ProvApi PowerRunner.
From S2P Require Import IpAddr Ipam.

(** ** app/core/config.py: the settings the runner reads *)

(** The float settings in milliseconds. *)
Record ProvisioningSettings := mkProvisioningSettings {
  prov_operation_lease_seconds : Z; prov_connect_timeout_ms : Z; prov_read_timeout_ms : Z;
  prov_task_poll_interval_ms : Z; prov_task_max_poll_attempts : Z }.

(** ** Small functions *)

(** [try: m finally: h]. *)
Definition try_finally {S A} (m : M S A) (h : M S ()) : M S A := λ s,
  let '(r, s') := m s in
  match h s' with
  | (Ok _, s'') => (r, s'')
  | (Raise x, s'') => (Raise x, s'')
  end.

(** [value == n] for a JSON value; Python's [True] is [1]. *)
Definition json_eq_int (j : option json) (n : Z) : bool :=
  match as_int j with Some z => z =? n | None => false end.

(** [value is True]. *)
Definition json_true (j : option json) : bool :=
  match j with Some (JBool true) => true | _ => false end.

(** [nullsfirst(last_selected_at), name]; names compare bytewise. *)
Definition node_le (a b : provisioning_node) : Prop :=
  match pn_last_selected_at a, pn_last_selected_at b with
  | None, None => String.leb (pn_name a) (pn_name b) = true
  | None, Some _ => True
  | Some _, None => False
  | Some s, Some t => s < t ∨ s = t ∧ String.leb (pn_name a) (pn_name b) = true
  end.
#[export] Instance node_le_dec : RelDecision node_le.
Proof.
  intros a b. unfold node_le.
  destruct (pn_last_selected_at a), (pn_last_selected_at b); apply _.
Defined.

(** [order_by(ProvisioningStep.step_order)]. *)
Definition step_le (a b : provisioning_step) : Prop := pst_step_order a ≤ pst_step_order b.
#[export] Instance step_le_dec : RelDecision step_le.
Proof. intros a b. unfold step_le. apply _. Defined.

Definition MIN_VMID : Z := 100.
Definition MAX_VMID : Z := 1000000.

(** [next(candidate for candidate in range(100, 1_000_000) if candidate not in
    unavailable)]: [n] candidates are left. *)
Fixpoint next_vmid (n : nat) (candidate : Z) (unavailable : list Z) : option Z :=
  match n with
  | O => None
  | S n =>
    if bool_decide (candidate ∉ unavailable) then Some candidate
    else next_vmid n (candidate + 1) unavailable
  end.

Definition first_vmid (unavailable : list Z) : option Z :=
  next_vmid (Z.to_nat (MAX_VMID - MIN_VMID)) MIN_VMID unavailable.

(** Another request that holds a VMID of the cluster. *)
Definition vmid_reserved (q : provisioning_request) (r : provisioning_request) : bool :=
  bool_decide (prq_target_cluster_id r = prq_target_cluster_id q) &&
  bool_decide (prq_id r ≠ prq_id q) && bool_decide (is_Some (prq_target_vmid r)) &&
  bool_decide (prq_status r ∈ [PS_QUEUED; PS_RUNNING; PS_SUCCEEDED; PS_MANUAL_REVIEW]).

(** The rows a worker may claim: QUEUED, or RUNNING without a live lease. *)
Definition claimable (now : Z) (q : provisioning_request) : bool :=
  match prq_status q with
  | PS_QUEUED => true
  | PS_RUNNING =>
    bool_decide (prq_runner_id q = None) ||
    match prq_lease_expires_at q with Some t => t <=? now | None => true end
  | _ => false
  end.

(** [_clear_initial_password]'s condition. *)
Definition holds_password (q : provisioning_request) : bool :=
  bool_decide (is_Some (prq_initial_password_ciphertext q)) ||
  bool_decide (is_Some (prq_initial_password_nonce q)) ||
  bool_decide (is_Some (prq_initial_password_key_version q)).

Definition NO_ELIGIBLE_NODE (message : string) : exn :=
  app_error 409 "NO_ELIGIBLE_NODE" message.
Definition TARGET_NODE_MISSING : exn :=
  app_error 409 "TARGET_NODE_MISSING" "The target node is missing.".
Definition IP_RESERVATION_MISSING : exn :=
  app_error 409 "IP_RESERVATION_MISSING" "The IP reservation is missing.".
Definition SPEC_SNAPSHOT_INVALID : exn :=
  app_error 409 "SPEC_SNAPSHOT_INVALID" "The saved specification is invalid.".
Definition OWNERSHIP_CONFLICT : exn :=
  app_error 409 "WORKLOAD_OWNERSHIP_CONFLICT" "The VM is assigned elsewhere.".

(** The runner object: the request it claimed, its own identity, and the actor it
    authorized ([None] while [self._actor] is unset). *)
Record ProvisioningRunner := mkRunner {
  self_request : N; self_runner_id : N; self_actor : option user }.

Section runner.
Context {E : Type} `{Runtime E} `{PowerApi E} `{ProvisioningApi E} `{ProvisioningSecrets E}.
Context `{Digests}.
Context (settings : ProvisioningSettings).
Implicit Types (self : ProvisioningRunner) (c : client).

(** ** The request and its steps *)

(** [self._request]; nothing deletes the row while a runner holds it. *)
Definition the_request self : DBM E provisioning_request :=
  row ← db_get provisioning_request (self_request self);
  or_raise RuntimeError row.

(** Assignments to attributes of [self._request]. *)
Definition set_request self (f : provisioning_request → provisioning_request) : DBM E () :=
  q ← the_request self;
  db_save (f q).

(** Assignments to attributes of a step. *)
Definition set_step (step_id : N) (f : provisioning_step → provisioning_step) : DBM E () :=
  row ← db_get provisioning_step step_id;
  step ← or_raise RuntimeError row;
  db_save (f step).

Definition _step self (name : string) : DBM E provisioning_step :=
  row ← db_scalar (λ s, bool_decide (pst_provisioning_request_id s = self_request self) &&
                        bool_decide (pst_step_name s = name));
  assert_some row.

(** ** Leases *)

Definition _lease_deadline (now : Z) : Z :=
  let request_window := (prov_connect_timeout_ms settings + prov_read_timeout_ms settings +
                         prov_task_poll_interval_ms settings) * 1000 + seconds 5 in
  now + Z.max (seconds (prov_operation_lease_seconds settings)) request_window.

Definition _touch_lease self : DBM E () :=
  now ← datetime_now;
  set_request self (λ q, q <| prq_heartbeat_at := Some now |>
                           <| prq_lease_expires_at := Some (_lease_deadline now) |>).

(** The row that a claim at [now] by [runner_id] writes. *)
Definition claimed_by (runner_id : N) (now : Z) (q : provisioning_request)
  : provisioning_request :=
  q <| prq_status := PS_RUNNING |>
    <| prq_runner_id := Some runner_id |>
    <| prq_lease_expires_at := Some (_lease_deadline now) |>
    <| prq_started_at := Some (default now (prq_started_at q)) |>
    <| prq_heartbeat_at := Some now |>
    <| prq_version := prq_version q + 1 |>.

Definition _claim (runner_id request_id : N) : DBM E (option provisioning_request) :=
  now ← datetime_now;
  let where_ := λ q, bool_decide (prq_id q = request_id) && claimable now q in
  claimed_id ← db_scalar where_;
  db_update_where where_ (claimed_by runner_id now);;
  match claimed_id with
  | None => rollback;; mret None
  | Some q => commit;; db_get provisioning_request (prq_id q)
  end.

Definition _release_claim (runner_id request_id : N) : DBM E () :=
  try_except
    (rollback;;
     db_update_where (λ q, bool_decide (prq_id q = request_id) &&
                           bool_decide (prq_runner_id q = Some runner_id) &&
                           bool_decide (prq_status q = PS_RUNNING))
       (λ q, q <| prq_runner_id := None |> <| prq_lease_expires_at := None |>);;
     commit)
    (λ _, rollback).

(** ** The saved specification *)

Definition _int_spec self (key : string) : DBM E Z :=
  q ← the_request self;
  or_raise SPEC_SNAPSHOT_INVALID (as_int (obj_get key (prq_spec_snapshot q))).

Definition _str_spec self (key : string) : DBM E string :=
  q ← the_request self;
  match obj_get key (prq_spec_snapshot q) with
  | Some (JStr s) => mret s
  | _ => raise SPEC_SNAPSHOT_INVALID
  end.

(** [self._request.spec_snapshot.get(key)]. *)
Definition spec self (key : string) : DBM E (option json) :=
  q ← the_request self;
  mret (obj_get key (prq_spec_snapshot q)).

Definition is_windows (os_type : option json) : bool :=
  json_is os_type (TemplateOsType_value WINDOWS).

Definition initializer (os_type : option json) : json :=
  JStr (if is_windows os_type then "CLOUDBASE_INIT" else "CLOUD_INIT").

Definition _node self : DBM E provisioning_node :=
  q ← the_request self;
  id ← or_raise TARGET_NODE_MISSING (prq_target_node_id q);
  row ← db_get provisioning_node id;
  or_raise TARGET_NODE_MISSING row.

Definition _address self : DBM E ip_address :=
  q ← the_request self;
  id ← or_raise IP_RESERVATION_MISSING (prq_ip_address_id q);
  row ← db_get ip_address id;
  or_raise IP_RESERVATION_MISSING row.

Definition _vmid self : DBM E Z :=
  q ← the_request self;
  or_raise (app_error 409 "VMID_RESERVATION_MISSING" "The VMID reservation is missing.")
    (prq_target_vmid q).

(** ** Secrets *)

Definition _decrypt_initial_password self : DBM E string :=
  q ← the_request self;
  match prq_initial_password_ciphertext q, prq_initial_password_nonce q,
        prq_initial_password_key_version q with
  | Some ciphertext, Some nonce, Some version =>
    or_raise (app_error 500 "WINDOWS_INITIAL_PASSWORD_DECRYPTION_FAILED"
                "The Windows initial password could not be decrypted.")
      (decrypt_secret (mkEncryptedProvisioningSecret ciphertext nonce version)
         (prq_target_cluster_id q) (prq_id q))
  | _, _, _ => raise (app_error 409 "WINDOWS_INITIAL_PASSWORD_UNAVAILABLE"
                        "The Windows initial password is unavailable.")
  end.

Definition _clear_initial_password self : DBM E () :=
  q ← the_request self;
  when (holds_password q)
    (now ← datetime_now;
     set_request self (λ q, q <| prq_initial_password_ciphertext := None |>
                              <| prq_initial_password_nonce := None |>
                              <| prq_initial_password_key_version := None |>
                              <| prq_initial_password_cleared_at := Some now |>)).

(** ** The cluster *)

(** [_open_client] of the provisioning runner. *)
Definition open_cluster (cluster_id : N) : DBM E client :=
  row ← db_get cluster cluster_id;
  credential ← db_scalar (λ k, bool_decide (cc_cluster_id k = cluster_id) && cc_is_active k);
  match row, credential with
  | Some cl, Some cred =>
    if negb (cl_is_active cl) then
      mret (UnavailablePowerApi (PveError 409 "CLUSTER_UNAVAILABLE" "The cluster is unavailable." []))
    else
      match api_decrypt cl cred with
      | None =>
        mret (UnavailablePowerApi (PveError 500 "CREDENTIAL_DECRYPTION_FAILED"
          "The stored Proxmox credential could not be decrypted." []))
      | Some secret =>
        match api_connect cl cred secret with
        | Some error => mret (UnavailablePowerApi error)
        | None => mret (Connected (cl_id cl))
        end
      end
  | _, _ =>
    mret (UnavailablePowerApi (PveError 409 "CLUSTER_UNAVAILABLE" "The cluster is unavailable." []))
  end.

Definition _vm_exists c (vmid : Z) : DBM E bool :=
  guests ← call_or_raise c api_get_guests;
  mret (existsb (λ item, json_eq_int (obj_get "vmid" item) vmid) guests).

(** [n] polls are left. *)
Fixpoint wait_task_loop (n : nat) self c (node upid : string) : DBM E () :=
  match n with
  | O => raise (app_error 504 "PVE_TASK_TIMEOUT" "The Proxmox task timed out.")
  | S n =>
    _touch_lease self;;
    commit;;
    status ← call_or_raise c (λ i, api_get_task_status i node upid);
    if json_is (obj_get "status" status) "running" then
      sleep (prov_task_poll_interval_ms settings);;
      wait_task_loop n self c node upid
    else if json_is (obj_get "status" status) "stopped" &&
            json_is (obj_get "exitstatus" status) "OK" then mret tt
    else raise (app_error 502 "PVE_TASK_FAILED" "The Proxmox task failed.")
  end.

Definition _wait_task self c (node upid : string) : DBM E () :=
  wait_task_loop (Z.to_nat (prov_task_max_poll_attempts settings)) self c node upid.

(** [configure_qemu] of the request's machine. *)
Definition configure self c (values : list (string * string)) : DBM E () :=
  node ← _node self;
  vmid ← _vmid self;
  call_or_raise c (λ i, api_configure_qemu i (pn_name node) vmid values).

(** ** IPAM *)

Definition worker_principal (actor : user) : Principal :=
  mkPrincipal (u_id actor) (u_email actor) (u_role actor) (u_session_epoch actor).

(** [self._ipam().method()]: [AttributeError] while [self._principal] is unset. *)
Definition _ipam {A} self (method : service → DBM E A) : DBM E A :=
  actor ← or_raise AttributeError (self_actor self);
  let s := Service (worker_principal actor) "worker" "worker" in
  ipam_service s (method s).

(** The actor, where the source reads [self._actor]. *)
Definition the_actor self : DBM E user := or_raise AttributeError (self_actor self).

(** ** The handlers of the steps *)

Definition _validate_request self : DBM E json_object :=
  q ← the_request self;
  org ← db_get organization (prq_organization_id q);
  cl ← db_get cluster (prq_target_cluster_id q);
  raise_if (negb (match org with Some o => org_is_active o | None => false end))
    (app_error 409 "ORGANIZATION_UNAVAILABLE" "The organization is unavailable.");;
  raise_if (negb (match cl with Some k => cl_is_active k | None => false end))
    (app_error 409 "CLUSTER_UNAVAILABLE" "The cluster is unavailable.");;
  mret [("validated", JBool true)].

Definition _check_product self : DBM E json_object :=
  q ← the_request self;
  prod ← db_get product (prq_product_id q);
  tpl ← db_get template (prq_template_id q);
  p ← or_raise (app_error 409 "PRODUCT_UNAVAILABLE" "The product is unavailable.") prod;
  raise_if (negb (prod_is_enabled p))
    (app_error 409 "PRODUCT_UNAVAILABLE" "The product is unavailable.");;
  t ← or_raise (app_error 409 "TEMPLATE_UNAVAILABLE" "The QEMU template is unavailable.") tpl;
  raise_if (negb (tpl_is_enabled t) || negb (tpl_cloud_init_enabled t) ||
            bool_decide (TemplateOsType_of_value (tpl_os_type t) = None))
    (app_error 409 "TEMPLATE_UNAVAILABLE" "The QEMU template is unavailable.");;
  let s := prq_spec_snapshot q in
  raise_if (negb (json_is (obj_get "os_type" s) (tpl_os_type t)))
    (app_error 409 "TEMPLATE_OS_TYPE_CHANGED" "The template operating system type changed.");;
  raise_if (negb (json_eq_int (obj_get "cpu_cores" s) (prod_cpu_cores p)) ||
            negb (json_eq_int (obj_get "memory_bytes" s) (prod_memory_bytes p)) ||
            negb (json_eq_int (obj_get "disk_bytes" s) (prod_disk_bytes p)))
    (app_error 409 "PRODUCT_SPEC_CHANGED" "The product specification changed.");;
  mret [("product_id", JUuid (prod_id p))].

(** The node of the request, or the next eligible one of its cluster. *)
Definition candidate_node self (q : provisioning_request) (memory disk : Z)
  : DBM E provisioning_node :=
  match prq_target_node_id q with
  | Some id =>
    row ← db_get provisioning_node id;
    or_raise (NO_ELIGIBLE_NODE "The selected node is unavailable.") row
  | None =>
    row ← db_scalar_ordered node_le env_locked (λ n,
      bool_decide (pn_cluster_id n = prq_target_cluster_id q) && pn_is_enabled n &&
      negb (pn_is_maintenance n) && (memory <=? pn_available_memory_bytes n) &&
      (disk <=? pn_available_storage_bytes n));
    node ← or_raise (NO_ELIGIBLE_NODE "No node has sufficient capacity.") row;
    set_request self (λ q, q <| prq_target_node_id := Some (pn_id node) |>);;
    mret node
  end.

(** The spec with [node_capacity_reserved] set. *)
Definition with_capacity_flag (b : bool) (q : provisioning_request) : provisioning_request :=
  q <| prq_spec_snapshot := obj_set "node_capacity_reserved" (JBool b) (prq_spec_snapshot q) |>.

Definition _select_target self : DBM E json_object :=
  memory ← _int_spec self "memory_bytes";
  disk ← _int_spec self "disk_bytes";
  q ← the_request self;
  if json_true (obj_get "node_capacity_reserved" (prq_spec_snapshot q)) then
    resumed_node ← _node self;
    mret [("node", JStr (pn_name resumed_node)); ("resumed", JBool true)]
  else
    node ← candidate_node self q memory disk;
    raise_if (negb (pn_is_enabled node) || pn_is_maintenance node ||
              (pn_available_memory_bytes node <? memory) ||
              (pn_available_storage_bytes node <? disk))
      (NO_ELIGIBLE_NODE "The selected node is unavailable.");;
    now ← datetime_now;
    db_save (node
      <| pn_available_memory_bytes := pn_available_memory_bytes node - memory |>
      <| pn_available_storage_bytes := pn_available_storage_bytes node - disk |>
      <| pn_last_selected_at := Some now |>);;
    set_request self (with_capacity_flag true);;
    commit;;
    mret [("node", JStr (pn_name node))].

(** The VMIDs that the cluster, the inventory and the other requests hold. *)
Definition unavailable_vmids (guests : list json_object) (local : list workload)
    (reserved : list provisioning_request) : list Z :=
  omap (λ item, as_int (obj_get "vmid" item)) guests ++ map wl_vmid local ++
  omap prq_target_vmid reserved.

Definition _reserve_vmid self c : DBM E json_object :=
  guests ← call_or_raise c api_get_guests;
  q ← the_request self;
  local ← db_select (λ w, bool_decide (wl_cluster_id w = prq_target_cluster_id q));
  reserved ← db_select (vmid_reserved q);
  let unavailable := unavailable_vmids guests local reserved in
  vmid ←
    match prq_target_vmid q with
    | Some vmid =>
      raise_if (bool_decide (vmid ∈ unavailable))
        (app_error 409 "VMID_CONFLICT" "The requested VMID is already in use.");;
      mret vmid
    | None => or_raise (app_error 409 "VMID_EXHAUSTED" "No VMID is available.")
                (first_vmid unavailable)
    end;
  set_request self (λ q, q <| prq_target_vmid := Some vmid |>);;
  commit;;
  mret [("vmid", JInt vmid)].

Definition _reserve_ip self : DBM E json_object :=
  q ← the_request self;
  reserved ← _ipam self (λ s, reserve_for_provisioning s (prq_ip_pool_id q) (prq_id q)
                                (prq_requested_ip_address q));
  set_request self (λ q, q <| prq_ip_address_id := Some (addr_id reserved.1) |>);;
  commit;;
  mret [("ip_address", JStr (ip_str (addr_address reserved.1)))].

Definition _full_clone self (step : provisioning_step) c : DBM E json_object :=
  node ← _node self;
  vmid ← _vmid self;
  exists_ ← _vm_exists c vmid;
  q ← the_request self;
  if exists_ : bool then
    if prq_clone_submitted q && bool_decide (is_Some (pst_pve_upid step)) then
      mret [("already_exists", JBool true); ("submission_verified", JBool true)]
    else raise (app_error 409 "VMID_OWNERSHIP_CONFLICT"
      "The reserved VMID is occupied by a VM not verified as this provisioning request.")
  else
    set_request self (λ q, q <| prq_clone_submitted := true |>);;
    commit;;
    source_node ← _str_spec self "source_node";
    source_vmid ← _int_spec self "source_vmid";
    storage ← _str_spec self "storage";
    upid ← call_or_raise c (λ i, api_clone_qemu_template i
      (mkCloneArgs source_node source_vmid (pn_name node) vmid (prq_target_name q) storage));
    set_step (pst_id step) (λ s, s <| pst_pve_upid := Some upid |>);;
    commit;;
    mret [("submitted", JBool true)].

Definition _wait_clone self c : DBM E json_object :=
  clone_step ← _step self "FULL_CLONE";
  match pst_pve_upid clone_step with
  | Some upid =>
    node ← _node self;
    _wait_task self c (pn_name node) upid;;
    mret [("clone_complete", JBool true)]
  | None =>
    vmid ← _vmid self;
    exists_ ← _vm_exists c vmid;
    if exists_ : bool then
      raise (app_error 409 "VMID_OWNERSHIP_CONFLICT"
               "The clone VM exists without a verified Proxmox task identifier.")
    else raise (app_error 409 "CLONE_STATE_UNKNOWN" "The clone result could not be determined.")
  end.

Definition _configure_compute self c : DBM E json_object :=
  node ← _node self;
  vmid ← _vmid self;
  cores ← _int_spec self "cpu_cores";
  memory ← _int_spec self "memory_bytes";
  call_or_raise c (λ i, api_configure_qemu i (pn_name node) vmid
    [("cores", pretty cores); ("memory", pretty (memory / (1024 * 1024)))]);;
  mret [("configured", JBool true)].

Definition _resize_disk self c : DBM E json_object :=
  node ← _node self;
  vmid ← _vmid self;
  disk ← _str_spec self "source_disk";
  size ← _int_spec self "disk_bytes";
  call_or_raise c (λ i, api_resize_qemu_disk i (pn_name node) vmid disk size);;
  mret [("resized", JBool true)].

(** The [net0], [ipconfig0] and [nameserver] values. *)
Definition network_values (address : ip_address) (pool : ip_pool) (bridge : string)
    (vlan : option json) : list (string * string) :=
  let ipconfig := "ip=" +:+ ip_str (addr_address address) +:+ "/" +:+
                  pretty (net_prefixlen (pool_cidr pool)) +:+
                  match pool_gateway pool with Some g => ",gw=" +:+ ip_str g | None => "" end in
  let net0 := "virtio,bridge=" +:+ bridge +:+
              match as_int vlan with Some v => ",tag=" +:+ py_str (default JNull vlan) | None => "" end in
  [("net0", net0); ("ipconfig0", ipconfig)] ++
  match pool_dns_servers pool with
  | [] => []
  | servers => [("nameserver", str_join " " (map ip_str servers))]
  end.

Definition _configure_network self c : DBM E json_object :=
  address ← _address self;
  q ← the_request self;
  p ← db_get ip_pool (prq_ip_pool_id q);
  pool ← assert_some p;
  bridge ← _str_spec self "bridge";
  vlan ← spec self "vlan_tag";
  configure self c (network_values address pool bridge vlan);;
  os_type ← spec self "os_type";
  mret [("network_configured", JBool true); ("initializer", initializer os_type)].

(** [isinstance(keys, list) and keys and all(isinstance(item, str))]. *)
Definition ssh_keys (keys : option json) : option (list string) :=
  match keys with
  | Some (JList items) =>
    match items, mapM (λ j, match j with JStr s => Some s | _ => None end) items with
    | _ :: _, Some l => Some l
    | _, _ => None
    end
  | _ => None
  end.

Definition newline : string := String (Ascii.ascii_of_nat 10) "".

Definition _configure_identity self c : DBM E json_object :=
  os_type ← spec self "os_type";
  if is_windows os_type then
    password ← _decrypt_initial_password self;
    node ← _node self;
    vmid ← _vmid self;
    username ← _str_spec self "cloud_init_username";
    call_or_raise c (λ i, api_configure_qemu i (pn_name node) vmid
      [("ciuser", username); ("cipassword", password)]);;
    _clear_initial_password self;;
    commit;;
    mret [("credential", JStr "ONE_TIME_PASSWORD"); ("initializer", JStr "CLOUDBASE_INIT")]
  else
    value ← spec self "ssh_public_keys";
    keys ← or_raise (app_error 409 "SSH_KEYS_INVALID" "The SSH public keys are invalid.")
             (ssh_keys value);
    node ← _node self;
    vmid ← _vmid self;
    username ← _str_spec self "cloud_init_username";
    call_or_raise c (λ i, api_configure_qemu i (pn_name node) vmid
      [("ciuser", username); ("sshkeys", str_join newline keys)]);;
    os_type ← spec self "os_type";
    mret [("ssh_key_count", JInt (Z.of_nat (length keys))); ("initializer", initializer os_type)].

Definition _start_vm self (step : provisioning_step) c : DBM E json_object :=
  start ← spec self "start_after_create";
  if negb (json_true start) then mret [("skipped", JBool true)]
  else
    node ← _node self;
    vmid ← _vmid self;
    current ← call_or_raise c (λ i, api_get_vm_status i (pn_name node) vmid);
    if json_is (obj_get "status" current) "running" then mret [("already_running", JBool true)]
    else
      node ← _node self;
      vmid ← _vmid self;
      upid ← call_or_raise c (λ i, api_submit_vm_power_action i (pn_name node) vmid "start");
      set_step (pst_id step) (λ s, s <| pst_pve_upid := Some upid |>);;
      commit;;
      node ← _node self;
      _wait_task self c (pn_name node) upid;;
      mret [("started", JBool true)].

Definition _verify_status self c : DBM E json_object :=
  node ← _node self;
  vmid ← _vmid self;
  status ← call_or_raise c (λ i, api_get_vm_status i (pn_name node) vmid);
  start ← spec self "start_after_create";
  raise_if (json_true start && negb (json_is (obj_get "status" status) "running"))
    (app_error 409 "VM_START_VERIFICATION_FAILED" "The VM did not reach running state.");;
  mret [("power_state", JStr (str_upper (default_str status "status" "unknown")))].

(** The machine's inventory row, created if the inventory does not know it yet. *)
Definition machine_row self (q : provisioning_request) (vmid : Z) : DBM E workload :=
  row ← db_scalar (λ w, bool_decide (wl_cluster_id w = prq_target_cluster_id q) &&
                        bool_decide (wl_vmid w = vmid));
  match row with
  | Some wl =>
    raise_if (bool_decide (wl_organization_id wl ∉ [None; Some (prq_organization_id q)]))
      OWNERSHIP_CONFLICT;;
    mret wl
  | None =>
    id ← uuid4;
    vmid ← _vmid self;
    node ← _node self;
    start ← spec self "start_after_create";
    cores ← _int_spec self "cpu_cores";
    memory ← _int_spec self "memory_bytes";
    disk ← _int_spec self "disk_bytes";
    now ← datetime_now;
    let wl := {|
      wl_id := id; wl_cluster_id := prq_target_cluster_id q; wl_vmid := vmid;
      wl_node := pn_name node; wl_kind := "QEMU"; wl_name := Some (prq_target_name q);
      wl_power_state := if json_true start then "RUNNING" else "STOPPED";
      wl_cpu_cores := Some cores; wl_memory_bytes := Some memory; wl_disk_bytes := Some disk;
      wl_is_template := false; wl_is_present := true;
      wl_organization_id := Some (prq_organization_id q); wl_observed_at := now;
      wl_version := 1 |} in
    db_add wl;;
    flush;;
    mret wl
  end.

(** A new [WorkloadAssignment]; [assigned_at] is the server default [now()]. *)
Definition new_assignment (id workload_id organization_id user_id : N) (now : Z)
  : workload_assignment := {|
  wa_id := id; wa_workload_id := workload_id; wa_organization_id := organization_id;
  wa_assigned_by_id := user_id; wa_assigned_at := now; wa_revoked_by_id := None;
  wa_revoked_at := None; wa_revoke_reason := None |}.

Definition active_assignment (workload_id : N) (a : workload_assignment) : bool :=
  bool_decide (wa_workload_id a = workload_id) && bool_decide (wa_revoked_at a = None).

(** The assignment part of [_assign_organization]. *)
Definition assign_machine self (q : provisioning_request) (wl : workload) : DBM E () :=
  assignment ← db_scalar (active_assignment (wl_id wl));
  match assignment with
  | Some a => raise_if (bool_decide (wa_organization_id a ≠ prq_organization_id q)) OWNERSHIP_CONFLICT
  | None =>
    actor ← the_actor self;
    id ← uuid4;
    now ← datetime_now;
    db_add (new_assignment id (wl_id wl) (prq_organization_id q) (u_id actor) now)
  end;;
  db_save (wl <| wl_organization_id := Some (prq_organization_id q) |> <| wl_is_present := true |>);;
  set_request self (λ q, q <| prq_workload_id := Some (wl_id wl) |>).

Definition _assign_organization self : DBM E json_object :=
  q ← the_request self;
  vmid ← _vmid self;
  wl ← machine_row self q vmid;
  assign_machine self q wl;;
  actor ← the_actor self;
  add_audit_event ((audit_event "VM_ASSIGNED" "SUCCEEDED" None)
    <| a_actor_user_id := Some (u_id actor) |>
    <| a_actor_role := Some (u_role actor) |>
    <| a_organization_id := Some (prq_organization_id q) |>
    <| a_workload_id := Some (wl_id wl) |>
    <| a_target_type := Some "workload" |>
    <| a_target_id := Some (JUuid (wl_id wl)) |>
    <| a_after := Some [("organization_id", JUuid (prq_organization_id q))] |>);;
  commit;;
  mret [("workload_id", JUuid (wl_id wl))].

Definition _confirm_ip self : DBM E json_object :=
  q ← the_request self;
  workload_id ← or_raise (app_error 409 "WORKLOAD_MISSING" "The created workload is missing.")
                  (prq_workload_id q);
  _ipam self (λ _, confirm_provisioning_ip (prq_id q) workload_id);;
  mret [("assigned", JBool true)].

Definition _execute_step self (step : provisioning_step) c : DBM E json_object :=
  let name := pst_step_name step in
  if decide (name = "VALIDATE_REQUEST") then _validate_request self
  else if decide (name = "CHECK_PRODUCT") then _check_product self
  else if decide (name = "SELECT_TARGET") then _select_target self
  else if decide (name = "RESERVE_VMID") then _reserve_vmid self c
  else if decide (name = "RESERVE_IP") then _reserve_ip self
  else if decide (name = "FULL_CLONE") then _full_clone self step c
  else if decide (name = "WAIT_CLONE") then _wait_clone self c
  else if decide (name = "CONFIGURE_COMPUTE") then _configure_compute self c
  else if decide (name = "RESIZE_DISK") then _resize_disk self c
  else if decide (name = "CONFIGURE_NETWORK") then _configure_network self c
  else if decide (name = "CONFIGURE_IDENTITY") then _configure_identity self c
  else if decide (name = "START_VM") then _start_vm self step c
  else if decide (name = "VERIFY_STATUS") then _verify_status self c
  else if decide (name = "ASSIGN_ORGANIZATION") then _assign_organization self
  else if decide (name = "CONFIRM_IP") then _confirm_ip self
  else raise (app_error 500 "UNKNOWN_PROVISIONING_STEP" "The provisioning step is unknown.").

(** ** Failure *)

Definition _release_node_capacity self : DBM E () :=
  q ← the_request self;
  if negb (json_true (obj_get "node_capacity_reserved" (prq_spec_snapshot q))) then mret tt
  else
    id ← or_raise RuntimeError (prq_target_node_id q);
    row ← db_get provisioning_node id;
    node ← or_raise RuntimeError row;
    memory ← _int_spec self "memory_bytes";
    disk ← _int_spec self "disk_bytes";
    db_save (node
      <| pn_available_memory_bytes := pn_available_memory_bytes node + memory |>
      <| pn_available_storage_bytes := pn_available_storage_bytes node + disk |>);;
    set_request self (with_capacity_flag false);;
    commit.

(** The inventory row of a machine left for manual review. *)
Definition partial_workload self (q : provisioning_request) (vmid : Z) (node : provisioning_node)
  : DBM E () :=
  workload_id ← uuid4;
  cores ← _int_spec self "cpu_cores";
  memory ← _int_spec self "memory_bytes";
  disk ← _int_spec self "disk_bytes";
  now ← datetime_now;
  known ← db_scalar (λ w, bool_decide (wl_cluster_id w = prq_target_cluster_id q) &&
                          bool_decide (wl_vmid w = vmid));
  match known with
  | Some _ => mret tt
  | None =>
    db_add {|
      wl_id := workload_id; wl_cluster_id := prq_target_cluster_id q; wl_vmid := vmid;
      wl_node := pn_name node; wl_kind := "QEMU"; wl_name := Some (prq_target_name q);
      wl_power_state := "UNKNOWN"; wl_cpu_cores := Some cores; wl_memory_bytes := Some memory;
      wl_disk_bytes := Some disk; wl_is_template := false; wl_is_present := true;
      wl_organization_id := None; wl_observed_at := now; wl_version := 1 |};;
    flush
  end.

Definition _record_partial_workload self : DBM E () :=
  q ← the_request self;
  match prq_target_vmid q, prq_target_node_id q with
  | Some vmid, Some node_id =>
    clone_wait ← db_scalar (λ s, bool_decide (pst_provisioning_request_id s = prq_id q) &&
                                 bool_decide (pst_step_name s = "WAIT_CLONE"));
    if negb (match clone_wait with
             | Some s => bool_decide (pst_status s = ST_SUCCEEDED) | None => false
             end) then mret tt
    else
      row ← db_get provisioning_node node_id;
      match row with
      | None => mret tt
      | Some node =>
        partial_workload self q vmid node;;
        row ← db_scalar (λ w, bool_decide (wl_cluster_id w = prq_target_cluster_id q) &&
                              bool_decide (wl_vmid w = vmid));
        match row with
        | None => mret tt
        | Some wl =>
          if bool_decide (wl_organization_id wl ∉ [None; Some (prq_organization_id q)]) then mret tt
          else
            now ← datetime_now;
            db_save (wl <| wl_is_present := true |> <| wl_observed_at := now |>);;
            set_request self (λ q, q <| prq_workload_id := Some (wl_id wl) |>);;
            add_audit_event ((audit_event "PARTIAL_PROVISIONING_VM_RECORDED" "SUCCEEDED" None)
              <| a_actor_user_id := Some (prq_requested_by_id q) |>
              <| a_actor_role := Some SUPER_ADMIN |>
              <| a_organization_id := wl_organization_id wl |>
              <| a_workload_id := Some (wl_id wl) |>
              <| a_target_type := Some "workload" |>
              <| a_target_id := Some (JUuid (wl_id wl)) |>
              <| a_after := Some
                   [("cluster_id", JUuid (wl_cluster_id wl)); ("vmid", JInt (wl_vmid wl));
                    ("organization_id", json_of_opt JUuid (wl_organization_id wl));
                    ("provisioning_request_id", JUuid (prq_id q))] |>)
        end
      end
  | _, _ => mret tt
  end.

(** Give the reservations back: [true] when that failed. *)
Definition compensate self : DBM E bool :=
  try_except
    (_ipam self (λ _, quarantine_provisioning_ip (self_request self));;
     _release_node_capacity self;;
     mret false)
    (λ _, mret true).

Definition failed_status (manual_review : bool) : ProvisioningStatus :=
  if manual_review then PS_MANUAL_REVIEW else PS_FAILED.

Definition _fail_request self (step : option provisioning_step) (error : pve_error) : DBM E () :=
  match step with
  | Some step =>
    now ← datetime_now;
    set_step (pst_id step) (λ s, s
      <| pst_status := ST_FAILED |>
      <| pst_error_code := Some (pe_code error) |>
      <| pst_error_summary := Some (pe_message error) |>
      <| pst_finished_at := Some now |>)
  | None => mret tt
  end;;
  q ← the_request self;
  manual_review ←
    (if prq_clone_submitted q || bool_decide (pe_code error = "VMID_OWNERSHIP_CONFLICT")
     then mret true else compensate self);
  now ← datetime_now;
  set_request self (λ q, q
    <| prq_status := failed_status manual_review |>
    <| prq_error_code := Some (pe_code error) |>
    <| prq_error_summary := Some (pe_message error) |>
    <| prq_finished_at := Some now |>
    <| prq_runner_id := None |>
    <| prq_lease_expires_at := None |>);;
  _clear_initial_password self;;
  add_audit_event ((audit_event "VM_PROVISION"
      (if manual_review : bool then "MANUAL_REVIEW" else "FAILED") None)
    <| a_actor_user_id := Some (prq_requested_by_id q) |>
    <| a_actor_role := Some SUPER_ADMIN |>
    <| a_organization_id := Some (prq_organization_id q) |>
    <| a_workload_id := prq_workload_id q |>
    <| a_target_type := Some "provisioning_request" |>
    <| a_target_id := Some (JUuid (prq_id q)) |>
    <| a_details := Some [("error_code", JStr (pe_code error));
                          ("step", json_of_opt (λ s, JStr (pst_step_name s)) step)] |>
    <| a_error_code := Some (pe_code error) |>);;
  commit;;
  when manual_review
    (try_except (_record_partial_workload self;; commit) (λ _, rollback)).

(** ** The saga *)

Definition begin_step self (step : provisioning_step) : DBM E () :=
  set_request self (λ q, q <| prq_current_step := pst_step_name step |>);;
  _touch_lease self;;
  started_at ← match pst_started_at step with Some t => mret t | None => datetime_now end;
  set_step (pst_id step) (λ s, s
    <| pst_status := ST_RUNNING |>
    <| pst_started_at := Some started_at |>
    <| pst_attempt_count := pst_attempt_count s + 1 |>
    <| pst_error_code := None |>
    <| pst_error_summary := None |>);;
  commit.

Definition INTERNAL_ERROR : pve_error :=
  PveError 500 "PROVISIONING_INTERNAL_ERROR" "The provisioning step failed unexpectedly." [].

(** The result of a step, [None] once the request has failed. *)
Definition attempt_step self (step : provisioning_step) c : DBM E (option json_object) :=
  try_except (result ← _execute_step self step c; mret (Some result))
    (λ exc,
      match exc with
      | AppError status code message details =>
        _fail_request self (Some step) (PveError status code message details);; mret None
      | _ => _fail_request self (Some step) INTERNAL_ERROR;; raise exc
      end).

Definition complete_step self (step : provisioning_step) (result : json_object) : DBM E () :=
  now ← datetime_now;
  set_step (pst_id step) (λ s, s
    <| pst_status := ST_SUCCEEDED |>
    <| pst_safe_result := result |>
    <| pst_finished_at := Some now |>);;
  set_request self (λ q, q <| prq_version := prq_version q + 1 |>);;
  _touch_lease self;;
  commit.

(** The loop over the steps: [false] where it returns after a failure. *)
Fixpoint run_steps self (steps : list provisioning_step) c : DBM E bool :=
  match steps with
  | [] => mret true
  | step :: rest =>
    if bool_decide (pst_status step = ST_SUCCEEDED) then run_steps self rest c
    else
      begin_step self step;;
      result ← attempt_step self step c;
      match result with
      | None => mret false
      | Some result => complete_step self step result;; run_steps self rest c
      end
  end.

(** The steps of a request, in order. *)
Definition request_steps (request_id : N) : DBM E (list provisioning_step) :=
  steps ← db_select (λ s, bool_decide (pst_provisioning_request_id s = request_id));
  mret (merge_sort step_le steps).

Definition complete_request self (actor : user) : DBM E () :=
  now ← datetime_now;
  set_request self (λ q, q
    <| prq_status := PS_SUCCEEDED |>
    <| prq_current_step := "COMPLETED" |>
    <| prq_finished_at := Some now |>
    <| prq_heartbeat_at := Some now |>
    <| prq_runner_id := None |>
    <| prq_lease_expires_at := None |>
    <| prq_error_code := None |>
    <| prq_error_summary := None |>);;
  q ← the_request self;
  add_audit_event ((audit_event "VM_PROVISION" "SUCCEEDED" None)
    <| a_actor_user_id := Some (u_id actor) |>
    <| a_actor_role := Some (u_role actor) |>
    <| a_organization_id := Some (prq_organization_id q) |>
    <| a_workload_id := prq_workload_id q |>
    <| a_target_type := Some "provisioning_request" |>
    <| a_target_id := Some (JUuid (prq_id q)) |>
    <| a_details := Some [("target_vmid", json_of_opt JInt (prq_target_vmid q))] |>);;
  commit.

(** [actor] may still provision. *)
Definition requester_authorized (actor : option user) : bool :=
  match actor with
  | Some a => u_is_active a && bool_decide (u_role a = SUPER_ADMIN)
  | None => false
  end.

Definition PERMISSION_REVOKED : pve_error :=
  PveError 403 "PERMISSION_REVOKED" "The provisioning requester is no longer authorized." [].

Definition _run_claimed self : DBM E () :=
  q ← the_request self;
  actor ← db_get user (prq_requested_by_id q);
  match actor with
  | Some a =>
    if requester_authorized actor then
      let self := mkRunner (self_request self) (self_runner_id self) (Some a) in
      c ← open_cluster (prq_target_cluster_id q);
      steps ← request_steps (prq_id q);
      completed ← run_steps self steps c;
      when completed (complete_request self a)
    else
      set_request self (λ q, q <| prq_runner_id := None |> <| prq_lease_expires_at := None |>);;
      _fail_request self None PERMISSION_REVOKED
  | None =>
    set_request self (λ q, q <| prq_runner_id := None |> <| prq_lease_expires_at := None |>);;
    _fail_request self None PERMISSION_REVOKED
  end.

Definition run_claimed_request (runner_id : N) (q : provisioning_request) : DBM E () :=
  try_finally (_run_claimed (mkRunner (prq_id q) runner_id None))
    (_release_claim runner_id (prq_id q)).

(** [ProvisioningRunner.run] of a new runner. *)
Definition run_provisioning_request (request_id : N) : DBM E () :=
  runner_id ← uuid4;
  request ← _claim runner_id request_id;
  match request with
  | None => mret tt
  | Some q => run_claimed_request runner_id q
  end.
End runner.
