(* ===== verification/Provisioning.v ===== *)
(** * The provisioning service

    app/services/provisioning.py and app/schemas/provisioning.py: the catalogue of
    products, templates and nodes, and the requests the runner carries out, one
    definition per method of [ProvisioningService].  Celery's [send_task] is the
    [Publisher] of Operations.v, the cipher that of ProvApi.v. *)
From stdpp Require Import sorting.
From S2P Require Import Prelude Models Database AuditLog Operations PveApi ProvApi PowerRunner.
From S2P Require Import IpAddr Ipam ProvRunner.

(** ** Characters *)

Definition ascii_range (lo hi : Z) (a : Ascii.ascii) : bool :=
  let n := Z.of_N (Ascii.N_of_ascii a) in (lo <=? n) && (n <=? hi).
Definition is_lower : Ascii.ascii → bool := ascii_range 97 122.
Definition is_upper : Ascii.ascii → bool := ascii_range 65 90.
Definition is_digit : Ascii.ascii → bool := ascii_range 48 57.
Definition chars : string → list Ascii.ascii := String.list_ascii_of_string.
Definition one_of (s : string) (a : Ascii.ascii) : bool := bool_decide (a ∈ chars s).

(** [re.fullmatch(first rest{0,n})]. *)
Definition fullmatch (first rest : Ascii.ascii → bool) (n : nat) (s : string) : bool :=
  match chars s with
  | [] => false
  | a :: l => first a && forallb rest l && (length l <=? n)%nat
  end.

(** [[a-z_][a-z0-9_-]{0,31}]. *)
Definition linux_username : string → bool :=
  fullmatch (λ a, is_lower a || one_of "_" a)
    (λ a, is_lower a || is_digit a || one_of "_-" a) 31.

(** ** app/schemas/provisioning.py *)

Record ProductCreate := mkProductCreate {
  prc_name : string; prc_cpu_cores : Z; prc_memory_bytes : Z; prc_disk_bytes : Z }.
Record ProductUpdate := mkProductUpdate {
  pru_name : option string; pru_cpu_cores : option Z; pru_memory_bytes : option Z;
  pru_disk_bytes : option Z; pru_is_enabled : option bool }.
(** [default_vlan_tag]: [None] when the field is not set. *)
Record TemplateCreate := mkTemplateCreate {
  tc_name : string; tc_source_workload_id : N; tc_source_disk : string;
  tc_default_storage : string; tc_default_bridge : string; tc_default_vlan_tag : option Z;
  tc_os_type : TemplateOsType }.
Record TemplateUpdate := mkTemplateUpdate {
  tu_name : option string; tu_source_workload_id : option N; tu_source_disk : option string;
  tu_default_storage : option string; tu_default_bridge : option string;
  tu_default_vlan_tag : option (option Z); tu_os_type : option TemplateOsType;
  tu_is_enabled : option bool }.
Record ProvisioningNodeUpsert := mkProvisioningNodeUpsert {
  nu_cluster_id : N; nu_name : string; nu_is_enabled : bool; nu_is_maintenance : bool;
  nu_available_memory_bytes : Z; nu_available_storage_bytes : Z }.
Record CloudInitRequest := mkCloudInitRequest {
  ci_username : string; ci_ssh_public_keys : list string }.
Record ProvisioningRequestCreate := mkProvisioningRequestCreate {
  rc_product_id : N; rc_template_id : N; rc_organization_id : N; rc_target_cluster_id : N;
  rc_target_node_id : option N; rc_target_vmid : option Z; rc_target_name : string;
  rc_ip_pool_id : N; rc_ip_address : option ip_addr; rc_cloud_init : CloudInitRequest;
  rc_start_after_create : bool }.

(** The bounds of [Field(ge=..., le=...)]. *)
Definition between (lo hi z : Z) : bool := (lo <=? z) && (z <=? hi).
Definition opt_all {A} (p : A → bool) (o : option A) : bool :=
  match o with Some a => p a | None => true end.
Definition valid_cpu : Z → bool := between 1 128.
Definition valid_memory : Z → bool := between 268435456 2199023255552.
Definition valid_disk : Z → bool := between 1073741824 70368744177664.
Definition valid_ProductCreate (p : ProductCreate) : bool :=
  valid_cpu (prc_cpu_cores p) && valid_memory (prc_memory_bytes p) && valid_disk (prc_disk_bytes p).
Definition valid_ProductUpdate (p : ProductUpdate) : bool :=
  opt_all valid_cpu (pru_cpu_cores p) && opt_all valid_memory (pru_memory_bytes p) &&
  opt_all valid_disk (pru_disk_bytes p).

Record ProvisioningStepResponse := mkProvisioningStepResponse {
  sr_order : Z; sr_name : string; sr_status : ProvisioningStepStatus; sr_attempt_count : Z;
  sr_pve_upid : option string; sr_safe_result : list (string * json);
  sr_error_code : option string; sr_error_summary : option string;
  sr_started_at : option Z; sr_finished_at : option Z }.
Record ProvisioningRequestResponse := mkProvisioningRequestResponse {
  rr_id : N; rr_job_id : N; rr_status : ProvisioningStatus; rr_current_step : string;
  rr_product_id : N; rr_template_id : N; rr_os_type : TemplateOsType; rr_organization_id : N;
  rr_target_cluster_id : N; rr_target_node_id : option N; rr_target_vmid : option Z;
  rr_target_name : string; rr_ip_pool_id : N; rr_ip_address : option string;
  rr_workload_id : option N; rr_error_code : option string; rr_error_summary : option string;
  rr_initial_password : option string; rr_requested_at : Z; rr_started_at : option Z;
  rr_finished_at : option Z; rr_steps : list ProvisioningStepResponse }.

(** ** Constants and small functions *)

Definition PROVISIONING_STEPS : list string :=
  ["VALIDATE_REQUEST"; "CHECK_PRODUCT"; "SELECT_TARGET"; "RESERVE_VMID"; "RESERVE_IP";
   "FULL_CLONE"; "WAIT_CLONE"; "CONFIGURE_COMPUTE"; "RESIZE_DISK"; "CONFIGURE_NETWORK";
   "CONFIGURE_IDENTITY"; "START_VM"; "VERIFY_STATUS"; "ASSIGN_ORGANIZATION"; "CONFIRM_IP"].
Definition WINDOWS_PASSWORD_LENGTH : nat := 24.

Definition ascii_lowercase : string := "abcdefghijklmnopqrstuvwxyz".
Definition ascii_uppercase : string := "ABCDEFGHIJKLMNOPQRSTUVWXYZ".
Definition digits : string := "0123456789".
Definition PASSWORD_SYMBOLS : string := "!@#%_-".

Definition PRODUCT_NOT_FOUND : exn :=
  app_error 404 "PRODUCT_NOT_FOUND" "The product was not found.".
Definition TEMPLATE_NOT_FOUND : exn :=
  app_error 404 "TEMPLATE_NOT_FOUND" "The template was not found.".
Definition PRODUCT_CONFLICT : exn :=
  app_error 409 "PRODUCT_CONFLICT" "The product already exists.".
Definition TEMPLATE_CONFLICT : exn :=
  app_error 409 "TEMPLATE_CONFLICT" "The template already exists.".
Definition PROVISIONING_REQUEST_CONFLICT : exn :=
  app_error 409 "PROVISIONING_REQUEST_CONFLICT"
    "The provisioning request conflicts with an existing reservation.".

(** The orders of the listings. *)
Definition product_le (a b : product) : Prop := String.leb (prod_name a) (prod_name b) = true.
#[export] Instance product_le_dec : RelDecision product_le.
Proof. intros a b. unfold product_le. apply _. Defined.
Definition template_le (a b : template) : Prop := String.leb (tpl_name a) (tpl_name b) = true.
#[export] Instance template_le_dec : RelDecision template_le.
Proof. intros a b. unfold template_le. apply _. Defined.
Definition request_newer (a b : provisioning_request) : Prop :=
  prq_requested_at b ≤ prq_requested_at a.
#[export] Instance request_newer_dec : RelDecision request_newer.
Proof. intros a b. unfold request_newer. apply _. Defined.
(** [order_by(cluster_id, name)]; identifiers compare as numbers. *)
Definition cluster_node_le (a b : provisioning_node) : Prop :=
  (pn_cluster_id a < pn_cluster_id b)%N ∨
  pn_cluster_id a = pn_cluster_id b ∧ String.leb (pn_name a) (pn_name b) = true.
#[export] Instance cluster_node_le_dec : RelDecision cluster_node_le.
Proof. intros a b. unfold cluster_node_le. apply _. Defined.

Definition _product_audit (item : product) : list (string * json) :=
  [("name", JStr (prod_name item)); ("cpu_cores", JInt (prod_cpu_cores item));
   ("memory_bytes", JInt (prod_memory_bytes item)); ("disk_bytes", JInt (prod_disk_bytes item));
   ("is_enabled", JBool (prod_is_enabled item))].

Definition _template_audit (item : template) : list (string * json) :=
  [("name", JStr (tpl_name item)); ("source_workload_id", JUuid (tpl_source_workload_id item));
   ("source_disk", JStr (tpl_source_disk item)); ("default_storage", JStr (tpl_default_storage item));
   ("default_bridge", JStr (tpl_default_bridge item));
   ("default_vlan_tag", json_of_opt JInt (tpl_default_vlan_tag item));
   ("os_type", JStr (tpl_os_type item)); ("is_enabled", JBool (tpl_is_enabled item))].

Definition _step_response (item : provisioning_step) : ProvisioningStepResponse := {|
  sr_order := pst_step_order item; sr_name := pst_step_name item;
  sr_status := pst_status item; sr_attempt_count := pst_attempt_count item;
  sr_pve_upid := pst_pve_upid item; sr_safe_result := pst_safe_result item;
  sr_error_code := pst_error_code item; sr_error_summary := pst_error_summary item;
  sr_started_at := pst_started_at item; sr_finished_at := pst_finished_at item |}.

(** [payload.model_dump(mode="json")]. *)
Definition dumped (p : ProvisioningRequestCreate) : list (string * json) :=
  [("product_id", JUuid (rc_product_id p)); ("template_id", JUuid (rc_template_id p));
   ("organization_id", JUuid (rc_organization_id p));
   ("target_cluster_id", JUuid (rc_target_cluster_id p));
   ("target_node_id", json_of_opt JUuid (rc_target_node_id p));
   ("target_vmid", json_of_opt JInt (rc_target_vmid p));
   ("target_name", JStr (rc_target_name p)); ("ip_pool_id", JUuid (rc_ip_pool_id p));
   ("ip_address", json_of_opt (λ a, JStr (ip_str a)) (rc_ip_address p));
   ("cloud_init", JObj [("username", JStr (ci_username (rc_cloud_init p)));
                        ("ssh_public_keys", JList (map JStr (ci_ssh_public_keys (rc_cloud_init p))))]);
   ("start_after_create", JBool (rc_start_after_create p))].

(** [spec_snapshot]. *)
Definition snapshot (payload : ProvisioningRequestCreate) (prod : product) (tpl : template)
    (source : workload) : list (string * json) :=
  [("cpu_cores", JInt (prod_cpu_cores prod)); ("memory_bytes", JInt (prod_memory_bytes prod));
   ("disk_bytes", JInt (prod_disk_bytes prod)); ("storage", JStr (tpl_default_storage tpl));
   ("bridge", JStr (tpl_default_bridge tpl));
   ("vlan_tag", json_of_opt JInt (tpl_default_vlan_tag tpl));
   ("cloud_init_username", JStr (ci_username (rc_cloud_init payload)));
   ("ssh_public_keys", JList (map JStr (ci_ssh_public_keys (rc_cloud_init payload))));
   ("start_after_create", JBool (rc_start_after_create payload));
   ("source_node", JStr (wl_node source)); ("source_vmid", JInt (wl_vmid source));
   ("source_disk", JStr (tpl_source_disk tpl)); ("os_type", JStr (tpl_os_type tpl))].

Definition prq_of_key (user_id key_hash : N) (q : provisioning_request) : bool :=
  bool_decide (prq_requested_by_id q = user_id) &&
  bool_decide (prq_idempotency_key_hash q = key_hash).

(** [x[i], x[j] = x[j], x[i]]. *)
Definition swap {A} (i j : nat) (l : list A) : list A :=
  match l !! i, l !! j with
  | Some a, Some b => <[j := a]> (<[i := b]> l)
  | _, _ => l
  end.

Section provisioning.
Context {E : Type} `{Runtime E} `{Publisher E} `{ProvisioningSecrets E} `{Digests}.
Implicit Types (self : service).

(** The constructor: its role check precedes every method. *)
Definition provisioning_service {A} self (method : DBM E A) : DBM E A :=
  require_service_role (self_principal self) [SUPER_ADMIN];;
  method.

(** [_commit_or_conflict]. *)
Definition _commit_or_conflict (error : exn) : DBM E () := or_conflict commit error.

(** ** Passwords: [random.SystemRandom] *)

(** [choice(seq)], [IndexError] excluded by the range of [randrange]. *)
Definition choice (seq : string) : DBM E Ascii.ascii :=
  i ← randrange (Z.of_nat (length (chars seq)));
  or_raise ValueError (chars seq !! Z.to_nat i).

Fixpoint choices (n : nat) (seq : string) : DBM E (list Ascii.ascii) :=
  match n with
  | O => mret []
  | S n => c ← choice seq; rest ← choices n seq; mret (c :: rest)
  end.

(** [shuffle(x)]: [for i in reversed(range(1, len(x))): j = randbelow(i + 1); swap]. *)
Fixpoint shuffle_from (i : nat) (x : list Ascii.ascii) : DBM E (list Ascii.ascii) :=
  match i with
  | O => mret x
  | S k =>
    j ← randrange (Z.of_nat i + 1);
    shuffle_from k (swap i (Z.to_nat j) x)
  end.
Definition shuffle (x : list Ascii.ascii) : DBM E (list Ascii.ascii) :=
  shuffle_from (length x - 1) x.

Definition _generate_windows_password : DBM E string :=
  let characters := ascii_lowercase +:+ ascii_uppercase +:+ digits +:+ PASSWORD_SYMBOLS in
  a ← choice ascii_lowercase;
  b ← choice ascii_uppercase;
  c ← choice digits;
  d ← choice PASSWORD_SYMBOLS;
  rest ← choices (WINDOWS_PASSWORD_LENGTH - 4) characters;
  password ← shuffle ([a; b; c; d] ++ rest);
  mret (String.string_of_list_ascii password).

(** ** Products *)

Definition create_product self (payload : ProductCreate) : DBM E product :=
  id ← uuid4;
  let item := {|
    prod_id := id; prod_name := str_strip (prc_name payload);
    prod_cpu_cores := prc_cpu_cores payload; prod_memory_bytes := prc_memory_bytes payload;
    prod_disk_bytes := prc_disk_bytes payload; prod_is_enabled := true;
    prod_created_by_id := p_user_id (self_principal self) |} in
  db_add item;;
  _commit_or_conflict PRODUCT_CONFLICT;;
  mret item.

Definition list_products : DBM E (list product) :=
  items ← db_select (λ _ : product, true);
  mret (merge_sort product_le items).

Definition updated_product (item : product) (payload : ProductUpdate) : product :=
  item <| prod_name := match pru_name payload with Some s => str_strip s | None => prod_name item end |>
       <| prod_cpu_cores := default (prod_cpu_cores item) (pru_cpu_cores payload) |>
       <| prod_memory_bytes := default (prod_memory_bytes item) (pru_memory_bytes payload) |>
       <| prod_disk_bytes := default (prod_disk_bytes item) (pru_disk_bytes payload) |>
       <| prod_is_enabled := default (prod_is_enabled item) (pru_is_enabled payload) |>.

Definition update_product self (product_id : N) (payload : ProductUpdate) : DBM E product :=
  row ← db_get product product_id;
  before ← or_raise PRODUCT_NOT_FOUND row;
  let item := updated_product before payload in
  db_save item;;
  add_audit_event ((self_audit self "PRODUCT_UPDATED" "SUCCEEDED")
    <| a_target_type := Some "product" |> <| a_target_id := Some (JUuid (prod_id item)) |>
    <| a_before := Some (_product_audit before) |> <| a_after := Some (_product_audit item) |>);;
  _commit_or_conflict PRODUCT_CONFLICT;;
  mret item.

Definition delete_product self (product_id : N) : DBM E () :=
  row ← db_get product product_id;
  item ← or_raise PRODUCT_NOT_FOUND row;
  add_audit_event ((self_audit self "PRODUCT_DELETED" "SUCCEEDED")
    <| a_target_type := Some "product" |> <| a_target_id := Some (JUuid (prod_id item)) |>
    <| a_before := Some (_product_audit item) |>);;
  db_delete item;;
  _commit_or_conflict (app_error 409 "PRODUCT_IN_USE"
    "The product is referenced by provisioning history.").

(** ** Templates *)

Definition _template_source (source_workload_id : N) : DBM E workload :=
  row ← db_scalar (λ w, bool_decide (wl_id w = source_workload_id) &&
                        bool_decide (wl_kind w = "QEMU") && wl_is_template w && wl_is_present w);
  or_raise (app_error 422 "INVALID_TEMPLATE_SOURCE"
    "The source must be a present QEMU template.") row.

Definition create_template self (payload : TemplateCreate) : DBM E template :=
  source ← _template_source (tc_source_workload_id payload);
  id ← uuid4;
  let item := {|
    tpl_id := id; tpl_name := str_strip (tc_name payload); tpl_source_workload_id := wl_id source;
    tpl_source_disk := tc_source_disk payload; tpl_default_storage := tc_default_storage payload;
    tpl_default_bridge := tc_default_bridge payload;
    tpl_default_vlan_tag := tc_default_vlan_tag payload; tpl_cloud_init_enabled := true;
    tpl_linux_only := bool_decide (tc_os_type payload = LINUX);
    tpl_os_type := TemplateOsType_value (tc_os_type payload); tpl_is_enabled := true;
    tpl_created_by_id := p_user_id (self_principal self) |} in
  db_add item;;
  _commit_or_conflict TEMPLATE_CONFLICT;;
  mret item.

Definition list_templates : DBM E (list template) :=
  items ← db_select (λ _ : template, true);
  mret (merge_sort template_le items).

Definition updated_template (item : template) (source_workload_id : N) (payload : TemplateUpdate)
  : template :=
  item <| tpl_source_workload_id := source_workload_id |>
       <| tpl_name := match tu_name payload with Some s => str_strip s | None => tpl_name item end |>
       <| tpl_source_disk := default (tpl_source_disk item) (tu_source_disk payload) |>
       <| tpl_default_storage := default (tpl_default_storage item) (tu_default_storage payload) |>
       <| tpl_default_bridge := default (tpl_default_bridge item) (tu_default_bridge payload) |>
       <| tpl_default_vlan_tag := default (tpl_default_vlan_tag item) (tu_default_vlan_tag payload) |>
       <| tpl_os_type := match tu_os_type payload with
                         | Some t => TemplateOsType_value t | None => tpl_os_type item end |>
       <| tpl_linux_only := match tu_os_type payload with
                            | Some t => bool_decide (t = LINUX) | None => tpl_linux_only item end |>
       <| tpl_is_enabled := default (tpl_is_enabled item) (tu_is_enabled payload) |>.

Definition update_template self (template_id : N) (payload : TemplateUpdate) : DBM E template :=
  row ← db_get template template_id;
  before ← or_raise TEMPLATE_NOT_FOUND row;
  source_workload_id ←
    match tu_source_workload_id payload with
    | Some id => source ← _template_source id; mret (wl_id source)
    | None => mret (tpl_source_workload_id before)
    end;
  let item := updated_template before source_workload_id payload in
  db_save item;;
  add_audit_event ((self_audit self "TEMPLATE_UPDATED" "SUCCEEDED")
    <| a_target_type := Some "template" |> <| a_target_id := Some (JUuid (tpl_id item)) |>
    <| a_before := Some (_template_audit before) |> <| a_after := Some (_template_audit item) |>);;
  _commit_or_conflict TEMPLATE_CONFLICT;;
  mret item.

Definition delete_template self (template_id : N) : DBM E () :=
  row ← db_get template template_id;
  item ← or_raise TEMPLATE_NOT_FOUND row;
  add_audit_event ((self_audit self "TEMPLATE_DELETED" "SUCCEEDED")
    <| a_target_type := Some "template" |> <| a_target_id := Some (JUuid (tpl_id item)) |>
    <| a_before := Some (_template_audit item) |>);;
  db_delete item;;
  _commit_or_conflict (app_error 409 "TEMPLATE_IN_USE"
    "The template is referenced by provisioning history.").

(** ** Nodes *)

Definition upserted_node (node : provisioning_node) (payload : ProvisioningNodeUpsert)
  : provisioning_node :=
  node <| pn_is_enabled := nu_is_enabled payload |>
       <| pn_is_maintenance := nu_is_maintenance payload |>
       <| pn_available_memory_bytes := nu_available_memory_bytes payload |>
       <| pn_available_storage_bytes := nu_available_storage_bytes payload |>.

Definition upsert_node (payload : ProvisioningNodeUpsert) : DBM E provisioning_node :=
  cl ← db_get cluster (nu_cluster_id payload);
  raise_if (negb (match cl with Some k => cl_is_active k | None => false end)) CLUSTER_NOT_FOUND;;
  row ← db_scalar (λ n, bool_decide (pn_cluster_id n = nu_cluster_id payload) &&
                        bool_decide (pn_name n = nu_name payload));
  match row with
  | Some node =>
    let node := upserted_node node payload in
    db_save node;; commit;; mret node
  | None =>
    id ← uuid4;
    let node := upserted_node
      (ProvisioningNode id (nu_cluster_id payload) (nu_name payload) true false 0 0 None) payload in
    db_add node;; commit;; mret node
  end.

Definition list_nodes : DBM E (list provisioning_node) :=
  nodes ← db_select (λ _ : provisioning_node, true);
  mret (merge_sort cluster_node_le nodes).

(** ** Requests *)

Definition PRODUCT_UNAVAILABLE : exn :=
  app_error 422 "PRODUCT_UNAVAILABLE" "The product is unavailable.".
Definition TEMPLATE_UNAVAILABLE : exn :=
  app_error 422 "TEMPLATE_UNAVAILABLE" "The QEMU template is unavailable.".
Definition IP_POOL_INCOMPATIBLE : exn :=
  app_error 422 "IP_POOL_INCOMPATIBLE" "A compatible IPv4 pool is required.".
Definition CLUSTER_INCOMPATIBLE : exn :=
  app_error 422 "CLUSTER_INCOMPATIBLE" "The target cluster is incompatible.".

(** A template and its source machine that a request may clone. *)
Definition clonable (tpl : template) (source : workload) : bool :=
  tpl_is_enabled tpl && tpl_cloud_init_enabled tpl &&
  bool_decide (is_Some (TemplateOsType_of_value (tpl_os_type tpl))) &&
  bool_decide (wl_kind source = "QEMU") && wl_is_template source && wl_is_present source.

(** [pool] serves the cluster with IPv4. *)
Definition compatible_pool (pool : ip_pool) (cluster_id : N) : bool :=
  pool_is_active pool && bool_decide (pool_ip_family pool = 4) &&
  match pool_cluster_id pool with Some c => bool_decide (c = cluster_id) | None => true end.

(** The checks on a Linux template's Cloud-Init values. *)
Definition check_cloud_init (tpl : template) (ci : CloudInitRequest) : DBM E () :=
  when (bool_decide (tpl_os_type tpl = TemplateOsType_value LINUX))
    (raise_if (negb (linux_username (ci_username ci)))
       (app_error 422 "LINUX_USERNAME_INVALID" "The Linux Cloud-Init username is invalid.");;
     raise_if (bool_decide (ci_ssh_public_keys ci = []))
       (app_error 422 "SSH_KEYS_REQUIRED"
          "At least one SSH public key is required for Linux Cloud-Init.")).

Definition _validate_references (payload : ProvisioningRequestCreate)
  : DBM E (product * template * workload * ip_pool) :=
  prod ← db_get product (rc_product_id payload);
  tpl ← db_get template (rc_template_id payload);
  org ← db_get organization (rc_organization_id payload);
  cl ← db_get cluster (rc_target_cluster_id payload);
  pool ← db_get ip_pool (rc_ip_pool_id payload);
  source ← match tpl with
           | Some t => db_get workload (tpl_source_workload_id t)
           | None => mret None
           end;
  prod ← or_raise PRODUCT_UNAVAILABLE prod;
  raise_if (negb (prod_is_enabled prod)) PRODUCT_UNAVAILABLE;;
  tpl ← or_raise TEMPLATE_UNAVAILABLE tpl;
  source ← or_raise TEMPLATE_UNAVAILABLE source;
  raise_if (negb (clonable tpl source)) TEMPLATE_UNAVAILABLE;;
  check_cloud_init tpl (rc_cloud_init payload);;
  cl ← or_raise CLUSTER_INCOMPATIBLE cl;
  raise_if (negb (cl_is_active cl) || bool_decide (wl_cluster_id source ≠ cl_id cl))
    CLUSTER_INCOMPATIBLE;;
  raise_if (negb (match org with Some o => org_is_active o | None => false end))
    (app_error 422 "ORGANIZATION_UNAVAILABLE" "The organization is unavailable.");;
  pool ← or_raise IP_POOL_INCOMPATIBLE pool;
  raise_if (negb (compatible_pool pool (cl_id cl))) IP_POOL_INCOMPATIBLE;;
  raise_if (match rc_ip_address payload with
            | Some a => negb (net_contains (pool_cidr pool) a) | None => false end)
    (app_error 422 "IP_OUTSIDE_POOL" "The requested IPv4 address is outside the pool.");;
  mret (prod, tpl, source, pool).

(** The node has room for the product. *)
Definition eligible (cluster_id : N) (prod : product) (node : provisioning_node) : bool :=
  bool_decide (pn_cluster_id node = cluster_id) && pn_is_enabled node &&
  negb (pn_is_maintenance node) && (prod_memory_bytes prod <=? pn_available_memory_bytes node) &&
  (prod_disk_bytes prod <=? pn_available_storage_bytes node).

Definition _validate_node (node_id cluster_id : N) (prod : product) : DBM E provisioning_node :=
  let error := app_error 422 "NO_ELIGIBLE_NODE" "No eligible node has sufficient capacity." in
  row ← db_get provisioning_node node_id;
  node ← or_raise error row;
  raise_if (negb (eligible cluster_id prod node)) error;;
  mret node.

Definition _request_response (q : provisioning_request) (initial_password : option string)
  : DBM E ProvisioningRequestResponse :=
  steps ← request_steps (prq_id q);
  address ← db_get_opt ip_address (prq_ip_address_id q);
  os_type ← or_raise ValueError (TemplateOsType_of_value
    (py_str (default (JStr "LINUX") (obj_get "os_type" (prq_spec_snapshot q)))));
  mret {|
    rr_id := prq_id q; rr_job_id := prq_id q; rr_status := prq_status q;
    rr_current_step := prq_current_step q; rr_product_id := prq_product_id q;
    rr_template_id := prq_template_id q; rr_os_type := os_type;
    rr_organization_id := prq_organization_id q;
    rr_target_cluster_id := prq_target_cluster_id q;
    rr_target_node_id := prq_target_node_id q; rr_target_vmid := prq_target_vmid q;
    rr_target_name := prq_target_name q; rr_ip_pool_id := prq_ip_pool_id q;
    rr_ip_address := (λ a, ip_str (addr_address a)) <$> address;
    rr_workload_id := prq_workload_id q; rr_error_code := prq_error_code q;
    rr_error_summary := prq_error_summary q; rr_initial_password := initial_password;
    rr_requested_at := prq_requested_at q; rr_started_at := prq_started_at q;
    rr_finished_at := prq_finished_at q; rr_steps := map _step_response steps |}.

(** The constructor call; [requested_at] is the server default [now()]. *)
Definition new_request self (payload : ProvisioningRequestCreate) (key_hash fingerprint : N)
    (task_id request_id : N) (prod : product) (tpl : template) (source : workload)
    (pool : ip_pool) (encrypted : option EncryptedProvisioningSecret) (requested_at : Z)
  : provisioning_request := {|
  prq_id := request_id; prq_requested_by_id := p_user_id (self_principal self);
  prq_idempotency_key_hash := key_hash; prq_request_fingerprint := fingerprint;
  prq_product_id := prod_id prod; prq_template_id := tpl_id tpl;
  prq_organization_id := rc_organization_id payload;
  prq_target_cluster_id := rc_target_cluster_id payload;
  prq_target_node_id := rc_target_node_id payload; prq_target_vmid := rc_target_vmid payload;
  prq_target_name := str_lower (rc_target_name payload); prq_ip_pool_id := pool_id pool;
  prq_requested_ip_address := rc_ip_address payload; prq_ip_address_id := None;
  prq_workload_id := None; prq_status := PS_QUEUED;
  prq_current_step := default "" (head PROVISIONING_STEPS);
  prq_spec_snapshot := snapshot payload prod tpl source;
  prq_initial_password_ciphertext := eps_ciphertext <$> encrypted;
  prq_initial_password_nonce := eps_nonce <$> encrypted;
  prq_initial_password_key_version := eps_key_version <$> encrypted;
  prq_initial_password_cleared_at := None; prq_celery_task_id := task_id;
  prq_clone_submitted := false; prq_error_code := None; prq_error_summary := None;
  prq_requested_at := requested_at; prq_started_at := None; prq_finished_at := None;
  prq_heartbeat_at := None; prq_runner_id := None; prq_lease_expires_at := None;
  prq_version := 1 |}.

Definition new_step (id request_id : N) (index : Z) (name : string) : provisioning_step := {|
  pst_id := id; pst_provisioning_request_id := request_id; pst_step_order := index;
  pst_step_name := name; pst_status := ST_PENDING; pst_attempt_count := 0;
  pst_pve_upid := None; pst_safe_result := []; pst_error_code := None;
  pst_error_summary := None; pst_started_at := None; pst_finished_at := None |}.

(** [session.add_all([... for index, name in enumerate(names, start=index)])]. *)
Fixpoint add_steps (request_id : N) (index : Z) (names : list string) : DBM E () :=
  match names with
  | [] => mret tt
  | name :: rest =>
    id ← uuid4;
    db_add (new_step id request_id index name);;
    add_steps request_id (index + 1) rest
  end.

(** The encrypted password of a Windows machine and its plain text. *)
Definition initial_secret (payload : ProvisioningRequestCreate) (request_id : N) (tpl : template)
  : DBM E (option (string * EncryptedProvisioningSecret)) :=
  if bool_decide (tpl_os_type tpl = TemplateOsType_value WINDOWS) then
    initial_password ← _generate_windows_password;
    encrypted ← encrypt_secret initial_password (rc_target_cluster_id payload) request_id;
    mret (Some (initial_password, encrypted))
  else mret None.

(** [create_request] past the idempotency lookup. *)
Definition accept_request self (payload : ProvisioningRequestCreate) (key_hash fingerprint : N)
  : DBM E (ProvisioningRequestResponse * bool) :=
  refs ← _validate_references payload;
  let '(prod, tpl, source, pool) := refs in
  match rc_target_node_id payload with
  | Some node_id => _validate_node node_id (rc_target_cluster_id payload) prod;; mret tt
  | None => mret tt
  end;;
  task_id ← uuid4;
  request_id ← uuid4;
  secret ← initial_secret payload request_id tpl;
  requested_at ← datetime_now;
  let q := new_request self payload key_hash fingerprint task_id request_id prod tpl source pool
             (snd <$> secret) requested_at in
  db_add q;;
  add_steps request_id 1 PROVISIONING_STEPS;;
  add_audit_event ((self_audit self "VM_PROVISION_REQUEST" "ATTEMPTED")
    <| a_organization_id := Some (rc_organization_id payload) |>
    <| a_target_type := Some "provisioning_request" |>
    <| a_target_id := Some (JUuid request_id) |>
    <| a_details := Some [("product_id", JUuid (prod_id prod)); ("template_id", JUuid (tpl_id tpl))] |>);;
  or_conflict commit PROVISIONING_REQUEST_CONFLICT;;
  publish request_id task_id;;
  response ← _request_response q (fst <$> secret);
  mret (response, true).

Definition create_request self (payload : ProvisioningRequestCreate) (idempotency_key : string)
  : DBM E (ProvisioningRequestResponse * bool) :=
  let key_hash := hmac_key idempotency_key in
  let fingerprint := sha256_json (dumped payload) in
  existing ← db_scalar (prq_of_key (p_user_id (self_principal self)) key_hash);
  match existing with
  | Some q =>
    raise_if (bool_decide (prq_request_fingerprint q ≠ fingerprint))
      (app_error 409 "IDEMPOTENCY_KEY_REUSED"
         "The idempotency key was already used for another request.");;
    response ← _request_response q None;
    mret (response, false)
  | None => accept_request self payload key_hash fingerprint
  end.

Definition get_request (request_id : N) : DBM E ProvisioningRequestResponse :=
  row ← db_get provisioning_request request_id;
  q ← or_raise (app_error 404 "PROVISIONING_REQUEST_NOT_FOUND" "The request was not found.") row;
  _request_response q None.

(** [[await f(item) for item in items]]. *)
Fixpoint map_each {A B} (f : A → DBM E B) (l : list A) : DBM E (list B) :=
  match l with
  | [] => mret []
  | a :: l => b ← f a; rest ← map_each f l; mret (b :: rest)
  end.

Definition list_requests : DBM E (list ProvisioningRequestResponse) :=
  items ← db_select (λ _ : provisioning_request, true);
  map_each (λ q, _request_response q None) (merge_sort request_newer items).
End provisioning.
