(* ===== verification/ProvInv.v ===== *)
(** * Invariants of the provisioning saga

    What every handler of the provisioning runner does to the tables it shares with
    the invariants: which columns of the request it changes, and that it moves the
    capacity of a node together with the flag that records it.  An invariant that
    allows those writes holds through a whole run. *)
From stdpp Require Import sorting.
From Stdlib Require Import Lia.
From S2P Require Import Prelude Models Database AuditLog Operations PveApi Keeps ProvApi.
From S2P Require Import PowerRunner IpAddr Ipam ProvRunner.

(** ** The writes *)

(** What no handler changes, and what no change of a status does. *)
Definition prq_terms (q : provisioning_request) : N * N * N * N * N * N * N * N * N * string :=
  (prq_id q, prq_requested_by_id q, prq_idempotency_key_hash q, prq_request_fingerprint q,
   prq_product_id q, prq_template_id q, prq_organization_id q, prq_target_cluster_id q,
   prq_ip_pool_id q, prq_target_name q).

Definition prq_life (q : provisioning_request)
  : ProvisioningStatus * string * option N * option string * option string * option Z :=
  (prq_status q, prq_current_step q, prq_runner_id q, prq_error_code q, prq_error_summary q,
   prq_finished_at q).

Definition capacity_reserved (q : provisioning_request) : bool :=
  json_true (obj_get "node_capacity_reserved" (prq_spec_snapshot q)).

(** An assignment a handler makes: VMID, address, workload, lease, password, and
    the target node while no capacity is reserved. *)
Record handler_change (q q' : provisioning_request) : Prop := {
  hc_terms : prq_terms q' = prq_terms q;
  hc_life : prq_life q' = prq_life q;
  hc_spec : prq_spec_snapshot q' = prq_spec_snapshot q;
  hc_clone : prq_clone_submitted q = true → prq_clone_submitted q' = true;
  hc_node : capacity_reserved q = true → prq_target_node_id q' = prq_target_node_id q }.

(** An assignment outside the handlers: everything but the terms, the
    specification, the target and the clone flag. *)
Record status_change (q q' : provisioning_request) : Prop := {
  sc_terms : prq_terms q' = prq_terms q;
  sc_spec : prq_spec_snapshot q' = prq_spec_snapshot q;
  sc_clone : prq_clone_submitted q' = prq_clone_submitted q;
  sc_node : prq_target_node_id q' = prq_target_node_id q }.

Definition pst_ident (s : provisioning_step) : N * N * Z * string :=
  (pst_id s, pst_provisioning_request_id s, pst_step_order s, pst_step_name s).

(** The tables the invariants speak of. *)
Definition saga_tables (d : db) :
  gmap N provisioning_node * gmap N provisioning_request * gmap N provisioning_step :=
  (db_nodes d, db_requests d, db_steps d).

(** The node with that much less, or more, available. *)
Definition node_minus (n : provisioning_node) (memory disk now : Z) : provisioning_node :=
  n <| pn_available_memory_bytes := pn_available_memory_bytes n - memory |>
    <| pn_available_storage_bytes := pn_available_storage_bytes n - disk |>
    <| pn_last_selected_at := Some now |>.
Definition node_plus (n : provisioning_node) (memory disk : Z) : provisioning_node :=
  n <| pn_available_memory_bytes := pn_available_memory_bytes n + memory |>
    <| pn_available_storage_bytes := pn_available_storage_bytes n + disk |>.

(** The size of the machine in the saved specification. *)
Definition spec_size (q : provisioning_request) : option (Z * Z) :=
  m ← as_int (obj_get "memory_bytes" (prq_spec_snapshot q));
  s ← as_int (obj_get "disk_bytes" (prq_spec_snapshot q));
  Some (m, s).

(** ** The constraints on a request *)

(** A change of a request: the terms stay, so one index is left to see to. *)
Lemma integrity_update_request d q q' :
  db_requests d !! prq_id q' = Some q → prq_terms q' = prq_terms q →
  (unique_onb uq_provisioning_active_vmid d = true →
   unique_onb uq_provisioning_active_vmid (set_rows <[prq_id q' := q']> d) = true) →
  integrity d = true → integrity (set_rows <[prq_id q' := q']> d) = true.
Proof.
  unfold prq_terms. intros Hq [= Hid Hu Hk _ Hp Ht _ _ _ _] Hvmid. integrity_rest; [|by apply Hvmid| |].
  - eapply (unique_onb_save uq_provisioning_requests d _ (prq_id q') q q'); try done.
    unfold uq_provisioning_requests. by rewrite Hu, Hk.
  - eapply (check_onb_save (λ q : provisioning_request,
      bool_decide (is_Some (db_products d !! prq_product_id q))) d _ (prq_id q') q'); try done.
    rewrite Hp. match goal with Hf : fk_requests_product d = true |- _ =>
      exact (proj1 (check_onb_true _ _) Hf _ _ Hq) end.
  - eapply (check_onb_save (λ q : provisioning_request,
      bool_decide (is_Some (db_templates d !! prq_template_id q))) d _ (prq_id q') q'); try done.
    rewrite Ht. match goal with Hf : fk_requests_template d = true |- _ =>
      exact (proj1 (check_onb_true _ _) Hf _ _ Hq) end.
Qed.

(** A change that no constraint sees. *)
Lemma integrity_save_request d q q' :
  db_requests d !! prq_id q' = Some q → prq_terms q' = prq_terms q →
  prq_target_vmid q' = prq_target_vmid q → (prq_live q' = true → prq_live q = true) →
  integrity d = true → integrity (set_rows <[prq_id q' := q']> d) = true.
Proof.
  intros Hq Ht Hv Hl. eapply integrity_update_request; [done..|].
  eapply (unique_onb_save uq_provisioning_active_vmid d _ (prq_id q') q q'); try done.
  unfold uq_provisioning_active_vmid, only, prq_terms in *. rewrite Hv.
  replace (prq_target_cluster_id q') with (prq_target_cluster_id q) by congruence.
  destruct (prq_target_vmid q); [|done]. destruct (prq_live q'); [by rewrite Hl|done].
Qed.

(** ** Reading and writing the request *)

Section rules.
Context {E : Type}.
Implicit Types (w : world E).

Lemma wp_the_request self Q w :
  (db_requests (w_tx w) !! self_request self = None → Q (Raise RuntimeError) w) →
  (∀ q, db_requests (w_tx w) !! self_request self = Some q → Q (Ok q) w) →
  wp (the_request self) Q w.
Proof. intros Hn Hs. unfold the_request. wp_run; subst; auto. Qed.

Lemma wp_set_request self f Q w :
  (db_requests (w_tx w) !! self_request self = None → Q (Raise RuntimeError) w) →
  (∀ q, db_requests (w_tx w) !! self_request self = Some q →
     Q (Ok tt) (World (w_db w) (set_rows <[prq_id (f q) := f q]> (w_tx w)) (w_dup w) (w_env w))) →
  wp (set_request self f) Q w.
Proof. intros Hn Hs. unfold set_request. apply wp_bind, wp_the_request; [done|]. eauto. Qed.

Lemma wp_set_step id f Q w :
  (db_steps (w_tx w) !! id = None → Q (Raise RuntimeError) w) →
  (∀ s, db_steps (w_tx w) !! id = Some s →
     Q (Ok tt) (World (w_db w) (set_rows <[pst_id (f s) := f s]> (w_tx w)) (w_dup w) (w_env w))) →
  wp (set_step id f) Q w.
Proof. intros Hn Hs. unfold set_step. wp_run; subst; eauto. Qed.

Lemma wp_int_spec self key Q w :
  (∀ x, Q (Raise x) w) →
  (∀ q z, db_requests (w_tx w) !! self_request self = Some q →
     as_int (obj_get key (prq_spec_snapshot q)) = Some z → Q (Ok z) w) →
  wp (_int_spec self key) Q w.
Proof.
  intros Hr Hs. unfold _int_spec. apply wp_bind, wp_the_request; [auto|]. intros q Hq. wp_run; eauto.
Qed.

Lemma wp_node self Q w :
  (∀ x, Q (Raise x) w) →
  (∀ q id n, db_requests (w_tx w) !! self_request self = Some q → prq_target_node_id q = Some id →
     db_nodes (w_tx w) !! id = Some n → Q (Ok n) w) →
  wp (_node self) Q w.
Proof.
  intros Hr Hs. unfold _node. apply wp_bind, wp_the_request; [auto|]. intros q Hq.
  wp_run; subst; eauto.
Qed.

Lemma wp_vmid self Q w :
  (∀ x, Q (Raise x) w) →
  (∀ q v, db_requests (w_tx w) !! self_request self = Some q → prq_target_vmid q = Some v →
     Q (Ok v) w) →
  wp (_vmid self) Q w.
Proof.
  intros Hr Hs. unfold _vmid. apply wp_bind, wp_the_request; [auto|]. intros q Hq. wp_run; eauto.
Qed.

Lemma wp_spec self key Q w :
  (db_requests (w_tx w) !! self_request self = None → Q (Raise RuntimeError) w) →
  (∀ q, db_requests (w_tx w) !! self_request self = Some q →
     Q (Ok (obj_get key (prq_spec_snapshot q))) w) →
  wp (spec self key) Q w.
Proof.
  intros Hr Hs. unfold spec. apply wp_bind, wp_the_request; [auto|]. intros q Hq. by apply wp_ret, Hs.
Qed.
End rules.

(** The claim, with the request's row found by its key. *)
Section claim.
Context {E : Type} `{Runtime E} (settings : ProvisioningSettings).

Definition claim_row (request_id runner_id : N) (now : Z) (q : provisioning_request) (d : db) : db :=
  d <| db_requests ::= <[request_id := claimed_by settings runner_id now q]> |>.

Lemma wp_claim_request runner_id request_id Q (w : world E) :
  (∀ i q, db_requests (w_tx w) !! i = Some q → prq_id q = i) →
  (∀ now e', env_now (w_env w) = (now, e') →
     (∀ q, db_requests (w_tx w) !! request_id = Some q → claimable now q = false) →
     Q (Ok None) (World (w_db w) (w_db w) false e')) →
  (∀ now e' q d, env_now (w_env w) = (now, e') →
     db_requests (w_tx w) !! request_id = Some q → claimable now q = true →
     d = claim_row request_id runner_id now q (w_tx w) →
     w_dup w || negb (integrity d) = true →
     Q (Raise IntegrityError) (World (w_db w) d (w_dup w) e')) →
  (∀ now e' q d, env_now (w_env w) = (now, e') →
     db_requests (w_tx w) !! request_id = Some q → claimable now q = true →
     d = claim_row request_id runner_id now q (w_tx w) → integrity d = true →
     Q (Ok (Some (claimed_by settings runner_id now q))) (World d d false e')) →
  wp (_claim settings runner_id request_id) Q w.
Proof.
  intros Hkey Hnone Hbad Hok. unfold _claim. apply wp_bind, wp_from_env. intros now e' He.
  apply wp_bind, wp_db_scalar. intros o Hrow.
  set (P := λ q, bool_decide (prq_id q = request_id) && claimable now q) in *.
  assert (∀ q, P q = true → prq_id q = request_id ∧ claimable now q = true) as HP.
  { intros q. unfold P. by intros [?%bool_decide_eq_true ?]%andb_true_iff. }
  destruct o as [q|].
  - apply first_row_Some in Hrow as [Hq [i Hi]]. pose proof (HP q Hq) as [Hid Hc].
    pose proof (Hkey i q Hi) as Hk. rewrite Hid in Hk. subst i.
    assert ((w_tx w) <| db_requests ::= fmap (λ r, if P r then claimed_by settings runner_id now r else r) |>
            = claim_row request_id runner_id now q (w_tx w)) as Hupd.
    { transitivity ((w_tx w) <| db_requests :=
        (λ r, if P r then claimed_by settings runner_id now r else r) <$> db_requests (w_tx w) |>);
        [reflexivity|].
      rewrite (update_one prq_id _ P _ request_id) by naive_solver. cbn in Hi. by rewrite Hi, Hq. }
    apply wp_bind, wp_modify. cbv beta.
    match goal with |- wp _ _ ?w1 => replace w1 with
      (World (w_db w) (claim_row request_id runner_id now q (w_tx w)) (w_dup w) e')
      by (by rewrite <-Hupd) end.
    apply wp_bind, wp_commit; simpl.
    + intros Hfail. by eapply (Hbad now).
    + intros _ Hint. apply wp_db_get. simpl. rewrite Hid, lookup_insert_eq. intros o <-.
      by apply (Hok now e' q).
  - apply wp_bind, wp_modify, wp_bind, wp_rollback, wp_ret. apply (Hnone now e'); [done|].
    intros q Hq. eapply first_row_None in Hrow; [|exact Hq]. unfold P in Hrow.
    by rewrite (Hkey _ _ Hq), bool_decide_true in Hrow.
Qed.
End claim.

Ltac wp_hook ::=
  match goal with
  | |- wp (add_audit_event _) _ _ => apply wp_add_audit_event; intros ?
  | |- wp (require_service_role _ _) _ _ => apply wp_raise_if; intros ?
  | |- wp (the_request _) _ _ => apply wp_the_request; [intros ?|intros ? ?]
  | |- wp (set_request _ _) _ _ => apply wp_set_request; [intros ?|intros ? ?]
  | |- wp (set_step _ _) _ _ => apply wp_set_step; [intros ?|intros ? ?]
  | |- wp (_int_spec _ _) _ _ => apply wp_int_spec; [intros ?|intros ? ? ? ?]
  | |- wp (spec _ _) _ _ => apply wp_spec; [intros ?|intros ? ?]
  | |- wp (_node _) _ _ => apply wp_node; [intros ?|intros ? ? ? ? ? ?]
  | |- wp (_vmid _) _ _ => apply wp_vmid; [intros ?|intros ? ? ? ?]
  end.

Ltac head_of m := lazymatch m with ?f _ => head_of f | _ => m end.

Section saga.
Context {E : Type} `{Runtime E} `{PowerApi E} `{ProvisioningApi E} `{ProvisioningSecrets E}.
Context `{Digests}.
Implicit Types (d : db) (e : E) (w : world E).

(** The environment may move under the invariant, but for the clone call. *)
Record env_ok (I : db → E → Prop) : Prop := {
  eo_now d e : I d e → I d (env_now e).2;
  eo_uuid d e : I d e → I d (env_uuid4 e).2;
  eo_randrange n d e : I d e → I d (env_randrange n e).2;
  eo_guests i d e : I d e → I d (api_get_guests i e).2;
  eo_task i node upid d e : I d e → I d (api_get_task_status i node upid e).2;
  eo_configure i node vmid values d e : I d e → I d (api_configure_qemu i node vmid values e).2;
  eo_resize i node vmid disk size d e : I d e → I d (api_resize_qemu_disk i node vmid disk size e).2;
  eo_power i node vmid action d e : I d e → I d (api_submit_vm_power_action i node vmid action e).2;
  eo_status i node vmid d e : I d e → I d (api_get_vm_status i node vmid e).2;
  eo_sleep ms d e : I d e → I d (api_sleep ms e) }.

(** An invariant of the tables alone. *)
Lemma env_ok_tables (P : db → Prop) : env_ok (λ d _, P d).
Proof. by split. Qed.

Context (settings : ProvisioningSettings) (request_id : N).

(** The invariants that the handlers of the request keep. *)
Record saga_ok (I : db → E → Prop) : Prop := {
  so_env : env_ok I;
  so_frame d d' e : saga_tables d' = saga_tables d →
    (keyed ip_allocation d → keyed ip_allocation d') → I d e → I d' e;
  so_key d e i q : I d e → db_requests d !! i = Some q → prq_id q = i;
  so_upid d e s u : I d e → db_steps d !! pst_id s = Some s →
    I (set_rows <[pst_id s := s <| pst_pve_upid := Some u |>]> d) e;
  so_step_key d e i s : I d e → db_steps d !! i = Some s → pst_id s = i;
  so_handler d e q q' : I d e → db_requests d !! request_id = Some q → handler_change q q' →
    I (set_rows <[request_id := q']> d) e;
  so_take d e q n memory disk now : I d e →
    db_requests d !! request_id = Some q → capacity_reserved q = false →
    prq_target_node_id q = Some (pn_id n) → db_nodes d !! pn_id n = Some n →
    spec_size q = Some (memory, disk) →
    memory ≤ pn_available_memory_bytes n → disk ≤ pn_available_storage_bytes n →
    I (set_rows <[request_id := with_capacity_flag true q]>
         (set_rows <[pn_id n := node_minus n memory disk now]> d)) e;
  so_node_key d e i n : I d e → db_nodes d !! i = Some n → pn_id n = i }.

Context (I : db → E → Prop) (HI : saga_ok I).

Let Henv : env_ok I := so_env I HI.

Ltac frame :=
  intros; eapply (so_frame I HI); [| |eassumption];
  [reflexivity|first [by intros Hk; exact Hk | exact (lookup_insert_key alloc_id _ _)]].

Ltac inv_hook ::=
  match goal with
  | |- keeps _ (db_save _) => apply inv_db_save
  | |- keeps _ (db_add _) => apply inv_db_add
  | |- keeps _ (add_audit_event _) => apply inv_audit; frame
  | |- keeps _ datetime_now => apply inv_from_env, eo_now, Henv
  | |- keeps _ uuid4 => apply inv_from_env, eo_uuid, Henv
  | |- keeps _ (randrange _) => apply inv_from_env, (eo_randrange _ Henv)
  | |- keeps _ (sleep _) => apply inv_from_env; intros ? ? ?; by apply (eo_sleep _ Henv)
  | |- keeps _ (call_or_raise _ (λ _, api_get_task_status _ _ _)) =>
    apply inv_call_or_raise; intros ? ? ?; apply (eo_task _ Henv)
  | |- keeps _ (call_or_raise _ (λ _, api_get_vm_status _ _ _)) =>
    apply inv_call_or_raise; intros ? ? ?; apply (eo_status _ Henv)
  | |- keeps _ (call_or_raise _ (λ _, api_configure_qemu _ _ _ _)) =>
    apply inv_call_or_raise; intros ? ? ?; apply (eo_configure _ Henv)
  | |- keeps _ (call_or_raise _ (λ _, api_resize_qemu_disk _ _ _ _ _)) =>
    apply inv_call_or_raise; intros ? ? ?; apply (eo_resize _ Henv)
  | |- keeps _ (call_or_raise _ (λ _, api_submit_vm_power_action _ _ _ _)) =>
    apply inv_call_or_raise; intros ? ? ?; apply (eo_power _ Henv)
  | |- keeps _ (call_or_raise _ api_get_guests) =>
    apply inv_call_or_raise; intros ? ? ?; apply (eo_guests _ Henv)
  end.

(** *** IPAM: none of its tables matter *)

Lemma inv_random_offset n size blocked : keeps (both I) (random_offset n size blocked).
Proof using HI. induction n as [|n IH]; simpl; inv_run. exact IH. Qed.

Lemma inv_reserve_for_provisioning s pool rq requested :
  keeps (both I) (reserve_for_provisioning s pool rq requested).
Proof using HI.
  unfold reserve_for_provisioning, _locked_pool, select_address, requested_candidate,
    _automatic_candidate, _validated_candidate, _is_excluded, _exclusion_bounds,
    materialize_offset.
  inv_run; first [apply inv_random_offset|frame].
Qed.

Lemma inv_confirm_provisioning_ip rq wl : keeps (both I) (confirm_provisioning_ip rq wl).
Proof using HI. unfold confirm_provisioning_ip. inv_run; frame. Qed.

Lemma inv_quarantine_provisioning_ip rq : keeps (both I) (quarantine_provisioning_ip rq).
Proof using HI. unfold quarantine_provisioning_ip. inv_run; frame. Qed.

Lemma inv_ipam {A} self (method : service → DBM E A) :
  (∀ s, keeps (both I) (method s)) → keeps (both I) (_ipam self method).
Proof. intros Hm. unfold _ipam, ipam_service. inv_run. apply Hm. Qed.

(** The capacity given back to the node, with the flag cleared in the same commit. *)
Definition release_ok : Prop := ∀ d e q n memory disk,
  I d e → db_requests d !! request_id = Some q → capacity_reserved q = true →
  prq_target_node_id q = Some (pn_id n) → db_nodes d !! pn_id n = Some n →
  spec_size q = Some (memory, disk) →
  I (set_rows <[request_id := with_capacity_flag false q]>
       (set_rows <[pn_id n := node_plus n memory disk]> d)) e.

(** The writes of the saga around its handlers. *)
Record run_ok : Prop := {
  ro_status d e q q' : I d e → db_requests d !! request_id = Some q → status_change q q' →
    I (set_rows <[request_id := q']> d) e;
  ro_step d e s s' : I d e → db_steps d !! pst_id s = Some s → pst_ident s' = pst_ident s →
    I (set_rows <[pst_id s := s']> d) e;
  ro_release : release_ok }.

(** The clone call may move the environment under the invariant. *)
Definition clone_ok : Prop :=
  ∀ i a d e, I d e → I d (api_clone_qemu_template i a e).2.

(** *** Reads and writes of the request *)

Section actor.
Context (runner_id : N) (actor : option user).
Let self := mkRunner request_id runner_id actor.

Lemma inv_set_request f :
  (∀ q, handler_change q (f q)) → keeps (both I) (set_request self f).
Proof using HI.
  intros Hf w [Hd Ht]. unfold set_request, the_request. do 4 wp_step; [done|].
  subst. wp_step. split; [done|]. simpl in *.
  match goal with Hq : db_requests _ !! _ = Some ?q |- _ =>
    pose proof (so_key I HI _ _ _ _ Ht Hq) as Hk; pose proof (hc_terms _ _ (Hf q)) as Hterms;
    assert (prq_id (f q) = request_id) as Hid by (unfold prq_terms in Hterms; congruence) end.
  rewrite Hid. by eapply (so_handler I HI).
Qed.

Lemma inv_set_upid step_id u :
  keeps (both I) (set_step step_id (λ s, s <| pst_pve_upid := Some u |>)).
Proof using HI.
  intros w [Hd Ht]. unfold set_step. do 4 wp_step; [done|]. subst. wp_step. split; [done|].
  simpl in *. match goal with Hs : db_steps _ !! step_id = Some ?s |- _ =>
    pose proof (so_step_key I HI _ _ _ _ Ht Hs) as <-; by apply (so_upid I HI) end.
Qed.


(** An assignment of columns a handler may change. *)
Ltac handler := apply inv_set_request; intros q; split; auto; try done.

Ltac inv_rule :=
  lazymatch goal with
  | |- keeps _ (db_save _) => apply inv_db_save; frame
  | |- keeps _ (db_add _) => apply inv_db_add; frame
  | |- keeps _ (add_audit_event _) => apply inv_audit; frame
  | |- keeps _ datetime_now => apply inv_from_env, eo_now, Henv
  | |- keeps _ uuid4 => apply inv_from_env, eo_uuid, Henv
  | |- keeps _ (sleep _) => apply inv_from_env; intros ? ? ?; by apply (eo_sleep _ Henv)
  | |- keeps _ (call_or_raise _ (λ _, api_get_task_status _ _ _)) =>
    apply inv_call_or_raise; intros ? ? ?; apply (eo_task _ Henv)
  | |- keeps _ (call_or_raise _ (λ _, api_get_vm_status _ _ _)) =>
    apply inv_call_or_raise; intros ? ? ?; apply (eo_status _ Henv)
  | |- keeps _ (call_or_raise _ (λ _, api_configure_qemu _ _ _ _)) =>
    apply inv_call_or_raise; intros ? ? ?; apply (eo_configure _ Henv)
  | |- keeps _ (call_or_raise _ (λ _, api_resize_qemu_disk _ _ _ _ _)) =>
    apply inv_call_or_raise; intros ? ? ?; apply (eo_resize _ Henv)
  | |- keeps _ (call_or_raise _ (λ _, api_submit_vm_power_action _ _ _ _)) =>
    apply inv_call_or_raise; intros ? ? ?; apply (eo_power _ Henv)
  | |- keeps _ (call_or_raise _ api_get_guests) =>
    apply inv_call_or_raise; intros ? ? ?; apply (eo_guests _ Henv)
  | |- keeps _ (set_request _ _) => handler
  | |- keeps _ (set_step _ (λ _, _ <| pst_pve_upid := _ |>)) => apply inv_set_upid
  | |- keeps _ (_ipam _ _) => apply inv_ipam; intros ?
  | |- keeps _ (reserve_for_provisioning _ _ _ _) => apply inv_reserve_for_provisioning
  | |- keeps _ (confirm_provisioning_ip _ _) => apply inv_confirm_provisioning_ip
  | |- keeps _ (quarantine_provisioning_ip _) => apply inv_quarantine_provisioning_ip
  | |- keeps _ (call_or_raise _ _) => fail
  | |- keeps _ ?m => let f := head_of m in unfold f
  end.

Ltac inv_hook ::= inv_rule.

Lemma inv_touch_lease : keeps (both I) (_touch_lease settings self).
Proof using HI. unfold _touch_lease. inv_run. Qed.

Lemma inv_clear_initial_password : keeps (both I) (_clear_initial_password self).
Proof using HI. unfold _clear_initial_password, the_request. inv_run. Qed.

Lemma inv_wait_task c node upid : keeps (both I) (_wait_task settings self c node upid).
Proof using HI.
  unfold _wait_task. generalize (Z.to_nat (prov_task_max_poll_attempts settings)). intros n.
  induction n as [|n IH]; cbn [wait_task_loop]; [apply inv_raise|].
  inv_run. exact IH.
Qed.

Lemma inv_vm_exists c vmid : keeps (both I) (_vm_exists c vmid).
Proof using HI. unfold _vm_exists. inv_run. Qed.

Ltac inv_hook ::=
  lazymatch goal with
  | |- keeps _ (_wait_task _ _ _ _ _) => apply inv_wait_task
  | |- _ => inv_rule
  end.

Section handlers.
Context (step : provisioning_step) (c : client).

Lemma inv_plain_handlers :
  keeps (both I) (_validate_request self) ∧ keeps (both I) (_check_product self) ∧
  keeps (both I) (_reserve_vmid self c) ∧ keeps (both I) (_reserve_ip self) ∧
  keeps (both I) (_wait_clone settings self c) ∧ keeps (both I) (_configure_compute self c) ∧
  keeps (both I) (_resize_disk self c) ∧ keeps (both I) (_configure_network self c) ∧
  keeps (both I) (_configure_identity self c) ∧ keeps (both I) (_start_vm settings self step c) ∧
  keeps (both I) (_verify_status self c) ∧ keeps (both I) (_assign_organization self) ∧
  keeps (both I) (_confirm_ip self).
Proof using HI.
  split_and!; inv_run.
Qed.

(** *** The target node *)

(** The node to take from: the request names it, and its row is as read. *)
Definition node_of (w : world E) (q : provisioning_request) (n : provisioning_node) : Prop :=
  ∃ q', db_requests (w_tx w) !! request_id = Some q' ∧
    prq_spec_snapshot q' = prq_spec_snapshot q ∧ prq_target_node_id q' = Some (pn_id n) ∧
    db_nodes (w_tx w) !! pn_id n = Some n.

Lemma inv_candidate_node q memory disk w :
  both I w → db_requests (w_tx w) !! request_id = Some q → capacity_reserved q = false →
  wp (candidate_node self q memory disk)
    (λ r w', both I w' ∧ match r with Ok n => node_of w' q n | Raise _ => True end) w.
Proof using HI.
  intros [Hd Ht] Hq Hcap. unfold candidate_node. destruct (prq_target_node_id q) as [id|] eqn:Htarget.
  - wp_run; subst; simpl in *; [done|]. split; [done|].
    match goal with Hn : _ = Some ?n |- _ => pose proof (so_node_key I HI _ _ _ _ Ht Hn) as <- end.
    exists q. by rewrite Htarget.
  - apply wp_bind, wp_db_scalar_ordered; [|by intros _; wp_run].
    intros n i _ Hi. pose proof (so_node_key I HI _ _ _ _ Ht Hi) as <-. simpl in Hi.
    wp_run; simplify_eq/=. pose proof (so_key I HI _ _ _ _ Ht Hq) as ->. split.
    + split; [done|]. eapply (so_handler I HI); [done..|]. split; try done. by rewrite Hcap.
    + eexists. cbn. rewrite lookup_insert_eq. by split_and!.
Qed.

(** The capacity taken from the node it names, with the flag in the same commit. *)
Lemma inv_take {A} q n memory disk now (a : A) w :
  both I w → spec_size q = Some (memory, disk) → capacity_reserved q = false →
  memory ≤ pn_available_memory_bytes n → disk ≤ pn_available_storage_bytes n →
  node_of w q n →
  wp (db_save (node_minus n memory disk now);; set_request self (with_capacity_flag true);;
      commit;; mret a)
    (λ _, both I) w.
Proof using HI.
  intros [Hd Ht] Hsize Hcap Hm Hs (q' & Hq & Hspec & Htarget & Hn).
  assert (I (set_rows <[request_id := with_capacity_flag true q']>
    (set_rows <[pn_id n := node_minus n memory disk now]> (w_tx w))) (w_env w)) as HI'.
  { eapply (so_take I HI); try done; [by unfold capacity_reserved; rewrite Hspec|].
    by unfold spec_size; rewrite Hspec. }
  pose proof (so_key I HI _ _ _ _ Ht Hq) as Hk.
  apply wp_bind, wp_db_save. wp_run; simpl in *; simplify_eq.
  - split; [done|]. simpl. by rewrite Hk.
  - split; simpl; by rewrite Hk.
Qed.

Lemma inv_select_target : keeps (both I) (_select_target self).
Proof using HI.
  intros w Hw. unfold _select_target. wp_run; try done. simpl in *; simplify_eq.
  eapply wp_mono; [by eapply inv_candidate_node|]. intros [n|x] w' [[Hd Ht] Hnode]; [|done].
  do 2 wp_step; [done|]. apply wp_bind, wp_from_env. intros now e' He.
  pose proof (eo_now I Henv _ _ Hd) as Hd'. pose proof (eo_now I Henv _ _ Ht) as Ht'.
  rewrite He in Hd', Ht'. eapply (inv_take q n z z0 now); try done.
  - unfold spec_size. by simplify_option_eq.
  - lia.
  - lia.
Qed.

(** *** Every step *)

Lemma inv_full_clone : clone_ok → keeps (both I) (_full_clone self step c).
Proof using HI.
  intros Hclone. unfold _full_clone. inv_run.
  apply inv_call_or_raise. intros i d e. by apply Hclone.
Qed.

Lemma inv_execute_step :
  (pst_step_name step = "FULL_CLONE" → clone_ok) → keeps (both I) (_execute_step settings self step c).
Proof using HI.
  intros Hclone. destruct inv_plain_handlers as (?&?&?&?&?&?&?&?&?&?&?&?&?).
  pose proof inv_select_target. unfold _execute_step. repeat case_decide; try done.
  - by apply inv_full_clone, Hclone.
  - apply inv_raise.
Qed.
End handlers.

(** ** The whole run *)

Lemma inv_release_capacity : release_ok → keeps (both I) (_release_node_capacity self).
Proof using HI.
  intros Hrel w [Hd Ht]. unfold _release_node_capacity. wp_run; try done; simplify_eq/=.
  all: match goal with Hq : _ !! request_id = Some ?q, Hn : db_nodes _ !! _ = Some ?n |- _ =>
    pose proof (so_key I HI _ _ _ _ Ht Hq) as Hk; pose proof (so_node_key I HI _ _ _ _ Ht Hn) as <-;
    cut (I (set_rows <[request_id := with_capacity_flag false q]>
              (set_rows <[pn_id n := node_plus n z z0]> (w_tx w))) (w_env w)) end.
  1, 3: by intros HI'; split; simpl; rewrite ?Hk.
  all: eapply Hrel; try done; [by unfold capacity_reserved; destruct (json_true _)|].
  all: unfold spec_size; by simplify_option_eq.
Qed.

Context (Hrun : run_ok).

Lemma inv_status f : (∀ q, status_change q (f q)) → keeps (both I) (set_request self f).
Proof using HI Hrun.
  intros Hf w [Hd Ht]. wp_run; [done|]. split; [done|]. simpl in *.
  match goal with Hq : _ = Some ?q |- _ =>
    pose proof (so_key I HI _ _ _ _ Ht Hq) as Hk; pose proof (sc_terms _ _ (Hf q)) as Hterms;
    assert (prq_id (f q) = request_id) as -> by (unfold prq_terms in Hterms; congruence) end.
  by eapply (ro_status Hrun).
Qed.

Lemma inv_step_row id f : (∀ s, pst_ident (f s) = pst_ident s) → keeps (both I) (set_step id f).
Proof using HI Hrun.
  intros Hf w [Hd Ht]. wp_run; [done|]. split; [done|]. simpl in *.
  match goal with Hs : _ = Some ?s |- _ =>
    pose proof (so_step_key I HI _ _ _ _ Ht Hs) as <-; pose proof (Hf s) as Hid;
    assert (pst_id (f s) = pst_id s) as -> by (unfold pst_ident in Hid; congruence) end.
  by eapply (ro_step Hrun).
Qed.

(** *** The saga around the handlers *)

Ltac status := apply inv_status; intros ?; by split.

Ltac inv_hook ::=
  lazymatch goal with
  | |- keeps _ (set_request _ _) => status
  | |- keeps _ (set_step _ _) => apply inv_step_row; done
  | |- keeps _ (_release_node_capacity _) => apply inv_release_capacity, ro_release, Hrun
  | |- keeps _ (_execute_step _ _ _ _) => fail
  | |- _ => inv_rule
  end.

Lemma inv_fail_request step error : keeps (both I) (_fail_request self step error).
Proof using HI Hrun. inv_run. Qed.

Lemma inv_begin_step step : keeps (both I) (begin_step settings self step).
Proof using HI Hrun. inv_run. Qed.

Lemma inv_complete_step step result : keeps (both I) (complete_step settings self step result).
Proof using HI Hrun. inv_run. Qed.

Lemma inv_complete_request a : keeps (both I) (complete_request self a).
Proof using HI Hrun. inv_run. Qed.

Lemma inv_open_cluster cluster_id : keeps (both I) (open_cluster cluster_id).
Proof. inv_run. Qed.

Context (Hclone : clone_ok).

Lemma inv_run_steps steps c : keeps (both I) (run_steps settings self steps c).
Proof using HI Hrun Hclone.
  induction steps as [|step rest IH]; [apply inv_ret|]. cbn [run_steps].
  inv_run; try done.
  - apply inv_execute_step. auto.
Qed.
End actor.

(** *** The claim and its release *)

Context (Hrun : run_ok).

(** An update of the request by its id. *)
Lemma inv_update_request (P : provisioning_request → bool) f :
  (∀ q, P q = true → prq_id q = request_id) → (∀ q, status_change q (f q)) →
  keeps (both I) (db_update_where P f).
Proof using HI Hrun.
  intros HP Hf w [Hd Ht]. split; [done|]. simpl.
  change (I ((w_tx w) <| db_requests :=
    (λ r, if P r then f r else r) <$> db_requests (w_tx w) |>) (w_env w)).
  rewrite (update_one prq_id _ P f request_id); [|intros i q; by apply (so_key I HI _ _ _ _ Ht)|done].
  destruct (_ !! request_id) as [q|] eqn:Hq; [destruct (P q)|].
  - by eapply (ro_status Hrun).
  - frame.
  - frame.
Qed.

Ltac inv_hook ::=
  lazymatch goal with
  | |- keeps _ (db_update_where _ _) => apply inv_update_request; [|by split]
  | |- keeps _ (set_request _ _) => apply inv_status; [done|]; intros ?; by split
  | |- keeps _ datetime_now => apply inv_from_env, eo_now, Henv
  | |- keeps _ uuid4 => apply inv_from_env, eo_uuid, Henv
  | |- keeps _ (_fail_request _ _ _) => by apply inv_fail_request
  | |- keeps _ (run_steps _ _ _ _) => fail
  | |- keeps _ (complete_request _ _) => by apply inv_complete_request
  | |- keeps _ ?m => let f := head_of m in unfold f
  end.

Lemma claim_where now q : bool_decide (prq_id q = request_id) && claimable now q = true →
  prq_id q = request_id.
Proof. by intros [?%bool_decide_eq_true _]%andb_true_iff. Qed.

Lemma inv_claim runner_id : keeps (both I) (_claim settings runner_id request_id).
Proof using HI Hrun. unfold _claim. inv_run. by eapply claim_where. Qed.

Lemma inv_release_claim runner_id : keeps (both I) (_release_claim runner_id request_id).
Proof using HI Hrun.
  unfold _release_claim. inv_run.
  match goal with Hq : _ = true |- _ =>
    by apply andb_true_iff in Hq as [[?%bool_decide_eq_true _]%andb_true_iff _] end.
Qed.

Context (Hclone : clone_ok).

Lemma inv_run_claimed runner_id actor :
  keeps (both I) (_run_claimed settings (mkRunner request_id runner_id actor)).
Proof using HI Hrun Hclone.
  unfold _run_claimed. inv_run. by apply inv_run_steps.
Qed.

Lemma inv_finally {A} (m : DBM E A) h J :
  keeps J m → keeps J h → keeps J (try_finally m h).
Proof.
  intros Hm Hh w Hw. specialize (Hm w Hw). unfold wp, try_finally in *.
  destruct (m w) as [r w']. specialize (Hh w' Hm). unfold wp in Hh.
  by destruct (h w') as [[]].
Qed.

Lemma inv_run_provisioning_request : keeps (both I) (run_provisioning_request settings request_id).
Proof using HI Hrun Hclone.
  intros w Hw. unfold run_provisioning_request. apply wp_bind, wp_from_env. intros runner_id e' He.
  assert (both I (World (w_db w) (w_tx w) (w_dup w) e')) as Hw'.
  { destruct Hw as [Hd Ht]. pose proof (eo_uuid I Henv _ _ Hd) as Hd'.
    pose proof (eo_uuid I Henv _ _ Ht) as Ht'. rewrite He in *. by split. }
  apply wp_bind. eapply wp_mono.
  { apply wp_and; [by apply inv_claim|].
    apply (wp_claim_request settings runner_id request_id
      (λ r _, match r with Ok (Some q) => prq_id q = request_id | _ => True end)); try done.
    - intros i q. destruct Hw' as [_ Ht]. by apply (so_key I HI _ _ _ _ Ht).
    - intros now e'' q d _ Hq _ _ _. destruct Hw' as [_ Ht]. by apply (so_key I HI _ _ _ _ Ht Hq). }
  intros [[q|]|x] w' [Hw'' Hid]; [|done..]. unfold run_claimed_request. rewrite Hid.
  by apply inv_finally; [apply inv_run_claimed|apply inv_release_claim|].
Qed.
End saga.
