(* ===== verification/ProvLedger.v ===== *)
(** * The capacity ledger

    What a node has available and what the requests hold of it is a constant of
    every run: capacity is taken with the flag that records it and given back with
    the flag cleared, whatever step fails, times out or raises. *)
From Stdlib Require Import Lia.
From S2P Require Import Prelude Models Database AuditLog Operations PveApi Keeps ProvApi.
From S2P Require Import PowerRunner IpAddr Ipam ProvRunner ProvInv.

(** ** Sums over a table *)

Definition map_sum {A} (f : A → Z) (m : gmap N A) : Z := map_fold (λ _ a s, f a + s) 0 m.

Lemma map_sum_insert_new {A} (f : A → Z) m i a :
  m !! i = None → map_sum f (<[i := a]> m) = f a + map_sum f m.
Proof. intros Hi. unfold map_sum. rewrite map_fold_insert_L; [done|intros; lia|done]. Qed.

Lemma map_sum_insert {A} (f : A → Z) m i a b :
  m !! i = Some a → map_sum f (<[i := b]> m) = map_sum f m - f a + f b.
Proof.
  intros Hi. rewrite <-(insert_delete_id m i a Hi) at 2. rewrite <-(insert_delete_eq m i b).
  rewrite !map_sum_insert_new by apply lookup_delete_eq. lia.
Qed.

(** ** The ledger *)

(** What a request holds of a node. *)
Definition held (node_id : N) (q : provisioning_request) : Z * Z :=
  if capacity_reserved q && bool_decide (prq_target_node_id q = Some node_id)
  then default (0, 0) (spec_size q) else (0, 0).

(** Memory and storage of a node: available, and held by the requests. *)
Definition node_memory (d : db) (node_id : N) : option Z :=
  (λ n, pn_available_memory_bytes n + map_sum (λ q, (held node_id q).1) (db_requests d))
    <$> db_nodes d !! node_id.
Definition node_storage (d : db) (node_id : N) : option Z :=
  (λ n, pn_available_storage_bytes n + map_sum (λ q, (held node_id q).2) (db_requests d))
    <$> db_nodes d !! node_id.

(** No node promises what it does not have, no specification is negative. *)
Record capacity_sane (d : db) : Prop := {
  cs_nodes i n : db_nodes d !! i = Some n →
    0 ≤ pn_available_memory_bytes n ∧ 0 ≤ pn_available_storage_bytes n;
  cs_specs i q m s : db_requests d !! i = Some q → spec_size q = Some (m, s) → 0 ≤ m ∧ 0 ≤ s }.

Record ledger_db (d : db) : Prop := {
  ld_nodes : keyed provisioning_node d;
  ld_requests : keyed provisioning_request d;
  ld_steps : keyed provisioning_step d;
  ld_sane : capacity_sane d }.

Definition ledger (d0 d : db) : Prop :=
  ledger_db d ∧ ∀ i, node_memory d i = node_memory d0 i ∧ node_storage d i = node_storage d0 i.

Lemma capacity_flag b q : capacity_reserved (with_capacity_flag b q) = b.
Proof. unfold capacity_reserved, with_capacity_flag. cbn. rewrite obj_get_set_eq. by destruct b. Qed.

Lemma spec_size_flag b q : spec_size (with_capacity_flag b q) = spec_size q.
Proof. unfold spec_size, with_capacity_flag. cbn. by rewrite !obj_get_set_ne. Qed.

(** The rows after a write. *)
Ltac inserted H := cbn in H; apply lookup_insert_Some in H as [[? ?]|[? H]]; subst.

Section moves.
Implicit Types (d : db) (q : provisioning_request) (n : provisioning_node).

(** A request that holds the same of every node. *)
Lemma ledger_request d id q q' i :
  db_requests d !! id = Some q → (∀ j, held j q' = held j q) →
  node_memory (set_rows <[id := q']> d) i = node_memory d i ∧
  node_storage (set_rows <[id := q']> d) i = node_storage d i.
Proof.
  intros Hq Hheld. unfold node_memory, node_storage. cbn.
  rewrite !(map_sum_insert _ _ _ _ _ Hq), Hheld.
  destruct (db_nodes d !! i); simpl; split; f_equal; lia.
Qed.

(** A node and a request that exchange capacity. *)
Lemma ledger_move d id q q' n n' i :
  db_requests d !! id = Some q → db_nodes d !! pn_id n = Some n →
  (∀ j, j ≠ pn_id n → held j q' = held j q) →
  pn_available_memory_bytes n' + (held (pn_id n) q').1 =
    pn_available_memory_bytes n + (held (pn_id n) q).1 →
  pn_available_storage_bytes n' + (held (pn_id n) q').2 =
    pn_available_storage_bytes n + (held (pn_id n) q).2 →
  node_memory (set_rows <[id := q']> (set_rows <[pn_id n := n']> d)) i = node_memory d i ∧
  node_storage (set_rows <[id := q']> (set_rows <[pn_id n := n']> d)) i = node_storage d i.
Proof.
  intros Hq Hn Hother Hm Hs. unfold node_memory, node_storage. cbn.
  rewrite !(map_sum_insert _ _ _ _ _ Hq). destruct (decide (i = pn_id n)) as [->|Hne].
  - rewrite lookup_insert_eq, Hn. simpl. split; f_equal; lia.
  - rewrite lookup_insert_ne, Hother by done.
    destruct (db_nodes d !! i); simpl; split; f_equal; lia.
Qed.

Lemma sane_request d id q q' :
  capacity_sane d → db_requests d !! id = Some q → spec_size q' = spec_size q →
  capacity_sane (set_rows <[id := q']> d).
Proof.
  intros [Hn Hs] Hq Hsize. split; [done|]. intros i q0 m s Hi. inserted Hi; [rewrite Hsize|]; eauto.
Qed.

Lemma sane_node d i n n' :
  capacity_sane d → 0 ≤ pn_available_memory_bytes n' → 0 ≤ pn_available_storage_bytes n' →
  capacity_sane (set_rows <[i := n']> d).
Proof.
  intros [Hn Hs] Hm Hd. split; [|done]. intros j n0 Hj. inserted Hj; eauto.
Qed.

Lemma ledger_frame d0 d d' : saga_tables d' = saga_tables d → ledger d0 d → ledger d0 d'.
Proof.
  unfold saga_tables. intros [= Hn Hq Hs] [[Kn Kq Ks [Cn Cs]] Hl].
  split; [split; unfold keyed in *; cbn in *|].
  - by rewrite Hn.
  - by rewrite Hq.
  - by rewrite Hs.
  - by split; rewrite ?Hn, ?Hq.
  - unfold node_memory, node_storage in *. by rewrite Hn, Hq.
Qed.

(** A write of the request that leaves its holdings and its size. *)
Lemma ledger_set_request d0 d id q q' :
  ledger d0 d → db_requests d !! id = Some q → prq_id q' = prq_id q →
  spec_size q' = spec_size q → (∀ j, held j q' = held j q) →
  ledger d0 (set_rows <[id := q']> d).
Proof.
  intros [[Kn Kq Ks Hsane] Hl] Hq Hid Hsize Hheld. split; [split; try done|].
  - intros i r Hi. inserted Hi; [|by apply Kq].
    simpl. rewrite Hid. by apply (Kq _ q).
  - by eapply sane_request.
  - intros i. destruct (ledger_request d id q q' i Hq Hheld) as [-> ->]. apply Hl.
Qed.

Lemma ledger_set_step d0 d s s' :
  ledger d0 d → pst_id s' = pst_id s → ledger d0 (set_rows <[pst_id s := s']> d).
Proof.
  intros [[Kn Kq Ks Hsane] Hl] Hid. split; [split; try done|exact Hl].
  - intros i r Hi. inserted Hi; [done|by apply Ks].
  - by destruct Hsane.
Qed.

(** Capacity moves between the request and the node it names. *)
Lemma ledger_exchange d0 d id q n n' b :
  ledger d0 d → db_requests d !! id = Some q → db_nodes d !! pn_id n = Some n →
  prq_target_node_id q = Some (pn_id n) → pn_id n' = pn_id n →
  0 ≤ pn_available_memory_bytes n' → 0 ≤ pn_available_storage_bytes n' →
  pn_available_memory_bytes n' + (held (pn_id n) (with_capacity_flag b q)).1 =
    pn_available_memory_bytes n + (held (pn_id n) q).1 →
  pn_available_storage_bytes n' + (held (pn_id n) (with_capacity_flag b q)).2 =
    pn_available_storage_bytes n + (held (pn_id n) q).2 →
  ledger d0 (set_rows <[id := with_capacity_flag b q]> (set_rows <[pn_id n := n']> d)).
Proof.
  intros [[Kn Kq Ks Hsane] Hl] Hq Hn Ht Hid Hm Hs Hmem Hsto. split; [split; try done|].
  - intros i r Hi. inserted Hi; [done|by apply Kn].
  - intros i r Hi. inserted Hi; [|by apply Kq]. by apply (Kq _ q).
  - eapply sane_request; [by apply sane_node|exact Hq|apply spec_size_flag].
  - intros i. destruct (ledger_move d id q (with_capacity_flag b q) n n' i) as [-> ->]; try done.
    intros j Hj. unfold held. cbn. rewrite Ht, (bool_decide_false (Some _ = Some j)) by congruence.
    by rewrite !andb_false_r.
Qed.
End moves.

Section instance.
Context {E : Type} `{Runtime E} `{PowerApi E} `{ProvisioningApi E} `{ProvisioningSecrets E}.
Context (request_id : N) (d0 : db).
Let I (d : db) (_ : E) : Prop := ledger d0 d.

Lemma held_handler q q' j : handler_change q q' → held j q' = held j q.
Proof.
  intros [_ _ Hs _ Hn]. unfold held, capacity_reserved, spec_size in *. rewrite Hs.
  destruct (json_true _); [by rewrite Hn|done].
Qed.

Lemma ledger_saga : saga_ok request_id I.
Proof.
  split; unfold I.
  - by split.
  - intros d d' _ Ht _. by apply ledger_frame.
  - intros d _ i q [[_ Kq _ _] _]. apply Kq.
  - intros d _ s u Hl Hs. by apply ledger_set_step.
  - intros d _ i s [[_ _ Ks _] _]. apply Ks.
  - intros d _ q q' Hl Hq Hc. eapply ledger_set_request; try done.
    + pose proof (hc_terms _ _ Hc) as Ht. unfold prq_terms in Ht. congruence.
    + unfold spec_size. by rewrite (hc_spec _ _ Hc).
    + intros j. by apply held_handler.
  - intros d _ q n m s now Hl Hq Hcap Ht Hn Hsize Hm Hs.
    pose proof Hl as [[_ _ _ Hsane] _].
    assert (held (pn_id n) (with_capacity_flag true q) = (m, s)) as Hh.
    { unfold held. rewrite capacity_flag, spec_size_flag, Hsize. cbn.
      by rewrite Ht, bool_decide_true. }
    assert (held (pn_id n) q = (0, 0)) as Hh0 by (unfold held; by rewrite Hcap).
    apply ledger_exchange; try done; rewrite ?Hh, ?Hh0; simpl; lia.
  - intros d _ i n [[Kn _ _ _] _]. apply Kn.
Qed.

Lemma ledger_run : run_ok request_id I.
Proof.
  split; unfold I.
  - intros d _ q q' Hl Hq Hc. eapply ledger_set_request; try done.
    + pose proof (sc_terms _ _ Hc) as Ht. unfold prq_terms in Ht. congruence.
    + unfold spec_size. by rewrite (sc_spec _ _ Hc).
    + intros j. unfold held, capacity_reserved, spec_size.
      by rewrite (sc_spec _ _ Hc), (sc_node _ _ Hc).
  - intros d _ s s' Hl Hs Hid. apply ledger_set_step; [done|]. unfold pst_ident in Hid. congruence.
  - intros d _ q n m s Hl Hq Hcap Ht Hn Hsize.
    pose proof Hl as [[_ _ _ [Cn Cs]] _]. pose proof (Cn _ _ Hn). pose proof (Cs _ _ _ _ Hq Hsize).
    assert (held (pn_id n) (with_capacity_flag false q) = (0, 0)) as Hh0
      by (unfold held; by rewrite capacity_flag).
    assert (held (pn_id n) q = (m, s)) as Hh.
    { unfold held. by rewrite Hcap, Ht, bool_decide_true, Hsize. }
    apply ledger_exchange; try done; rewrite ?Hh, ?Hh0; simpl; lia.
Qed.
End instance.
