(* ===== verification/ProvRun.v ===== *)
(** * The outcome of a provisioning run

    A run that claimed its request ends with the request finished or claimable
    again: succeeded with every step done, or failed with its reservations given
    back, or left for manual review; and when it raises, with its claim released. *)
From Stdlib Require Import Lia.
From stdpp Require Import sorting.
From S2P Require Import Prelude Models Database AuditLog Operations PveApi Keeps ProvApi.
From S2P Require Import PowerRunner IpAddr Ipam ProvRunner ProvInv.

(** ** A request in the hands of its runner *)

Section live.
Context (request_id runner_id : N) (ids done : list N).

Record live (d : db) : Prop := {
  lv_nodes : keyed provisioning_node d;
  lv_requests : keyed provisioning_request d;
  lv_steps : keyed provisioning_step d;
  lv_allocations : keyed ip_allocation d;
  lv_row : ∃ q, db_requests d !! request_id = Some q ∧ prq_status q = PS_RUNNING ∧
             (prq_runner_id q = Some runner_id ∨ prq_runner_id q = None);
  lv_done i : i ∈ done → ∃ s, db_steps d !! i = Some s ∧ pst_status s = ST_SUCCEEDED;
  lv_ids i s : db_steps d !! i = Some s → pst_provisioning_request_id s = request_id → i ∈ ids }.

Lemma live_set_request d q q' :
  live d → db_requests d !! request_id = Some q → prq_terms q' = prq_terms q →
  prq_status q' = prq_status q →
  (prq_runner_id q' = prq_runner_id q ∨ prq_runner_id q' = None) →
  live (set_rows <[request_id := q']> d).
Proof.
  intros [Kn Kq Ks Ka (q0 & Hq0 & Hst & Hr) Hd Hi] Hq Hterms Hstatus Hrunner.
  unfold prq_terms in *. rewrite Hq in Hq0. simplify_eq. split; try done.
  - intros i r Hr'. cbn in Hr'. apply lookup_insert_Some in Hr' as [[<- <-]|[_ Hr']]; [|by apply Kq].
    simpl. transitivity (prq_id q0); [congruence|by apply (Kq _ q0)].
  - exists q'. cbn. rewrite lookup_insert_eq. split_and!; [done|congruence|].
    destruct Hrunner as [-> | ->]; tauto.
Qed.

Lemma live_set_step d s s' :
  live d → db_steps d !! pst_id s = Some s → pst_ident s' = pst_ident s →
  (pst_id s ∈ done → pst_status s' = ST_SUCCEEDED) → live (set_rows <[pst_id s := s']> d).
Proof.
  unfold pst_ident. intros [Kn Kq Ks Ka Hrow Hd Hi] Hs Hid Hst. split; try done.
  - intros i r Hr. cbn in Hr. apply lookup_insert_Some in Hr as [[<- <-]|[_ Hr]]; [|by apply Ks].
    simpl. congruence.
  - intros i Hin. cbn. destruct (decide (i = pst_id s)) as [->|];
      [|rewrite lookup_insert_ne by done; by apply Hd].
    rewrite lookup_insert_eq. eauto.
  - intros i r Hr Hq. cbn in Hr. apply lookup_insert_Some in Hr as [[<- <-]|[_ Hr]]; [|by eapply Hi].
    apply (Hi _ s); [done|congruence].
Qed.

Context {E : Type} `{Runtime E} `{PowerApi E} `{ProvisioningApi E} `{ProvisioningSecrets E}.
Let I (d : db) (_ : E) : Prop := live d.

Lemma live_saga : saga_ok request_id I.
Proof.
  split; unfold I.
  - by split.
  - intros d d' _ [= Hn Hq Hs] Ha [Kn Kq Ks Ka Hrow Hd Hi].
    split; unfold keyed in *; cbn in *; rewrite ?Hn, ?Hq, ?Hs; auto.
  - intros d _ i q Hl. apply (lv_requests d Hl).
  - intros d _ s u Hl Hs. eapply live_set_step; try done.
    intros Hin. destruct (lv_done d Hl _ Hin) as (s' & Hs' & Hst). simpl. congruence.
  - intros d _ i s Hl. apply (lv_steps d Hl).
  - intros d _ q q' Hl Hq [Ht Hlife _ _ _]. unfold prq_life in Hlife.
    eapply live_set_request; [done..|congruence|left; congruence].
  - intros d _ q n m s now Hl Hq _ _ Hn _ _ _. eapply live_set_request; [|exact Hq|done|done|by left].
    destruct Hl as [Kn Kq Ks Ka Hrow Hd Hi]. split; try done.
    exact (lookup_insert_key pn_id (db_nodes d) (node_minus n m s now) Kn).
  - intros d _ i n Hl. apply (lv_nodes d Hl).
Qed.
End live.

(** ** Failure *)

(** No address is reserved for the request any more. *)
Definition no_reservation (request_id : N) (d : db) : Prop :=
  ∀ i l, db_allocations d !! i = Some l → alloc_provisioning_request_id l = Some request_id →
    alloc_status l ≠ AL_RESERVED.

(** Nothing was cloned, and the reservations were given back. *)
Definition given_back (d : db) (q : provisioning_request) : Prop :=
  prq_clone_submitted q = false ∧ capacity_reserved q = false ∧ no_reservation (prq_id q) d.

(** A row that [_fail_request] committed. *)
Record failed_row (q : provisioning_request) : Prop := {
  fr_status : prq_status q = PS_FAILED ∨ prq_status q = PS_MANUAL_REVIEW;
  fr_runner : prq_runner_id q = None;
  fr_lease : prq_lease_expires_at q = None;
  fr_finished : is_Some (prq_finished_at q);
  fr_password : holds_password q = false }.

Definition has_row (request_id : N) (P : provisioning_request → Prop) (d : db) : Prop :=
  ∃ q, db_requests d !! request_id = Some q ∧ prq_id q = request_id ∧ P q.

Definition failed_as (request_id : N) (status : ProvisioningStatus) (d : db) : Prop :=
  has_row request_id
    (λ q, failed_row q ∧ prq_status q = status ∧ (status = PS_FAILED → given_back d q)) d.

Section failure.
Context {E : Type} `{Runtime E} `{PowerApi E} `{ProvisioningApi E} `{ProvisioningSecrets E}.
Context `{Digests} (settings : ProvisioningSettings).
Context (request_id runner_id : N) (ids done : list N) (actor : option user).
Implicit Types (w : world E).
Let self := mkRunner request_id runner_id actor.
Let I (d : db) (_ : E) : Prop := live request_id runner_id ids done d.
Let HI : saga_ok request_id I := live_saga request_id runner_id ids done.

Lemma live_release : release_ok request_id I.
Proof.
  intros d e q n m s Hl Hq _ _ Hn _. eapply live_set_request; [|exact Hq|done|done|by left].
  destruct Hl as [Kn Kq Ks Ka Hrow Hd Hi]. split; try done.
  exact (lookup_insert_key pn_id (db_nodes d) (node_plus n m s) Kn).
Qed.

Lemma wp_quarantine w :
  keyed ip_allocation (w_tx w) →
  wp (quarantine_provisioning_ip request_id)
    (λ r w', r = Ok tt → no_reservation request_id (w_tx w') ∧
                         db_requests (w_tx w') = db_requests (w_tx w)) w.
Proof.
  intros Ka. unfold quarantine_provisioning_ip. wp_run; try done; simplify_eq/=.
  - split; [|done]. match goal with Hf : first_row _ _ = Some ?l |- _ =>
      apply first_row_Some in Hf as [Hl [k Hk]]; pose proof (Ka _ _ Hk) as <- end.
    apply andb_true_iff in Hl as [Hr%bool_decide_eq_true Hres%bool_decide_eq_true].
    intros j l' Hj Hr' Hst. cbn in Hj, Hk.
    apply lookup_insert_Some in Hj as [[_ <-]|[Hne Hj]]; [done|]. apply Hne.
    match goal with Hint : integrity ?t = true |- _ =>
      eapply (integrity_unique uq_ip_allocations_active_provisioning_request t _ Hint) end.
    + cbn. apply lookup_insert_eq.
    + cbn. by rewrite lookup_insert_ne.
    + unfold uq_ip_allocations_active_provisioning_request. cbn. exact Hr.
    + unfold uq_ip_allocations_active_provisioning_request, alloc_active. by rewrite Hst.
    Unshelve. simpl. tauto.
  - split; [|done]. intros i l Hi Hr Hst. match goal with Hf : first_row _ _ = None |- _ =>
      pose proof (first_row_None _ _ Hf _ _ Hi) as Hl end.
    unfold alloc_of_request, alloc_in_status in Hl. by rewrite Hr, Hst, !bool_decide_true in Hl.
Qed.

(** The request holds nothing of its node. *)
Definition unreserved (clone : bool) : db → Prop := has_row request_id
  (λ q, capacity_reserved q = false ∧ prq_clone_submitted q = clone).

Lemma wp_release_capacity q w :
  both I w → db_requests (w_tx w) !! request_id = Some q →
  wp (_release_node_capacity self)
    (λ r w', r = Ok tt → db_allocations (w_tx w') = db_allocations (w_tx w) ∧
       unreserved (prq_clone_submitted q) (w_tx w')) w.
Proof.
  intros [_ Ht] Hq. pose proof (lv_requests _ _ _ _ _ Ht _ _ Hq) as Hk. simpl in Hk.
  unfold _release_node_capacity. wp_run; try done; simplify_eq/=; intros _; split; try done.
  - exists q. split_and!; try done. by apply negb_true_iff.
  - exists (with_capacity_flag false q). cbn. rewrite Hk, lookup_insert_eq. split_and!; try done.
    unfold capacity_reserved. cbn. by rewrite obj_get_set_eq.
Qed.

Lemma wp_compensate q w :
  both I w → db_requests (w_tx w) !! request_id = Some q →
  wp (compensate self) (λ r w', both I w' ∧ ∃ b : bool, r = Ok b ∧
    (b = false → no_reservation request_id (w_tx w') ∧ unreserved (prq_clone_submitted q) (w_tx w'))) w.
Proof.
  intros HI0 Hq. unfold compensate. apply wp_try, wp_bind.
  assert (keeps (both I) (_ipam self (λ _, quarantine_provisioning_ip request_id))) as Hquar.
  { apply inv_ipam. intros _. by eapply inv_quarantine_provisioning_ip. }
  unfold _ipam in *.
  eapply wp_mono.
  { apply wp_and; [by apply Hquar|].
    instantiate (1 := λ r w', r = Ok tt → no_reservation request_id (w_tx w') ∧
      db_requests (w_tx w') = db_requests (w_tx w)).
    wp_run; try done. unfold ipam_service. wp_run; try done. apply wp_quarantine.
    destruct HI0 as [_ Ht]. apply (lv_allocations _ _ _ _ _ Ht). }
  intros [[]|x] w1 [HI1 Hq1]; [|apply wp_ret; split; [done|]; by exists true].
  destruct (Hq1 eq_refl) as [Hno Hreq]. apply wp_bind.
  eapply wp_mono.
  { apply wp_and; [by apply (inv_release_capacity request_id I HI _ _ live_release)|].
    apply wp_release_capacity; [done|]. by rewrite Hreq. }
  intros [[]|x] w2 [HI2 Hq2]; [|apply wp_ret; split; [done|]; by exists true].
  destruct (Hq2 eq_refl) as [Hall Hun]. apply wp_ret. split; [done|]. exists false. split; [done|].
  intros _. split; [|done]. intros i l Hi. rewrite Hall in Hi. by eapply Hno.
Qed.

(** The step's part of a failure keeps the request in its runner's hands. *)
Lemma keeps_step_failed step error now :
  pst_id step ∉ done →
  keeps (both I) (set_step (pst_id step) (λ s, s
      <| pst_status := ST_FAILED |>
      <| pst_error_code := Some (pe_code error) |>
      <| pst_error_summary := Some (pe_message error) |>
      <| pst_finished_at := Some now |>)).
Proof.
  intros Hnot w [Hd Ht]. apply wp_set_step; [done|]. intros s Hs. split; [done|].
  assert (pst_id s = pst_id step) as Hk by apply (lv_steps _ _ _ _ _ Ht _ _ Hs).
  rewrite <-Hk in Hs. apply (live_set_step _ _ _ _ _ s); try done. by rewrite Hk.
Qed.

Lemma failed_back d d' q q' :
  no_reservation request_id d ∧ unreserved false d →
  db_requests d !! request_id = Some q → prq_id q = request_id →
  prq_clone_submitted q' = prq_clone_submitted q → prq_spec_snapshot q' = prq_spec_snapshot q →
  prq_id q' = prq_id q → db_allocations d' = db_allocations d → given_back d' q'.
Proof.
  intros (Hno & q0 & Hq0 & _ & Hcap & Hc) Hq Hk Hclone Hspec Hid Hall.
  rewrite Hq in Hq0. injection Hq0 as <-.
  unfold given_back, no_reservation, capacity_reserved in *.
  rewrite Hclone, Hspec, Hid, Hk, Hall. by split_and!.
Qed.

Lemma wp_set_failed (manual : bool) error now w :
  both I w →
  (manual = false → no_reservation request_id (w_tx w) ∧ unreserved false (w_tx w)) →
  wp (set_request self (λ q, q
      <| prq_status := failed_status manual |>
      <| prq_error_code := Some (pe_code error) |>
      <| prq_error_summary := Some (pe_message error) |>
      <| prq_finished_at := Some now |>
      <| prq_runner_id := None |>
      <| prq_lease_expires_at := None |>);;
      _clear_initial_password self)
    (λ r w', w_db w' = w_db w ∧ (r = Ok tt → failed_as request_id (failed_status manual) (w_tx w'))) w.
Proof.
  intros [_ Ht] Hback. unfold _clear_initial_password.
  destruct (lv_row _ _ _ _ _ Ht) as (q & Hq & _).
  assert (prq_id q = request_id) as Hid by apply (lv_requests _ _ _ _ _ Ht _ _ Hq).
  wp_run; try done; simplify_eq/=.
  all: rewrite Hid, lookup_insert_eq in *; simplify_eq/=; split; [done|intros _].
  all: unfold failed_as, has_row; cbn; rewrite ?Hid, !lookup_insert_eq; eexists; split; [done|].
  all: split; [done|]; split; [|split; [done|]; intros Hst; destruct manual; [done|];
    eapply (failed_back (w_tx w) _ q); auto].
  all: split; try done; [by destruct manual; [right|left]].
Qed.

Lemma wp_swallow (m : DBM E ()) w : wp (try_except m (λ _, rollback)) (λ r _, r = Ok tt) w.
Proof. apply wp_try, wp_intro. by intros [[]|x] w' _. Qed.

(** A request left for manual review stays so while its machine is recorded. *)
Let under_review (d : db) (_ : E) : Prop :=
  has_row request_id (λ q, failed_row q ∧ prq_status q = PS_MANUAL_REVIEW) d.

Lemma review_set_workload id :
  keeps (both under_review) (set_request self (λ q, q <| prq_workload_id := Some id |>)).
Proof.
  intros w [Hd (q & Hq & Hid & [] & Hst)]. apply wp_set_request; simpl; rewrite Hq; [done|].
  intros q' [= <-]. split; [done|]. eexists. cbn. rewrite Hid, lookup_insert_eq. by split_and!.
Qed.

Ltac inv_hook ::=
  lazymatch goal with
  | |- keeps _ (db_save _) => apply inv_db_save; by intros
  | |- keeps _ (db_add _) => apply inv_db_add; by intros
  | |- keeps _ (add_audit_event _) => apply inv_audit; by intros
  | |- keeps _ datetime_now => apply inv_from_env; by intros
  | |- keeps _ uuid4 => apply inv_from_env; by intros
  | |- keeps _ (set_request _ _) => apply review_set_workload
  | |- keeps _ ?m => let f := head_of m in unfold f
  end.

Lemma review_record_partial :
  keeps (both under_review) (try_except (_record_partial_workload self;; commit) (λ _, rollback)).
Proof. inv_run. Qed.

Lemma wp_fail_request step error w :
  both I w → (∀ s, step = Some s → pst_id s ∉ done) →
  wp (_fail_request self step error)
    (λ r w', match r with
             | Ok _ => ∃ manual, failed_as request_id (failed_status manual) (w_db w')
             | Raise _ => live request_id runner_id ids done (w_db w')
             end) w.
Proof.
  intros HI0 Hstep. unfold _fail_request. apply wp_bind.
  eapply (wp_mono _ (λ _, both I)).
  { destruct step as [s|]; [|done]. apply wp_bind, wp_from_env. intros now e' _.
    apply keeps_step_failed; [by apply Hstep|]. by destruct HI0. }
  clear HI0 Hstep. intros [[]|x] w1 HI1; [|by destruct HI1].
  apply wp_bind, wp_the_request; [by destruct HI1|]. intros q Hq. simpl in Hq. apply wp_bind.
  eapply (wp_mono _ (λ r w', both I w' ∧ ∃ b : bool, r = Ok b ∧
    (b = false → no_reservation request_id (w_tx w') ∧ unreserved false (w_tx w')))).
  { destruct (prq_clone_submitted q) eqn:Hclone; simpl; [split; [done|by exists true]|].
    case_bool_decide; [split; [done|by exists true]|].
    pose proof (wp_compensate q w1 HI1 Hq) as Hc. by rewrite Hclone in Hc. }
  intros r w2 [HI2 (manual & -> & Hback)]. apply wp_bind, wp_from_env. intros now e' _.
  apply wp_seq. eapply wp_mono; [apply (wp_set_failed manual error now); [by destruct HI2|done]|].
  intros [[]|x] w3 [Hdb Hfailed]; [|rewrite Hdb; by destruct HI2].
  specialize (Hfailed eq_refl). do 2 wp_step. wp_step.
  apply wp_commit; simpl; [intros _; rewrite Hdb; by destruct HI2|]. intros _ _.
  unfold when. destruct manual; [|by exists false].
  eapply wp_mono.
  { apply wp_and; [apply review_record_partial|apply wp_swallow].
    destruct Hfailed as (r & Hr & Hid & Hrow & Hst & _). split; exists r; by split_and!. }
  intros r w4 [[(q4 & Hq4 & Hid & Hrow & Hst) _] ->]. exists true, q4. by split_and!.
Qed.
End failure.

(** ** The steps *)

Section steps.
Context {E : Type} `{Runtime E} `{PowerApi E} `{ProvisioningApi E} `{ProvisioningSecrets E}.
Context `{Digests} (settings : ProvisioningSettings).
Context (request_id runner_id : N) (ids : list N) (actor : option user).
Implicit Types (w : world E) (step : provisioning_step) (done : list N).
Let self := mkRunner request_id runner_id actor.
Let I done (d : db) (_ : E) : Prop := live request_id runner_id ids done d.

(** An assignment that leaves the terms and the status, and at most drops the runner. *)
Definition stays_live (f : provisioning_request → provisioning_request) : Prop := ∀ q,
  prq_terms (f q) = prq_terms q ∧ prq_status (f q) = prq_status q ∧
  (prq_runner_id (f q) = prq_runner_id q ∨ prq_runner_id (f q) = None).

Lemma wp_live_request done f w :
  stays_live f → live request_id runner_id ids done (w_tx w) →
  wp (set_request self f) (λ r w', r = Ok tt ∧ w_db w' = w_db w ∧
    live request_id runner_id ids done (w_tx w') ∧ w_env w' = w_env w) w.
Proof.
  intros Hf Ht. apply wp_set_request; simpl.
  - intros Hnone. destruct (lv_row _ _ _ _ _ Ht) as (q & Hq & _). congruence.
  - intros q Hq. split_and!; [done..| |done]. destruct (Hf q) as (Hterms & Hst & Hr).
    assert (prq_id (f q) = request_id) as ->.
    { transitivity (prq_id q); [unfold prq_terms in Hterms; congruence|].
      by apply (lv_requests _ _ _ _ _ Ht _ _ Hq). }
    by eapply live_set_request.
Qed.

Lemma keeps_live_request done f : stays_live f → keeps (both (I done)) (set_request self f).
Proof.
  intros Hf w [Hd Ht]. eapply wp_mono; [by apply wp_live_request|].
  intros r w' (_ & Hdb & Ht' & _). unfold both, I. by rewrite Hdb.
Qed.

Lemma keeps_live_step done id f :
  id ∉ done → (∀ s, pst_ident (f s) = pst_ident s) → keeps (both (I done)) (set_step id f).
Proof.
  intros Hnot Hf w [Hd Ht]. apply wp_set_step; [done|]. intros s Hs. split; [done|]. simpl.
  assert (pst_id s = id) as Hk by apply (lv_steps _ _ _ _ _ Ht _ _ Hs).
  assert (pst_id (f s) = pst_id s) as -> by (specialize (Hf s); unfold pst_ident in Hf; congruence).
  rewrite <-Hk in Hs. apply (live_set_step _ _ _ _ _ s); try done. by rewrite Hk.
Qed.

Ltac inv_hook ::=
  lazymatch goal with
  | |- keeps _ datetime_now => apply inv_from_env; by intros
  | |- keeps _ (set_request _ _) => apply keeps_live_request; intros ?; split_and!; first [done|by left|by right]
  | |- keeps _ (set_step _ _) => apply keeps_live_step; [done|by intros ?]
  | |- keeps _ ?m => let f := head_of m in unfold f
  end.

Lemma keeps_begin_step done step :
  pst_id step ∉ done → keeps (both (I done)) (begin_step settings self step).
Proof. intros Hnot. inv_run. Qed.

Lemma keeps_touch_lease done : keeps (both (I done)) (_touch_lease settings self).
Proof. inv_run. Qed.

(** The step is recorded as done in the same commit. *)
Lemma wp_complete_step done step result w :
  both (I done) w → pst_id step ∉ done →
  wp (complete_step settings self step result)
    (λ r w', match r with
             | Ok _ => both (I (pst_id step :: done)) w'
             | Raise _ => live request_id runner_id ids done (w_db w')
             end) w.
Proof.
  intros [Hd Ht] Hnot. unfold complete_step.
  apply wp_bind, wp_from_env. intros now e' _. apply wp_bind, wp_set_step; [done|].
  intros s Hs. simpl in Hs.
  assert (pst_id s = pst_id step) as Hk by apply (lv_steps _ _ _ _ _ Ht _ _ Hs).
  set (s' := s <| pst_status := ST_SUCCEEDED |> <| pst_safe_result := result |>
               <| pst_finished_at := Some now |>).
  assert (live request_id runner_id ids (pst_id step :: done)
    (set_rows <[pst_id s' := s']> (w_tx w))) as Ht'.
  { change (pst_id s') with (pst_id s). rewrite <-Hk in Hs, Hnot.
    pose proof (live_set_step _ _ _ _ _ s s' Ht Hs eq_refl ltac:(done)) as [Kn Kq Ks Ka Hrow Hdone Hids].
    rewrite <-Hk. split; try done. intros i [->|Hi]%elem_of_cons; [|by apply Hdone].
    exists s'. cbn. by rewrite lookup_insert_eq. }
  apply wp_bind. eapply wp_mono; [apply (wp_live_request (pst_id step :: done)); [|exact Ht']|].
  { intros q. split_and!; first [done|by left]. }
  intros r w1 (-> & Hdb1 & Ht1 & _). unfold _touch_lease.
  apply wp_bind, wp_bind, wp_from_env. intros now' e1 _.
  eapply wp_mono; [apply (wp_live_request (pst_id step :: done)); [|exact Ht1]|].
  { intros q. split_and!; first [done|by left]. }
  intros r w2 (-> & Hdb2 & Ht2 & _). simpl in *.
  apply wp_commit; [intros _; by rewrite Hdb2, Hdb1|done].
Qed.

(** A handler's run, and the end of the request where it failed. *)
Lemma wp_attempt_step done step c w :
  both (I done) w → pst_id step ∉ done →
  wp (attempt_step settings self step c)
    (λ r w', match r with
             | Ok (Some _) => both (I done) w'
             | Ok None => ∃ manual, failed_as request_id (failed_status manual) (w_db w')
             | Raise _ => live request_id runner_id ids done (w_db w') ∨
                          ∃ manual, failed_as request_id (failed_status manual) (w_db w')
             end) w.
Proof.
  intros HI0 Hnot. unfold attempt_step. apply wp_try, wp_bind.
  eapply wp_mono; [apply (inv_execute_step settings request_id (I done) (live_saga _ _ _ _));
    [by intros _ ? ? ? ?|exact HI0]|].
  intros [result|x] w1 HI1; [by apply wp_ret|].
  assert (∀ error, wp (_fail_request self (Some step) error) (λ r w', match r with
    | Ok _ => ∃ manual, failed_as request_id (failed_status manual) (w_db w')
    | Raise _ => live request_id runner_id ids done (w_db w') end) w1) as Hfail.
  { intros error. eapply wp_fail_request; [done|]. by intros s [= <-]. }
  destruct x; apply wp_bind; (eapply wp_mono; [apply Hfail|]); intros [[]|y] w2 Hw2;
    try apply wp_ret; try apply wp_raise; auto.
Qed.
(** The request ended by a failure. *)
Definition failed (d : db) : Prop := ∃ manual, failed_as request_id (failed_status manual) d.

Lemma wp_run_steps steps c : ∀ done w,
  both (I done) w → NoDup (map pst_id steps) →
  (∀ s, s ∈ steps → pst_status s = ST_SUCCEEDED ↔ pst_id s ∈ done) →
  wp (run_steps settings self steps c)
    (λ r w', match r with
             | Ok true => ∃ done', both (I done') w' ∧ done ⊆ done' ∧
                            ∀ s, s ∈ steps → pst_id s ∈ done'
             | Ok false => failed (w_db w')
             | Raise _ => (∃ done', live request_id runner_id ids done' (w_db w')) ∨ failed (w_db w')
             end) w.
Proof.
  induction steps as [|step rest IH]; intros done w HI0 Hnd Hdone; simpl.
  { apply wp_ret. exists done. split_and!; [done..|]. by intros s ?%not_elem_of_nil. }
  apply NoDup_cons in Hnd as [Hni Hnd].
  assert (∀ s, s ∈ rest → pst_status s = ST_SUCCEEDED ↔ pst_id s ∈ pst_id step :: done) as Hrest.
  { intros s Hs. rewrite elem_of_cons, (Hdone s) by by right. split; [by right|].
    intros [Heq|]; [|done]. destruct Hni. rewrite <-Heq. apply list_elem_of_fmap. by exists s. }
  case_bool_decide as Hst.
  - pose proof (proj1 (Hdone step ltac:(by left)) Hst) as Hin.
    eapply wp_mono; [apply (IH done); [done..|]|].
    { intros s Hs. apply Hdone. by right. }
    intros [[]|x] w'; [|done..]. intros (done' & HI' & Hsub & Hall). exists done'.
    split_and!; [done..|]. intros s [->|Hs]%elem_of_cons; [by apply Hsub|by apply Hall].
  - assert (pst_id step ∉ done) as Hnot by (rewrite <-(Hdone step); [done|by left]).
    apply wp_bind. eapply wp_mono; [by apply (keeps_begin_step done)|].
    intros [[]|x] w1 HI1; [|left; exists done; by destruct HI1].
    apply wp_bind. eapply wp_mono; [by apply (wp_attempt_step done)|].
    intros [[result|]|x] w2 HI2; [|done|by destruct HI2; [left; exists done|right]].
    apply wp_bind. eapply wp_mono; [by apply (wp_complete_step done)|].
    intros [[]|x] w3 HI3; [|by left; exists done].
    eapply wp_mono; [by apply (IH (pst_id step :: done))|].
    intros [[]|x] w'; [|done..]. intros (done' & HI' & Hsub & Hall). exists done'.
    split_and!; [done|intros i Hi; apply Hsub; by right|].
    intros s [->|Hs]%elem_of_cons; [apply Hsub; by left|by apply Hall].
Qed.

(** The request is finished: every step succeeded. *)
Definition succeeded (d : db) : Prop :=
  has_row request_id (λ q, prq_status q = PS_SUCCEEDED ∧ prq_runner_id q = None ∧
    prq_lease_expires_at q = None ∧ is_Some (prq_finished_at q)) d ∧
  ∀ i s, db_steps d !! i = Some s → pst_provisioning_request_id s = request_id →
    pst_status s = ST_SUCCEEDED.

Lemma wp_complete_request done a w :
  both (I done) w → ids ⊆ done →
  wp (complete_request self a)
    (λ r w', match r with
             | Ok _ => succeeded (w_db w')
             | Raise _ => live request_id runner_id ids done (w_db w')
             end) w.
Proof.
  intros [Hd Ht] Hsub. unfold complete_request. apply wp_bind, wp_from_env. intros now e' _.
  destruct (lv_row _ _ _ _ _ Ht) as (q & Hq & _).
  assert (prq_id q = request_id) as Hid by apply (lv_requests _ _ _ _ _ Ht _ _ Hq).
  apply wp_bind, wp_set_request; simpl; rewrite Hq; [done|]. intros q' [= <-]. rewrite Hid.
  apply wp_bind, wp_the_request; simpl; rewrite lookup_insert_eq; [done|]. intros q' [= <-].
  do 2 wp_step. apply wp_commit; [done|]. intros _ _. simpl. split.
  - eexists. cbn. rewrite lookup_insert_eq. by split_and!.
  - intros i s Hi Hs. destruct (lv_done _ _ _ _ _ Ht i) as (s' & Hs' & Hst).
    { apply Hsub. by apply (lv_ids _ _ _ _ _ Ht _ s). }
    cbn in Hi. congruence.
Qed.
End steps.

(** ** What a run commits satisfies the constraints *)

Section commits.
Context {E : Type} `{Runtime E} `{PowerApi E} `{ProvisioningApi E} `{ProvisioningSecrets E}.
Context `{Digests} (settings : ProvisioningSettings).

Ltac inv_hook ::=
  lazymatch goal with
  | |- keeps _ commit => apply committed_commit
  | |- keeps _ rollback => apply committed_rollback
  | |- keeps _ (or_conflict _ _) => apply committed_or_conflict
  | |- keeps _ (db_save _) => by apply committed_modify
  | |- keeps _ (db_add _) => by apply committed_modify
  | |- keeps _ (db_update_where _ _) => by apply committed_modify
  | |- keeps _ (add_audit_event _) => by apply committed_modify
  | |- keeps _ (from_env _) => apply committed_from_env
  | |- keeps _ (call_or_raise _ _) => apply committed_call
  | |- keeps _ (random_offset _ _ _) => fail
  | |- keeps _ (_wait_task _ _ _ _ _) => fail
  | |- keeps _ (run_steps _ _ _ _) => fail
  | |- keeps _ ?m => let f := head_of m in unfold f
  end.

Lemma committed_random_offset n size blocked :
  keeps (E := E) committed (random_offset n size blocked).
Proof. induction n as [|n IH]; cbn [random_offset]; inv_run. exact IH. Qed.

Lemma committed_wait_task self c node upid : keeps (E := E) committed (_wait_task settings self c node upid).
Proof.
  unfold _wait_task. generalize (Z.to_nat (prov_task_max_poll_attempts settings)). intros n.
  induction n as [|n IH]; cbn [wait_task_loop]; [apply inv_raise|]. inv_run. exact IH.
Qed.

Lemma committed_run_steps self steps c : keeps (E := E) committed (run_steps settings self steps c).
Proof.
  induction steps as [|step rest IH]; [apply inv_ret|]. cbn [run_steps]. inv_run;
    first [apply committed_random_offset|apply committed_wait_task|exact IH].
Qed.

Lemma committed_run_claimed self : keeps (E := E) committed (_run_claimed settings self).
Proof.
  unfold _run_claimed. inv_run; apply committed_run_steps.
Qed.
End commits.

(** ** The claim, the run and the release *)

(** The tables a run starts from. *)
Record provisioning_sound (d : db) : Prop := {
  ps_integrity : integrity d = true;
  ps_nodes : keyed provisioning_node d;
  ps_requests : keyed provisioning_request d;
  ps_steps : keyed provisioning_step d;
  ps_allocations : keyed ip_allocation d }.

Section whole.
Context {E : Type} `{Runtime E} `{PowerApi E} `{ProvisioningApi E} `{ProvisioningSecrets E}.
Context `{Digests} (settings : ProvisioningSettings).
Context (request_id : N).
Implicit Types (w : world E) (d : db).

Definition of_request (s : provisioning_step) : bool :=
  bool_decide (pst_provisioning_request_id s = request_id).
Definition step_ids d : list N := map pst_id (merge_sort step_le (select_rows of_request d)).
Definition done_ids d : list N :=
  map pst_id (filter (λ s, pst_status s = ST_SUCCEEDED) (select_rows of_request d)).

Lemma elem_of_steps d s :
  keyed provisioning_step d → s ∈ select_rows of_request d ↔
  db_steps d !! pst_id s = Some s ∧ pst_provisioning_request_id s = request_id.
Proof.
  intros Ks. rewrite elem_of_select. unfold of_request. rewrite bool_decide_eq_true. split.
  - intros [Hs [i Hi]]. pose proof (Ks _ _ Hi) as <-. by split.
  - intros [Hs Hr]. split; [done|]. by exists (pst_id s).
Qed.

Lemma NoDup_steps d : keyed provisioning_step d → NoDup (step_ids d).
Proof.
  intros Ks. unfold step_ids. rewrite merge_sort_Permutation. unfold select_rows. simpl.
  assert (∀ i s, (i, s) ∈ map_to_list (db_steps d) → pst_id s = i) as Hk
    by (intros i s Hs%elem_of_map_to_list; by apply Ks).
  pose proof (NoDup_fst_map_to_list (db_steps d)) as Hnd.
  generalize dependent (map_to_list (db_steps d)). intros l Hk Hnd.
  induction l as [|[i s] l IH]; simpl in *; [constructor|].
  apply NoDup_cons in Hnd as [Hni Hnd].
  assert (NoDup (map pst_id (filter (λ r, of_request r = true) l.*2))) as IH'
    by (apply IH; [|done]; intros j t Hj; apply Hk; by right).
  rewrite filter_cons. destruct (decide _); [|done]. simpl. apply NoDup_cons. split; [|done].
  intros (t & Ht & [_ Hin]%list_elem_of_filter)%list_elem_of_fmap. apply Hni.
  apply list_elem_of_fmap in Hin as [[j t'] [-> Hj]]. simpl in Ht.
  rewrite (Hk i s), (Hk j t') in Ht by first [by left|by right]. subst.
  apply list_elem_of_fmap. by exists (j, t').
Qed.

Lemma live_start d runner_id q :
  provisioning_sound d → db_requests d !! request_id = Some q → prq_status q = PS_RUNNING →
  prq_runner_id q = Some runner_id → live request_id runner_id (step_ids d) (done_ids d) d.
Proof.
  intros [_ Kn Kq Ks Ka] Hq Hst Hr. split; try done.
  - exists q. auto.
  - intros i (s & -> & [Hs' Hs]%list_elem_of_filter)%list_elem_of_fmap.
    apply elem_of_steps in Hs as [Hs _]; eauto.
  - intros i s Hs Hreq. unfold step_ids. pose proof (Ks _ _ Hs) as Hk. apply list_elem_of_fmap.
    exists s. split; [done|]. rewrite merge_sort_Permutation. apply elem_of_steps; [done|].
    simpl in Hk. by rewrite Hk.
Qed.

(** [open_cluster] and [request_steps] only read. *)
Lemma wp_open_cluster cluster_id Q w : (∀ c, Q (Ok c) w) → wp (open_cluster cluster_id) Q w.
Proof. intros HQ. unfold open_cluster. wp_run; apply HQ. Qed.

Lemma wp_request_steps Q w :
  Q (Ok (merge_sort step_le (select_rows of_request (w_tx w)))) w → wp (request_steps request_id) Q w.
Proof. done. Qed.

(** The requester may no longer provision. *)
Lemma wp_revoked runner_id ids done w :
  both (λ (d : db) (_ : E), live request_id runner_id ids done d) w →
  wp (set_request (mkRunner request_id runner_id None)
        (λ q, q <| prq_runner_id := None |> <| prq_lease_expires_at := None |>);;
      _fail_request (mkRunner request_id runner_id None) None PERMISSION_REVOKED)
    (λ r w', match r with
             | Ok _ => failed request_id (w_db w')
             | Raise _ => live request_id runner_id ids done (w_db w')
             end) w.
Proof.
  intros HI. apply wp_bind. eapply wp_mono; [apply keeps_live_request; [|exact HI]|].
  { intros q. split_and!; first [done|by right]. }
  intros [[]|x] w1 HI1; [|by destruct HI1]. by apply wp_fail_request.
Qed.

Lemma wp_run_claimed d runner_id q w :
  provisioning_sound d → db_requests d !! request_id = Some q → prq_status q = PS_RUNNING →
  prq_runner_id q = Some runner_id → w_db w = d → w_tx w = d →
  wp (_run_claimed settings (mkRunner request_id runner_id None))
    (λ r w', match r with
             | Ok _ => succeeded request_id (w_db w') ∨ failed request_id (w_db w')
             | Raise _ => (∃ done', live request_id runner_id (step_ids d) done' (w_db w')) ∨
                          failed request_id (w_db w')
             end) w.
Proof.
  intros Hd Hq Hst Hr Hdb Htx.
  pose proof (live_start d runner_id q Hd Hq Hst Hr) as Hlive.
  set (I := λ done (d' : db) (_ : E), live request_id runner_id (step_ids d) done d').
  assert (both (I (done_ids d)) w) as HI0 by (split; [by rewrite Hdb|by rewrite Htx]).
  assert (prq_id q = request_id) as Hid by by apply (ps_requests d Hd).
  unfold _run_claimed. apply wp_bind, wp_the_request; simpl; rewrite Htx, Hq; [done|].
  intros q' [= <-]. apply wp_bind, wp_db_get. intros actor _.
  assert (∀ Q, (∀ r w', match r with
      | Ok _ => failed request_id (w_db w')
      | Raise _ => live request_id runner_id (step_ids d) (done_ids d) (w_db w') end → Q r w') →
    wp (set_request (mkRunner request_id runner_id None)
          (λ q, q <| prq_runner_id := None |> <| prq_lease_expires_at := None |>);;
        _fail_request (mkRunner request_id runner_id None) None PERMISSION_REVOKED) Q w) as Hrevoked.
  { intros Q HQ. eapply wp_mono; [by apply wp_revoked|exact HQ]. }
  destruct actor as [a|]; [destruct (requester_authorized (Some a))|].
  2, 3: apply Hrevoked; intros [[]|x] w' Hw'; [by right|left; eauto].
  clear Hrevoked. apply wp_bind, wp_open_cluster. intros c. rewrite Hid.
  apply wp_bind, wp_request_steps, wp_bind. rewrite Htx.
  eapply wp_mono; [apply (wp_run_steps settings request_id runner_id (step_ids d)); [exact HI0| |]|].
  - by apply NoDup_steps, ps_steps.
  - intros s Hs. rewrite merge_sort_Permutation in Hs. unfold done_ids. rewrite list_elem_of_fmap.
    split; [intros Hdone; exists s; by rewrite list_elem_of_filter|].
    intros (s' & Heq & [Hdone Hs']%list_elem_of_filter).
    apply elem_of_steps in Hs as [Hs _], Hs' as [Hs' _]; [|by apply ps_steps..].
    rewrite Heq in Hs. by simplify_eq.
  - intros [[]|x] w' Hw'; simpl; [|by apply wp_ret; right|done].
    destruct Hw' as (done' & HI' & _ & Hall).
    eapply wp_mono; [apply (wp_complete_request request_id runner_id (step_ids d) _ done'); [exact HI'|]|].
    + intros i (s & -> & Hs)%list_elem_of_fmap. by apply Hall.
    + intros [[]|x] w'' Hw''; [by left|left; by exists done'].
Qed.
(** A worker may claim the request again, whatever the time. *)
Definition claimable_again d : Prop :=
  has_row request_id (λ q, prq_status q = PS_RUNNING ∧ prq_runner_id q = None) d.

Definition without_claim (q : provisioning_request) : provisioning_request :=
  q <| prq_runner_id := None |> <| prq_lease_expires_at := None |>.

Definition drops_claim (runner_id : N) (q : provisioning_request) : bool :=
  bool_decide (prq_id q = request_id) && bool_decide (prq_runner_id q = Some runner_id) &&
  bool_decide (prq_status q = PS_RUNNING).

(** The release writes one table, and commits or leaves the database. *)
Lemma wp_release_claim runner_id w :
  wp (_release_claim runner_id request_id)
    (λ r w', r = Ok tt ∧
       let d' := (w_db w) <| db_requests ::= fmap (λ q, if drops_claim runner_id q
         then without_claim q else q) |> in
       w_db w' = d' ∨ w_db w' = w_db w ∧ integrity d' = false) w.
Proof.
  unfold _release_claim. apply wp_try, wp_bind, wp_rollback, wp_bind, wp_modify, wp_commit; simpl.
  - intros Hbad%negb_true_iff. apply wp_rollback. split; [done|by right].
  - intros _ _. split; [done|by left].
Qed.

Lemma dropped_row runner_id (m : gmap N provisioning_request) q :
  m !! request_id = Some q → prq_status q ≠ PS_RUNNING →
  ((λ q, if drops_claim runner_id q then without_claim q else q) <$> m)
    !! request_id = Some q.
Proof.
  intros Hq Hst. rewrite lookup_fmap, Hq. simpl. unfold drops_claim.
  by rewrite (bool_decide_false (prq_status q = PS_RUNNING)), andb_false_r.
Qed.

Lemma wp_release_settled runner_id w :
  wp (_release_claim runner_id request_id)
    (λ r w', r = Ok tt ∧ (succeeded request_id (w_db w) → succeeded request_id (w_db w')) ∧
             (failed request_id (w_db w) → failed request_id (w_db w'))) w.
Proof.
  eapply wp_mono; [apply wp_release_claim|]. intros r w' [-> [-> | [-> _]]]; split_and!; try done.
  - intros [(q & Hq & Hid & Hst & Hr1 & Hr2 & Hr3) Hsteps]. split; [|exact Hsteps].
    exists q. split_and!; [|done..]. apply dropped_row; [done|congruence].
  - intros (manual & q & Hq & Hid & Hrow & Hst & Hback).
    exists manual, q. split_and!; [|exact Hid|exact Hrow|exact Hst|exact Hback].
    apply dropped_row; [done|rewrite Hst; by destruct manual].
Qed.

Lemma wp_release_live runner_id ids done w :
  live request_id runner_id ids done (w_db w) → committed w →
  wp (_release_claim runner_id request_id) (λ r w', r = Ok tt ∧ claimable_again (w_db w')) w.
Proof.
  intros Hl Hint. destruct (lv_row _ _ _ _ _ Hl) as (q & Hq & Hst & Hrunner).
  assert (prq_id q = request_id) as Hid by by apply (lv_requests _ _ _ _ _ Hl).
  eapply wp_mono; [apply wp_release_claim|]. intros r w' [-> Hw']. split; [done|].
  revert Hw'.
  assert (((w_db w) <| db_requests ::= fmap (λ q, if drops_claim runner_id q then without_claim q else q) |>) =
    if drops_claim runner_id q then set_rows <[prq_id (without_claim q) := without_claim q]> (w_db w) else w_db w) as ->.
  { transitivity ((w_db w) <| db_requests :=
      (λ q, if drops_claim runner_id q then without_claim q else q) <$> db_requests (w_db w) |>); [done|].
    rewrite (update_one prq_id _ _ without_claim request_id); [|apply (lv_requests _ _ _ _ _ Hl)|].
    - rewrite Hq. change (prq_id (without_claim q)) with (prq_id q). rewrite Hid.
      by destruct (drops_claim runner_id q), (w_db w).
    - intros q'. unfold drops_claim. by intros [[?%bool_decide_eq_true _]%andb_true_iff _]%andb_true_iff. }
  destruct (drops_claim runner_id q) eqn:Hdrop.
  - assert (integrity (set_rows <[prq_id (without_claim q) := without_claim q]> (w_db w)) = true) as Hint'.
    { eapply (integrity_save_request _ q); try done. simpl. by rewrite Hid. }
    cbv zeta. rewrite Hint'. intros [-> | [_ ?]]; [|done]. exists (without_claim q). simpl.
    by rewrite Hid, lookup_insert_eq.
  - cbv zeta. intros Hw'. assert (w_db w' = w_db w) as -> by by destruct Hw' as [|[? _]].
    exists q. split_and!; try done. destruct Hrunner as [Hr|]; [|done].
    unfold drops_claim in Hdrop. by rewrite !bool_decide_true in Hdrop.
Qed.
(** The request after a run that claimed it. *)
Definition settled {A} (r : outcome A) d : Prop :=
  match r with
  | Ok _ => succeeded request_id d ∨ failed request_id d
  | Raise _ => failed request_id d ∨ claimable_again d
  end.

Lemma wp_run_claimed_request d runner_id q w :
  provisioning_sound d → db_requests d !! request_id = Some q → prq_status q = PS_RUNNING →
  prq_runner_id q = Some runner_id → w_db w = d → w_tx w = d →
  wp (run_claimed_request settings runner_id q) (λ r w', settled r (w_db w')) w.
Proof.
  intros Hd Hq Hst Hr Hdb Htx. unfold run_claimed_request, wp, try_finally.
  assert (prq_id q = request_id) as -> by by apply (ps_requests d Hd).
  pose proof (wp_run_claimed d runner_id q w Hd Hq Hst Hr Hdb Htx) as Hrun.
  assert (committed w) as Hc by (unfold committed; rewrite Hdb; apply Hd).
  apply (committed_run_claimed settings (mkRunner request_id runner_id None)) in Hc.
  unfold wp in *. destruct (_run_claimed settings _ w) as [r w1]. simpl in *.
  pose proof (wp_release_settled runner_id w1) as (Hok & Hsucc & Hfail).
  pose proof (λ done' Hl, wp_release_live runner_id (step_ids d) done' w1 Hl Hc) as Hlive.
  unfold wp in Hlive. destruct (_release_claim runner_id request_id w1) as [r2 w2].
  simpl in *. rewrite Hok. destruct r as [[]|x]; simpl.
  - destruct Hrun as [Hs|Hf]; [left|right]; auto.
  - destruct Hrun as [[done' Hl]|Hf]; [right|left]; [by eapply Hlive|auto].
Qed.

(** The database that a claim committed. *)
Lemma claimed_sound d d' runner_id now q :
  provisioning_sound d → db_requests d !! request_id = Some q →
  d' = claim_row settings request_id runner_id now q d → integrity d' = true →
  provisioning_sound d' ∧
  db_requests d' !! request_id = Some (claimed_by settings runner_id now q) ∧ prq_id q = request_id.
Proof.
  intros [_ Kn Kq Ks Ka] Hq -> Hint. assert (prq_id q = request_id) as Hid by by apply Kq.
  split_and!; [|cbn; by rewrite lookup_insert_eq|done]. split; try done.
  intros i q' Hi. cbn in Hi. apply lookup_insert_Some in Hi as [[<- <-]|[_ Hi]]; [exact Hid|by apply Kq].
Qed.

(** A request whose clone may exist did not fail. *)
Lemma settled_not_failed {A} (r : outcome A) d q :
  settled r d → db_requests d !! request_id = Some q → prq_clone_submitted q = true →
  prq_status q ≠ PS_FAILED.
Proof.
  intros Hs Hq Hc Hst.
  assert (succeeded request_id d ∨ failed request_id d ∨ claimable_again d) as [Hs'|[Hs'|Hs']]
    by (destruct r; simpl in Hs; tauto).
  - destruct Hs' as [(q' & Hq' & _ & Hst' & _) _]. congruence.
  - destruct Hs' as (manual & q' & Hq' & _ & _ & Hst' & Hback). simplify_eq.
    rewrite Hst in Hst'. destruct (Hback (eq_sym Hst')) as [Hcl _]. congruence.
  - destruct Hs' as (q' & Hq' & _ & Hst' & _). congruence.
Qed.

(** A run of an unclaimable request, and of any other. *)
Definition run_post d r d' : Prop :=
  (r = Ok tt ∧ d' = d ∧ ∃ now, ∀ q, db_requests d !! request_id = Some q → claimable now q = false) ∨
  settled r d' ∧ ∃ q, db_requests d !! request_id = Some q.

Lemma wp_run_provisioning d e :
  provisioning_sound d →
  wp (run_provisioning_request settings request_id) (λ r w', run_post d r (w_db w'))
    (World d d false e).
Proof.
  intros Hd. pose proof Hd as [Hint Kn Kq Ks Ka].
  unfold run_provisioning_request. apply wp_bind, wp_from_env. intros runner_id e1 _. simpl.
  assert (∀ now q, db_requests d !! request_id = Some q → claimable now q = true →
    integrity (claim_row settings request_id runner_id now q d) = true) as Hclaim.
  { intros now q Hq Hc. assert (prq_id q = request_id) as Hid by by apply Kq.
    change (integrity (set_rows <[request_id := claimed_by settings runner_id now q]> d) = true).
    rewrite <-Hid. change (prq_id q) with (prq_id (claimed_by settings runner_id now q)).
    eapply (integrity_save_request _ q); try done; [simpl; by rewrite Hid|].
    intros _. unfold prq_live. unfold claimable in Hc. by destruct (prq_status q). }
  apply wp_bind, wp_claim_request; simpl; [exact Kq|..].
  - intros now e2 _ Hnone. apply wp_ret. left. eauto.
  - intros now e2 q d' _ Hq Hc -> Hbad. by rewrite Hclaim in Hbad.
  - intros now e2 q d' _ Hq Hc Hd' Hint'.
    pose proof (claimed_sound _ _ _ _ _ Hd Hq Hd' Hint') as (Hsound & Hrow & _).
    eapply wp_mono; [by apply (wp_run_claimed_request d' runner_id)|]. intros r w' Hs. right. eauto.
Qed.
End whole.
