(* ===== verification/ProvSteps.v ===== *)
(** * Steps of the saga

    A run asks a cluster for at most one clone, and only after committing
    [clone_submitted]: a request whose clone may exist is never reported FAILED.  And what two handlers of the runner promise: the VMID a request is given, and whose
    the machine is once it is assigned. *)
From Stdlib Require Import Lia.
From stdpp Require Import sorting.
From S2P Require Import Prelude Models Database AuditLog Operations PveApi Keeps ProvApi.
From S2P Require Import PowerRunner IpAddr Ipam ProvRunner ProvInv ProvRun.

Definition is_clone (ev : event) : bool := match ev with Cloned _ _ _ => true | _ => false end.

(** The clone calls on record. *)
Definition clones {E} (t : traced E) : nat := length (filter (λ ev, is_clone ev = true) (tr_events t)).

(** The names of the steps still to run that clone. *)
Definition pending_clones (steps : list provisioning_step) : nat :=
  length (filter (λ s, pst_status s ≠ ST_SUCCEEDED ∧ pst_step_name s = "FULL_CLONE") steps).

Section clones.
Context {E : Type} `{Runtime E} `{PowerApi E} `{ProvisioningApi E} `{ProvisioningSecrets E}.
Context `{Digests} (settings : ProvisioningSettings) (request_id : N).
Implicit Types (t : traced E) (d : db) (w : world (traced E)) (n : nat).

Definition clone_flag d : Prop :=
  ∃ q, db_requests d !! request_id = Some q ∧ prq_clone_submitted q = true.

(** At most [n] clone calls so far, and none before the flag. *)
Record clone_inv n d t : Prop := {
  ci_nodes : keyed provisioning_node d;
  ci_requests : keyed provisioning_request d;
  ci_steps : keyed provisioning_step d;
  ci_count : (clones t ≤ n)%nat;
  ci_flag : (1 ≤ clones t)%nat → clone_flag d }.

Lemma clone_inv_env n d t t' : clones t' = clones t → clone_inv n d t → clone_inv n d t'.
Proof. intros Ht [Kn Kq Ks Hc Hf]. split; try done; by rewrite Ht. Qed.

Lemma clone_inv_request n d t q q' :
  clone_inv n d t → db_requests d !! request_id = Some q → prq_id q' = prq_id q →
  (prq_clone_submitted q = true → prq_clone_submitted q' = true) →
  clone_inv n (set_rows <[request_id := q']> d) t.
Proof.
  intros [Kn Kq Ks Hc Hf] Hq Hid Hcl. split; try done.
  - intros i r Hi. cbn in Hi. apply lookup_insert_Some in Hi as [[<- <-]|[_ Hi]]; [|by apply Kq].
    simpl. rewrite Hid. by apply (Kq _ q).
  - intros Hn. destruct (Hf Hn) as (q0 & Hq0 & Hflag). exists q'. cbn. rewrite lookup_insert_eq.
    split; [done|]. apply Hcl. congruence.
Qed.

Lemma clone_inv_step n d t s s' :
  clone_inv n d t → pst_id s' = pst_id s → clone_inv n (set_rows <[pst_id s := s']> d) t.
Proof.
  intros [Kn Kq Ks Hc Hf] Hid. split; try done.
  intros i r Hi. cbn in Hi. apply lookup_insert_Some in Hi as [[<- <-]|[_ Hi]]; [done|by apply Ks].
Qed.

Lemma clone_inv_node n d t x x' :
  clone_inv n d t → pn_id x' = pn_id x → clone_inv n (set_rows <[pn_id x := x']> d) t.
Proof.
  intros [Kn Kq Ks Hc Hf] Hid. split; try done.
  intros i r Hi. cbn in Hi. apply lookup_insert_Some in Hi as [[<- <-]|[_ Hi]]; [done|by apply Kn].
Qed.

Lemma clones_app t ev : clones (Traced (tr_env t) (tr_events t ++ [ev])) =
  (clones t + if is_clone ev then 1 else 0)%nat.
Proof.
  unfold clones. simpl. rewrite filter_app, length_app, filter_cons. by destruct (is_clone ev).
Qed.

(** A call other than a clone leaves the count. *)
Lemma clones_recorded {A} (ev : A → event) (f : E → A * E) t :
  (∀ a, is_clone (ev a) = false) → clones (recorded ev f t).2 = clones t.
Proof.
  intros Hev. unfold recorded, clones. simpl.
  rewrite filter_app, length_app, filter_cons, Hev. simpl. lia.
Qed.

Lemma clone_env n : env_ok (clone_inv n).
Proof.
  split; intros; (eapply clone_inv_env; [|eassumption]);
    first [reflexivity|apply clones_recorded; by intros ?].
Qed.

Lemma clone_saga n : saga_ok request_id (clone_inv n).
Proof.
  split.
  - apply clone_env.
  - intros d d' t [= Hn Hq Hs] _ [Kn Kq Ks Hc Hf].
    split; unfold keyed, clone_flag in *; cbn in *; rewrite ?Hn, ?Hq, ?Hs; auto.
  - intros d t i q Hi. apply (ci_requests _ _ _ Hi).
  - intros d t s u Hi Hs. by apply clone_inv_step.
  - intros d t i s Hi. apply (ci_steps _ _ _ Hi).
  - intros d t q q' Hi Hq Hc. eapply clone_inv_request; [done..| |apply Hc].
    pose proof (hc_terms _ _ Hc) as Ht. unfold prq_terms in Ht. congruence.
  - intros d t q x m s now Hi Hq _ _ _ _ _ _.
    eapply clone_inv_request; [by apply clone_inv_node|exact Hq|done|done].
  - intros d t i x Hi. apply (ci_nodes _ _ _ Hi).
Qed.

Lemma clone_run n : run_ok request_id (clone_inv n).
Proof.
  split.
  - intros d t q q' Hi Hq Hc. eapply clone_inv_request; [done..| |].
    + pose proof (sc_terms _ _ Hc) as Ht. unfold prq_terms in Ht. congruence.
    + by rewrite (sc_clone _ _ Hc).
  - intros d t s s' Hi Hs Hid. apply clone_inv_step; [done|]. unfold pst_ident in Hid. congruence.
  - intros d t q x m s Hi Hq _ _ _ _.
    eapply clone_inv_request; [by apply clone_inv_node|exact Hq|done|done].
Qed.
Lemma clone_inv_S n m d t : (n ≤ m)%nat → clone_inv n d t → clone_inv m d t.
Proof. intros Hnm [Kn Kq Ks Hc Hf]. split; try done. lia. Qed.

Lemma both_clone_S n m w : (n ≤ m)%nat → both (clone_inv n) w → both (clone_inv m) w.
Proof. intros Hnm [Hd Ht]. split; by eapply clone_inv_S. Qed.

Lemma wp_str_spec self key Q w :
  (∀ x, Q (Raise x) w) → (∀ s, Q (Ok s) w) → wp (_str_spec self key) Q w.
Proof.
  intros Hr Hs. unfold _str_spec. apply wp_bind, wp_the_request; [auto|]. intros q _.
  repeat case_match; first [by apply wp_ret|by apply wp_raise].
Qed.

Section run.
Context (runner_id : N) (actor : option user).
Let self := mkRunner request_id runner_id actor.

(** The clone call itself, once the flag is committed. *)
Lemma wp_clone_call n c a w :
  both (clone_inv n) w → clone_flag (w_db w) → clone_flag (w_tx w) →
  wp (call_or_raise c (λ i, api_clone_qemu_template i a)) (λ _, both (clone_inv (S n))) w.
Proof.
  intros HI Hfd Hft. apply wp_bind, wp_call; intros.
  - apply wp_raise. eapply both_clone_S; [|exact HI]. lia.
  - match goal with Hc : api_clone_qemu_template _ _ _ = (?r, ?t) |- _ =>
      assert (clones t = S (clones (w_env w))) as Hcl;
      [change t with (r, t).2; rewrite <-Hc; unfold api_clone_qemu_template, traced_provisioning, recorded;
       simpl; unfold clones; simpl; rewrite filter_app, length_app; simpl; lia|] end.
    assert (∀ d, clone_flag d → clone_inv n d (w_env w) → clone_inv (S n) d e') as Hnext.
    { intros d Hflag [Kn Kq Ks Hc Hf]. split; try done. lia. }
    destruct HI as [Hd Ht].
    case_match; [apply wp_raise|apply wp_ret]; split; by apply Hnext.
Qed.

Lemma wp_full_clone n step c w :
  both (clone_inv n) w → wp (_full_clone self step c) (λ _, both (clone_inv (S n))) w.
Proof.
  intros HI. assert (∀ w', both (clone_inv n) w' → both (clone_inv (S n)) w') as Hup
    by (intros w'; apply both_clone_S; lia).
  unfold _full_clone. do 2 wp_step; [by apply Hup|]. do 2 wp_step; [by apply Hup|].
  wp_step. eapply wp_mono; [by apply (inv_vm_exists request_id _ (clone_saga n))|].
  intros [exists_|x] w1 HI1; [|by apply Hup]. do 2 wp_step; [by apply Hup|]. wp_step.
  { wp_run; by apply Hup. }
  do 2 wp_step; [by apply Hup|]. simpl in *. simplify_eq. destruct HI1 as [Hd1 Ht1].
  match goal with Hq : db_requests (w_tx w1) !! _ = Some ?q |- _ =>
    set (q' := q <| prq_clone_submitted := true |>);
    change (prq_id q') with (prq_id q); rewrite (ci_requests _ _ _ Ht1 _ _ Hq : prq_id q = request_id);
    assert (clone_inv n (set_rows <[request_id := q']> (w_tx w1)) (w_env w1)) as Ht2
      by (by eapply clone_inv_request) end.
  assert (clone_flag (set_rows <[request_id := q']> (w_tx w1))) as Hflag
    by (exists q'; cbn; by rewrite lookup_insert_eq).
  apply wp_bind, wp_commit; [intros _; by apply Hup|]. intros _ _. simpl.
  apply wp_bind, wp_str_spec; [intros ?; by apply Hup|]. intros source_node.
  apply wp_bind, wp_int_spec; [intros ?; by apply Hup|]. intros ? source_vmid _ _.
  apply wp_bind, wp_str_spec; [intros ?; by apply Hup|]. intros storage. apply wp_bind.
  eapply wp_mono; [by apply (wp_clone_call n)|]. intros [upid|x] w2 HI2; [|done].
  apply wp_bind. eapply wp_mono; [by apply (inv_set_upid request_id _ (clone_saga (S n)))|].
  intros [[]|x] w3 HI3; [|done]. apply wp_bind.
  eapply wp_mono; [by apply inv_commit|]. by intros [[]|x] w4 HI4.
Qed.

Lemma wp_execute_step n step c w :
  both (clone_inv n) w →
  wp (_execute_step settings self step c)
    (λ _, both (clone_inv (n + if decide (pst_step_name step = "FULL_CLONE") then 1 else 0))) w.
Proof.
  intros HI. case_decide as Hname.
  - rewrite Nat.add_1_r. unfold _execute_step. rewrite Hname. cbn. by apply wp_full_clone.
  - rewrite Nat.add_0_r.
    by apply (inv_execute_step settings request_id _ (clone_saga n)).
Qed.

Lemma wp_clone_steps steps c : ∀ n w,
  both (clone_inv n) w →
  wp (run_steps settings self steps c) (λ _, both (clone_inv (n + pending_clones steps))) w.
Proof.
  induction steps as [|step rest IH]; intros n w HI; cbn [run_steps].
  { by rewrite Nat.add_0_r. }
  unfold pending_clones. rewrite filter_cons. fold (pending_clones rest). case_bool_decide as Hst.
  { rewrite decide_False by tauto. by apply IH. }
  set (k := if decide (pst_step_name step = "FULL_CLONE") then 1%nat else 0%nat).
  replace (length _) with (k + pending_clones rest)%nat; cycle 1.
  { unfold k. repeat case_decide; try done; tauto. }
  assert (∀ m w', (n ≤ m ≤ n + k + pending_clones rest)%nat → both (clone_inv m) w' →
    both (clone_inv (n + (k + pending_clones rest))) w') as Hup by (intros m w' Hm; apply both_clone_S; lia).
  apply wp_bind. eapply wp_mono; [by apply (inv_begin_step settings _ _ (clone_saga n) _ _ (clone_run n))|].
  intros [[]|x] w1 HI1; [|apply (Hup n); [lia|done]].
  assert (∀ error w', both (clone_inv (n + k)) w' →
    wp (_fail_request self (Some step) error) (λ _, both (clone_inv (n + k))) w') as Hfail.
  { intros error w' HI'. by apply (inv_fail_request _ _ (clone_saga (n + k)) _ _ (clone_run (n + k))). }
  apply wp_bind. unfold attempt_step. apply wp_try, wp_bind.
  eapply wp_mono; [by apply wp_execute_step|]. fold k. intros [result|x] w2 HI2.
  - apply wp_ret, wp_bind.
    eapply wp_mono; [by apply (inv_complete_step settings _ _ (clone_saga (n + k)) _ _ (clone_run (n + k)))|].
    intros [[]|x] w3 HI3; [|apply (Hup (n + k)%nat); [lia|done]]. rewrite Nat.add_assoc. by apply IH.
  - destruct x; apply wp_bind; (eapply wp_mono; [by apply Hfail|]);
      intros [[]|y] w3 HI3; try apply wp_ret; try apply wp_raise; apply (Hup (n + k)%nat); by try lia.
Qed.
End run.

(** A step has one row of its name. *)
Lemma pending_clones_one d steps :
  integrity d = true → NoDup (map pst_id steps) →
  (∀ s, s ∈ steps → db_steps d !! pst_id s = Some s ∧ pst_provisioning_request_id s = request_id) →
  (pending_clones steps ≤ 1)%nat.
Proof.
  intros Hint Hnd Hrows. unfold pending_clones. induction steps as [|s steps IH]; simpl; [lia|].
  apply NoDup_cons in Hnd as [Hni Hnd].
  assert (length (filter (λ s, pst_status s ≠ ST_SUCCEEDED ∧ pst_step_name s = "FULL_CLONE") steps) ≤ 1)%nat
    by (apply IH; [done|]; intros t Ht; apply Hrows; by right).
  rewrite filter_cons. destruct (decide _) as [[_ Hname]|]; [|done]. simpl.
  destruct (filter _ steps) as [|t l] eqn:Hl; [done|].
  assert (t ∈ filter (λ s, pst_status s ≠ ST_SUCCEEDED ∧ pst_step_name s = "FULL_CLONE") steps)
    as [[_ Hname'] Ht]%list_elem_of_filter by (rewrite Hl; by left).
  exfalso. apply Hni. destruct (Hrows s ltac:(by left)) as [Hs Hrs].
  destruct (Hrows t ltac:(by right)) as [Hrt Hrst].
  replace (pst_id s) with (pst_id t); [by apply list_elem_of_fmap; exists t|].
  eapply (integrity_unique uq_provisioning_steps_name d); [simpl; tauto|done|exact Hrt|exact Hs|done|].
  unfold uq_provisioning_steps_name. congruence.
Qed.

Lemma wp_clone_run_claimed runner_id w :
  both (clone_inv 0) w → provisioning_sound (w_tx w) →
  wp (_run_claimed settings (mkRunner request_id runner_id None)) (λ _, both (clone_inv 1)) w.
Proof.
  intros HI Hsound. pose proof (ps_steps _ Hsound) as Ks.
  assert (∀ w', both (clone_inv 0) w' → both (clone_inv 1) w') as Hup
    by (intros w'; apply both_clone_S; lia).
  assert (wp (set_request (mkRunner request_id runner_id None)
        (λ q, q <| prq_runner_id := None |> <| prq_lease_expires_at := None |>);;
      _fail_request (mkRunner request_id runner_id None) None PERMISSION_REVOKED)
      (λ _, both (clone_inv 1)) w) as Hrevoked.
  { apply wp_bind. eapply wp_mono;
      [apply (inv_status _ _ (clone_saga 0) _ _ (clone_run 0)); [by intros q|exact HI]|].
    intros [[]|x] w1 HI1; [|by apply Hup].
    eapply wp_mono; [by apply (inv_fail_request _ _ (clone_saga 0) _ _ (clone_run 0))|].
    intros r w2. apply Hup. }
  unfold _run_claimed. apply wp_bind, wp_the_request; [intros _; by apply Hup|]. intros q Hq. simpl in Hq.
  apply wp_bind, wp_db_get. intros [a|] _; [|done]. destruct (requester_authorized (Some a)); [|done].
  apply wp_bind, wp_open_cluster. intros c.
  rewrite (ps_requests _ Hsound _ _ Hq : prq_id q = request_id). apply wp_bind.
  apply wp_request_steps, wp_bind.
  assert (∀ s, s ∈ merge_sort step_le (select_rows (of_request request_id) (w_tx w)) →
    db_steps (w_tx w) !! pst_id s = Some s ∧ pst_provisioning_request_id s = request_id) as Hrows.
  { intros s. rewrite merge_sort_Permutation. by apply elem_of_steps. }
  eapply wp_mono; [by apply (wp_clone_steps runner_id (Some a) _ c 0)|].
  intros r w' HI'. assert (both (clone_inv 1) w') as HI1.
  { eapply both_clone_S; [|exact HI']. simpl.
    apply (pending_clones_one (w_tx w)); [by apply Hsound|by apply NoDup_steps|done]. }
  destruct r as [[]|x]; [|done..]. simpl.
  by apply (inv_complete_request _ _ (clone_saga 1) _ _ (clone_run 1)).
Qed.

(** The clone calls of a whole run. *)
Definition clone_post (t : traced E) d : Prop :=
  (clones t ≤ 1)%nat ∧
  ((1 ≤ clones t)%nat → ∃ q, db_requests d !! request_id = Some q ∧
     prq_clone_submitted q = true ∧ prq_status q ≠ PS_FAILED).

Lemma wp_clone_claimed_request runner_id q w :
  both (clone_inv 0) w → provisioning_sound (w_tx w) → prq_id q = request_id →
  wp (run_claimed_request settings runner_id q) (λ _, both (clone_inv 1)) w.
Proof.
  intros HI Hsound Hid. unfold run_claimed_request, wp, try_finally. rewrite Hid.
  pose proof (wp_clone_run_claimed runner_id w HI Hsound) as Hrun. unfold wp in Hrun.
  destruct (_run_claimed settings _ w) as [r w1].
  pose proof (inv_release_claim request_id _ (clone_saga 1) (clone_run 1) runner_id w1 Hrun) as Hrel.
  unfold wp in Hrel. by destruct (_release_claim runner_id request_id w1) as [[]].
Qed.

Lemma wp_clone_run d t :
  provisioning_sound d → clones t = 0%nat →
  wp (run_provisioning_request settings request_id) (λ _ w', clone_post (w_env w') (w_db w'))
    (World d d false t).
Proof.
  intros Hd Ht. unfold run_provisioning_request. apply wp_bind, wp_from_env. intros runner_id t1 Ht1.
  assert (clones t1 = 0%nat) as Hc1 by (change t1 with (runner_id, t1).2; by rewrite <-Ht1).
  apply wp_bind, wp_claim_request; simpl; [apply Hd|..]; intros now t2.
  - intros Ht2 _. apply wp_ret. assert (clones t2 = 0%nat) as Hc2
      by (change t2 with (now, t2).2; by rewrite <-Ht2). split; simpl; rewrite Hc2; lia.
  - intros q d' Ht2 _ _ _ _. assert (clones t2 = 0%nat) as Hc2
      by (change t2 with (now, t2).2; by rewrite <-Ht2). split; simpl; rewrite Hc2; lia.
  - intros q d' Ht2 Hq Hc Hd' Hint. assert (clones t2 = 0%nat) as Hc2
      by (change t2 with (now, t2).2; by rewrite <-Ht2).
    pose proof (claimed_sound settings request_id _ _ _ _ _ Hd Hq Hd' Hint) as (Hsound & Hrow & Hid).
    eapply wp_mono; [apply wp_and|].
    + by apply (wp_run_claimed_request settings request_id d' runner_id).
    + apply wp_clone_claimed_request; [|done|done].
      assert (clone_inv 0 d' t2) as HI; [|done]. destruct Hsound as [_ Kn Kq Ks _].
      split; try done; rewrite Hc2; lia.
    + intros r w' [Hset [[_ _ _ Hcount Hflag] _]]. split; [done|]. intros Hn.
      destruct (Hflag Hn) as (q1 & Hq1 & Hcl). exists q1. split_and!; [done..|].
      by eapply settled_not_failed.
Qed.
End clones.

(** ** Steps of the saga

    What two handlers of the runner promise: the VMID a request is given, and whose
    the machine is once it is assigned. *)

(** ** The least free VMID *)

Lemma next_vmid_spec n candidate unavailable :
  match next_vmid n candidate unavailable with
  | Some v => candidate ≤ v < candidate + Z.of_nat n ∧ v ∉ unavailable ∧
              ∀ u, candidate ≤ u < v → u ∈ unavailable
  | None => ∀ u, candidate ≤ u < candidate + Z.of_nat n → u ∈ unavailable
  end.
Proof.
  revert candidate. induction n as [|n IH]; intros candidate; simpl; [lia|].
  case_bool_decide as Hc.
  - split_and!; [lia|lia|done|lia].
  - specialize (IH (candidate + 1)).
    destruct (next_vmid n (candidate + 1) unavailable) as [v|].
    + destruct IH as (Hv & Hfree & Hall). split_and!; [lia|lia|done|]. intros u Hu.
      destruct (decide (u = candidate)) as [->|]; [done|apply Hall; lia].
    + intros u Hu. destruct (decide (u = candidate)) as [->|]; [done|apply IH; lia].
Qed.

(** [v] is the least VMID of the range that is not taken. *)
Definition least_free (unavailable : list Z) (v : Z) : Prop :=
  MIN_VMID ≤ v < MAX_VMID ∧ v ∉ unavailable ∧ ∀ u, MIN_VMID ≤ u < v → u ∈ unavailable.

Lemma first_vmid_Some unavailable v : first_vmid unavailable = Some v → least_free unavailable v.
Proof.
  unfold first_vmid. intros Hv.
  pose proof (next_vmid_spec (Z.to_nat (MAX_VMID - MIN_VMID)) MIN_VMID unavailable) as Hs.
  rewrite Hv in Hs. unfold least_free. rewrite Z2Nat.id in Hs by (unfold MAX_VMID, MIN_VMID; lia).
  destruct Hs as (Hr & Hs). split; [lia|done].
Qed.

Lemma first_vmid_None unavailable :
  first_vmid unavailable = None → ∀ u, MIN_VMID ≤ u < MAX_VMID → u ∈ unavailable.
Proof.
  unfold first_vmid. intros Hv.
  pose proof (next_vmid_spec (Z.to_nat (MAX_VMID - MIN_VMID)) MIN_VMID unavailable) as Hs.
  rewrite Hv in Hs. rewrite Z2Nat.id in Hs by (unfold MAX_VMID, MIN_VMID; lia).
  intros u Hu. apply Hs. lia.
Qed.

Section steps.
Context {E : Type} `{Runtime E} `{PowerApi E} `{ProvisioningApi E} `{ProvisioningSecrets E}.
Context `{Digests}.
Implicit Types (self : ProvisioningRunner) (d : db).

(** The VMIDs that are taken, by the cluster's answer, the inventory and the other
    requests. *)
Definition taken_vmids d (q : provisioning_request) (guests : list json_object) : list Z :=
  unavailable_vmids guests
    (select_rows (λ w : workload, bool_decide (wl_cluster_id w = prq_target_cluster_id q)) d)
    (select_rows (vmid_reserved q) d).

Definition with_vmid d (q : provisioning_request) (v : Z) : db :=
  let q' := q <| prq_target_vmid := Some v |> in set_rows <[prq_id q' := q']> d.

Definition VMID_CONFLICT : exn :=
  app_error 409 "VMID_CONFLICT" "The requested VMID is already in use.".
Definition VMID_EXHAUSTED : exn := app_error 409 "VMID_EXHAUSTED" "No VMID is available.".

(** The VMID of the request [q], from the cluster's answer. *)
Definition vmid_post d (q : provisioning_request) (guests : list json_object)
    (r : outcome json_object) (d' : db) : Prop :=
  let taken := taken_vmids d q guests in
  match prq_target_vmid q with
  | Some v =>
    v ∈ taken ∧ r = Raise VMID_CONFLICT ∧ d' = d ∨
    v ∉ taken ∧ r = Ok [("vmid", JInt v)] ∧ d' = with_vmid d q v
  | None =>
    (∃ v, least_free taken v ∧ r = Ok [("vmid", JInt v)] ∧ d' = with_vmid d q v) ∨
    (∀ v, MIN_VMID ≤ v < MAX_VMID → v ∈ taken) ∧ r = Raise VMID_EXHAUSTED ∧ d' = d
  end.

(** A VMID that is not taken violates no constraint. *)
Lemma integrity_with_vmid d q guests v :
  integrity d = true → keyed provisioning_request d → db_requests d !! prq_id q = Some q →
  v ∉ taken_vmids d q guests → integrity (with_vmid d q v) = true.
Proof.
  intros Hint Kq Hq Hv.
  assert (∀ j s, db_requests d !! j = Some s → j ≠ prq_id q → prq_live s = true →
    prq_target_cluster_id s = prq_target_cluster_id q → prq_target_vmid s ≠ Some v) as Hfree.
  { intros j s Hj Hne Hlive Hc Hs. apply Hv. unfold taken_vmids, unavailable_vmids.
    rewrite !elem_of_app. right. right. apply list_elem_of_omap. exists s. split; [|done].
    apply elem_of_select. split; [|by exists j]. unfold vmid_reserved.
    pose proof (Kq _ _ Hj) as Hk. simpl in Hk. subst j.
    rewrite !bool_decide_true; [done|..]; try done.
    unfold prq_live in Hlive. destruct (prq_status s); try done; set_solver. }
  unfold with_vmid. cbv zeta. eapply integrity_update_request; [exact Hq|done| |done]. intros Hunique%unique_onb_true.
  apply unique_onb_complete. intros i j s t k Hi Hj Hs Ht. cbn in Hi, Hj.
  apply lookup_insert_Some in Hi as [[<- <-]|[Hni Hi]], Hj as [[<- <-]|[Hnj Hj]]; [done|..|by eauto].
  all: exfalso; unfold uq_provisioning_active_vmid, only in Hs, Ht; cbn in Hs, Ht.
  all: repeat case_match; simplify_eq; eapply Hfree; eauto.
Qed.

Lemma wp_reserve_vmid self i d (e : E) guests q :
  integrity d = true → keyed provisioning_request d →
  db_requests d !! self_request self = Some q → (api_get_guests i e).1 = inr guests →
  wp (_reserve_vmid self (Connected i)) (λ r w', vmid_post d q guests r (w_db w')) (World d d false e).
Proof.
  intros Hint Kq Hq Hguests. assert (prq_id q = self_request self) as Hid by by apply Kq.
  rewrite <-Hid in Hq. unfold _reserve_vmid. apply wp_bind, wp_bind, wp_call; [done|].
  intros i' r e' [= <-] Hcall. simpl in Hcall. rewrite Hcall in Hguests. simpl in Hguests. subst r.
  apply wp_ret, wp_bind, wp_the_request; simpl; rewrite <-Hid, Hq; [done|]. intros q' [= <-].
  apply wp_bind, wp_db_select, wp_bind, wp_db_select. simpl. fold (taken_vmids d q guests).
  assert (∀ v, v ∉ taken_vmids d q guests →
    wp (set_request self (λ q, q <| prq_target_vmid := Some v |>);; commit;; mret [("vmid", JInt v)])
      (λ r w', r = Ok [("vmid", JInt v)] ∧ w_db w' = with_vmid d q v) (World d d false e')) as Hwrite.
  { intros v Hv. apply wp_bind, wp_set_request; simpl; rewrite <-Hid, Hq; [done|]. intros q' [= <-].
    apply wp_bind, wp_commit; simpl; [|intros _ _; by apply wp_ret].
    intros Hbad. change (negb (integrity (with_vmid d q v)) = true) in Hbad.
    by rewrite (integrity_with_vmid d q guests) in Hbad. }
  unfold vmid_post. destruct (prq_target_vmid q) as [v|].
  - apply wp_bind, wp_bind, wp_raise_if.
    + intros Hin%bool_decide_eq_true. left. by split_and!.
    + intros Hout%bool_decide_eq_false. apply wp_ret. eapply wp_mono; [by apply Hwrite|].
      intros r w' Hr. by right.
  - apply wp_bind, wp_or_raise.
    + intros Hnone. right. split; [by apply first_vmid_None|done].
    + intros v Hv%first_vmid_Some. eapply wp_mono; [apply Hwrite, Hv|]. intros r w' Hr. left. by exists v.
Qed.

(** ** The machine of an organization *)

(** The machine belongs to the organization: its row says so, and so does its only
    active assignment. *)
Definition owned_by d (wl_id_ organization_id : N) : Prop :=
  (∃ wl, db_workloads d !! wl_id_ = Some wl ∧ wl_organization_id wl = Some organization_id ∧
     wl_is_present wl = true) ∧
  (∃ i a, db_assignments d !! i = Some a ∧ active_assignment wl_id_ a = true) ∧
  ∀ i a, db_assignments d !! i = Some a → active_assignment wl_id_ a = true →
    wa_organization_id a = organization_id.

(** The working copy with the machine's row. *)
Record machine_at (w : world E) (q : provisioning_request) (wl : workload) (w' : world E) : Prop := {
  ma_db : w_db w' = w_db w;
  ma_keyed : keyed workload (w_tx w');
  ma_row : db_workloads (w_tx w') !! wl_id wl = Some wl;
  ma_cluster : wl_cluster_id wl = prq_target_cluster_id q;
  ma_free : wl_organization_id wl ∈ [None; Some (prq_organization_id q)];
  ma_workloads : db_workloads (w_tx w') = <[wl_id wl := wl]> (db_workloads (w_tx w));
  ma_owner j : db_workloads (w_tx w) !! wl_id wl = Some j →
    wl_organization_id j ∈ [None; Some (prq_organization_id q)] ∨ w_dup w' = true;
  ma_organizations : db_organizations (w_tx w') = db_organizations (w_tx w);
  ma_assignments : db_assignments (w_tx w') = db_assignments (w_tx w);
  ma_requests : db_requests (w_tx w') = db_requests (w_tx w) }.

Lemma wp_machine_row self q vmid (w : world E) :
  keyed workload (w_tx w) →
  wp (machine_row self q vmid)
    (λ r w', match r with Ok wl => machine_at w q wl w' | Raise _ => w_db w' = w_db w end) w.
Proof.
  intros Kw. unfold machine_row. apply wp_bind, wp_db_scalar. intros row Hrow. destruct row as [wl|].
  - apply first_row_Some in Hrow as [[Hc%bool_decide_eq_true _]%andb_true_iff [i Hi]].
    pose proof (Kw _ _ Hi) as <-. apply wp_bind, wp_raise_if; [done|].
    intros Hfree%bool_decide_eq_false. apply dec_stable in Hfree. apply wp_ret. split; try done.
    + by rewrite insert_id.
    + intros j Hj. left. simpl in *. congruence.
  - wp_run; try done. split; try done; simpl.
    + exact (lookup_insert_key wl_id (db_workloads (w_tx w)) _ Kw).
    + apply lookup_insert_eq.
    + set_solver.
    + intros j Hj. right. subst. simpl in *. rewrite Hj. by rewrite bool_decide_true, orb_true_r.
Qed.

(** One active assignment to the organization is the only one. *)
Lemma owned_from_row d wl i a org :
  integrity d = true → db_workloads d !! wl_id wl = Some wl → wl_organization_id wl = Some org →
  wl_is_present wl = true → db_assignments d !! i = Some a →
  active_assignment (wl_id wl) a = true → wa_organization_id a = org → owned_by d (wl_id wl) org.
Proof.
  intros Hint Hwl Horg Hp Ha Hact Haorg. split_and!; [by exists wl|by exists i, a|].
  intros j b Hb Hactb. unfold active_assignment in *.
  rewrite !andb_true_iff, !bool_decide_eq_true in *. destruct_and!.
  assert (i = j) as <-; [|congruence].
  eapply (integrity_unique uq_workload_assignments_active_workload d _ Hint i j a b (wl_id wl)); try done;
    unfold uq_workload_assignments_active_workload; case_match; congruence.
  Unshelve. simpl. tauto.
Qed.

(** The machine and the request, as the assignment leaves them. *)
Definition assigned self d wl_id_ org : Prop :=
  owned_by d wl_id_ org ∧
  ∃ q, db_requests d !! self_request self = Some q ∧ prq_workload_id q = Some wl_id_.

Lemma wp_assign_machine self q wl (w : world E) :
  keyed provisioning_request (w_tx w) →
  db_requests (w_tx w) !! self_request self = Some q →
  db_workloads (w_tx w) !! wl_id wl = Some wl →
  wp (assign_machine self q wl)
    (λ r w', w_db w' = w_db w ∧ (r = Ok tt → integrity (w_tx w') = true →
       assigned self (w_tx w') (wl_id wl) (prq_organization_id q))) w.
Proof.
  intros Kq Hq Hwl. pose proof (Kq _ _ Hq) as Hk. simpl in Hk.
  set (wl' := wl <| wl_organization_id := Some (prq_organization_id q) |> <| wl_is_present := true |>).
  assert (∀ (w1 : world E) i a, w_db w1 = w_db w →
    db_requests (w_tx w1) = db_requests (w_tx w) → db_assignments (w_tx w1) !! i = Some a →
    active_assignment (wl_id wl) a = true → wa_organization_id a = prq_organization_id q →
    wp (db_save wl';; set_request self (λ q, q <| prq_workload_id := Some (wl_id wl) |>))
      (λ r w', w_db w' = w_db w ∧ (r = Ok tt → integrity (w_tx w') = true →
         assigned self (w_tx w') (wl_id wl) (prq_organization_id q))) w1) as Hrest.
  { intros w1 i a Hdb Hreq Ha Hact Horg. apply wp_bind, wp_db_save, wp_set_request; [done|].
    simpl. rewrite Hreq. intros q' Hq'. rewrite Hq in Hq'. injection Hq' as <-.
    split; [done|]. intros _ Hint. simpl in *. split.
    - change (wl_id wl) with (wl_id wl'). eapply owned_from_row; try done. cbn.
      by rewrite lookup_insert_eq.
    - eexists. cbn. rewrite Hk, lookup_insert_eq. done. }
  unfold assign_machine. apply wp_bind, wp_db_scalar. intros row Hrow. apply wp_bind.
  destruct row as [a|].
  - apply first_row_Some in Hrow as [Hact [i Hi]]. apply wp_raise_if; [done|].
    intros Horg%bool_decide_eq_false. apply dec_stable in Horg. by eapply Hrest.
  - apply wp_bind, wp_or_raise; [done|]. intros a Ha. apply wp_bind, wp_from_env. intros id e1 _.
    apply wp_bind, wp_from_env. intros now e2 _. apply wp_db_add. intros b _.
    eapply (Hrest _ id (new_assignment id (wl_id wl) (prq_organization_id q) (u_id a) now)); try done.
    + apply lookup_insert_eq.
    + unfold active_assignment. cbn. by rewrite !bool_decide_true.
Qed.

(** The whole handler. *)
Lemma wp_assign_organization self d q (e : E) :
  keyed workload d → keyed provisioning_request d →
  db_requests d !! self_request self = Some q →
  wp (_assign_organization self)
    (λ r w', match r with
             | Ok _ => ∃ id, assigned self (w_db w') id (prq_organization_id q)
             | Raise _ => w_db w' = d
             end) (World d d false e).
Proof.
  intros Kw Kq Hq. unfold _assign_organization.
  apply wp_bind, wp_the_request; simpl; rewrite Hq; [done|]. intros q' [= <-].
  apply wp_bind, wp_vmid; [done|]. intros q' vmid _ _.
  apply wp_bind. eapply wp_mono; [by apply wp_machine_row|].
  intros [wl|x] w1; [|done]. intros [Hdb Kw1 Hrow _ _ _ _ _ _ Hreq]. simpl in *.
  apply wp_bind. eapply wp_mono; [apply wp_assign_machine; [|by rewrite Hreq|done]|].
  { intros i r. simpl. rewrite Hreq. apply Kq. }
  intros [[]|x] w2 [Hdb2 Hass]; [|by rewrite Hdb2]. unfold the_actor.
  wp_run; try by rewrite Hdb2. exists (wl_id wl). by apply Hass.
Qed.
End steps.
