(* ===== verification/ProvService.v ===== *)
(** * Requests for machines

    The initial password of a Windows machine: what [_generate_windows_password] draws, 24
    characters of the documented alphabet with one at least of each class, whatever the
    random numbers are.  Then what [create_request] checks, records and answers. *)
From Stdlib Require Import Lia.
From S2P Require Import Prelude Models Database AuditLog Operations PveApi ProvApi PowerRunner.
From S2P Require Import IpAddr Ipam IpamOps ProvRunner Provisioning.

Definition PASSWORD_ALPHABET : string :=
  ascii_lowercase +:+ ascii_uppercase +:+ digits +:+ PASSWORD_SYMBOLS.

(** The policy: length, alphabet, and one character at least of each class. *)
Definition password_ok (s : string) : bool :=
  (length (chars s) =? WINDOWS_PASSWORD_LENGTH)%nat &&
  forallb (one_of PASSWORD_ALPHABET) (chars s) && existsb is_lower (chars s) &&
  existsb is_upper (chars s) && existsb is_digit (chars s) &&
  existsb (one_of PASSWORD_SYMBOLS) (chars s).

Lemma swap_Permutation {A} i j (l : list A) : swap i j l ≡ₚ l.
Proof.
  unfold swap. destruct (l !! i) as [a|] eqn:Hi; [|done].
  destruct (l !! j) as [b|] eqn:Hj; [|done].
  by apply Permutation_insert_swap.
Qed.

Section password.
Context {E : Type} `{RuntimeLaws E}.
Implicit Types (w : world E).

(** Drawing changes the environment only. *)
Lemma wp_choice seq (Q : outcome Ascii.ascii → world E → Prop) w :
  chars seq ≠ [] →
  (∀ a e', a ∈ chars seq → Q (Ok a) (World (w_db w) (w_tx w) (w_dup w) e')) → wp (choice seq) Q w.
Proof.
  intros Hne HQ. unfold choice. apply wp_bind, wp_from_env. intros i e' He.
  assert (0 ≤ i < Z.of_nat (length (chars seq))) as Hi.
  { change i with (i, e').1. rewrite <-He. apply randrange_bounds.
    destruct (chars seq); [done|simpl; lia]. }
  apply wp_or_raise.
  - intros Hn%lookup_ge_None. lia.
  - intros a Ha. by apply HQ, (list_elem_of_lookup_2 _ _ _ Ha).
Qed.

Lemma wp_choices n seq : ∀ (Q : outcome (list Ascii.ascii) → world E → Prop) w,
  chars seq ≠ [] →
  (∀ l e', length l = n → (∀ a, a ∈ l → a ∈ chars seq) →
     Q (Ok l) (World (w_db w) (w_tx w) (w_dup w) e')) → wp (choices n seq) Q w.
Proof.
  induction n as [|n IH]; intros Q w Hne HQ; cbn [choices].
  - destruct w. apply HQ; [done|]. by intros a ?%not_elem_of_nil.
  - apply wp_bind, wp_choice; [done|]. intros a e' Ha. apply wp_bind, IH; [done|].
    intros l e'' Hl Hall. apply wp_ret, HQ; [simpl; lia|]. intros b [->|Hb]%elem_of_cons; auto.
Qed.

Lemma wp_shuffle_from i : ∀ x (Q : outcome (list Ascii.ascii) → world E → Prop) w,
  (∀ y e', y ≡ₚ x → Q (Ok y) (World (w_db w) (w_tx w) (w_dup w) e')) → wp (shuffle_from i x) Q w.
Proof.
  induction i as [|i IH]; intros x Q w HQ; cbn [shuffle_from].
  - destruct w. by apply HQ.
  - apply wp_bind, wp_from_env. intros j e' _. apply IH. intros y e'' Hy. apply HQ.
    by rewrite Hy, swap_Permutation.
Qed.

Lemma existsb_elem {A} (f : A → bool) l a : a ∈ l → f a = true → existsb f l = true.
Proof. intros Ha Hf. apply existsb_exists. exists a. by rewrite <-list_elem_of_In. Qed.

(** The membership of a class of characters, by enumeration. *)
Lemma class_of (f : Ascii.ascii → bool) seq a :
  forallb f (chars seq) = true → a ∈ chars seq → f a = true.
Proof. rewrite forallb_forall. intros Hf Ha. by apply Hf, list_elem_of_In. Qed.

Lemma wp_generate_windows_password (Q : outcome string → world E → Prop) w :
  (∀ s e', password_ok s = true → Q (Ok s) (World (w_db w) (w_tx w) (w_dup w) e')) →
  wp _generate_windows_password Q w.
Proof.
  intros HQ. unfold _generate_windows_password. cbv zeta. fold PASSWORD_ALPHABET.
  apply wp_bind, wp_choice; [done|]. intros a e1 Ha. apply wp_bind, wp_choice; [done|]. intros b e2 Hb.
  apply wp_bind, wp_choice; [done|]. intros c e3 Hc. apply wp_bind, wp_choice; [done|]. intros d e4 Hd.
  apply wp_bind, wp_choices; [done|]. intros rest e5 Hlen Hrest.
  apply wp_bind, wp_shuffle_from. intros y e6 Hy. apply wp_ret, HQ.
  assert (∀ f x, x ∈ [a; b; c; d] ++ rest → f x = true → existsb f y = true) as Hex.
  { intros f x Hx. apply existsb_elem. by rewrite Hy. }
  unfold password_ok, chars. rewrite String.list_ascii_of_string_of_list_ascii.
  rewrite !andb_true_iff. split_and!.
  - by rewrite Hy, length_app, Hlen.
  - apply forallb_forall. intros x Hx%list_elem_of_In. rewrite Hy in Hx.
    apply elem_of_app in Hx as [Hx|Hx]; [|by apply bool_decide_eq_true, Hrest].
    set_unfold in Hx. destruct Hx as [->|[->|[->|[->|[]]]]].
    + refine (class_of (one_of PASSWORD_ALPHABET) ascii_lowercase _ _ _); [by vm_compute|done].
    + refine (class_of (one_of PASSWORD_ALPHABET) ascii_uppercase _ _ _); [by vm_compute|done].
    + refine (class_of (one_of PASSWORD_ALPHABET) digits _ _ _); [by vm_compute|done].
    + refine (class_of (one_of PASSWORD_ALPHABET) PASSWORD_SYMBOLS _ _ _); [by vm_compute|done].
  - apply (Hex is_lower a); [by left|]. refine (class_of is_lower ascii_lowercase _ _ _); [by vm_compute|done].
  - apply (Hex is_upper b); [by right; left|].
    refine (class_of is_upper ascii_uppercase _ _ _); [by vm_compute|done].
  - apply (Hex is_digit c); [by do 2 right; left|]. refine (class_of is_digit digits _ _ _); [by vm_compute|done].
  - apply (Hex (one_of PASSWORD_SYMBOLS) d); [by do 3 right; left|].
    refine (class_of (one_of PASSWORD_SYMBOLS) PASSWORD_SYMBOLS _ _ _); [by vm_compute|done].
Qed.
End password.

(** ** Requests for machines

    What [create_request] checks, records and answers. *)

(** ** The references of a payload *)

Record references (d : db) (p : ProvisioningRequestCreate) (prod : product) (tpl : template)
    (source : workload) (pool : ip_pool) : Prop := {
  rf_product : db_products d !! rc_product_id p = Some prod ∧ prod_is_enabled prod = true;
  rf_template : db_templates d !! rc_template_id p = Some tpl;
  rf_source : db_workloads d !! tpl_source_workload_id tpl = Some source ∧ clonable tpl source = true;
  rf_cloud_init : tpl_os_type tpl = TemplateOsType_value LINUX →
    linux_username (ci_username (rc_cloud_init p)) = true ∧ ci_ssh_public_keys (rc_cloud_init p) ≠ [];
  rf_cluster : ∃ cl, db_clusters d !! rc_target_cluster_id p = Some cl ∧ cl_is_active cl = true ∧
    wl_cluster_id source = cl_id cl ∧ compatible_pool pool (cl_id cl) = true;
  rf_organization : ∃ o, db_organizations d !! rc_organization_id p = Some o ∧ org_is_active o = true;
  rf_pool : db_pools d !! rc_ip_pool_id p = Some pool;
  rf_address a : rc_ip_address p = Some a → net_contains (pool_cidr pool) a = true }.

(** The node a payload names has room. *)
Definition node_fits (d : db) (p : ProvisioningRequestCreate) (prod : product) : Prop :=
  ∀ id, rc_target_node_id p = Some id →
    ∃ n, db_nodes d !! id = Some n ∧ eligible (rc_target_cluster_id p) prod n = true.

Section references.
Context {E : Type} `{Runtime E}.

Lemma wp_check_cloud_init tpl ci Q (w : world E) :
  (∀ x, Q (Raise x) w) →
  ((tpl_os_type tpl = TemplateOsType_value LINUX →
    linux_username (ci_username ci) = true ∧ ci_ssh_public_keys ci ≠ []) → Q (Ok tt) w) →
  wp (check_cloud_init tpl ci) Q w.
Proof.
  intros Hr Hok. unfold check_cloud_init, when. case_bool_decide as Hos; [|by apply wp_ret, Hok].
  apply wp_bind, wp_raise_if; intros Hu; [by apply Hr|].
  apply wp_raise_if; intros Hk; [by apply Hr|]. apply Hok. intros _.
  split; [by apply negb_false_iff|exact (bool_decide_eq_false_1 _ Hk)].
Qed.

Lemma wp_validate_references p Q (w : world E) :
  (∀ x, Q (Raise x) w) →
  (∀ prod tpl source pool, references (w_tx w) p prod tpl source pool →
     Q (Ok (prod, tpl, source, pool)) w) →
  wp (_validate_references p) Q w.
Proof.
  intros Hr Hok. unfold _validate_references.
  apply wp_bind, wp_db_get. intros prod Hprod. apply wp_bind, wp_db_get. intros tpl Htpl.
  apply wp_bind, wp_db_get. intros org Horg. apply wp_bind, wp_db_get. intros cl Hcl.
  apply wp_bind, wp_db_get. intros pool Hpool. apply wp_bind. simpl in *.
  apply (wp_mono _ (λ r w', w' = w ∧ ∃ source, r = Ok source ∧
    (∀ t s, tpl = Some t → source = Some s → db_workloads (w_tx w) !! tpl_source_workload_id t = Some s))).
  { destruct tpl as [t|]; [|split; [done|by exists None]]. apply wp_db_get. intros source Hs.
    split; [done|]. exists source. split; [done|]. by intros ? ? [= <-] ->. }
  intros r w' [-> (source & -> & Hsource)].
  apply wp_bind, wp_or_raise; [auto|intros prod' ->]. apply wp_bind, wp_raise_if; [auto|intros Hen].
  apply wp_bind, wp_or_raise; [auto|intros tpl' ->]. apply wp_bind, wp_or_raise; [auto|intros src ->].
  apply wp_bind, wp_raise_if; [auto|intros Hclon]. apply wp_bind, wp_check_cloud_init; [auto|intros Hci].
  apply wp_bind, wp_or_raise; [auto|intros cl' ->]. apply wp_bind, wp_raise_if; [auto|intros Hclu].
  apply wp_bind, wp_raise_if; [auto|intros Ho]. apply wp_bind, wp_or_raise; [auto|intros pool' ->].
  apply wp_bind, wp_raise_if; [auto|intros Hcomp]. apply wp_bind, wp_raise_if; [auto|intros Hip].
  apply wp_ret, Hok. apply negb_false_iff in Hen, Hclon, Ho, Hcomp.
  apply orb_false_iff in Hclu as [Hact%negb_false_iff Hsame%bool_decide_eq_false].
  apply dec_stable in Hsame. split; try done.
  - split; [by apply Hsource|done].
  - by exists cl'.
  - destruct org as [o|]; [|done]. by exists o.
  - intros a Ha. rewrite Ha in Hip. by apply negb_false_iff.
Qed.

Lemma wp_validate_node p prod Q (w : world E) :
  (∀ x, Q (Raise x) w) → (node_fits (w_tx w) p prod → Q (Ok tt) w) →
  wp (match rc_target_node_id p with
      | Some node_id => _validate_node node_id (rc_target_cluster_id p) prod;; mret tt
      | None => mret tt
      end) Q w.
Proof.
  intros Hr Hok. unfold node_fits in Hok. destruct (rc_target_node_id p) as [id|]; [|by apply wp_ret, Hok].
  unfold _validate_node. wp_run; auto. apply Hok. intros id' [= <-]. subst. eexists. split; [done|].
  by apply negb_false_iff.
Qed.
End references.

(** ** The steps of a new request *)

Fixpoint planned_steps (request_id : N) (index : Z) (ids : list N) (names : list string)
  : list provisioning_step :=
  match ids, names with
  | id :: ids, name :: names =>
    new_step id request_id index name :: planned_steps request_id (index + 1) ids names
  | _, _ => []
  end.

Definition with_steps (steps : list provisioning_step) (d : db) : db :=
  foldl (λ d s, set_rows <[pst_id s := s]> d) d steps.

(** Identifiers no step uses. *)
Definition fresh_steps (ids : list N) (d : db) : Prop :=
  NoDup ids ∧ ∀ i, i ∈ ids → db_steps d !! i = None.

Lemma wp_add_steps {E} `{Runtime E} request_id names : ∀ index (Q : outcome () → world E → Prop) w,
  (∀ ids b e', length ids = length names →
     (b = false → w_dup w = false ∧ fresh_steps ids (w_tx w)) →
     Q (Ok tt) (World (w_db w) (with_steps (planned_steps request_id index ids names) (w_tx w)) b e')) →
  wp (add_steps request_id index names) Q w.
Proof.
  induction names as [|name names IH]; intros index Q w HQ; cbn [add_steps].
  - destruct w. apply (HQ []); [done|]. intros ->. split; [done|]. split; [constructor|].
    by intros i ?%not_elem_of_nil.
  - apply wp_bind, wp_from_env. intros id e1 _. apply wp_bind, wp_db_add. intros b Hb. simpl in *.
    apply IH. simpl. intros ids b' e' Hlen Hfresh. apply (HQ (id :: ids)); [simpl; lia|].
    intros Hb'. destruct (Hfresh Hb') as [-> [Hnd Hnew]]. symmetry in Hb.
    apply orb_false_iff in Hb as [-> Hid%bool_decide_eq_false%eq_None_not_Some]. split; [done|].
    split.
    + apply NoDup_cons. split; [|done]. intros Hin. specialize (Hnew _ Hin).
      cbn in Hnew. by rewrite lookup_insert_eq in Hnew.
    + intros i [->|Hi]%elem_of_cons; [done|]. specialize (Hnew _ Hi).
      cbn in Hnew. by apply lookup_insert_None in Hnew as [? _].
Qed.

(** ** An accepted request *)

#[local] Arguments add_steps : simpl never.
#[local] Arguments planned_steps : simpl never.

Section create.
Context {E : Type} `{RuntimeLaws E} `{Publisher E} `{ProvisioningSecrets E} `{Digests}.
Implicit Types (self : service) (w : world E) (d : db) (p : ProvisioningRequestCreate).

(** The stored form of a password of the request. *)
Definition encrypts (secret : EncryptedProvisioningSecret) (password : string)
    (cluster_id request_id : N) : Prop :=
  eps_key_version secret = key_version ∧
  eps_ciphertext secret = aesgcm_encrypt (eps_nonce secret) password
    (_associated_data cluster_id request_id key_version).

(** A Windows machine has a password, any other none. *)
Definition secret_of p request_id (tpl : template)
    (secret : option (string * EncryptedProvisioningSecret)) : Prop :=
  match secret with
  | Some (password, encrypted) => tpl_os_type tpl = TemplateOsType_value WINDOWS ∧
      password_ok password = true ∧ encrypts encrypted password (rc_target_cluster_id p) request_id
  | None => tpl_os_type tpl ≠ TemplateOsType_value WINDOWS
  end.

Lemma wp_initial_secret p request_id tpl Q w :
  (∀ secret e', secret_of p request_id tpl secret →
     Q (Ok secret) (World (w_db w) (w_tx w) (w_dup w) e')) →
  wp (initial_secret p request_id tpl) Q w.
Proof.
  intros HQ. unfold initial_secret. case_bool_decide as Hos; [|destruct w; by apply HQ].
  apply wp_bind, wp_generate_windows_password. intros pw e1 Hpw.
  apply wp_bind, wp_bind, wp_from_env. intros nonce e2 _. apply wp_ret, wp_ret, HQ. by split_and!.
Qed.

(** What an accepted payload leaves: the request and its fifteen steps. *)
Record accepted self p (key : string) d (resp : ProvisioningRequestResponse)
    (q : provisioning_request) d' : Prop := {
  ac_role : p_role (self_principal self) = SUPER_ADMIN;
  ac_new i q0 : db_requests d !! i = Some q0 →
    prq_of_key (p_user_id (self_principal self)) (hmac_key key) q0 = false;
  ac_checked : ∃ prod tpl source pool secret task_id requested_at,
    references d p prod tpl source pool ∧ node_fits d p prod ∧
    secret_of p (prq_id q) tpl secret ∧ rr_initial_password resp = fst <$> secret ∧
    q = new_request self p (hmac_key key) (sha256_json (dumped p)) task_id (prq_id q)
          prod tpl source pool (snd <$> secret) requested_at;
  ac_fresh : db_requests d !! prq_id q = None;
  ac_change : ∃ ids log, length ids = length PROVISIONING_STEPS ∧ fresh_steps ids d ∧
    d' = (with_steps (planned_steps (prq_id q) 1 ids PROVISIONING_STEPS)
            (set_rows <[prq_id q := q]> d)) <| db_audit_logs := log |>;
  ac_integrity : integrity d' = true;
  ac_response : rr_id resp = prq_id q ∧ rr_status resp = PS_QUEUED }.

Definition os_of (q : provisioning_request) : option TemplateOsType :=
  TemplateOsType_of_value (py_str (default (JStr "LINUX") (obj_get "os_type" (prq_spec_snapshot q)))).

(** The snapshot of an accepted template names an operating system. *)
Lemma accepted_os self p key_hash fp task_id id d prod tpl source pool secret at_ :
  references d p prod tpl source pool →
  os_of (new_request self p key_hash fp task_id id prod tpl source pool secret at_) = None → False.
Proof.
  intros Href Hos. change (TemplateOsType_of_value (tpl_os_type tpl) = None) in Hos.
  destruct (rf_source _ _ _ _ _ _ Href) as [_ Hclon]. unfold clonable in Hclon.
  rewrite Hos, (bool_decide_false (is_Some None)), andb_false_r in Hclon by by intros [].
  done.
Qed.

Lemma wp_request_response q password Q w :
  (os_of q = None → Q (Raise ValueError) w) →
  (∀ resp, rr_id resp = prq_id q → rr_status resp = prq_status q →
     rr_initial_password resp = password → Q (Ok resp) w) →
  wp (_request_response q password) Q w.
Proof.
  intros Hr Hok. unfold _request_response. apply wp_bind, wp_gets. apply wp_bind.
  eapply (wp_mono _ (λ r w', w' = w ∧ ∃ a, r = Ok a)).
  { destruct (prq_ip_address_id q) as [i|]; simpl; split; eauto. }
  intros r w' [-> [a ->]]. apply wp_bind, wp_or_raise; [exact Hr|]. intros os _. by apply wp_ret, Hok.
Qed.

(** The request of an idempotency key, and the outcomes of the method. *)
Definition create_post self p key d (r : outcome (ProvisioningRequestResponse * bool)) d' : Prop :=
  match r with
  | Ok (resp, true) => ∃ q, accepted self p key d resp q d'
  | Ok (resp, false) => d' = d ∧ ∃ i q, db_requests d !! i = Some q ∧ rr_id resp = prq_id q ∧
      prq_of_key (p_user_id (self_principal self)) (hmac_key key) q = true ∧
      prq_request_fingerprint q = sha256_json (dumped p)
  | Raise _ => d' = d
  end.

Lemma wp_accept_request self p key d w :
  p_role (self_principal self) = SUPER_ADMIN → w_db w = d → w_tx w = d → w_dup w = false →
  (∀ i q0, db_requests d !! i = Some q0 →
     prq_of_key (p_user_id (self_principal self)) (hmac_key key) q0 = false) →
  wp (accept_request self p (hmac_key key) (sha256_json (dumped p)))
    (λ r w', create_post self p key d r (w_db w')) w.
Proof.
  intros Hrole Hdb Htx Hdup Hnew. unfold accept_request.
  apply wp_bind, wp_validate_references; [done|]. intros prod tpl source pool Href.
  apply wp_bind, wp_validate_node; [done|]. intros Hnode. rewrite Htx in Href, Hnode.
  apply wp_bind, wp_from_env. intros task_id e1 _. apply wp_bind, wp_from_env. intros id e2 _.
  apply wp_bind, wp_initial_secret. intros secret e3 Hsecret.
  apply wp_bind, wp_from_env. intros requested_at e4 _. simpl.
  set (q := new_request _ _ _ _ _ _ _ _ _ _ _ _).
  apply wp_bind, wp_db_add. intros b Hb. simpl in *.
  apply wp_bind, wp_add_steps. intros ids b' e5 Hlen Hfresh. simpl in *.
  apply wp_bind, wp_add_audit_event. intros log. simpl.
  apply wp_bind, wp_or_conflict, wp_commit; simpl; [done|]. intros -> Hint.
  destruct (Hfresh eq_refl) as [-> Hids]. symmetry in Hb. rewrite Hdup, Htx in Hb.
  apply bool_decide_eq_false, eq_None_not_Some in Hb. rewrite Htx in *.
  apply wp_bind, wp_from_env. intros [] e6 _.
  apply wp_bind, wp_request_response.
  - intros Hos. exfalso. by eapply accepted_os.
  - intros resp Hid Hst Hpw. apply wp_ret. exists q. split; try done.
    + exists prod, tpl, source, pool, secret, task_id, requested_at. by split_and!.
    + by exists ids, log.
Qed.

Lemma wp_create_request self p key d w :
  w_db w = d → w_tx w = d → w_dup w = false →
  wp (provisioning_service self (create_request self p key))
    (λ r w', create_post self p key d r (w_db w')) w.
Proof.
  intros Hdb Htx Hdup. apply wp_bind, wp_raise_if; [done|]. intros Hrole%bool_decide_eq_false.
  apply dec_stable in Hrole. apply elem_of_list_singleton in Hrole || apply list_elem_of_singleton in Hrole.
  unfold create_request. apply wp_bind, wp_db_scalar. intros row Hrow. destruct row as [q|].
  - apply first_row_Some in Hrow as [Hkey [i Hi]]. apply wp_bind, wp_raise_if; [done|].
    intros Hfp%bool_decide_eq_false. apply dec_stable in Hfp. apply wp_bind, wp_request_response; [done|].
    intros resp Hid _ _. apply wp_ret. split; [done|]. exists i, q. by rewrite <-Htx.
  - apply wp_accept_request; try done. intros i q0 Hi. rewrite <-Htx in Hi. by apply (first_row_None _ _ Hrow _ _ Hi).
Qed.
(** The row of an accepted request. *)
Lemma with_steps_requests steps d : db_requests (with_steps steps d) = db_requests d.
Proof. unfold with_steps. revert d. induction steps as [|s steps IH]; intros d; [done|]. simpl. by rewrite IH. Qed.

Lemma accepted_requests self p key d resp q d' :
  accepted self p key d resp q d' → db_requests d' = <[prq_id q := q]> (db_requests d).
Proof.
  intros Ha. destruct (ac_change _ _ _ _ _ _ _ Ha) as (ids & log & _ & _ & ->). cbn.
  by rewrite with_steps_requests.
Qed.

Lemma accepted_row self p key d resp q d' :
  accepted self p key d resp q d' → db_requests d' !! prq_id q = Some q.
Proof. intros Ha. by rewrite (accepted_requests _ _ _ _ _ _ _ Ha), lookup_insert_eq. Qed.

(** The same payload under the same key finds the recorded request. *)
Lemma replayed_request self p key d resp q d' w :
  accepted self p key d resp q d' → w_tx w = d' →
  wp (provisioning_service self (create_request self p key))
    (λ r w', w_db w' = w_db w ∧ ∃ resp', r = Ok (resp', false) ∧ rr_id resp' = prq_id q ∧
       rr_initial_password resp' = None) w.
Proof.
  intros Ha Htx. pose proof (accepted_row _ _ _ _ _ _ _ Ha) as Hrow.
  destruct (ac_checked _ _ _ _ _ _ _ Ha) as
    (prod & tpl & source & pool & secret & task_id & at_ & Href & _ & _ & _ & Hq).
  assert (prq_of_key (p_user_id (self_principal self)) (hmac_key key) q = true) as Hkey
    by (rewrite Hq; unfold prq_of_key; simpl; by rewrite !bool_decide_true).
  assert (first_row (prq_of_key (p_user_id (self_principal self)) (hmac_key key)) d' = Some q) as Hfirst.
  { eapply first_row_unique; [exact Hrow|done|]. intros j s Hj Hs.
    cbn in Hj. rewrite (accepted_requests _ _ _ _ _ _ _ Ha) in Hj.
    apply lookup_insert_Some in Hj as [[_ <-]|[_ Hj]]; [done|].
    by rewrite (ac_new _ _ _ _ _ _ _ Ha _ _ Hj) in Hs. }
  apply wp_bind, wp_raise_if.
  { rewrite (ac_role _ _ _ _ _ _ _ Ha). intros Hr%bool_decide_eq_true. destruct Hr. by left. }
  intros _. unfold create_request. apply wp_bind, wp_db_scalar. rewrite Htx, Hfirst. intros ? <-.
  apply wp_bind, wp_raise_if.
  { intros Hfp%bool_decide_eq_true. destruct Hfp. by rewrite Hq. }
  intros _. apply wp_bind, wp_request_response.
  - intros Hos. exfalso. rewrite Hq in Hos. by eapply accepted_os.
  - intros resp' Hid _ Hpw. apply wp_ret. eauto.
Qed.
End create.
