(* ===== verification/Workloads.v ===== *)
(** * Workload inventory and assignment

    app/services/workloads.py and app/schemas/workload.py, one definition per method
    of [WorkloadService]: the inventory an operator sees, and the assignment of a
    machine to an organization, recorded both on the machine's row and as a row of
    its history. *)
From stdpp Require Import sorting.
From Stdlib Require Import Lia.
From S2P Require Import Prelude Models Database AuditLog Operations PveApi ProvApi PowerRunner.
From S2P Require Import IpAddr Ipam ProvRunner.

(** ** app/schemas/workload.py *)

Record WorkloadResponse := mkWorkloadResponse {
  wr_id : N; wr_cluster_id : N; wr_cluster_name : string; wr_vmid : Z; wr_node : string;
  wr_kind : string; wr_name : option string; wr_power_state : string;
  wr_cpu_cores : option Z; wr_memory_bytes : option Z; wr_disk_bytes : option Z;
  wr_is_template : bool; wr_is_present : bool; wr_organization_id : option N;
  wr_organization_name : option string; wr_assigned_ip_addresses : list string;
  wr_observed_at : Z; wr_version : Z }.

Record WorkloadAssignmentResponse := mkWorkloadAssignmentResponse {
  war_id : N; war_workload_id : N; war_organization_id : N; war_organization_name : string;
  war_assigned_by_id : N; war_assigned_at : Z; war_revoked_by_id : option N;
  war_revoked_at : option Z; war_revoke_reason : option string }.

(** ** Helpers *)

Definition WORKLOAD_NOT_FOUND : exn :=
  app_error 404 "WORKLOAD_NOT_FOUND" "The workload was not found.".
Definition WORKLOAD_ALREADY_ASSIGNED : exn :=
  app_error 409 "WORKLOAD_ALREADY_ASSIGNED"
    "The workload is already assigned to another organization.".

(** A row of [select(Workload, Cluster.name, Organization.name)]. *)
Abbreviation workload_row := (workload * string * option string)%type.

(** [order_by(Cluster.name, Workload.vmid)]. *)
Definition inventory_le (a b : workload_row) : Prop :=
  (a.1.2 ≠ b.1.2 ∧ String.leb a.1.2 b.1.2 = true) ∨
  (a.1.2 = b.1.2 ∧ wl_vmid a.1.1 ≤ wl_vmid b.1.1).
#[export] Instance inventory_le_dec : RelDecision inventory_le.
Proof. intros a b. unfold inventory_le. apply _. Defined.

(** The join with an active cluster and the outer join with the organization. *)
Definition joined (d : db) (wl : workload) : option workload_row :=
  cl ← db_clusters d !! wl_cluster_id wl;
  if cl_is_active cl then
    Some (wl, cl_name cl, org_name <$> (wl_organization_id wl ≫= λ o, db_organizations d !! o))
  else None.

Definition present_rows (P : workload → bool) (d : db) : list workload_row :=
  omap (joined d) (select_rows (λ wl, wl_is_present wl && P wl) d).

(** [order_by(IpAllocation.workload_id, IpAddress.address)]. *)
Definition assigned_le (a b : N * ip_address) : Prop :=
  (a.1 < b.1)%N ∨ (a.1 = b.1 ∧ addr_le a.2 b.2).
#[export] Instance assigned_le_dec : RelDecision assigned_le.
Proof. intros a b. unfold assigned_le. apply _. Defined.

(** The assigned allocations of the workloads, joined with their addresses. *)
Definition assigned_rows (workload_ids : list N) (d : db) : list (N * ip_address) :=
  merge_sort assigned_le (omap (λ l,
    id ← alloc_workload_id l;
    a ← db_addresses d !! alloc_ip_address_id l;
    Some (id, a))
    (select_rows (λ l, match alloc_workload_id l with
                       | Some id => bool_decide (id ∈ workload_ids) | None => false end &&
                       bool_decide (alloc_status l = AL_ASSIGNED)) d)).

(** [result.setdefault(workload_id, []).append(str(address))]. *)
Definition append_address (result : gmap N (list string)) (row : N * ip_address)
  : gmap N (list string) :=
  <[row.1 := default [] (result !! row.1) ++ [ip_str (addr_address row.2)]]> result.

Definition _workload_response (row : workload_row) (assigned_ip_addresses : list string)
  : WorkloadResponse :=
  let '(wl, cluster_name, organization_name) := row in {|
  wr_id := wl_id wl; wr_cluster_id := wl_cluster_id wl; wr_cluster_name := cluster_name;
  wr_vmid := wl_vmid wl; wr_node := wl_node wl; wr_kind := wl_kind wl; wr_name := wl_name wl;
  wr_power_state := wl_power_state wl; wr_cpu_cores := wl_cpu_cores wl;
  wr_memory_bytes := wl_memory_bytes wl; wr_disk_bytes := wl_disk_bytes wl;
  wr_is_template := wl_is_template wl; wr_is_present := wl_is_present wl;
  wr_organization_id := wl_organization_id wl; wr_organization_name := organization_name;
  wr_assigned_ip_addresses := assigned_ip_addresses; wr_observed_at := wl_observed_at wl;
  wr_version := wl_version wl |}.

Definition _assignment_response (a : workload_assignment) (organization_name : string)
  : WorkloadAssignmentResponse := {|
  war_id := wa_id a; war_workload_id := wa_workload_id a;
  war_organization_id := wa_organization_id a; war_organization_name := organization_name;
  war_assigned_by_id := wa_assigned_by_id a; war_assigned_at := wa_assigned_at a;
  war_revoked_by_id := wa_revoked_by_id a; war_revoked_at := wa_revoked_at a;
  war_revoke_reason := wa_revoke_reason a |}.

(** [order_by(WorkloadAssignment.assigned_at.desc())]. *)
Definition latest_assignment (a b : workload_assignment) : Prop := wa_assigned_at b ≤ wa_assigned_at a.
#[export] Instance latest_assignment_dec : RelDecision latest_assignment.
Proof. intros a b. unfold latest_assignment. apply _. Defined.

(** [reason.strip() if reason else None]. *)
Definition stripped_reason (reason : option string) : option string :=
  match reason with
  | Some s => if str_nonempty s then Some (str_strip s) else None
  | None => None
  end.

Section workloads.
Context {E : Type} `{Runtime E}.
Implicit Types (self : service).

(** The constructor: its role check precedes every method. *)
Definition workload_service {A} self (method : DBM E A) : DBM E A :=
  require_service_role (self_principal self) [SUPER_ADMIN; OPERATOR];;
  method.

Definition _assigned_ip_addresses (workload_ids : list N) : DBM E (gmap N (list string)) :=
  match workload_ids with
  | [] => mret ∅
  | _ => rows ← gets (λ w, assigned_rows workload_ids (w_tx w));
         mret (fold_left append_address rows ∅)
  end.

(** ** The inventory *)

Definition list_workloads (organization_id cluster_id : option N) : DBM E (list WorkloadResponse) :=
  rows ← gets (λ w, merge_sort inventory_le (present_rows (λ wl,
    match organization_id with
    | Some o => bool_decide (wl_organization_id wl = Some o) | None => true end &&
    match cluster_id with
    | Some c => bool_decide (wl_cluster_id wl = c) | None => true end) (w_tx w)));
  assigned_ips ← _assigned_ip_addresses (map (λ row, wl_id row.1.1) rows);
  mret (map (λ row, _workload_response row (default [] (assigned_ips !! wl_id row.1.1))) rows).

Definition get_workload (workload_id : N) : DBM E WorkloadResponse :=
  rows ← gets (λ w, present_rows (λ wl, bool_decide (wl_id wl = workload_id)) (w_tx w));
  row ← or_raise WORKLOAD_NOT_FOUND (head rows);
  assigned_ips ← _assigned_ip_addresses [wl_id row.1.1];
  mret (_workload_response row (default [] (assigned_ips !! wl_id row.1.1))).

Definition _locked_workload (workload_id : N) : DBM E workload :=
  rows ← gets (λ w, present_rows (λ wl, bool_decide (wl_id wl = workload_id)) (w_tx w));
  row ← or_raise WORKLOAD_NOT_FOUND (head rows);
  mret row.1.1.

(** ** Assignment *)

(** [assign] past its checks: the machine had no active assignment. *)
Definition record_assignment self (wl : workload) (org : organization)
  : DBM E WorkloadAssignmentResponse :=
  id ← uuid4;
  assigned_at ← datetime_now;
  let a := new_assignment id (wl_id wl) (org_id org) (p_user_id (self_principal self)) assigned_at in
  db_save (wl <| wl_organization_id := Some (org_id org) |> <| wl_version := wl_version wl + 1 |>);;
  db_add a;;
  add_audit_event ((audit_event "WORKLOAD_ASSIGNED" "SUCCEEDED" (Some (self_request_id self)))
    <| a_actor_user_id := Some (p_user_id (self_principal self)) |>
    <| a_actor_role := Some (p_role (self_principal self)) |>
    <| a_organization_id := Some (org_id org) |> <| a_workload_id := Some (wl_id wl) |>
    <| a_target_type := Some "workload" |> <| a_target_id := Some (JUuid (wl_id wl)) |>
    <| a_before := Some [("organization_id", JNull)] |>
    <| a_after := Some [("organization_id", JUuid (org_id org))] |>);;
  or_conflict commit (app_error 409 "WORKLOAD_ALREADY_ASSIGNED"
    "The workload was assigned by another request.");;
  mret (_assignment_response a (org_name org)).

Definition assign self (workload_id organization_id : N) : DBM E WorkloadAssignmentResponse :=
  wl ← _locked_workload workload_id;
  row ← db_get organization organization_id;
  let missing := app_error 404 "ORGANIZATION_NOT_FOUND" "The organization was not found." in
  org ← or_raise missing row;
  raise_if (negb (org_is_active org)) missing;;
  raise_if (negb (wl_is_present wl) || wl_is_template wl)
    (app_error 409 "WORKLOAD_NOT_ASSIGNABLE"
       "Only present, non-template workloads can be assigned.");;
  active ← db_scalar (active_assignment (wl_id wl));
  match active with
  | Some a =>
    raise_if (bool_decide (wa_organization_id a ≠ org_id org)) WORKLOAD_ALREADY_ASSIGNED;;
    mret (_assignment_response a (org_name org))
  | None =>
    raise_if (bool_decide (wl_organization_id wl ∉ [None; Some (org_id org)]))
      WORKLOAD_ALREADY_ASSIGNED;;
    record_assignment self wl org
  end.

(** [unassign] past its checks. *)
Definition revoke_assignment self (wl : workload) (previous : N) (reason : option string)
  : DBM E () :=
  assignment ← db_scalar (active_assignment (wl_id wl));
  now ← datetime_now;
  match assignment with
  | Some a => db_save (a <| wa_revoked_by_id := Some (p_user_id (self_principal self)) |>
                         <| wa_revoked_at := Some now |>
                         <| wa_revoke_reason := stripped_reason reason |>)
  | None => mret tt
  end;;
  db_save (wl <| wl_organization_id := None |> <| wl_version := wl_version wl + 1 |>);;
  add_audit_event ((audit_event "WORKLOAD_UNASSIGNED" "SUCCEEDED" (Some (self_request_id self)))
    <| a_actor_user_id := Some (p_user_id (self_principal self)) |>
    <| a_actor_role := Some (p_role (self_principal self)) |>
    <| a_organization_id := Some previous |> <| a_workload_id := Some (wl_id wl) |>
    <| a_target_type := Some "workload" |> <| a_target_id := Some (JUuid (wl_id wl)) |>
    <| a_before := Some [("organization_id", JUuid previous)] |>
    <| a_after := Some [("organization_id", JNull); ("reason_recorded", reason_recorded reason)] |>);;
  commit.

Definition unassign self (workload_id : N) (reason : option string) : DBM E () :=
  wl ← _locked_workload workload_id;
  match wl_organization_id wl with
  | None => mret tt
  | Some previous =>
    operation ← db_scalar (op_conflicts (wl_id wl));
    raise_if (bool_decide (is_Some operation))
      (app_error 409 "WORKLOAD_OPERATION_ACTIVE"
         "The workload cannot be unassigned while an operation is active.");;
    revoke_assignment self wl previous reason
  end.

(** The inner join leaves out assignments whose organization is gone. *)
Definition assignment_history (workload_id : N) : DBM E (list WorkloadAssignmentResponse) :=
  row ← db_get workload workload_id;
  raise_if (negb (bool_decide (is_Some row))) WORKLOAD_NOT_FOUND;;
  items ← db_select (λ a, bool_decide (wa_workload_id a = workload_id));
  organizations ← gets (λ w, db_organizations (w_tx w));
  mret (omap (λ a, org ← organizations !! wa_organization_id a;
                   Some (_assignment_response a (org_name org)))
          (merge_sort latest_assignment items)).
End workloads.
