(* ===== verification/Customer.v ===== *)
(** * The customer portal

    app/services/customer_portal.py and app/schemas/customer.py, one definition per
    method of [CustomerPortalService]: a customer sees and operates the machines of
    the active organizations it is a member of, by predicates inside the queries.
    The columns of a new operation and the names of action modes are those of
    Operations.v, the addresses of a machine those of Workloads.v, which the source
    states twice. *)
From stdpp Require Import sorting.
From Stdlib Require Import Lia.
From S2P Require Import Prelude Models Database AuditLog Operations PveApi ProvApi PowerRunner.
From S2P Require Import IpAddr Ipam ProvRunner Provisioning Workloads.

(** ** app/schemas/customer.py *)

Record CustomerJobResponse := mkCustomerJobResponse {
  cj_id : N; cj_job_id : N; cj_vm_id : N; cj_action : PowerAction; cj_action_mode : string;
  cj_status : OperationStatus; cj_result : list (string * json); cj_error_code : option string;
  cj_error_summary : option string; cj_retryable : option bool; cj_requested_at : Z;
  cj_started_at : option Z; cj_finished_at : option Z }.

Record CustomerVmSummary := mkCustomerVmSummary {
  cv_id : N; cv_name : string; cv_organization_name : string; cv_power_state : string;
  cv_cpu_cores : option Z; cv_memory_bytes : option Z; cv_disk_bytes : option Z;
  cv_assigned_ip_addresses : list string; cv_observed_at : Z }.

Record CustomerVmDetailResponse := mkCustomerVmDetailResponse {
  cd_summary : CustomerVmSummary; cd_recent_jobs : list CustomerJobResponse }.

(** ** Predicates of the queries *)

Definition CUSTOMER_VM_NOT_FOUND : exn :=
  app_error 404 "VM_NOT_FOUND" "The virtual machine was not found.".

(** [exists(select(OrganizationMember.id).where(...))]. *)
Definition membership (user_id : N) (organization_id : option N) (d : db) : bool :=
  bool_decide (is_Some (first_row (λ m : organization_member,
    bool_decide (om_user_id m = user_id) &&
    bool_decide (Some (om_organization_id m) = organization_id)) d)).

(** [exists(select(Organization.id).where(...))]. *)
Definition active_organization (organization_id : option N) (d : db) : bool :=
  match organization_id ≫= λ o, db_organizations d !! o with
  | Some org => org_is_active org
  | None => false
  end.

(** The condition of [_owned_workloads_query]. *)
Definition owned_workload (user_id : N) (d : db) (wl : workload) : bool :=
  bool_decide (is_Some (wl_organization_id wl)) && bool_decide (wl_kind wl = "QEMU") &&
  wl_is_present wl && negb (wl_is_template wl) &&
  membership user_id (wl_organization_id wl) d && active_organization (wl_organization_id wl) d.

(** [order_by(Workload.name.asc(), Workload.id.asc())]: PostgreSQL puts nulls last. *)
Definition vm_le (a b : workload) : Prop :=
  match wl_name a, wl_name b with
  | Some s, Some t => (s ≠ t ∧ String.leb s t = true) ∨ (s = t ∧ (wl_id a ≤ wl_id b)%N)
  | Some _, None => True
  | None, Some _ => False
  | None, None => (wl_id a ≤ wl_id b)%N
  end.
#[export] Instance vm_le_dec : RelDecision vm_le.
Proof. intros a b. unfold vm_le. destruct (wl_name a), (wl_name b); apply _. Defined.

(** [order_by(Operation.requested_at.desc())]. *)
Definition operation_newer (a b : operation) : Prop := op_requested_at b ≤ op_requested_at a.
#[export] Instance operation_newer_dec : RelDecision operation_newer.
Proof. intros a b. unfold operation_newer. apply _. Defined.

(** The names of the active organizations of the workloads. *)
Definition organization_names (workloads : list workload) (d : db) : gmap N string :=
  omap (λ org, if org_is_active org && bool_decide (Some (org_id org) ∈ map wl_organization_id workloads)
               then Some (org_name org) else None) (db_organizations d).

Definition _vm_summary (wl : workload) (organization_name : string)
    (assigned_ip_addresses : list string) : CustomerVmSummary := {|
  cv_id := wl_id wl; cv_name := str_or (wl_name wl) "Unnamed VM";
  cv_organization_name := organization_name; cv_power_state := wl_power_state wl;
  cv_cpu_cores := wl_cpu_cores wl; cv_memory_bytes := wl_memory_bytes wl;
  cv_disk_bytes := wl_disk_bytes wl; cv_assigned_ip_addresses := assigned_ip_addresses;
  cv_observed_at := wl_observed_at wl |}.

Definition SAFE_RESULT_KEYS : list string :=
  ["action_mode"; "no_op"; "message"; "final_power_state"].

Definition CUSTOMER_ACTIONS : list PowerAction := [START; SHUTDOWN; STOP; REBOOT].

Section customer.
Context {E : Type} `{Runtime E} `{Publisher E} `{Digests}.
Implicit Types (self : service).

(** The constructor: its role check precedes every method. *)
Definition customer_service {A} self (method : DBM E A) : DBM E A :=
  require_service_role (self_principal self) [CUSTOMER];;
  method.

(** [PowerAction(operation.action)] raises [ValueError] on another action. *)
Definition _job_response (o : operation) : DBM E CustomerJobResponse :=
  action ← or_raise ValueError (PowerAction_of_value (op_action o));
  mret {|
    cj_id := op_id o; cj_job_id := op_id o; cj_vm_id := op_workload_id o; cj_action := action;
    cj_action_mode := py_str (default (JStr "STANDARD") (obj_get "action_mode" (op_result o)));
    cj_status := op_status o;
    cj_result := filter (λ kv, kv.1 ∈ SAFE_RESULT_KEYS) (op_result o);
    cj_error_code := op_error_code o; cj_error_summary := op_error_summary o;
    cj_retryable := op_retryable o; cj_requested_at := op_requested_at o;
    cj_started_at := op_started_at o; cj_finished_at := op_finished_at o |}.

Definition _organization_names (workloads : list workload) : DBM E (gmap N string) :=
  gets (λ w, organization_names workloads (w_tx w)).

Definition _owned_vm self (vm_id : N) : DBM E workload :=
  row ← gets (λ w, first_row (λ wl, owned_workload (p_user_id (self_principal self)) (w_tx w) wl &&
                                    bool_decide (wl_id wl = vm_id)) (w_tx w));
  or_raise CUSTOMER_VM_NOT_FOUND row.

Definition _recent_jobs self (vm_id : N) : DBM E (list CustomerJobResponse) :=
  operations ← db_select (λ o, bool_decide (op_workload_id o = vm_id) &&
                               bool_decide (op_requested_by_id o = p_user_id (self_principal self)));
  map_each _job_response (take 10 (merge_sort operation_newer operations)).

(** ** The calls *)

(** A machine with the entry of its organization, if there is one. *)
Definition summary_row (names : gmap N string) (ips : gmap N (list string)) (wl : workload)
  : option CustomerVmSummary :=
  o ← wl_organization_id wl;
  name ← names !! o;
  Some (_vm_summary wl name (default [] (ips !! wl_id wl))).

Definition list_vms self : DBM E (list CustomerVmSummary) :=
  owned ← gets (λ w, merge_sort vm_le
    (select_rows (owned_workload (p_user_id (self_principal self)) (w_tx w)) (w_tx w)));
  assigned_ips ← _assigned_ip_addresses (map wl_id owned);
  names ← _organization_names owned;
  mret (omap (summary_row names assigned_ips) owned).

Definition get_vm self (vm_id : N) : DBM E CustomerVmDetailResponse :=
  wl ← _owned_vm self vm_id;
  jobs ← _recent_jobs self (wl_id wl);
  assigned_ips ← _assigned_ip_addresses [wl_id wl];
  names ← _organization_names [wl];
  summary ← or_raise CUSTOMER_VM_NOT_FOUND (summary_row names assigned_ips wl);
  mret (mkCustomerVmDetailResponse summary jobs).

(** [request_power_action] past the idempotency lookup. *)
Definition record_customer_action self (wl : workload) (action : PowerAction)
    (key_hash fingerprint : N) (reason : option string) : DBM E CustomerJobResponse :=
  conflict ← db_scalar (op_conflicts (wl_id wl));
  raise_if (bool_decide (is_Some conflict))
    (app_error 409 "OPERATION_CONFLICT"
       "Another power operation is already running for this VM.");;
  operation_id ← uuid4;
  celery_task_id ← uuid4;
  requested_at ← datetime_now;
  let o := new_operation self operation_id celery_task_id
    ("POWER_" +:+ str_upper (PowerAction_value action)) (PowerAction_value action)
    wl key_hash fingerprint
    [("action_mode", JStr (_action_mode action)); ("reason_recorded", reason_recorded reason)]
    requested_at in
  db_add o;;
  or_conflict flush DUPLICATE_OPERATION;;
  add_audit_event ((self_audit self (op_operation_type o) "ATTEMPTED")
    <| a_organization_id := wl_organization_id wl |>
    <| a_workload_id := Some (wl_id wl) |>
    <| a_operation_id := Some operation_id |>
    <| a_target_type := Some "vm" |>
    <| a_target_id := Some (JUuid (wl_id wl)) |>
    <| a_details := Some [("portal", JStr "customer"); ("action_mode", JStr (_action_mode action))] |>);;
  commit;;
  publish operation_id celery_task_id;;
  _job_response o.

Definition request_power_action self (vm_id : N) (action : PowerAction) (idempotency_key : string)
    (reason : option string) (confirm_forced : bool) : DBM E CustomerJobResponse :=
  raise_if (bool_decide (action ∉ CUSTOMER_ACTIONS))
    (app_error 403 "CUSTOMER_ACTION_FORBIDDEN"
       "This power action is not available to customers.");;
  wl ← _owned_vm self vm_id;
  raise_if (bool_decide (wl_organization_id wl = None)) CUSTOMER_VM_NOT_FOUND;;
  raise_if (bool_decide (action = STOP) && negb confirm_forced)
    (app_error 422 "FORCED_ACTION_CONFIRMATION_REQUIRED"
       "Forced stop requires explicit confirmation.");;
  let key_hash := hmac_key idempotency_key in
  let fingerprint := sha256_text
    [JStr "customer:"; JUuid vm_id; JStr ":"; JStr (PowerAction_value action)] in
  existing ← db_scalar (op_of_key (p_user_id (self_principal self)) key_hash);
  match existing with
  | Some o =>
    raise_if (bool_decide (op_request_fingerprint o ≠ fingerprint))
      (app_error 409 "IDEMPOTENCY_KEY_REUSED"
         "The idempotency key was already used for another request.");;
    raise_if (bool_decide (op_workload_id o ≠ wl_id wl) ||
              bool_decide (op_organization_id o ≠ wl_organization_id wl)) CUSTOMER_VM_NOT_FOUND;;
    _job_response o
  | None => record_customer_action self wl action key_hash fingerprint reason
  end.

Definition get_job self (job_id : N) : DBM E CustomerJobResponse :=
  row ← gets (λ w, first_row (λ o, bool_decide (op_id o = job_id) &&
    bool_decide (op_requested_by_id o = p_user_id (self_principal self)) &&
    membership (p_user_id (self_principal self)) (op_organization_id o) (w_tx w) &&
    active_organization (op_organization_id o) (w_tx w)) (w_tx w));
  o ← or_raise (app_error 404 "JOB_NOT_FOUND" "The job was not found.") row;
  _job_response o.

(** *** The calls of the portal *)

Inductive customer_call :=
| CallListVms
| CallGetVm (vm_id : N)
| CallPowerAction (vm_id : N) (action : PowerAction) (idempotency_key : string)
    (reason : option string) (confirm_forced : bool)
| CallGetJob (job_id : N).

Inductive customer_answer :=
| AnswerVms (items : list CustomerVmSummary)
| AnswerVm (item : CustomerVmDetailResponse)
| AnswerJob (job : CustomerJobResponse).

Definition customer_run self (c : customer_call) : DBM E customer_answer :=
  customer_service self
    match c with
    | CallListVms => items ← list_vms self; mret (AnswerVms items)
    | CallGetVm id => item ← get_vm self id; mret (AnswerVm item)
    | CallPowerAction id a k reason forced =>
      job ← request_power_action self id a k reason forced; mret (AnswerJob job)
    | CallGetJob id => job ← get_job self id; mret (AnswerJob job)
    end.
End customer.
