(* ===== verification/Tasks.v ===== *)
(** * Background tasks: enqueueing and recovery

    app/tasks/power.py, backup.py, provisioning.py and the start of app/worker.py: the
    messages that hand an operation to a runner, and the recovery that a starting
    worker does for messages that were lost. *)
From S2P Require Import Prelude Models Database AuditLog Operations PveApi ProvApi PowerRunner.
From S2P Require Import IpAddr Ipam ProvRunner.

(** ** Messages *)

(** The arguments of [celery_app.send_task]. *)
Record message := mkMessage {
  ms_task : string; ms_arg : N; ms_task_id : N; ms_queue : string }.

#[export] Instance message_eq_dec : EqDecision message.
Proof. solve_decision. Defined.

(** The broker: whether it takes the message; [send_task] raises when it does not. *)
Class Broker (E : Type) := { env_send_task : message → E → bool * E }.

Definition send_task {E} `{Broker E} (m : message) : DBM E () :=
  sent ← from_env (env_send_task m);
  raise_if (negb sent) RuntimeError.

Definition power_message (id task_id : N) : message :=
  mkMessage "app.tasks.power.execute_power_operation" id task_id "operations".
Definition backup_message (id task_id : N) : message :=
  mkMessage "app.tasks.backup.execute_backup_operation" id task_id "operations".
Definition restore_message (id task_id : N) : message :=
  mkMessage "app.tasks.backup.execute_restore_operation" id task_id "operations".
Definition provisioning_message (id task_id : N) : message :=
  mkMessage "app.tasks.provisioning.execute_provisioning_request" id task_id "operations".

Definition power_recoverable (o : operation) : bool :=
  bool_decide (op_operation_type o ≠ "WORKLOAD_BACKUP") && op_active o.
Definition backup_recoverable (o : operation) : bool :=
  bool_decide (op_operation_type o = "WORKLOAD_BACKUP") && op_active o.
Definition restore_recoverable (o : operation) : bool :=
  bool_decide (op_operation_type o = "WORKLOAD_RESTORE") && op_active o.

Section tasks.
Context {E : Type} `{Runtime E} `{Broker E}.

Definition enqueue_power_operation (operation_id task_id : N) : DBM E () :=
  send_task (power_message operation_id task_id).
Definition enqueue_backup_operation (operation_id task_id : N) : DBM E () :=
  send_task (backup_message operation_id task_id).
Definition enqueue_restore_operation (operation_id task_id : N) : DBM E () :=
  send_task (restore_message operation_id task_id).
Definition enqueue_provisioning_request (request_id task_id : N) : DBM E () :=
  send_task (provisioning_message request_id task_id).

(** ** Recovery: each returns how many messages it sent *)

Definition recover_power_operations : DBM E Z :=
  operations ← db_select power_recoverable;
  for_each operations (λ o, enqueue_power_operation (op_id o) (op_celery_task_id o));;
  mret (Z.of_nat (length operations)).

Definition recover_backup_operations : DBM E Z :=
  operations ← db_select backup_recoverable;
  for_each operations (λ o, enqueue_backup_operation (op_id o) (op_celery_task_id o));;
  restores ← db_select restore_recoverable;
  for_each restores (λ o, enqueue_restore_operation (op_id o) (op_celery_task_id o));;
  mret (Z.of_nat (length operations) + Z.of_nat (length restores)).

Definition recover_provisioning_requests : DBM E Z :=
  now ← datetime_now;
  requests ← db_select (claimable now);
  for_each requests (λ q, enqueue_provisioning_request (prq_id q) (prq_celery_task_id q));;
  mret (Z.of_nat (length requests)).

(** [worker_ready]: the heartbeat it writes to Redis first touches no table.  Each
    recovery opens its own session and only reads. *)
Definition recover_incomplete_power_operations : DBM E () :=
  _ ← recover_power_operations;
  _ ← recover_backup_operations;
  _ ← recover_provisioning_requests;
  mret tt.
End tasks.

(** ** A broker that keeps what it takes *)

(** Whether the broker is reachable. *)
Class Reachable (E : Type) := { env_reachable : E → bool * E }.

Record mailbox (E : Type) := Mailbox { mb_env : E; mb_messages : list message }.
Arguments Mailbox {E} _ _.
Arguments mb_env {E} _.
Arguments mb_messages {E} _.

Definition lifted {E A} (f : E → A * E) (b : mailbox E) : A * mailbox E :=
  ((f (mb_env b)).1, Mailbox (f (mb_env b)).2 (mb_messages b)).

#[export] Instance mailbox_runtime {E} `{Runtime E} : Runtime (mailbox E) :=
  {| env_now := lifted env_now;
     env_uuid4 := lifted env_uuid4;
     env_randrange n := lifted (env_randrange n);
     env_token := lifted env_token;
     env_locked b := env_locked (mb_env b);
     env_request_id b := env_request_id (mb_env b);
     env_source_ip b := env_source_ip (mb_env b);
     env_user_agent b := env_user_agent (mb_env b) |}.

#[export] Instance mailbox_broker {E} `{Reachable E} : Broker (mailbox E) :=
  {| env_send_task m b :=
       let r := env_reachable (mb_env b) in
       (r.1, Mailbox r.2 (if r.1 then mb_messages b ++ [m] else mb_messages b)) |}.
