(* ===== verification/Demo.v ===== *)
(** * Concrete runs

    A runtime whose clock ticks by one second and whose UUIDs count up, and small
    databases built by running the services in it.  The witnesses evaluate on
    these. *)
From Stdlib Require Import Lia.
From S2P Require Import Prelude Models Database AuditLog IpAddr Ipam IpamInv IpamOps.

Record demo := Demo { dm_clock : Z; dm_next : N }.

#[export] Instance demo_runtime : Runtime demo :=
  {| env_now e := (dm_clock e, Demo (dm_clock e + seconds 1) (dm_next e));
     env_uuid4 e := (dm_next e, Demo (dm_clock e) (dm_next e + 1)%N);
     env_randrange n e := (dm_clock e mod n, e);
     env_token e := (dm_next e, Demo (dm_clock e) (dm_next e + 1)%N);
     env_locked _ _ := false;
     env_request_id _ := None;
     env_source_ip _ := None;
     env_user_agent _ := None |}.

#[export] Instance demo_laws : RuntimeLaws demo.
Proof. intros n e Hn. simpl. by apply Z.mod_pos_bound. Qed.

Definition demo_start : demo := Demo 0 100.

Definition demo_admin : service :=
  Service (mkPrincipal 1 "admin@example.com" SUPER_ADMIN 0) "req-1" "192.0.2.1".

(** The database after a call. *)
Definition after {A} (m : DBM demo A) (d : db) : db := (exec m d demo_start).1.2.

(** Distinct calls draw distinct identifiers. *)
Definition after_at {A} (n : N) (m : DBM demo A) (d : db) : db :=
  (exec m d (Demo (Z.of_N n * seconds 60) n)).1.2.

Definition demo_cluster (i : N) : cluster :=
  Cluster i (if decide (i = 1%N) then "c1" else "c2")
    (if decide (i = 1%N) then "https://c1:8006" else "https://c2:8006")
    None true None None None 1.

Definition demo_workload (i : N) : workload :=
  Workload i 1 (Z.of_N i) "pve1" "QEMU" None "stopped" None None None false true None 0 1.

Definition demo_base : db :=
  empty_db <| db_clusters := {[ 1%N := demo_cluster 1; 2%N := demo_cluster 2 ]} |>
           <| db_workloads := {[ 7%N := demo_workload 7; 8%N := demo_workload 8 ]} |>.

Definition v4 (a b c d : Z) : ip_addr := IpAddr 4 (((a * 256 + b) * 256 + c) * 256 + d).

(** 10.0.0.0/29: network .0, gateway .1, excluded .2-.3, broadcast .7. *)
Definition demo_pool_payload : IpPoolCreate := {|
  pc_name := " lab "; pc_cluster_id := Some 1%N; pc_cidr := "10.0.0.5/29";
  pc_gateway := Some (v4 10 0 0 1); pc_dns_servers := []; pc_bridge := "vmbr0";
  pc_vlan_tag := None;
  pc_excluded_ranges := [{| rg_start := v4 10 0 0 2; rg_end := v4 10 0 0 3; rg_reason := None |}];
  pc_allocation_strategy := SEQUENTIAL; pc_quarantine_seconds := 600 |}.

Definition demo_pool_db : db :=
  after_at 100 (ipam_run demo_admin (CallCreatePool demo_pool_payload)) demo_base.

(** Two allocations from pool 100. *)
Definition demo_one : db :=
  after_at 200 (ipam_run demo_admin (CallAllocate 100 7 None)) demo_pool_db.
Definition demo_two : db :=
  after_at 300 (ipam_run demo_admin (CallAllocate 100 8 (Some (v4 10 0 0 6)))) demo_one.

Example demo_two_addresses :
  (λ a, (ip_str (addr_address a), addr_state a)) <$> (map_to_list (db_addresses demo_two)).*2
  = [("10.0.0.6", ASSIGNED); ("10.0.0.4", ASSIGNED)].
Proof. vm_compute. reflexivity. Qed.

(** A call from a reachable state reaches the state after it. *)
Lemma reach_after self c n d :
  ipam_reach (E := demo) d → call_wf c → ipam_reach (E := demo) (after_at n (ipam_run self c) d).
Proof.
  intros Hd Hc. unfold after_at. destruct (exec _ _ _) as [[r d'] e'] eqn:He. simpl.
  by eapply reach_call.
Qed.

Lemma demo_pool_db_reach : ipam_reach (E := demo) demo_pool_db.
Proof.
  apply reach_after.
  - by apply reach_init; vm_compute.
  - intros r Hr. apply list_elem_of_singleton in Hr as ->.
    split; (split; [by left|vm_compute; congruence|vm_compute; congruence]).
Qed.

Lemma v4_wf a b c d :
  0 ≤ a < 256 → 0 ≤ b < 256 → 0 ≤ c < 256 → 0 ≤ d < 256 → addr_wf (v4 a b c d).
Proof.
  intros. split; simpl; [by left|lia|]. change (2 ^ max_prefixlen 4) with 4294967296. lia.
Qed.

Lemma demo_two_reach : ipam_reach (E := demo) demo_two.
Proof.
  apply reach_after; [apply reach_after; [apply demo_pool_db_reach|done]|].
  intros r [= <-]. apply v4_wf; lia.
Qed.

Lemma demo_two_good : ipam_good demo_two.
Proof. apply (ipam_reach_good (E := demo)), demo_two_reach. Qed.

(** The outcome of a run, for the witnesses. *)
Lemma exec_outcome {E A} (m : DBM E A) d e r :
  (exec m d e).1.1 = r → exec m d e = (r, (exec m d e).1.2, (exec m d e).2).
Proof. intros <-. by destruct (exec m d e) as [[]]. Qed.
