(* ===== verification/DemoPower.v ===== *)
(** * Concrete runs of the job service and the power runner

    A cluster whose answers are scripted, toy digests, and a workload with its
    operation, for the witnesses. *)
From Stdlib Require Import Lia.
From S2P Require Import Prelude Models Database AuditLog Operations PveApi PowerRunner IpAddr.
From S2P Require Import Ipam IpamInv IpamOps Demo.

(** ** A scripted cluster *)

Record script := Script {
  sc_demo : demo;
  sc_submits : list (pve_error + string);
  sc_tasks : list (pve_error + json_object);
  sc_statuses : list (pve_error + json_object) }.

Definition with_demo {A} (f : demo → A * demo) (e : script) : A * script :=
  let r := f (sc_demo e) in
  (r.1, Script r.2 (sc_submits e) (sc_tasks e) (sc_statuses e)).

#[export] Instance script_runtime : Runtime script :=
  {| env_now := with_demo env_now;
     env_uuid4 := with_demo env_uuid4;
     env_randrange n := with_demo (env_randrange n);
     env_token := with_demo env_token;
     env_locked _ _ := false;
     env_request_id _ := None;
     env_source_ip _ := None;
     env_user_agent _ := None |}.

#[export] Instance script_publisher : Publisher script := {| env_publish _ _ e := e |}.

Definition unreachable : pve_error :=
  PveError 502 "CLUSTER_UNREACHABLE" "The cluster could not be reached." [].
Definition timeout : pve_error := PveError 504 "PVE_TIMEOUT" "The cluster timed out." [].

Definition pop {A} (l : list (pve_error + A)) : pve_error + A := default (inl unreachable) (head l).

#[export] Instance script_api : PowerApi script :=
  {| api_decrypt _ _ := Some "secret";
     api_connect _ _ _ := None;
     api_submit_guest_power_action _ _ _ _ _ e :=
       (pop (sc_submits e), Script (sc_demo e) (tail (sc_submits e)) (sc_tasks e) (sc_statuses e));
     api_get_task_status _ _ _ e :=
       (pop (sc_tasks e), Script (sc_demo e) (sc_submits e) (tail (sc_tasks e)) (sc_statuses e));
     api_get_guest_status _ _ _ _ e :=
       (pop (sc_statuses e), Script (sc_demo e) (sc_submits e) (sc_tasks e) (tail (sc_statuses e)));
     api_get_guest_config _ _ _ _ e := (inr [("scsi0", JStr "local:vm-7-disk-0")], e);
     api_configure_guest _ _ _ _ _ _ e := (inr tt, e);
     api_resize_guest_disk _ _ _ _ _ _ e := (inr tt, e);
     api_delete_guest _ _ _ _ e := (inr "UPID:delete", e);
     api_sleep _ e := e |}.

(** ** Toy digests *)

Definition text_hash (s : string) : N :=
  foldl (λ h a, (h * 257 + Ascii.N_of_ascii a) mod 1000000007)%N 7%N (String.list_ascii_of_string s).

Definition json_hash (j : json) : N :=
  match j with
  | JNull => 1 | JBool b => if b then 2 else 3 | JInt z => Z.to_N z * 8 + 4
  | JStr s => text_hash s * 8 + 5 | JUuid u => u * 8 + 6 | JList _ | JObj _ => 7
  end%N.

#[export] Instance toy_digests : Digests :=
  {| hmac_key := text_hash;
     sha256_text l := foldl (λ h j, (h * 31 + json_hash j) mod 1000000007)%N 17%N l;
     sha256_json l := foldl (λ h kv, (h * 31 + text_hash kv.1 + json_hash kv.2) mod 1000000007)%N 17%N l;
     repr_container _ := "{...}" |}.

(** ** A stopped machine, its administrator, its cluster *)

Definition demo_settings : Settings := mkSettings 60 3 300 150 2000.

Definition demo_user : user :=
  User 1 "admin@example.com" "Admin" SUPER_ADMIN "hash" true 0 None None None None 1.

Definition demo_power_base : db :=
  demo_base <| db_users := {[ 1%N := demo_user ]} |>
            <| db_credentials := {[ 9%N :=
                 ClusterCredential 9 1 "root@pam!x" "c" "n" "1" true None None ]} |>.

Definition script_at (n : N) submits tasks statuses : script :=
  Script (Demo (Z.of_N n * seconds 60) n) submits tasks statuses.

(** Operation 500: start workload 7. *)
Definition demo_request : DBM script (JobResponse * bool) :=
  operation_run demo_admin (CallPower 7 START "key-1" None).

Definition demo_queued : db := (exec demo_request demo_power_base (script_at 500 [] [] [])).1.2.

Definition stopped : json_object := [("status", JStr "stopped")].
Definition running : json_object := [("status", JStr "running")].
Definition task_ok : json_object := [("status", JStr "stopped"); ("exitstatus", JStr "OK")].

(** One refused submission, one accepted; one poll of a running task, then done. *)
Definition demo_env : script :=
  script_at 600 [inl unreachable; inr "UPID:1"] [inr running; inr task_ok]
    [inr stopped; inr running].

Definition demo_op : operation :=
  default (new_operation demo_admin 0 0 "" "" (demo_workload 7) 0 0 [] 0)
    (db_operations demo_queued !! 500%N).

Example demo_run :
  (λ o, (op_status o, op_attempt_count o)) <$>
    db_operations (exec (run_power_operation demo_settings 500) demo_queued demo_env).1.2 !! 500%N
  = Some (OS_SUCCEEDED, 1).
Proof. vm_compute. reflexivity. Qed.

(** The same operation after its run, with its task on record, and with its
    requester disabled. *)
Definition demo_done : db :=
  (exec (run_power_operation demo_settings 500) demo_queued demo_env).1.2.

Definition demo_task : pve_task :=
  new_task 70 demo_op (demo_workload 7) "power_start" "UPID:1" 0.

Definition demo_tasked : db := demo_queued <| db_pve_tasks := {[ 70%N := demo_task ]} |>.

Definition demo_revoked : db :=
  demo_queued <| db_users := {[ 1%N := demo_user <| u_is_active := false |> ]} |>.

(** A run of the worker task on operation 500, and its trace. *)
Definition demo_traced (d : db) : outcome () * db * traced script :=
  exec (run_power_operation (E := traced script) demo_settings 500) d (Traced demo_env []).

Lemma demo_traced_eq d :
  exec (run_power_operation (E := traced script) demo_settings 500) d (Traced demo_env []) =
  ((demo_traced d).1.1, (demo_traced d).1.2, (demo_traced d).2).
Proof. unfold demo_traced. by destruct (exec _ _ _) as [[]]. Qed.
