(* ===== verification/DemoProv.v ===== *)
(** * Concrete runs of provisioning

    A catalogue, a request for a Linux machine and one for a Windows machine, and
    runs of the saga on a scripted cluster, for the witnesses. *)
From Stdlib Require Import Lia.
From S2P Require Import Prelude Models Database AuditLog Operations PveApi ProvApi PowerRunner.
From S2P Require Import IpAddr Ipam IpamInv IpamOps ProvRunner Provisioning Demo DemoPower.

(** ** A scripted cluster without guests, and a toy cipher *)

#[export] Instance script_laws : RuntimeLaws script.
Proof. intros n e Hn. simpl. by apply Z.mod_pos_bound. Qed.

#[export] Instance script_provisioning : ProvisioningApi script :=
  {| api_get_guests _ e := (inr [[("vmid", JInt 100)]; [("vmid", JInt 101)]], e);
     api_clone_qemu_template _ _ e :=
       (pop (sc_submits e), Script (sc_demo e) (tail (sc_submits e)) (sc_tasks e) (sc_statuses e));
     api_configure_qemu _ _ _ _ e := (inr tt, e);
     api_resize_qemu_disk _ _ _ _ _ e := (inr tt, e);
     api_submit_vm_power_action _ _ _ _ e :=
       (pop (sc_submits e), Script (sc_demo e) (tail (sc_submits e)) (sc_tasks e) (sc_statuses e));
     api_get_vm_status _ _ _ e :=
       (pop (sc_statuses e), Script (sc_demo e) (sc_submits e) (sc_tasks e) (tail (sc_statuses e))) |}.

(** The plain text behind its nonce. *)
Fixpoint drop_chars (n : nat) (s : string) : string :=
  match n, s with
  | S n, String _ s => drop_chars n s
  | _, _ => s
  end.

#[export] Instance script_secrets : ProvisioningSecrets script :=
  {| env_urandom e := ("nonce", e);
     aesgcm_encrypt nonce plain _ := nonce +:+ plain;
     aesgcm_decrypt nonce cipher _ := Some (drop_chars (String.length nonce) cipher) |}.

#[export] Instance script_aesgcm : AesGcmLaws script.
Proof.
  intros nonce plain ad. simpl. f_equal. induction nonce as [|c nonce IH]; [by destruct plain|done].
Qed.

(** ** The catalogue *)

Definition GIB : Z := 1024 ^ 3.

Definition demo_product : product := Product 30 "small" 2 (2 * GIB) (20 * GIB) true 1.
Definition demo_template (id source : N) (os : TemplateOsType) : template :=
  Template id (TemplateOsType_value os) source "scsi0" "local-lvm" "vmbr0" (Some 10) true
    (bool_decide (os = LINUX)) (TemplateOsType_value os) true 1.
Definition demo_source (id : N) : workload :=
  Workload id 1 (Z.of_N id + 9000) "pve1" "QEMU" (Some "golden") "stopped" None None None true true
    None 0 1.
Definition demo_node : provisioning_node := ProvisioningNode 50 1 "pve1" true false (8 * GIB) (100 * GIB) None.

Definition demo_catalogue : db :=
  demo_pool_db
    <| db_users := {[ 1%N := demo_user ]} |>
    <| db_credentials := {[ 9%N :=
         ClusterCredential 9 1 "root@pam!x" "c" "n" "1" true None None ]} |>
    <| db_organizations := {[ 3%N := Organization 3 "acme" true 1 1 ]} |>
    <| db_workloads ::= λ m, <[20%N := demo_source 20]> (<[21%N := demo_source 21]> m) |>
    <| db_products := {[ 30%N := demo_product ]} |>
    <| db_templates := {[ 40%N := demo_template 40 20 LINUX; 41%N := demo_template 41 21 WINDOWS ]} |>
    <| db_nodes := {[ 50%N := demo_node ]} |>.

Definition demo_payload (template_id : N) : ProvisioningRequestCreate :=
  mkProvisioningRequestCreate 30 template_id 3 1 None None "Web-1" 100 None
    (mkCloudInitRequest "admin" ["ssh-ed25519 AAAA"]) true.

(** ** Requests *)

Definition demo_create (template_id : N) (key : string)
  : DBM script (ProvisioningRequestResponse * bool) :=
  provisioning_service demo_admin (create_request demo_admin (demo_payload template_id) key).

Definition demo_created (template_id : N) : db :=
  (exec (demo_create template_id "key-1") demo_catalogue (script_at 500 [] [] [])).1.2.
Definition demo_linux : db := demo_created 40.
Definition demo_windows : db := demo_created 41.

(** The identifier of the request: the second that the run draws. *)
Definition demo_id : N := 501.

(** ** Runs *)

Definition demo_prov : ProvisioningSettings := mkProvisioningSettings 60 5000 30000 2000 5.

(** A cluster that clones and starts the machine. *)
Definition demo_good : script :=
  script_at 900 [inr "UPID:clone"; inr "UPID:start"] [inr running; inr task_ok; inr task_ok]
    [inr stopped; inr running].

(** A cluster that refuses the clone. *)
Definition demo_bad : script := script_at 900 [] [] [].

Definition demo_run_prov (e : script) (d : db) : outcome () * db * traced script :=
  exec (run_provisioning_request (E := traced script) demo_prov demo_id) d (Traced e []).

Definition demo_state (d : db) : option (ProvisioningStatus * string * option Z * bool) :=
  (λ q, (prq_status q, prq_current_step q, prq_target_vmid q, prq_clone_submitted q))
    <$> db_requests d !! demo_id.

Example demo_run_good :
  demo_state (demo_run_prov demo_good demo_linux).1.2 =
    Some (PS_SUCCEEDED, "COMPLETED", Some 102, true).
Proof. vm_compute. reflexivity. Qed.

Example demo_run_windows :
  demo_state (demo_run_prov demo_good demo_windows).1.2 =
    Some (PS_SUCCEEDED, "COMPLETED", Some 102, true).
Proof. vm_compute. reflexivity. Qed.

(** The clone was asked for, so a person looks at it. *)
Example demo_run_bad :
  demo_state (demo_run_prov demo_bad demo_linux).1.2 =
    Some (PS_MANUAL_REVIEW, "FULL_CLONE", Some 102, true).
Proof. vm_compute. reflexivity. Qed.
