(* ===== verification/ProvProps.v ===== *)
(** * Provisioning: the properties

    The theorems about the provisioning saga and the requests it serves, each with
    a run of the demo catalogue as its witness. *)
From Stdlib Require Import Lia.
From S2P Require Import Prelude Models Database AuditLog Operations PveApi Keeps ProvApi.
From S2P Require Import PowerRunner IpAddr Ipam IpamOps ProvRunner Provisioning ProvInv ProvLedger.
From S2P Require Import ProvRun ProvSteps ProvService Demo DemoPower DemoProv.

Section saga.
Context {E : Type} `{Runtime E} `{PowerApi E} `{ProvisioningApi E} `{ProvisioningSecrets E}.
Context `{Digests} (settings : ProvisioningSettings).
Implicit Types (d : db) (e : E).

(** C22: a run of the saga conserves the capacity of every node: what it has
    available and what the requests hold of it add up to the same before and after,
    whatever step failed or raised, and no node is ever promised beyond zero. *)
Theorem capacity_conserved request_id d e r d' e' :
  ledger_db d → exec (run_provisioning_request settings request_id) d e = (r, d', e') →
  (∀ i, node_memory d' i = node_memory d i ∧ node_storage d' i = node_storage d i) ∧
  capacity_sane d'.
Proof.
  intros Hd Hrun. start_run Hrun.
  eapply wp_mono; [apply (inv_run_provisioning_request settings request_id
    (λ d' _, ledger d d') (ledger_saga request_id d) (ledger_run request_id d)); [by intros ? ? ? ?|]|].
  - by split.
  - intros r' w [[Hl Hsum] _]. split; [exact Hsum|apply Hl].
Qed.



(** C31: a run asks the clusters for at most one clone, and only for a request
    that then says so: one with a clone call is never reported FAILED. *)
Theorem one_clone_per_run request_id d e r d' t' :
  provisioning_sound d →
  exec (run_provisioning_request (E := traced E) settings request_id) d (Traced e []) = (r, d', t') →
  (clones t' ≤ 1)%nat ∧
  ((1 ≤ clones t')%nat → ∃ q, db_requests d' !! request_id = Some q ∧
     prq_clone_submitted q = true ∧ prq_status q ≠ PS_FAILED).
Proof.
  intros Hd Hrun. eapply exec_wp in Hrun; [|by apply (wp_clone_run settings request_id)].
  by destruct Hrun as (w & Hpost & <- & <-).
Qed.

(** While a worker's lease runs, every other worker leaves the request alone:
    its run returns without a change to the database and without a call to a
    cluster. *)
Theorem claim_excludes request_id runner_id d e q d1 e1 e2 r d2 t2 :
  keyed provisioning_request d →
  exec (_claim settings runner_id request_id) d e = (Ok (Some q), d1, e1) →
  (env_now (env_uuid4 e2).2).1 <
    (env_now e).1 + seconds (prov_operation_lease_seconds settings) →
  exec (run_provisioning_request (E := traced E) settings request_id) d1 (Traced e2 []) = (r, d2, t2) →
  r = Ok tt ∧ d2 = d1 ∧ tr_events t2 = [].
Proof.
  intros Kq Hclaim Hnow Hrun.
  assert (keyed provisioning_request d1 ∧
    (∀ q', db_requests d1 !! request_id = Some q' →
       q' = q ∧ claimable (env_now (env_uuid4 e2).2).1 q = false)) as [Kq1 Hq].
  { revert Hclaim. unfold exec. pose proof (wp_claim_request settings runner_id request_id
      (λ r w, ∀ q, r = Ok (Some q) → keyed provisioning_request (w_db w) ∧
        ∀ q', db_requests (w_db w) !! request_id = Some q' →
          q' = q ∧ claimable (env_now (env_uuid4 e2).2).1 q = false) (World d d false e)) as Hwp.
    unfold wp in Hwp. destruct (_claim _ _ _ _) as [r0 w0]. simpl in Hwp.
    intros [= -> <- _]. apply Hwp; clear Hwp; [exact Kq|by intros|by intros| |done].
    intros now e' q0 d' He Hq0 _ -> _ ? [= <-]. split.
    - intros i q' Hi. cbn in Hi. apply lookup_insert_Some in Hi as [[<- <-]|[_ Hi]]; [|by apply Kq].
      by apply (Kq _ q0).
    - cbn. rewrite lookup_insert_eq. intros q' [= <-]. split; [done|].
      unfold claimable. simpl.
      apply Z.leb_gt. rewrite He in Hnow. simpl in Hnow. unfold _lease_deadline. lia. }
  eapply (exec_wp _ _ _ _ _ _ (λ r w, r = Ok tt ∧ w_db w = d1 ∧ tr_events (w_env w) = [])) in Hrun.
  { by destruct Hrun as (w & (-> & <- & Hev) & <- & <-). }
  apply wp_bind, wp_from_env. intros rid t Ht. apply wp_bind.
  injection Ht as _ <-. apply wp_claim_request; simpl; [exact Kq1|..].
  - intros now t' [= _ <-] _. by apply wp_ret.
  - intros now t' q' d' [= <- _] Hq' Hc. destruct (Hq q' Hq') as [-> Hf]. congruence.
  - intros now t' q' d' [= <- _] Hq' Hc. destruct (Hq q' Hq') as [-> Hf]. congruence.
Qed.
End saga.

Section steps.
Context {E : Type} `{Runtime E} `{PowerApi E} `{ProvisioningApi E} `{ProvisioningSecrets E}.
Context `{Digests}.
Implicit Types (d : db) (e : E) (self : ProvisioningRunner).

(** C32: from the guests that the cluster reports, the step gives the request its
    own VMID unless it is taken, and otherwise the least free VMID of
    [100, 999999]; it fails exactly when the VMID is taken, or all are, and then
    changes nothing.  No constraint of the database refuses the choice. *)
Theorem reserves_free_vmid self cluster_id d e guests q r d' e' :
  integrity d = true → keyed provisioning_request d →
  db_requests d !! self_request self = Some q →
  (api_get_guests cluster_id e).1 = inr guests →
  exec (_reserve_vmid self (Connected cluster_id)) d e = (r, d', e') →
  vmid_post d q guests r d'.
Proof. intros Hint Kq Hq Hg Hrun. start_run Hrun. by apply wp_reserve_vmid. Qed.

(** After the assignment step the machine belongs to the request's
    organization: its row says so, it has an active assignment, every active
    assignment is to that organization, and the request names the machine.  Where
    the step raises, for a machine of another organization among others, nothing
    has changed. *)
Theorem machine_assigned self d e q r d' e' :
  keyed workload d → keyed provisioning_request d →
  db_requests d !! self_request self = Some q →
  exec (_assign_organization self) d e = (r, d', e') →
  match r with
  | Ok _ => ∃ id, owned_by d' id (prq_organization_id q) ∧
      ∃ q', db_requests d' !! self_request self = Some q' ∧ prq_workload_id q' = Some id
  | Raise _ => d' = d
  end.
Proof.
  intros Kw Kq Hq Hrun. start_run Hrun.
  eapply wp_mono; [by apply wp_assign_organization|]. by intros [].
Qed.
End steps.

Section service.
Context {E : Type} `{RuntimeLaws E} `{Publisher E} `{ProvisioningSecrets E} `{Digests}.
Implicit Types (d : db) (e : E) (self : service) (p : ProvisioningRequestCreate).

(** A request for a machine is accepted only from a super administrator, for
    references that are enabled, active and compatible with one another, and then
    records one QUEUED request, its specification and its fifteen PENDING steps in
    order; any other outcome leaves the database as it was. *)
Theorem request_recorded self p key d e r d' e' :
  exec (provisioning_service self (create_request self p key)) d e = (r, d', e') →
  match r with
  | Ok (resp, true) => ∃ q, accepted self p key d resp q d'
  | _ => d' = d
  end.
Proof.
  intros Hrun. start_run Hrun. eapply wp_mono; [by apply wp_create_request|].
  intros [[resp []]|x] w Hpost; simpl in *; [done|by destruct Hpost|done].
Qed.

(** Repeating an accepted request returns the same request, changes nothing
    and does not show the initial password again. *)
Theorem repeated_request self p key d e1 resp d' e1' e2 r d'' e2' :
  exec (provisioning_service self (create_request self p key)) d e1 = (Ok (resp, true), d', e1') →
  exec (provisioning_service self (create_request self p key)) d' e2 = (r, d'', e2') →
  d'' = d' ∧ ∃ resp', r = Ok (resp', false) ∧ rr_id resp' = rr_id resp ∧
    rr_initial_password resp' = None.
Proof.
  intros H1' H2'. eapply exec_wp in H1'; [|by apply wp_create_request].
  destruct H1' as (w & (q & Ha) & Hw & _). rewrite Hw in Ha.
  pose proof (replayed_request self p key d resp q d' (World d' d' false e2) Ha eq_refl) as Hreplay.
  start_run H2'. eapply wp_mono; [exact Hreplay|].
  intros r' w' (Hdb & resp' & -> & Hid & Hpw). split; [by rewrite Hdb|]. exists resp'.
  split_and!; [done| |done]. rewrite Hid. symmetry. by apply Ha.
Qed.

(** C33: every generated password has 24 characters of the alphabet, among them a
    lower-case and an upper-case letter, a digit and a symbol; generating one never
    fails and never touches the database. *)
Theorem password_meets_policy d e r d' e' :
  exec (_generate_windows_password (E := E)) d e = (r, d', e') →
  d' = d ∧ ∃ s, r = Ok s ∧ password_ok s = true.
Proof.
  intros Hrun. start_run Hrun. apply wp_generate_windows_password. intros s e0 Hs. eauto.
Qed.
End service.

Section secret.
Context {E : Type} `{RuntimeLaws E} `{Publisher E} `{AesGcmLaws E} `{Digests}.

(** The runner decrypts what the service encrypted: from the database that an
    accepted request left, the identity step of that request reads exactly the
    password the response showed. *)
Theorem password_round_trip self p key d (e : E) resp d' e' password runner_id actor e2 :
  exec (provisioning_service self (create_request self p key)) d e = (Ok (resp, true), d', e') →
  rr_initial_password resp = Some password →
  exec (_decrypt_initial_password (mkRunner (rr_id resp) runner_id actor)) d' e2 =
    (Ok password, d', e2).
Proof.
  intros Hrun Hpw. eapply exec_wp in Hrun; [|by apply wp_create_request].
  destruct Hrun as (w & (q & Ha) & Hw & _). rewrite Hw in Ha.
  pose proof (accepted_row _ _ _ _ _ _ _ Ha) as Hrow.
  destruct (ac_checked _ _ _ _ _ _ _ Ha) as
    (prod & tpl & source & pool & secret & task_id & at_ & _ & _ & Hsecret & Hresp & Hq).
  rewrite Hresp in Hpw. destruct secret as [[pw [ciphertext nonce version]]|]; [|done].
  simpl in Hpw. simplify_eq. destruct Hsecret as (_ & _ & Hversion & Hcipher). simpl in *.
  destruct (ac_response _ _ _ _ _ _ _ Ha) as [-> _].
  pose proof (f_equal prq_initial_password_ciphertext Hq) as Hc.
  pose proof (f_equal prq_initial_password_nonce Hq) as Hn.
  pose proof (f_equal prq_initial_password_key_version Hq) as Hv.
  pose proof (f_equal prq_target_cluster_id Hq) as Hcluster. simpl in *.
  unfold exec, _decrypt_initial_password, the_request, mbind, M_bind, db_get, gets. simpl.
  rewrite Hrow. simpl. rewrite Hc, Hn, Hv, Hcluster, Hcipher, Hversion. unfold decrypt_secret. simpl.
  by rewrite aesgcm_round_trip.
Qed.
End secret.

(** ** Witnesses: the demo catalogue, its requests and their runs *)

(** The tables of the demo are sound, by evaluation. *)
Lemma provisioning_sound_by_eval d :
  integrity d = true → bool_decide (keyed provisioning_node d) = true →
  bool_decide (keyed provisioning_request d) = true →
  bool_decide (keyed provisioning_step d) = true → bool_decide (keyed ip_allocation d) = true →
  provisioning_sound d.
Proof. intros ? ?%bool_decide_eq_true ?%bool_decide_eq_true ?%bool_decide_eq_true ?%bool_decide_eq_true. by split. Qed.

Definition sane_node (n : provisioning_node) : bool :=
  (0 <=? pn_available_memory_bytes n) && (0 <=? pn_available_storage_bytes n).
Definition sane_spec (q : provisioning_request) : bool :=
  match spec_size q with Some (m, s) => (0 <=? m) && (0 <=? s) | None => true end.

Lemma ledger_db_by_eval d :
  provisioning_sound d → forallb sane_node (map_to_list (db_nodes d)).*2 = true →
  forallb sane_spec (map_to_list (db_requests d)).*2 = true → ledger_db d.
Proof.
  intros [_ Kn Kq Ks _] Hn Hq. split; [done..|]. rewrite List.forallb_forall in Hn, Hq.
  assert (∀ A (m : gmap N A) i a, m !! i = Some a → List.In a (map_to_list m).*2) as Hrow.
  { intros A m i a Hi. apply list_elem_of_In, list_elem_of_fmap. exists (i, a). by rewrite elem_of_map_to_list. }
  split.
  - intros i n Hi. specialize (Hn n (Hrow _ _ _ _ Hi)). unfold sane_node in Hn. lia.
  - intros i q m s Hi Hsize. specialize (Hq q (Hrow _ _ _ _ Hi)). unfold sane_spec in Hq.
    rewrite Hsize in Hq. lia.
Qed.

Lemma demo_linux_sound : provisioning_sound demo_linux.
Proof. apply provisioning_sound_by_eval; vm_compute; reflexivity. Qed.

Lemma demo_linux_ledger : ledger_db demo_linux.
Proof. apply ledger_db_by_eval; [exact demo_linux_sound|vm_compute; reflexivity..]. Qed.

(** A run on the scripted clusters, without the trace. *)
Definition demo_run (e : script) (d : db) : outcome () * db * script :=
  exec (run_provisioning_request demo_prov demo_id) d e.

(** The node, the request and its capacity after a successful run. *)
Lemma capacity_conserved_witness :
  node_memory (demo_run demo_good demo_linux).1.2 50 = Some (8 * GIB) ∧
  capacity_sane (demo_run demo_good demo_linux).1.2.
Proof.
  unfold demo_run. destruct (exec _ _ _) as [[r d'] e'] eqn:He.
  destruct (capacity_conserved demo_prov demo_id _ _ _ _ _ demo_linux_ledger He) as [Hsum Hsane].
  split; [|exact Hsane]. simpl. rewrite (proj1 (Hsum 50%N)). vm_compute. reflexivity.
Defined.

(** The cluster refuses the clone: the request is finished all the same. *)
Lemma demo_run_bad_status :
  (λ o, (o.1.1, prq_status <$> db_requests o.1.2 !! demo_id)) (demo_run demo_bad demo_linux) =
    (Ok tt, Some PS_MANUAL_REVIEW).
Proof. vm_compute. reflexivity. Qed.


(** The product was withdrawn after the request was accepted. *)
Definition demo_withdrawn : db :=
  demo_linux <| db_products := {[ 30%N := demo_product <| prod_is_enabled := false |> ]} |>.

Lemma demo_withdrawn_sound : provisioning_sound demo_withdrawn.
Proof. apply provisioning_sound_by_eval; vm_compute; reflexivity. Qed.


Lemma one_clone_per_run_witness :
  clones (demo_run_prov demo_bad demo_linux).2 = 1%nat ∧
  ∃ q, db_requests (demo_run_prov demo_bad demo_linux).1.2 !! demo_id = Some q ∧
    prq_clone_submitted q = true ∧ prq_status q ≠ PS_FAILED.
Proof.
  split; [vm_compute; reflexivity|].
  apply (one_clone_per_run demo_prov demo_id demo_linux demo_bad _ _ _ demo_linux_sound
    (exec_outcome _ _ _ _ eq_refl)).
  vm_compute. constructor.
Defined.

(** The database after the claim of the worker 700; another one comes within the lease. *)
Definition demo_claimed : outcome (option provisioning_request) * db * script :=
  exec (_claim demo_prov 700 demo_id) demo_linux demo_good.

Lemma claim_excludes_witness :
  (demo_run_prov demo_bad demo_claimed.1.2).1.2 = demo_claimed.1.2 ∧
  tr_events (demo_run_prov demo_bad demo_claimed.1.2).2 = [].
Proof.
  destruct (demo_run_prov demo_bad demo_claimed.1.2) as [[r d2] t2] eqn:Hrun.
  destruct demo_claimed as [[[[q|]|x] d1] e1] eqn:Hclaim;
    [|exfalso; vm_compute in Hclaim; discriminate Hclaim..].
  unfold demo_run_prov, demo_claimed in *.
  apply (claim_excludes demo_prov demo_id 700 demo_linux demo_good q d1 e1) in Hrun.
  - exact (proj2 Hrun).
  - exact (ps_requests demo_linux demo_linux_sound).
  - exact Hclaim.
  - vm_compute. reflexivity.
Defined.

(** A request of the demo that has a node, and a VMID where one is given. *)
Definition demo_placed (vmid : option Z) : db :=
  demo_linux <| db_requests ::= fmap (λ q, q <| prq_target_vmid := vmid |>
                                             <| prq_target_node_id := Some 50%N |>) |>.
Definition demo_runner : ProvisioningRunner := mkRunner demo_id 700 (Some demo_user).

Lemma demo_placed_sound vmid :
  vmid = None ∨ vmid = Some 102 → provisioning_sound (demo_placed vmid).
Proof. by intros [-> | ->]; apply provisioning_sound_by_eval; vm_compute. Qed.

Lemma reserves_free_vmid_witness :
  ∃ q v, least_free (taken_vmids (demo_placed None) q
                       [[("vmid", JInt 100)]; [("vmid", JInt 101)]]) v ∧
    (exec (_reserve_vmid demo_runner (Connected 1)) (demo_placed None) demo_good).1.1
      = Ok [("vmid", JInt v)].
Proof.
  assert (provisioning_sound (demo_placed None)) as Hs by (apply demo_placed_sound; by left).
  destruct (db_requests (demo_placed None) !! demo_id) as [q|] eqn:Hq;
    [|exfalso; vm_compute in Hq; discriminate Hq].
  destruct (exec _ _ _) as [[[o|x] d'] e'] eqn:He; [|exfalso; vm_compute in He; discriminate He].
  pose proof (reserves_free_vmid demo_runner 1 _ demo_good [[("vmid", JInt 100)]; [("vmid", JInt 101)]]
    q _ _ _ (ps_integrity _ Hs) (ps_requests _ Hs) Hq eq_refl He) as Hp.
  assert (prq_target_vmid q = None) as Hnone by (vm_compute in Hq; by injection Hq as <-).
  unfold vmid_post in Hp. rewrite Hnone in Hp. destruct Hp as [(v & Hv & -> & _)|(_ & Hr & _)].
  - exists q, v. split; [exact Hv|reflexivity].
  - discriminate Hr.
Defined.

(** The machine of the demo is registered and assigned. *)
Lemma machine_assigned_witness :
  ∃ id, owned_by (exec (_assign_organization demo_runner) (demo_placed (Some 102)) demo_good).1.2 id 3.
Proof.
  assert (provisioning_sound (demo_placed (Some 102))) as Hs by (apply demo_placed_sound; by right).
  assert (bool_decide (keyed workload (demo_placed (Some 102))) = true) as Kw%bool_decide_eq_true
    by (vm_compute; reflexivity).
  destruct (db_requests (demo_placed (Some 102)) !! demo_id) as [q|] eqn:Hq;
    [|exfalso; vm_compute in Hq; discriminate Hq].
  assert (prq_organization_id q = 3%N) as Horg by (vm_compute in Hq; by injection Hq as <-).
  destruct (exec _ _ _) as [[[o|x] d'] e'] eqn:He; [|exfalso; vm_compute in He; discriminate He].
  pose proof (machine_assigned demo_runner _ _ _ _ _ _ Kw (ps_requests _ Hs) Hq He) as (id & Hown & _).
  exists id. rewrite <-Horg. exact Hown.
Defined.

Lemma request_recorded_witness :
  ∃ resp q, accepted demo_admin (demo_payload 41) "key-1" demo_catalogue resp q demo_windows.
Proof.
  unfold demo_windows, demo_created, demo_create.
  destruct (exec _ _ _) as [[[[resp []]|x] d'] e'] eqn:He;
    [|exfalso; vm_compute in He; discriminate He..].
  exists resp. exact (request_recorded demo_admin (demo_payload 41) "key-1" _ _ _ _ _ He).
Defined.

(** The same key and payload once more. *)
Lemma repeated_request_witness :
  (exec (demo_create 41 "key-1") demo_windows (script_at 600 [] [] [])).1.2 = demo_windows ∧
  ∃ resp, (exec (demo_create 41 "key-1") demo_windows (script_at 600 [] [] [])).1.1 = Ok (resp, false).
Proof.
  unfold demo_windows, demo_created, demo_create.
  destruct (exec _ demo_catalogue _) as [[[[resp []]|x] d'] e'] eqn:He;
    [|exfalso; vm_compute in He; discriminate He..].
  simpl. destruct (exec _ d' _) as [[r d''] e''] eqn:He2.
  destruct (repeated_request demo_admin (demo_payload 41) "key-1" _ _ _ _ _ _ _ _ _ He He2)
    as (-> & resp' & -> & _).
  split; [reflexivity|by exists resp'].
Defined.

Lemma password_meets_policy_witness :
  ∃ s, (exec (_generate_windows_password (E := script)) demo_catalogue demo_good).1.1 = Ok s ∧
    password_ok s = true.
Proof.
  destruct (exec _ _ _) as [[r d'] e'] eqn:He.
  exact (proj2 (password_meets_policy _ _ _ _ _ He)).
Defined.

(** The password shown for the Windows machine is the one the runner sets. *)
Definition shown_password (r : outcome (ProvisioningRequestResponse * bool)) : option (N * option bool) :=
  match r with
  | Ok (resp, _) => Some (rr_id resp, password_ok <$> rr_initial_password resp)
  | Raise _ => None
  end.

Lemma demo_windows_password :
  shown_password (exec (demo_create 41 "key-1") demo_catalogue (script_at 500 [] [] [])).1.1 =
    Some (demo_id, Some true).
Proof. vm_compute. reflexivity. Qed.

Lemma password_round_trip_witness :
  ∃ password, (exec (_decrypt_initial_password demo_runner) demo_windows demo_good).1.1 = Ok password ∧
    password_ok password = true.
Proof.
  pose proof demo_windows_password as Hshown.
  unfold demo_windows, demo_created, demo_create in *.
  destruct (exec _ demo_catalogue _) as [[[[resp []]|x] d'] e'] eqn:He;
    [|exfalso; vm_compute in He; discriminate He|discriminate Hshown].
  simpl in Hshown. injection Hshown as Hid Hpw.
  destruct (rr_initial_password resp) as [password|] eqn:Hp; [|discriminate Hpw].
  injection Hpw as Hok. exists password. split; [|exact Hok].
  change demo_runner with (mkRunner demo_id 700 (Some demo_user)). rewrite <-Hid. simpl.
  rewrite (password_round_trip demo_admin (demo_payload 41) "key-1" _ _ _ _ _ _ 700 (Some demo_user)
    demo_good He Hp). reflexivity.
Defined.
