(* ===== verification/WorkloadProps.v ===== *)
(** * Ownership of machines

    A machine's owner is recorded twice: on its row and as the active assignment of
    its history.  The service of Workloads.v and the assignment step of the
    provisioning saga are what changes either; the two always agree. *)
From Stdlib Require Import Lia.
From S2P Require Import Prelude Models Database AuditLog Operations PveApi Keeps ProvApi.
From S2P Require Import PowerRunner IpAddr Ipam ProvRunner ProvInv ProvSteps Workloads.
From S2P Require Import Provisioning Demo DemoPower DemoProv.

(** ** The invariant *)

Definition owner_in (W : gmap N workload) (id : N) : option N := W !! id ≫= wl_organization_id.
Definition owner (d : db) : N → option N := owner_in (db_workloads d).

(** Active assignments and owners name each other. *)
Record agrees (W : gmap N workload) (A : gmap N workload_assignment) : Prop := {
  ag_active i a id : A !! i = Some a → active_assignment id a = true →
    owner_in W id = Some (wa_organization_id a);
  ag_owned id o : owner_in W id = Some o →
    ∃ i a, A !! i = Some a ∧ active_assignment id a = true }.

Record ownership (d : db) : Prop := {
  ow_integrity : integrity d = true;
  ow_workloads : keyed workload d;
  ow_assignments : keyed workload_assignment d;
  ow_requests : keyed provisioning_request d;
  ow_organizations : keyed organization d;
  ow_agrees : agrees (db_workloads d) (db_assignments d) }.

Lemma owner_in_insert W id wl : owner_in (<[id := wl]> W) id = wl_organization_id wl.
Proof. unfold owner_in. by rewrite lookup_insert_eq. Qed.

Lemma owner_in_insert_ne W id wl k : id ≠ k → owner_in (<[id := wl]> W) k = owner_in W k.
Proof. intros Hne. unfold owner_in. by rewrite lookup_insert_ne. Qed.

Lemma active_workload id a : active_assignment id a = true → wa_workload_id a = id.
Proof. unfold active_assignment. by intros [?%bool_decide_eq_true _]%andb_true_iff. Qed.

Lemma agrees_assign W A id wl i a o :
  agrees W A → wl_organization_id wl = Some o → wa_organization_id a = o →
  active_assignment id a = true →
  (∀ j b, A !! j = Some b → active_assignment id b = true → j = i) →
  A !! i = None ∨ A !! i = Some a → agrees (<[id := wl]> W) (<[i := a]> A).
Proof.
  intros [Hact Hown] Hwl Ha Hid Honly Hi. split.
  - intros j b k Hj Hk. apply lookup_insert_Some in Hj as [[<- <-]|[Hne Hj]].
    + assert (k = id) as -> by (rewrite <-(active_workload _ _ Hk); by apply active_workload).
      rewrite owner_in_insert. congruence.
    + assert (id ≠ k) by (intros ->; apply Hne; symmetry; by eapply Honly).
      rewrite owner_in_insert_ne by done. by eapply Hact.
  - intros k o' Hk. destruct (decide (id = k)) as [->|Hne].
    { exists i, a. by rewrite lookup_insert_eq. }
    rewrite owner_in_insert_ne in Hk by done. destruct (Hown _ _ Hk) as (j & b & Hj & Hb).
    exists j, b. split; [|done]. rewrite lookup_insert_ne; [done|]. intros ->.
    destruct Hi as [Hi|Hi]; [congruence|]. apply Hne. rewrite Hi in Hj. injection Hj as <-.
    rewrite <-(active_workload _ _ Hb). symmetry. by apply active_workload.
Qed.

Lemma agrees_unassign W A A' id wl :
  agrees W A → wl_organization_id wl = None →
  (∀ k j b, A' !! j = Some b ∧ active_assignment k b = true ↔
            k ≠ id ∧ A !! j = Some b ∧ active_assignment k b = true) →
  agrees (<[id := wl]> W) A'.
Proof.
  intros [Hact Hown] Hwl Hiff. split.
  - intros j b k Hj Hk. destruct (proj1 (Hiff k j b) (conj Hj Hk)) as (Hne & Hj' & _).
    rewrite owner_in_insert_ne by done. by eapply Hact.
  - intros k o Hk. destruct (decide (id = k)) as [->|Hne].
    { rewrite owner_in_insert in Hk. congruence. }
    rewrite owner_in_insert_ne in Hk by done. destruct (Hown _ _ Hk) as (j & b & Hj & Hb).
    exists j, b. by apply Hiff.
Qed.

(** One active assignment per machine. *)
Lemma active_unique d i j a b id :
  integrity d = true → db_assignments d !! i = Some a → db_assignments d !! j = Some b →
  active_assignment id a = true → active_assignment id b = true → i = j.
Proof.
  intros Hint Hi Hj Ha Hb. unfold active_assignment in *.
  rewrite andb_true_iff, !bool_decide_eq_true in Ha, Hb. destruct Ha as [Ha Ha'], Hb as [Hb Hb'].
  eapply (integrity_unique uq_workload_assignments_active_workload d _ Hint i j a b id); try done;
    unfold uq_workload_assignments_active_workload; rewrite ?Ha', ?Hb'; congruence.
  Unshelve. simpl. tauto.
Qed.

(** The tables after an assignment of the machine [id] to [o]. *)
Record assigned_rows_of (d : db) (id o : N) (d' : db) : Prop := {
  as_workloads : ∃ wl, wl_id wl = id ∧ wl_organization_id wl = Some o ∧
    db_workloads d' = <[id := wl]> (db_workloads d);
  as_assignments : ∃ a, active_assignment id a = true ∧ wa_organization_id a = o ∧
    db_assignments d' = <[wa_id a := a]> (db_assignments d) ∧
    (db_assignments d !! wa_id a = Some a ∨
     db_assignments d !! wa_id a = None ∧
     first_row (active_assignment id) d = None) }.

Lemma ownership_assigned d id o d' :
  ownership d → assigned_rows_of d id o d' → integrity d' = true →
  keyed provisioning_request d' → keyed organization d' → ownership d'.
Proof.
  intros [Hint Kw Ka _ _ Hag] [(wl & Hid & Hwl & HW) (a & Hact & Ho & HA & Hrow)] Hint' Kq' Ko'.
  split; try done.
  - intros i r. simpl. rewrite HW, <-Hid. exact (lookup_insert_key wl_id _ _ Kw i r).
  - intros i r. simpl. rewrite HA. exact (lookup_insert_key wa_id _ _ Ka i r).
  - rewrite HW, HA. eapply agrees_assign; try done.
    + intros j b Hj Hb. destruct Hrow as [Hrow|[_ Hnone]]; [by apply (active_unique d j (wa_id a) b a id)|].
      by rewrite (first_row_None _ _ Hnone _ _ Hj) in Hb.
    + destruct Hrow as [|[]]; auto.
Qed.

(** The tables after a revocation of the machine [id]'s assignment. *)
Record revoked_rows (d : db) (id : N) (d' : db) : Prop := {
  rr_workloads : ∃ wl, wl_id wl = id ∧ wl_organization_id wl = None ∧
    db_workloads d' = <[id := wl]> (db_workloads d);
  rr_assignments :
    (∃ a b, active_assignment id a = true ∧ db_assignments d !! wa_id b = Some a ∧
       wa_workload_id b = id ∧ is_Some (wa_revoked_at b) ∧
       db_assignments d' = <[wa_id b := b]> (db_assignments d)) ∨
    (db_assignments d' = db_assignments d ∧ first_row (active_assignment id) d = None) }.

Lemma revoked_inactive b k : is_Some (wa_revoked_at b) → active_assignment k b = false.
Proof.
  intros [t Ht]. unfold active_assignment. rewrite Ht, (bool_decide_false (Some t = None)) by done.
  apply andb_false_r.
Qed.

Lemma ownership_revoked d id d' :
  ownership d → revoked_rows d id d' → integrity d' = true →
  keyed provisioning_request d' → keyed organization d' → ownership d'.
Proof.
  intros [Hint Kw Ka _ _ Hag] [(wl & Hid & Hwl & HW) HA] Hint' Kq' Ko'.
  split; try done.
  - intros i r. simpl. rewrite HW, <-Hid. exact (lookup_insert_key wl_id _ _ Kw i r).
  - destruct HA as [(a & b & _ & _ & _ & _ & HA)|[HA _]]; intros i r; simpl; rewrite HA.
    + exact (lookup_insert_key wa_id _ _ Ka i r).
    + apply Ka.
  - rewrite HW. eapply agrees_unassign; [done..|]. intros k j b.
    destruct HA as [(a & b' & Ha & Hrow & Hw & Hrev & ->)|[-> Hnone]].
    + destruct (decide (wa_id b' = j)) as [<-|Hne].
      * rewrite lookup_insert_eq, Hrow. split.
        -- intros [[= <-] Hb]. by rewrite revoked_inactive in Hb.
        -- intros (Hne & [= <-] & Hb). destruct Hne. rewrite <-(active_workload _ _ Hb).
           by apply active_workload.
      * rewrite lookup_insert_ne by done. split; [|naive_solver]. intros [Hj Hb]. split_and!; try done.
        intros ->. apply Hne. by apply (active_unique d (wa_id b') j a b id).
    + split; [|naive_solver]. intros [Hj Hb]. split_and!; try done.
      intros ->. by rewrite (first_row_None _ _ Hnone _ _ Hj) in Hb.
Qed.

(** ** The service *)

Section service.
Context {E : Type} `{Runtime E}.
Implicit Types (self : service) (d : db) (w : world E).

Lemma wp_locked_workload id Q w :
  keyed workload (w_tx w) → (∀ x, Q (Raise x) w) →
  (∀ wl, db_workloads (w_tx w) !! id = Some wl → wl_id wl = id → Q (Ok wl) w) →
  wp (_locked_workload id) Q w.
Proof.
  intros Kw Hr Ho. unfold _locked_workload. apply wp_bind, wp_gets, wp_bind, wp_or_raise; [auto|].
  intros [[wl cname] oname] Hhead. apply wp_ret. simpl.
  assert (((wl, cname), oname) ∈ present_rows (λ wl, bool_decide (wl_id wl = id)) (w_tx w)) as Hin.
  { destruct (present_rows _ _); simplify_eq/=. apply list_elem_of_here. }
  apply list_elem_of_omap in Hin as (wl' & [HP [i Hi]]%elem_of_select & Hj).
  rewrite andb_true_iff, bool_decide_eq_true in HP. destruct HP as [_ HP].
  unfold joined in Hj. destruct (db_clusters _ !! _) as [cl|]; [|done]. simpl in Hj.
  destruct (cl_is_active cl); simplify_eq. pose proof (Kw _ _ Hi) as Hk. simpl in Hk. subst i.
  by apply Ho.
Qed.

Lemma wp_record_assignment self wl org d e :
  keyed provisioning_request d → keyed organization d →
  first_row (active_assignment (wl_id wl)) d = None →
  wp (record_assignment self wl org)
    (λ r w, match r with
            | Raise _ => w_db w = d
            | Ok _ => assigned_rows_of d (wl_id wl) (org_id org) (w_db w) ∧
                      integrity (w_db w) = true ∧ keyed provisioning_request (w_db w) ∧
                      keyed organization (w_db w)
            end) (World d d false e).
Proof.
  intros Kq Ko Hnone. unfold record_assignment. wp_run; try done.
  split; [|by split_and!]. fresh_row. split.
  - eexists. split_and!; [| |reflexivity]; done.
  - exists (new_assignment a (wl_id wl) (org_id org) (p_user_id (self_principal self)) a0).
    split_and!; try done; [|by right]. unfold active_assignment. simpl. by rewrite !bool_decide_true.
Qed.

Lemma wp_assign self id o d e :
  ownership d →
  wp (assign self id o)
    (λ r w, match r with
            | Raise _ => w_db w = d
            | Ok _ => owner d id ∈ [None; Some o] ∧
                      (w_db w = d ∧ owner d id = Some o ∨
                       assigned_rows_of d id o (w_db w) ∧ integrity (w_db w) = true ∧
                       keyed provisioning_request (w_db w) ∧ keyed organization (w_db w))
            end) (World d d false e).
Proof.
  intros Hd. pose proof Hd as [Hint Kw Ka Kq Ko [Hact Howned]]. unfold assign.
  apply wp_bind, wp_locked_workload; [done|done|]. intros wl Hwl Hid. subst id. simpl in Hwl.
  assert (owner d (wl_id wl) = wl_organization_id wl) as Hown
    by (unfold owner, owner_in; by rewrite Hwl).
  apply wp_bind, wp_db_get. intros row Hrow. apply wp_bind, wp_or_raise; [done|].
  intros org ->. apply wp_bind, wp_raise_if; [done|intros _]. apply wp_bind, wp_raise_if; [done|intros _].
  simpl in Hrow. pose proof (Ko _ _ Hrow) as Hk. simpl in Hk. subst o.
  apply wp_bind, wp_db_scalar. intros active Hactive. destruct active as [a|].
  - apply first_row_Some in Hactive as [Ha [i Hi]]. apply wp_bind, wp_raise_if; [done|].
    intros Horg%bool_decide_eq_false%dec_stable. apply wp_ret. simpl.
    assert (owner d (wl_id wl) = Some (org_id org)) as Ho by (rewrite <-Horg; by eapply Hact).
    rewrite Ho. split; [set_solver|by left].
  - apply wp_bind, wp_raise_if; [done|]. intros Hfree%bool_decide_eq_false%dec_stable.
    eapply wp_mono; [by apply wp_record_assignment|]. intros [resp|x] w; [|done].
    intros Hrec. rewrite Hown. auto.
Qed.

Lemma wp_revoke_assignment self wl previous reason d e :
  ownership d →
  wp (revoke_assignment self wl previous reason)
    (λ r w, match r with
            | Raise _ => w_db w = d
            | Ok _ => revoked_rows d (wl_id wl) (w_db w) ∧ integrity (w_db w) = true ∧
                      keyed provisioning_request (w_db w) ∧ keyed organization (w_db w)
            end) (World d d false e).
Proof.
  intros [Hint Kw Ka Kq Ko _]. unfold revoke_assignment. wp_run; try done.
  - match goal with Hf : first_row _ _ = Some _ |- _ => apply first_row_Some in Hf as [Ha [i Hi]] end.
    pose proof (Ka _ _ Hi) as Hk. simpl in Hk. subst i.
    split; [|by split_and!]. split; [eexists; split_and!; [| |reflexivity]; done|]. left.
    eexists _, _. split_and!; [exact Ha| | | |reflexivity]; try done. simpl. by apply active_workload.
  - split; [|by split_and!]. split; [eexists; split_and!; [| |reflexivity]; done|]. by right.
Qed.

Lemma wp_unassign self id reason d e :
  ownership d →
  wp (unassign self id reason)
    (λ r w, match r with
            | Raise _ => w_db w = d
            | Ok _ => w_db w = d ∧ owner d id = None ∨
                (∀ j o, db_operations d !! j = Some o → op_workload_id o = id → op_active o = false) ∧
                revoked_rows d id (w_db w) ∧ integrity (w_db w) = true ∧
                keyed provisioning_request (w_db w) ∧ keyed organization (w_db w)
            end) (World d d false e).
Proof.
  intros Hd. unfold unassign. apply wp_bind, wp_locked_workload; [apply Hd|done|].
  intros wl Hwl Hid. subst id. simpl in Hwl.
  assert (owner d (wl_id wl) = wl_organization_id wl) as Hown
    by (unfold owner, owner_in; by rewrite Hwl).
  destruct (wl_organization_id wl) as [previous|] eqn:Ho; [|apply wp_ret; by left].
  apply wp_bind, wp_db_scalar. intros op Hop. apply wp_bind, wp_raise_if; [done|].
  intros Hnone%bool_decide_eq_false. apply eq_None_not_Some in Hnone. subst op. simpl in Hnone.
  eapply wp_mono; [by apply wp_revoke_assignment|]. intros [[]|x] w Hpost; [right|done].
  split; [|done]. by apply op_conflicts_free.
Qed.
End service.

(** ** The provisioning saga *)

Section saga.
Context {E : Type} `{Runtime E} `{PowerApi E} `{ProvisioningApi E} `{ProvisioningSecrets E}.
Context `{Digests}.
Implicit Types (self : ProvisioningRunner) (d : db).

(** [assign_machine] on a session whose other tables are those of [d]. *)
Lemma wp_assign_machine_rows self q wl d W (w : world E) :
  keyed provisioning_request d → keyed workload_assignment d →
  db_workloads (w_tx w) = <[wl_id wl := wl]> W → db_assignments (w_tx w) = db_assignments d →
  db_requests (w_tx w) = db_requests d → db_requests d !! self_request self = Some q →
  W = db_workloads d →
  wp (assign_machine self q wl)
    (λ r w', w_db w' = w_db w ∧ (r = Ok tt → w_dup w' = false →
       w_dup w = false ∧ assigned_rows_of d (wl_id wl) (prq_organization_id q) (w_tx w') ∧
       keyed provisioning_request (w_tx w') ∧ db_organizations (w_tx w') = db_organizations (w_tx w) ∧
       ∃ q', db_requests (w_tx w') !! self_request self = Some q' ∧
         prq_workload_id q' = Some (wl_id wl) ∧
         prq_organization_id q' = prq_organization_id q)) w.
Proof.
  intros Kq Ka HW HA HR Hq ->. pose proof (Kq _ _ Hq) as Hk. simpl in Hk.
  unfold assign_machine. apply wp_bind, wp_db_scalar. intros row Hrow. apply wp_bind.
  assert (∀ (w1 : world E) a, w_db w1 = w_db w → (w_dup w1 = false → w_dup w = false) →
    db_workloads (w_tx w1) = db_workloads (w_tx w) → db_requests (w_tx w1) = db_requests d →
    db_organizations (w_tx w1) = db_organizations (w_tx w) →
    active_assignment (wl_id wl) a = true → wa_organization_id a = prq_organization_id q →
    db_assignments (w_tx w1) = <[wa_id a := a]> (db_assignments d) →
    (w_dup w1 = false → db_assignments d !! wa_id a = Some a ∨ db_assignments d !! wa_id a = None ∧
       first_row (active_assignment (wl_id wl)) d = None) →
    wp (db_save (wl <| wl_organization_id := Some (prq_organization_id q) |> <| wl_is_present := true |>);;
        set_request self (λ q, q <| prq_workload_id := Some (wl_id wl) |>))
    (λ r w', w_db w' = w_db w ∧ (r = Ok tt → w_dup w' = false →
       w_dup w = false ∧ assigned_rows_of d (wl_id wl) (prq_organization_id q) (w_tx w') ∧
       keyed provisioning_request (w_tx w') ∧ db_organizations (w_tx w') = db_organizations (w_tx w) ∧
       ∃ q', db_requests (w_tx w') !! self_request self = Some q' ∧
         prq_workload_id q' = Some (wl_id wl) ∧
         prq_organization_id q' = prq_organization_id q)) w1) as Hrest.
  { intros w1 a Hdb Hdup Hw1 HR1 Ho1 Hact Horg HA1 Hrow1. apply wp_bind, wp_db_save, wp_set_request; [done|].
    simpl. rewrite HR1, Hq. intros q' [= <-]. split; [done|]. intros _ Hd. simpl in *.
    split_and!; [by apply Hdup| |intros i r; simpl; rewrite HR1; exact (lookup_insert_key prq_id _ _ Kq i r)|done|].
    - split; simpl.
      + eexists. split_and!; [| |rewrite Hw1, HW, insert_insert_eq; reflexivity]; done.
      + exists a. split_and!; [done..|by apply Hrow1].
    - eexists. rewrite Hk, lookup_insert_eq. by split_and!. }
  destruct row as [a|].
  - apply first_row_Some in Hrow as [Hact [i Hi]]. simpl in Hi. rewrite HA in Hi.
    pose proof (Ka _ _ Hi) as Hk'. simpl in Hk'. subst i.
    apply wp_raise_if; [done|]. intros Horg%bool_decide_eq_false%dec_stable.
    apply (Hrest w a); try done; [|by left]. by rewrite insert_id.
  - apply wp_bind, wp_or_raise; [done|]. intros u Hu. apply wp_bind, wp_from_env. intros id e1 _.
    apply wp_bind, wp_from_env. intros now e2 _. apply wp_db_add. intros b Hb. simpl in Hb.
    apply (Hrest _ (new_assignment id (wl_id wl) (prq_organization_id q) (u_id u) now)); try done; simpl.
    + intros ->. symmetry in Hb. by apply orb_false_iff in Hb as [].
    + unfold active_assignment. simpl. by rewrite !bool_decide_true.
    + by rewrite HA.
    + intros ->. right. symmetry in Hb. apply orb_false_iff in Hb as [_ Hb].
      apply bool_decide_eq_false, eq_None_not_Some in Hb. rewrite HA in Hb. split; [done|].
      apply first_row_is_None. intros j a Hj. simpl in Hj. rewrite <-HA in Hj. by apply (first_row_None _ _ Hrow j).
Qed.

Lemma wp_assign_organization_rows self d (e : E) :
  ownership d →
  wp (_assign_organization self)
    (λ r w', match r with
             | Raise _ => w_db w' = d
             | Ok _ => ∃ id q, owner d id ∈ [None; Some (prq_organization_id q)] ∧
                 assigned_rows_of d id (prq_organization_id q) (w_db w') ∧
                 integrity (w_db w') = true ∧ keyed provisioning_request (w_db w') ∧
                 keyed organization (w_db w') ∧
                 db_requests (w_db w') !! self_request self = Some q ∧ prq_workload_id q = Some id
             end) (World d d false e).
Proof.
  intros [Hint Kw Ka Kq Ko Hag]. unfold _assign_organization.
  apply wp_bind, wp_the_request; simpl; [done|]. intros q Hq.
  apply wp_bind, wp_vmid; [done|]. intros q0 vmid _ _.
  apply wp_bind. eapply wp_mono; [by apply wp_machine_row|].
  intros [wl|x] w1; [|done]. intros [Hdb Kw1 Hrow Hcl Hfree HW Hown HO HA HR]. simpl in *.
  apply wp_bind. eapply wp_mono; [by eapply wp_assign_machine_rows|].
  intros [[]|x] w2 [Hdb2 Hpost]; [|congruence]. unfold the_actor.
  wp_run; try congruence. simpl in *.
  destruct (Hpost eq_refl ltac:(done)) as (Hdup & Hrows & Kq2 & HO2 & q' & Hq' & Hwl' & Horg').
  exists (wl_id wl), q'. rewrite Horg'. split_and!; try done.
  - unfold owner, owner_in. destruct (db_workloads d !! wl_id wl) as [wl0|] eqn:Hwl; [|set_solver].
    simpl. destruct (Hown _ eq_refl); [done|congruence].
  - by destruct Hrows.
  - intros i r. simpl. rewrite HO2, HO. apply Ko.
Qed.
End saga.

(** ** The theorem *)

(** What changes the owner of a machine. *)
Inductive ownership_call :=
| CallAssign (self : service) (workload_id organization_id : N)
| CallUnassign (self : service) (workload_id : N) (reason : option string)
| CallProvision (runner : ProvisioningRunner).

Section ownership.
Context {E : Type} `{Runtime E} `{PowerApi E} `{ProvisioningApi E} `{ProvisioningSecrets E}.
Context `{Digests}.
Implicit Types (d : db) (e : E) (c : ownership_call).

Definition ownership_run c : DBM E () :=
  match c with
  | CallAssign self id o => workload_service self (assign self id o);; mret tt
  | CallUnassign self id reason => workload_service self (unassign self id reason)
  | CallProvision runner => _assign_organization runner;; mret tt
  end.

(** The change of owners that a call reports. *)
Definition owner_moves (id : N) (o : option N) (d d' : db) : Prop :=
  owner d' id = o ∧ ∀ k, k ≠ id → owner d' k = owner d k.

Definition ownership_done c (d d' : db) : Prop :=
  match c with
  | CallAssign _ id o => owner d id ∈ [None; Some o] ∧ owner_moves id (Some o) d d'
  | CallUnassign _ id _ => owner_moves id None d d' ∧
      (is_Some (owner d id) → ∀ j o, db_operations d !! j = Some o → op_workload_id o = id →
         op_active o = false)
  | CallProvision runner => ∃ id q,
      db_requests d' !! self_request runner = Some q ∧ prq_workload_id q = Some id ∧
      owner d id ∈ [None; Some (prq_organization_id q)] ∧
      owner_moves id (Some (prq_organization_id q)) d d'
  end.

Lemma owner_moves_insert id wl d d' :
  db_workloads d' = <[id := wl]> (db_workloads d) → owner_moves id (wl_organization_id wl) d d'.
Proof.
  intros HW. unfold owner_moves, owner. rewrite HW. split; [apply owner_in_insert|].
  intros k Hk. by apply owner_in_insert_ne.
Qed.

Lemma owner_moves_same id o d : owner d id = o → owner_moves id o d d.
Proof. by split. Qed.

Lemma wp_ownership_run c d e :
  ownership d →
  wp (ownership_run c)
    (λ r w, match r with
            | Raise _ => w_db w = d
            | Ok _ => ownership (w_db w) ∧ ownership_done c d (w_db w)
            end) (World d d false e).
Proof.
  intros Hd. destruct c as [self id o|self id reason|runner]; simpl.
  - apply wp_bind. unfold workload_service. apply wp_bind, wp_raise_if; [done|intros _].
    eapply wp_mono; [by apply wp_assign|]. intros [resp|x] w; [|done].
    intros [Hfree [[Hw Ho]|(Hrows & Hi & Kq & Ko)]]; apply wp_ret.
    + rewrite Hw. split_and!; [done..|by apply owner_moves_same].
    + split; [by eapply ownership_assigned|]. split; [done|].
      destruct Hrows as [(wl & _ & <- & HW) _]. by apply owner_moves_insert.
  - unfold workload_service. apply wp_bind, wp_raise_if; [done|intros _].
    eapply wp_mono; [by apply wp_unassign|]. intros [[]|x] w; [|done].
    intros [[-> Ho]|(Hidle & Hrows & Hi & Kq & Ko)].
    + split_and!; [done|by apply owner_moves_same|]. rewrite Ho. by intros [].
    + split; [by eapply ownership_revoked|]. split; [|done].
      destruct Hrows as [(wl & _ & <- & HW) _]. by apply owner_moves_insert.
  - apply wp_bind. eapply wp_mono; [by apply wp_assign_organization_rows|].
    intros [resp|x] w; [|done]. intros (id & q & Hfree & Hrows & Hi & Kq & Ko & Hq & Hwl).
    apply wp_ret. split; [by eapply ownership_assigned|]. exists id, q. split_and!; [done..|].
    destruct Hrows as [(wl & _ & <- & HW) _]. by apply owner_moves_insert.
Qed.

(** C34: the owner on a machine's row and the active assignment of its history
    always agree, whichever service moves it.  A machine that another organization
    owns is never taken, one under an operation is never released, a call touches
    the owner of its own machine only, and one that raises changes nothing. *)
Theorem ownership_kept c d e r d' e' :
  ownership d → exec (ownership_run c) d e = (r, d', e') →
  match r with
  | Raise _ => d' = d
  | Ok _ => ownership d' ∧ ownership_done c d d'
  end.
Proof. intros Hd Hrun. start_run Hrun. by apply wp_ownership_run. Qed.
End ownership.

(** ** Witness *)

Definition agreesb (W : gmap N workload) (A : gmap N workload_assignment) : bool :=
  forallb (λ a, match wa_revoked_at a with
                | None => bool_decide (owner_in W (wa_workload_id a) = Some (wa_organization_id a))
                | Some _ => true end) (map_to_list A).*2 &&
  forallb (λ kw, match wl_organization_id kw.2 with
                 | Some _ => existsb (active_assignment kw.1) (map_to_list A).*2
                 | None => true end) (map_to_list W).

Lemma agreesb_true W A : agreesb W A = true → agrees W A.
Proof.
  unfold agreesb. rewrite andb_true_iff, !List.forallb_forall. intros [HA HW]. split.
  - intros i a id Hi Ha. unfold active_assignment in Ha.
    rewrite andb_true_iff, !bool_decide_eq_true in Ha. destruct Ha as [<- Hrev].
    specialize (HA a). rewrite Hrev, bool_decide_eq_true in HA. apply HA, list_elem_of_In, list_elem_of_fmap.
    exists (i, a). by rewrite elem_of_map_to_list.
  - intros id o Ho. unfold owner_in in Ho. destruct (W !! id) as [wl|] eqn:Hwl; [|done].
    specialize (HW (id, wl)). simpl in Ho, HW. rewrite Ho, List.existsb_exists in HW.
    destruct HW as (a & Ha & Hact); [by apply list_elem_of_In, elem_of_map_to_list|].
    apply list_elem_of_In, list_elem_of_fmap in Ha as ((i & a') & -> & Hi%elem_of_map_to_list).
    eauto.
Qed.

Definition demo_assign : ownership_call := CallAssign demo_admin 7 3.
Definition demo_release : ownership_call := CallUnassign demo_admin 7 (Some "left").
Definition demo_assigned : outcome () * db * script :=
  exec (ownership_run demo_assign) demo_catalogue (script_at 600 [] [] []).

Lemma demo_catalogue_ownership : ownership demo_catalogue.
Proof.
  split; [vm_compute; reflexivity|..|apply agreesb_true; vm_compute; reflexivity];
    eapply (proj1 (bool_decide_eq_true _)); vm_compute; reflexivity.
Qed.

(** The machine is assigned, and released again. *)
Lemma ownership_kept_witness :
  owner demo_assigned.1.2 7 = Some 3%N ∧ ownership demo_assigned.1.2 ∧
  ownership (exec (ownership_run demo_release) demo_assigned.1.2
               (script_at 700 [] [] [])).1.2.
Proof.
  split; [vm_compute; reflexivity|].
  destruct demo_assigned as [[[[]|x] d1] e1] eqn:H1;
    [|exfalso; vm_compute in H1; discriminate H1].
  pose proof (ownership_kept demo_assign _ _ _ _ _ demo_catalogue_ownership H1) as [Hd1 _].
  simpl. split; [exact Hd1|].
  destruct (exec _ d1 _) as [[[[]|x] d2] e2] eqn:H2.
  - exact (proj1 (ownership_kept demo_release _ _ _ _ _ Hd1 H2)).
  - rewrite (ownership_kept demo_release _ _ _ _ _ Hd1 H2). exact Hd1.
Defined.
