(* ===== verification/CustomerProps.v ===== *)
(** * The customer portal: isolation

    What a customer is shown, may operate and may follow is what belongs to the
    active organizations it is a member of: all of it, and nothing else. *)
From stdpp Require Import sorting.
From Stdlib Require Import Lia.
From S2P Require Import Prelude Models Database AuditLog Operations PveApi Keeps ProvApi.
From S2P Require Import PowerRunner IpAddr Ipam ProvRunner Provisioning Workloads Customer.
From S2P Require Import Demo DemoPower DemoProv.

(** ** The specification *)

(** The user is a member of the organization, which is active. *)
Definition in_organization (user_id o : N) (d : db) : Prop :=
  (∃ i m, db_members d !! i = Some m ∧ om_user_id m = user_id ∧ om_organization_id m = o) ∧
  ∃ org, db_organizations d !! o = Some org ∧ org_is_active org = true.

(** The machines of a customer. *)
Definition may_use (user_id id : N) (d : db) : Prop :=
  ∃ wl o, db_workloads d !! id = Some wl ∧ wl_organization_id wl = Some o ∧
    wl_kind wl = "QEMU" ∧ wl_is_present wl = true ∧ wl_is_template wl = false ∧
    in_organization user_id o d.

(** A job the customer asked for on the machine. *)
Definition own_job (user_id id : N) (d : db) (j : CustomerJobResponse) : Prop :=
  ∃ i o, db_operations d !! i = Some o ∧ op_requested_by_id o = user_id ∧
    op_workload_id o = id ∧ cj_id j = op_id o ∧ cj_vm_id j = op_workload_id o.

(** The one operation an accepted request adds. *)
Record operation_added (user_id id : N) (action : PowerAction) (d d' : db) (job_id : N) : Prop := {
  oa_free j o : db_operations d !! j = Some o → op_workload_id o = id → op_active o = false;
  oa_fresh : db_operations d !! job_id = None;
  oa_change : ∃ o wl log, op_id o = job_id ∧ op_status o = OS_QUEUED ∧
    op_action o = PowerAction_value action ∧ op_requested_by_id o = user_id ∧
    db_workloads d !! id = Some wl ∧ op_workload_id o = id ∧
    op_organization_id o = wl_organization_id wl ∧
    d' = (set_rows <[job_id := o]> d) <| db_audit_logs := log |> }.

Definition answer_ok (user_id : N) (c : customer_call) (d d' : db) (a : customer_answer) : Prop :=
  match c, a with
  | CallListVms, AnswerVms items =>
    d' = d ∧ ∀ id, id ∈ map cv_id items ↔ may_use user_id id d
  | CallGetVm id, AnswerVm item =>
    d' = d ∧ may_use user_id id d ∧ cv_id (cd_summary item) = id ∧
    ∀ j, j ∈ cd_recent_jobs item → own_job user_id id d j
  | CallPowerAction id action _ _ _, AnswerJob j =>
    action ∈ CUSTOMER_ACTIONS ∧ may_use user_id id d ∧ own_job user_id id d' j ∧
    (d' = d ∨ operation_added user_id id action d d' (cj_id j))
  | CallGetJob id, AnswerJob j =>
    d' = d ∧ cj_id j = id ∧ own_job user_id (cj_vm_id j) d j ∧
    ∃ i o org, db_operations d !! i = Some o ∧ op_id o = id ∧
      op_organization_id o = Some org ∧ in_organization user_id org d
  | _, _ => False
  end.

(** ** The predicates of the queries *)

Lemma membership_true user_id o d :
  membership user_id (Some o) d = true ↔
  ∃ i m, db_members d !! i = Some m ∧ om_user_id m = user_id ∧ om_organization_id m = o.
Proof.
  unfold membership. rewrite bool_decide_eq_true. split.
  - intros [m Hm]. apply first_row_Some in Hm as [HP [i Hi]].
    rewrite andb_true_iff, !bool_decide_eq_true in HP. destruct HP as [Hu Ho]. exists i, m.
    split_and!; [done..|congruence].
  - intros (i & m & Hi & Hu & Ho). apply not_eq_None_Some. intros Hnone.
    pose proof (first_row_None _ _ Hnone _ _ Hi) as HP. simpl in HP.
    by rewrite !bool_decide_true in HP by congruence.
Qed.

Lemma active_organization_true o d :
  active_organization (Some o) d = true ↔
  ∃ org, db_organizations d !! o = Some org ∧ org_is_active org = true.
Proof.
  unfold active_organization. simpl. destruct (db_organizations d !! o) as [org|].
  - split; [eauto|]. by intros (? & [= <-] & ?).
  - split; [done|]. by intros (? & ? & _).
Qed.

Lemma owned_workload_true user_id d wl :
  owned_workload user_id d wl = true ↔
  ∃ o, wl_organization_id wl = Some o ∧ wl_kind wl = "QEMU" ∧ wl_is_present wl = true ∧
    wl_is_template wl = false ∧ in_organization user_id o d.
Proof.
  unfold owned_workload, in_organization.
  rewrite !andb_true_iff, !bool_decide_eq_true, negb_true_iff. split.
  - intros [[[[[[o Ho] Hk] Hp] Ht] Hm] Ha]. rewrite Ho in Hm, Ha.
    apply membership_true in Hm. apply active_organization_true in Ha. eauto 10.
  - intros (o & Ho & Hk & Hp & Ht & Hm & Ha). rewrite Ho.
    split_and!; [by eexists|done|done|done|by apply membership_true|by apply active_organization_true].
Qed.

Lemma may_use_row user_id id d wl :
  keyed workload d → db_workloads d !! id = Some wl →
  may_use user_id id d ↔ owned_workload user_id d wl = true.
Proof.
  intros Kw Hwl. rewrite owned_workload_true. split.
  - intros (wl' & o & Hwl' & Hrest). simplify_eq. eauto.
  - intros (o & Hrest). exists wl, o. by destruct_and!.
Qed.

(** An owned machine has its organization's name. *)
Lemma summary_of_owned user_id d wl wls ips :
  keyed organization d → owned_workload user_id d wl = true → wl ∈ wls →
  ∃ s, summary_row (organization_names wls d) ips wl = Some s ∧ cv_id s = wl_id wl.
Proof.
  intros Ko (o & Ho & _ & _ & _ & _ & org & Horg & Hact)%owned_workload_true Hin.
  pose proof (Ko _ _ Horg) as Hk. simpl in Hk.
  unfold summary_row, organization_names. rewrite Ho. simpl. rewrite lookup_omap, Horg. simpl.
  rewrite Hact, bool_decide_true; [simpl; by eexists|].
  apply list_elem_of_In, List.in_map_iff. exists wl. split; [congruence|by apply list_elem_of_In].
Qed.

Lemma summary_row_id names ips wl s : summary_row names ips wl = Some s → cv_id s = wl_id wl.
Proof.
  unfold summary_row. destruct (wl_organization_id wl) as [o|]; [|done]. simpl.
  destruct (names !! o); [|done]. simpl. by intros [= <-].
Qed.

(** ** The calls *)

Section calls.
Context {E : Type} `{Runtime E} `{Publisher E} `{Digests}.
Implicit Types (self : service) (d : db) (e : E) (c : customer_call) (w : world E).

Lemma wp_assigned_ips ids Q w : (∀ ips, Q (Ok ips) w) → wp (_assigned_ip_addresses ids) Q w.
Proof. intros HQ. unfold _assigned_ip_addresses. wp_run; apply HQ. Qed.
#[local] Opaque _assigned_ip_addresses.

Lemma wp_list_vms self d e :
  keyed workload d → keyed organization d →
  wp (list_vms self)
    (λ r w, w_db w = d ∧ ∃ items, r = Ok items ∧
       ∀ id, id ∈ map cv_id items ↔ may_use (p_user_id (self_principal self)) id d) (World d d false e).
Proof.
  intros Kw Ko. unfold list_vms. apply wp_bind, wp_gets. simpl.
  set (u := p_user_id (self_principal self)).
  set (owned := merge_sort vm_le (select_rows (owned_workload u d) d)).
  assert (∀ wl, wl ∈ owned ↔ db_workloads d !! wl_id wl = Some wl ∧ owned_workload u d wl = true) as Howned.
  { intros wl. unfold owned. rewrite merge_sort_Permutation, elem_of_select. split.
    - intros [Hu [i Hi]]. pose proof (Kw _ _ Hi) as Hk. simpl in Hk. by subst i.
    - intros [Hi Hu]. split; [done|by eexists]. }
  apply wp_bind, wp_assigned_ips. intros ips. apply wp_bind, wp_gets, wp_ret. simpl.
  split; [done|]. eexists. split; [done|]. intros id. split.
  - intros (s & <- & Hs)%list_elem_of_In%List.in_map_iff. apply list_elem_of_In in Hs.
    apply list_elem_of_omap in Hs as (wl & Hwl & Hs). apply Howned in Hwl as [Hi Hu].
    rewrite (summary_row_id _ _ _ _ Hs). by eapply may_use_row.
  - intros Hmay. pose proof Hmay as (wl & o & Hwl & _). pose proof (Kw _ _ Hwl) as Hk. simpl in Hk.
    eapply may_use_row in Hmay; [|done..].
    assert (wl ∈ owned) as Hin by (apply Howned; by rewrite Hk).
    destruct (summary_of_owned u d wl owned ips Ko Hmay Hin) as (s & Hs & Hid).
    apply list_elem_of_In, List.in_map_iff. exists s. split; [congruence|].
    apply list_elem_of_In, list_elem_of_omap. eauto.
Qed.

Lemma wp_owned_vm self id Q w :
  keyed workload (w_tx w) → (∀ x, Q (Raise x) w) →
  (∀ wl, db_workloads (w_tx w) !! id = Some wl → wl_id wl = id →
     owned_workload (p_user_id (self_principal self)) (w_tx w) wl = true → Q (Ok wl) w) →
  wp (_owned_vm self id) Q w.
Proof.
  intros Kw Hr Ho. unfold _owned_vm. apply wp_bind, wp_gets, wp_or_raise; [auto|]. intros wl Hwl.
  apply first_row_Some in Hwl as [[Hown Hid%bool_decide_eq_true]%andb_true_iff [i Hi]].
  pose proof (Kw _ _ Hi) as Hk. simpl in Hk, Hi. apply Ho; congruence.
Qed.

Lemma wp_job_response o Q w :
  (∀ x, Q (Raise x) w) →
  (∀ j, cj_id j = op_id o → cj_vm_id j = op_workload_id o → Q (Ok j) w) →
  wp (_job_response o) Q w.
Proof. intros Hr Ho. unfold _job_response. apply wp_bind, wp_or_raise; [auto|]. intros a _. by apply wp_ret, Ho. Qed.

Lemma wp_job_responses os Q w :
  (∀ x, Q (Raise x) w) →
  (∀ js, (∀ j, j ∈ js → ∃ o, o ∈ os ∧ cj_id j = op_id o ∧ cj_vm_id j = op_workload_id o) →
     Q (Ok js) w) →
  wp (map_each _job_response os) Q w.
Proof.
  intros Hr. revert Q Hr. induction os as [|o os IH]; intros Q Hr Ho; simpl.
  { apply wp_ret, Ho. by intros j ?%elem_of_nil. }
  apply wp_bind, wp_job_response; [done|]. intros j Hid Hvm. apply wp_bind, IH; [done|].
  intros js Hjs. apply wp_ret, Ho. intros j' [->|Hj']%elem_of_cons.
  - exists o. split_and!; [apply list_elem_of_here|done..].
  - destruct (Hjs _ Hj') as (o' & Ho' & ?). exists o'. split; [by apply list_elem_of_further|done].
Qed.

Lemma wp_get_vm self id d e :
  keyed workload d →
  wp (get_vm self id)
    (λ r w, w_db w = d ∧ ∀ item, r = Ok item →
       may_use (p_user_id (self_principal self)) id d ∧ cv_id (cd_summary item) = id ∧
       ∀ j, j ∈ cd_recent_jobs item → own_job (p_user_id (self_principal self)) id d j)
    (World d d false e).
Proof.
  intros Kw. unfold get_vm. apply wp_bind, wp_owned_vm; [done|done|]. simpl. intros wl Hwl Hid Hown.
  unfold _recent_jobs. apply wp_bind, wp_bind, wp_db_select, wp_job_responses; [done|].
  intros js Hjs. apply wp_bind, wp_assigned_ips. intros ips. apply wp_bind, wp_gets.
  apply wp_bind, wp_or_raise; [done|]. intros s Hs. apply wp_ret. split; [done|].
  intros item [= <-]. split_and!; simpl.
  - by eapply may_use_row.
  - by rewrite (summary_row_id _ _ _ _ Hs).
  - intros j Hj. destruct (Hjs j Hj) as (o & Ho & Hjid & Hjvm). clear Hjs.
    assert (o ∈ select_rows (λ o, bool_decide (op_workload_id o = wl_id wl) &&
       bool_decide (op_requested_by_id o = p_user_id (self_principal self))) d) as Hsel.
    { rewrite <-(merge_sort_Permutation operation_newer). rewrite <-(take_drop 10 (merge_sort _ _)).
      apply elem_of_app. by left. }
    apply elem_of_select in Hsel as [HP [i Hi]].
    rewrite andb_true_iff, !bool_decide_eq_true in HP. destruct HP as [Hw Hu].
    exists i, o. split_and!; try congruence. exact Hi.
Qed.

Lemma wp_record_customer_action self wl action k fp reason d e :
  action ∈ CUSTOMER_ACTIONS → db_workloads d !! wl_id wl = Some wl →
  wp (record_customer_action self wl action k fp reason)
    (λ r w, match r with
            | Raise _ => w_db w = d
            | Ok j => own_job (p_user_id (self_principal self)) (wl_id wl) (w_db w) j ∧
                operation_added (p_user_id (self_principal self)) (wl_id wl) action d (w_db w) (cj_id j)
            end) (World d d false e).
Proof.
  intros Hin Hwl. unfold record_customer_action. apply wp_bind, wp_db_scalar. intros conflict Hc.
  apply wp_bind, wp_raise_if; [done|]. intros Hnone%bool_decide_eq_false.
  apply eq_None_not_Some in Hnone. subst conflict. simpl in Hnone.
  apply wp_bind, wp_from_env. intros id e1 _. apply wp_bind, wp_from_env. intros task e2 _.
  apply wp_bind, wp_from_env. intros now e3 _. simpl.
  set (o := new_operation _ _ _ _ _ _ _ _ _ _).
  apply wp_bind, wp_db_add. intros b Hb. simpl in Hb. apply wp_bind, wp_or_conflict, wp_flush; [done|].
  simpl. intros -> Hint. symmetry in Hb. apply bool_decide_eq_false, eq_None_not_Some in Hb.
  apply wp_bind, wp_add_audit_event. intros log. simpl.
  apply wp_bind, wp_commit; simpl; [done|]. intros _ _. apply wp_bind, wp_from_env. intros [] e4 _.
  unfold _job_response. apply wp_bind, wp_or_raise.
  { intros Hnone'. exfalso. simpl in Hnone'.
    unfold CUSTOMER_ACTIONS in Hin. destruct action; try discriminate Hnone'; set_solver. }
  intros a _. apply wp_ret. simpl. split.
  - exists id, o. cbn. rewrite lookup_insert_eq. by split_and!.
  - split; simpl; [by apply op_conflicts_free|done|]. exists o, wl, log. by split_and!.
Qed.

Lemma wp_customer_action self id action k reason forced d e :
  keyed workload d →
  wp (request_power_action self id action k reason forced)
    (λ r w, match r with
            | Raise _ => w_db w = d
            | Ok j => answer_ok (p_user_id (self_principal self))
                        (CallPowerAction id action k reason forced) d (w_db w) (AnswerJob j)
            end) (World d d false e).
Proof.
  intros Kw. unfold request_power_action. apply wp_bind, wp_raise_if; [done|].
  intros Hin%bool_decide_eq_false%dec_stable. apply wp_bind, wp_owned_vm; [done|done|].
  intros wl Hwl Hid Hown. simpl in Hwl, Hown. do 2 (apply wp_bind, wp_raise_if; [done|intros _]).
  apply wp_bind, wp_db_scalar. simpl. intros existing Hex. destruct existing as [o|].
  - apply wp_bind, wp_raise_if; [done|intros _]. apply wp_bind, wp_raise_if; [done|].
    intros [Hw%bool_decide_eq_false%dec_stable _]%orb_false_iff.
    apply first_row_Some in Hex as [HP [i Hi]]. unfold op_of_key in HP.
    rewrite andb_true_iff, !bool_decide_eq_true in HP.
    apply wp_job_response; [done|]. intros j Hj Hvm. simpl.
    split_and!; [done|by eapply may_use_row| |by left]. exists i, o. split_and!; [done|apply HP|congruence..].
  - eapply wp_mono; [apply wp_record_customer_action; [done|by rewrite Hid]|].
    intros [j|x] w; [|done]. rewrite Hid. intros [Hj Hadd]. simpl.
    split_and!; [done|by eapply may_use_row|done|by right].
Qed.

Lemma wp_customer_job self id d e :
  wp (get_job self id)
    (λ r w, w_db w = d ∧ ∀ j, r = Ok j →
       answer_ok (p_user_id (self_principal self)) (CallGetJob id) d d (AnswerJob j)) (World d d false e).
Proof.
  unfold get_job. apply wp_bind, wp_gets, wp_bind, wp_or_raise; [done|]. simpl. intros o Ho.
  apply first_row_Some in Ho as [HP [i Hi]]. rewrite !andb_true_iff, !bool_decide_eq_true in HP.
  destruct HP as [[[Hid Hu] Hm] Ha]. apply wp_job_response; [done|]. intros j Hj Hvm.
  split; [done|]. intros j' [= <-]. simpl.
  destruct (op_organization_id o) as [org|] eqn:Horg; [|done].
  apply membership_true in Hm. apply active_organization_true in Ha.
  split_and!; [done|congruence| |].
  - exists i, o. by split_and!.
  - exists i, o, org. by split_and!.
Qed.

Lemma wp_customer_run self c d e :
  keyed workload d → keyed organization d →
  wp (customer_run self c)
    (λ r w, match r with
            | Raise _ => w_db w = d
            | Ok a => p_role (self_principal self) = CUSTOMER ∧
                      answer_ok (p_user_id (self_principal self)) c d (w_db w) a
            end) (World d d false e).
Proof.
  intros Kw Ko. unfold customer_run, customer_service. apply wp_bind, wp_raise_if; [done|].
  intros Hrole%bool_decide_eq_false%dec_stable%list_elem_of_singleton.
  destruct c as [|id|id action k reason forced|id]; simpl; apply wp_bind.
  - eapply wp_mono; [by apply wp_list_vms|]. intros r w (Hdb & items & -> & Hitems).
    apply wp_ret. by rewrite Hdb.
  - eapply wp_mono; [by apply wp_get_vm|]. intros [item|x] w [Hdb Hitem]; [|done].
    apply wp_ret. rewrite Hdb. split; [done|]. split; [done|]. by apply Hitem.
  - eapply wp_mono; [by apply wp_customer_action|]. intros [j|x] w Hpost; [|done].
    apply wp_ret. by split.
  - eapply wp_mono; [by apply wp_customer_job|]. intros [j|x] w [Hdb Hj]; [|done].
    apply wp_ret. rewrite Hdb. split; [done|]. by apply Hj.
Qed.

(** C35: the portal isolates tenants.  It serves customers only; the listing is
    exactly the machines of the active organizations the caller is a member of, the
    details and the power actions are refused for every other machine, and a job is
    shown only to the user who asked for it.  The only change any call makes is one
    QUEUED operation on such a machine, with no other one active on it. *)
Theorem tenant_isolation self c d e r d' e' :
  keyed workload d → keyed organization d → exec (customer_run self c) d e = (r, d', e') →
  match r with
  | Raise _ => d' = d
  | Ok a => p_role (self_principal self) = CUSTOMER ∧
            answer_ok (p_user_id (self_principal self)) c d d' a
  end.
Proof. intros Kw Ko Hrun. start_run Hrun. by apply wp_customer_run. Qed.
End calls.

(** ** Witness: a member of the organization that the machine 7 was assigned to *)

Definition demo_customer : service :=
  Service (mkPrincipal 5 "customer@example.com" CUSTOMER 0) "req-9" "192.0.2.9".

Definition demo_portal : db :=
  demo_catalogue
    <| db_workloads ::= alter (λ wl, wl <| wl_organization_id := Some 3%N |>) 7%N |>
    <| db_members := {[ 60%N := OrganizationMember 60 3 5 1 ]} |>.

Definition demo_portal_run (c : customer_call) : outcome customer_answer * db * script :=
  exec (customer_run demo_customer c) demo_portal (script_at 800 [] [] []).

(** The other machines are hidden. *)
Example demo_portal_hidden :
  (demo_portal_run (CallGetVm 8)).1.1 = Raise CUSTOMER_VM_NOT_FOUND ∧
  (demo_portal_run (CallPowerAction 8 START "key-1" None false)).1.1 = Raise CUSTOMER_VM_NOT_FOUND.
Proof. split; vm_compute; reflexivity. Qed.

Lemma tenant_isolation_witness :
  (∃ items, (demo_portal_run CallListVms).1.1 = Ok (AnswerVms items) ∧
     ∀ id, id ∈ map cv_id items ↔ may_use 5 id demo_portal) ∧
  ∃ j, (demo_portal_run (CallPowerAction 7 START "key-1" None false)).1.1 = Ok (AnswerJob j) ∧
     own_job 5 7 (demo_portal_run (CallPowerAction 7 START "key-1" None false)).1.2 j.
Proof.
  assert (bool_decide (keyed workload demo_portal) = true) as Kw%bool_decide_eq_true
    by (vm_compute; reflexivity).
  assert (bool_decide (keyed organization demo_portal) = true) as Ko%bool_decide_eq_true
    by (vm_compute; reflexivity).
  unfold demo_portal_run. split.
  - destruct (exec _ _ _) as [[[a|x] d'] e'] eqn:He; [|exfalso; vm_compute in He; discriminate He].
    pose proof (tenant_isolation demo_customer CallListVms _ _ _ _ _ Kw Ko He) as [_ Ha].
    destruct a as [items| |]; try contradiction. exists items. split; [reflexivity|exact (proj2 Ha)].
  - destruct (exec _ _ _) as [[[a|x] d'] e'] eqn:He; [|exfalso; vm_compute in He; discriminate He].
    pose proof (tenant_isolation demo_customer (CallPowerAction 7 START "key-1" None false)
      _ _ _ _ _ Kw Ko He) as [_ Ha].
    destruct a as [| |j]; try contradiction. exists j. split; [reflexivity|].
    exact (proj1 (proj2 (proj2 Ha))).
Defined.
