(* ===== verification/TaskProps.v ===== *)
(** * Recovery: properties

    A starting worker enqueues exactly what a lost message may have left behind. *)
From Stdlib Require Import Lia.
From S2P Require Import Prelude Models Database AuditLog Operations PveApi ProvApi PowerRunner.
From S2P Require Import IpAddr Ipam ProvRunner Tasks Demo DemoPower DemoProv.

(** The messages that are due for the rows of [d]: one per unfinished operation and
    runner it is meant for, one per request that a worker may claim at [now]. *)
Inductive due (d : db) (now : Z) : message → Prop :=
| due_power i o : db_operations d !! i = Some o → op_active o = true →
    op_operation_type o ≠ "WORKLOAD_BACKUP" →
    due d now (power_message (op_id o) (op_celery_task_id o))
| due_backup i o : db_operations d !! i = Some o → op_active o = true →
    op_operation_type o = "WORKLOAD_BACKUP" →
    due d now (backup_message (op_id o) (op_celery_task_id o))
| due_restore i o : db_operations d !! i = Some o → op_active o = true →
    op_operation_type o = "WORKLOAD_RESTORE" →
    due d now (restore_message (op_id o) (op_celery_task_id o))
| due_provisioning i q : db_requests d !! i = Some q → claimable now q = true →
    due d now (provisioning_message (prq_id q) (prq_celery_task_id q)).

Section recovery.
Context {E : Type} `{Runtime E} `{Reachable E}.
Implicit Types (d : db) (b : mailbox E) (w : world (mailbox E)).

(** The database is untouched, and on success [ms] has been sent. *)
Definition sends_all d (msgs : list message) (ms : list message) {A} (r : outcome A) w : Prop :=
  w_db w = d ∧ w_tx w = d ∧ match r with Ok _ => mb_messages (w_env w) = msgs ++ ms | Raise _ => True end.

Lemma wp_send_each {R} (l : list R) (f : R → message) d msgs w :
  w_db w = d → w_tx w = d → mb_messages (w_env w) = msgs →
  wp (for_each l (λ x, send_task (f x))) (λ r w', sends_all d msgs (map f l) r w') w.
Proof.
  revert msgs w. induction l as [|x l IH]; intros msgs w Hdb Htx Hms; simpl.
  { apply wp_ret. unfold sends_all. by rewrite app_nil_r. }
  apply wp_bind, wp_bind, wp_from_env. intros sent b' Hsent. apply wp_raise_if; [done|].
  intros ->%negb_false_iff. eapply wp_mono; [apply (IH (msgs ++ [f x]))|]; simpl; try done.
  - simpl in Hsent. injection Hsent as Hr <-. simpl. by rewrite Hr, Hms.
  - intros r w' (? & ? & Hall). split_and!; [done..|]. destruct r; [|done]. by rewrite Hall, <-app_assoc.
Qed.

Lemma wp_recover_all d msgs w :
  w_db w = d → w_tx w = d → mb_messages (w_env w) = msgs →
  wp recover_incomplete_power_operations
    (λ r w', ∃ now, sends_all d msgs
       (map (λ o, power_message (op_id o) (op_celery_task_id o)) (select_rows power_recoverable d) ++
        map (λ o, backup_message (op_id o) (op_celery_task_id o)) (select_rows backup_recoverable d) ++
        map (λ o, restore_message (op_id o) (op_celery_task_id o)) (select_rows restore_recoverable d) ++
        map (λ q, provisioning_message (prq_id q) (prq_celery_task_id q))
          (select_rows (claimable now) d)) r w') w.
Proof.
  intros Hdb Htx Hms. unfold recover_incomplete_power_operations.
  unfold recover_power_operations, recover_backup_operations, recover_provisioning_requests.
  apply wp_bind, wp_bind, wp_db_select. rewrite Htx.
  apply wp_bind. eapply wp_mono; [by eapply wp_send_each|]. intros [[]|x] w1 (Hdb1 & Htx1 & Hs1);
    [|exists 0; by split_and!].
  apply wp_ret, wp_bind, wp_bind, wp_db_select. rewrite Htx1.
  apply wp_bind. eapply wp_mono; [by eapply wp_send_each|]. intros [[]|x] w2 (Hdb2 & Htx2 & Hs2);
    [|exists 0; by split_and!].
  apply wp_bind, wp_db_select. rewrite Htx2.
  apply wp_bind. eapply wp_mono; [by eapply wp_send_each|]. intros [[]|x] w3 (Hdb3 & Htx3 & Hs3);
    [|exists 0; by split_and!].
  apply wp_ret, wp_bind, wp_bind, wp_from_env. intros now e4 He4.
  assert (mb_messages e4 = mb_messages (w_env w3)) as Hm4
    by (simpl in He4; by injection He4 as _ <-).
  apply wp_bind, wp_db_select. simpl. rewrite Htx3.
  apply wp_bind. eapply wp_mono; [by eapply wp_send_each|]. intros [[]|x] w5 (Hdb5 & Htx5 & Hs5);
    [|exists 0; by split_and!].
  apply wp_ret, wp_ret. exists now. split_and!; [done..|]. simpl in Hs5.
  rewrite Hs5, Hs3. by rewrite <-!app_assoc.
Qed.

Lemma elem_of_messages {R} `{Table R} (P : R → bool) (f : R → message) d m :
  m ∈ map f (select_rows P d) ↔ ∃ i r, rows d !! i = Some r ∧ P r = true ∧ m = f r.
Proof.
  rewrite list_elem_of_In, List.in_map_iff. split.
  - intros (r & <- & [HP [i Hi]]%list_elem_of_In%elem_of_select). eauto.
  - intros (i & r & Hi & HP & ->). exists r. split; [done|]. apply list_elem_of_In, elem_of_select. eauto.
Qed.

End recovery.

(** ** Witness: the request of the demo and a power operation are enqueued again *)

#[export] Instance script_reachable : Reachable script := {| env_reachable e := (true, e) |}.

Definition demo_recovery : outcome () * db * mailbox script :=
  exec (recover_incomplete_power_operations (E := mailbox script)) demo_linux
    (Mailbox (script_at 900 [] [] []) []).


Example demo_recovery_messages :
  mb_messages demo_recovery.2 = [provisioning_message 501 500].
Proof. vm_compute. reflexivity. Qed.
