(* ===== verification/PowerProps.v ===== *)
(** * The power runner: properties

    What a run of the worker task guarantees: how it ends, what it may send to the
    cluster, and that a redelivered message does no harm. *)
From Stdlib Require Import Lia.
From S2P Require Import Prelude Models Database AuditLog Operations PveApi PowerRunner.
From S2P Require Import PowerTrace PowerSettle IpAddr Ipam IpamInv IpamOps Demo DemoPower.

(** What PostgreSQL and the ORM guarantee of the tables the runner reads. *)
Record sound_tables (d : db) : Prop := {
  st_integrity : integrity d = true;
  st_operations : keyed operation d;
  st_workloads : keyed workload d;
  st_tasks : keyed pve_task d }.

#[export] Instance sound_tables_dec d : Decision (sound_tables d).
Proof.
  refine (cast_if (decide (integrity d = true ∧ keyed operation d ∧ keyed workload d ∧
    keyed pve_task d))); abstract (destruct_and?; first [by split | by intros []; auto]).
Defined.

Section properties.
Context {E : Type} `{Runtime E} `{PowerApi E} `{Digests}.
Implicit Types (settings : Settings) (d : db) (o : operation).



(** A redelivered power operation whose PVE task is on record is polled, not
    submitted again. *)
Theorem recorded_task_not_resubmitted settings d o t (e : E) r d' t' :
  db_operations d !! op_id o = Some o → is_admin_action o = false →
  first_row (λ t, bool_decide (pt_operation_id t = op_id o)) d = Some t →
  exec (run_power_operation (E := traced E) settings (op_id o)) d (Traced e []) = (r, d', t') →
  sent t' = [].
Proof.
  intros Ho Hadm Ht Hrun. set (w0 := World d d false (Traced e [])) in *.
  assert (sent (w_env (run settings (op_id o) w0).2) = []) as Hs.
  { destruct (op_terminal o) eqn:Hend.
    - unfold run. rewrite bind_db_get. simpl (rows _ !! _). by rewrite Ho, Hend.
    - rewrite run_checks by done. change (w_tx w0) with d.
      destruct (db_workloads d !! op_workload_id o) as [wl|]; [|by apply keeps_finish].
      destruct (runnable o wl); [|by apply keeps_finish].
      destruct (actor_authorized _ _ _ _); [|by apply keeps_finish].
      by eapply resumed_sends_nothing. }
  apply (run_operation_env settings o sent) in Hs.
  apply exec_env in Hrun as <-. exact Hs.
Qed.

(** A run for a requester who lost the right, or on a workload that can no
    longer take the action, reaches no cluster and fails the operation. *)
Theorem refused_run_is_silent settings d o wl (e : E) r d' t' :
  sound_tables d → db_operations d !! op_id o = Some o → op_active o = true →
  is_admin_action o = false → db_workloads d !! op_workload_id o = Some wl →
  runnable o wl = false ∨
    actor_authorized o (db_users d !! op_requested_by_id o) wl d = false →
  exec (run_power_operation (E := traced E) settings (op_id o)) d (Traced e []) = (r, d', t') →
  tr_events t' = [] ∧
  ∃ o', db_operations d' !! op_id o = Some o' ∧ op_status o' = OS_FAILED ∧
        op_error_code o' = Some (if runnable o wl then "PERMISSION_REVOKED" else "VM_NOT_FOUND").
Proof.
  intros [Hi Ho _ _] Hop Ha Hadm Hwl Hno Hrun. set (w0 := World d d false (Traced e [])) in *.
  assert (op_terminal o = false) as Hend.
  { unfold op_terminal, op_active in *. apply bool_decide_eq_false.
    destruct (op_status o); try done; set_solver. }
  assert (run settings (op_id o) w0 = _finish o (db_users d !! op_requested_by_id o) OS_FAILED
    false (Some (if runnable o wl then "PERMISSION_REVOKED" else "VM_NOT_FOUND")) None w0) as Heq.
  { rewrite run_checks by done. change (w_tx w0) with d. rewrite Hwl.
    destruct (runnable o wl); simpl; [|done]. destruct Hno as [?| ->]; done. }
  split.
  - apply (exec_env _ _ _ _ _ _) in Hrun as <-. apply run_operation_env. fold w0. rewrite Heq.
    apply events_finish.
  - start_run Hrun. fold w0. unfold run_power_operation. apply wp_try.
    eapply wp_mono with (Q := λ r w, r = Ok tt ∧ _); [|by intros r1 w1 [-> Hw]; exact Hw].
    unfold wp. rewrite Heq. apply wp_finish_row; [split; [done|by exists o|done]|done|by repeat constructor|].
    intros now log e1 d1 -> _. split; [done|].
    eexists. split; [apply lookup_insert_eq|done].
Qed.

(** A message for an operation that has ended, or that does not exist, changes
    nothing and reaches no cluster. *)
Theorem ended_operation_untouched settings d id (e : E) :
  (∀ o, db_operations d !! id = Some o → op_active o = false) →
  exec (run_power_operation (E := traced E) settings id) d (Traced e []) =
    (Ok tt, d, Traced e []).
Proof.
  intros Hd. unfold exec, run_power_operation, try_except, run.
  rewrite bind_db_get. simpl (rows _ !! _). destruct (db_operations d !! id) as [o|]; [|done].
  assert (op_terminal o = true) as ->; [|done].
  specialize (Hd o eq_refl). unfold op_terminal, op_active in *.
  apply bool_decide_eq_true. destruct (op_status o); try done; by repeat constructor.
Qed.
End properties.



Lemma recorded_task_not_resubmitted_witness :
  (demo_traced demo_tasked).1.1 = Ok tt ∧ sent (demo_traced demo_tasked).2 = [].
Proof.
  split; [vm_compute; reflexivity|].
  apply (recorded_task_not_resubmitted demo_settings demo_tasked demo_op demo_task demo_env
    (demo_traced demo_tasked).1.1 (demo_traced demo_tasked).1.2); [by vm_compute..|]. apply demo_traced_eq.
Defined.

Lemma refused_run_is_silent_witness :
  tr_events (demo_traced demo_revoked).2 = [] ∧
  ∃ o, db_operations (demo_traced demo_revoked).1.2 !! 500%N = Some o ∧ op_status o = OS_FAILED ∧
       op_error_code o = Some "PERMISSION_REVOKED".
Proof.
  apply (refused_run_is_silent demo_settings demo_revoked demo_op (demo_workload 7) demo_env
    (demo_traced demo_revoked).1.1 (demo_traced demo_revoked).1.2); [by apply (bool_decide_unpack _); vm_compute|by vm_compute..| |].
  - right. by vm_compute.
  - apply demo_traced_eq.
Defined.

Lemma ended_operation_untouched_witness :
  exec (run_power_operation (E := traced script) demo_settings 500) demo_done (Traced demo_env [])
  = (Ok tt, demo_done, Traced demo_env []).
Proof.
  apply (ended_operation_untouched demo_settings demo_done 500 demo_env).
  vm_compute. by intros o [= <-].
Defined.
