(* ===== verification/OperationsProps.v ===== *)
(** * The job service: properties

    What a request for a power or administrative operation guarantees: when it is
    accepted, what it records, that repeating it is harmless, and that a refused
    request leaves no trace. *)
From stdpp Require Import sorting.
From Stdlib Require Import Lia.
From S2P Require Import Prelude Models Database AuditLog Operations PveApi PowerRunner IpAddr.
From S2P Require Import Ipam IpamInv IpamOps Demo DemoPower.

(** ** What an accepted request implies *)

Definition call_target (c : operation_call) : N :=
  match c with CallPower id _ _ _ | CallAdmin id _ _ _ => id end.

Definition call_action (c : operation_call) : string :=
  match c with
  | CallPower _ a _ _ => PowerAction_value a
  | CallAdmin _ a _ _ => AdminVmAction_value a
  end.

Definition call_key (c : operation_call) : string :=
  match c with CallPower _ _ k _ | CallAdmin _ _ k _ => k end.

Definition call_roles (c : operation_call) : list UserRole :=
  match c with CallPower _ _ _ _ => [SUPER_ADMIN; OPERATOR] | CallAdmin _ _ _ _ => [SUPER_ADMIN] end.

(** The state the workload must be in. *)
Definition call_guard (c : operation_call) (wl : workload) : Prop :=
  match c with
  | CallPower _ a _ _ =>
    wl_kind wl ∈ ["QEMU"; "LXC"] ∧ ¬ (wl_kind wl = "LXC" ∧ a = RESET)
  | CallAdmin _ _ _ (inr p) =>
    vd_confirmation p = str_or (wl_name wl) (pretty (wl_vmid wl)) ∧
    wl_organization_id wl = None ∧ str_upper (wl_power_state wl) = "STOPPED"
  | CallAdmin _ _ _ (inl p) =>
    su_version p = wl_version wl ∧
    ∀ g b, su_disk_gib p = Some g → g ≠ 0 → wl_disk_bytes wl = Some b → b ≤ g * 1024 ^ 3
  end.

Ltac wp_hook ::=
  match goal with
  | |- wp (add_audit_event _) _ _ => apply wp_add_audit_event; intros ?
  | |- wp (require_service_role _ _) _ _ => apply wp_raise_if; intros ?
  end.

Section props.
Context {E : Type} `{Runtime E} `{Publisher E} `{Digests}.
Implicit Types (self : service) (c : operation_call) (d : db) (w : world E).

(** What an accepted request found and what it left: one new operation [o]. *)
Record accepted self c d (resp : JobResponse) (o : operation) d' : Prop := {
  acc_role : p_role (self_principal self) ∈ call_roles c;
  acc_workload : ∃ i wl, db_workloads d !! i = Some wl ∧ wl_id wl = call_target c ∧
    wl_is_present wl = true ∧ wl_is_template wl = false ∧ call_guard c wl;
  acc_free : ∀ i o, db_operations d !! i = Some o → op_workload_id o = call_target c →
    op_active o = false;
  acc_integrity : integrity d' = true;
  acc_fresh : db_operations d !! op_id o = None;
  acc_change : ∃ log, d' = (set_rows <[op_id o := o]> d) <| db_audit_logs := log |>;
  acc_operation : op_status o = OS_QUEUED ∧ op_action o = call_action c ∧
    op_workload_id o = call_target c ∧
    op_of_key (p_user_id (self_principal self)) (hmac_key (call_key c)) o = true;
  acc_response : jr_id resp = op_id o ∧ jr_status resp = OS_QUEUED }.

(** The checks before the idempotency lookup pass, and [o] has the fingerprint of
    the request. *)
Definition replayable self c (o : operation) d : Prop :=
  bool_decide (p_role (self_principal self) ∉ call_roles c) = false ∧
  match c with
  | CallPower id a _ _ => ∃ wl,
    first_row (λ w : workload, actionable id w && bool_decide (wl_kind w ∈ ["QEMU"; "LXC"])) d = Some wl ∧
    bool_decide (wl_kind wl = "LXC") && bool_decide (a = RESET) = false ∧
    op_request_fingerprint o = sha256_text [JUuid id; JStr ":"; JStr (PowerAction_value a)]
  | CallAdmin id a _ p => ∃ wl fields,
    first_row (actionable id) d = Some wl ∧
    (∀ w : world E, requested_change wl p w = (Ok fields, w)) ∧
    op_request_fingerprint o = sha256_json
      (obj_merge [("vm_id", JUuid id); ("action", JStr (AdminVmAction_value a))] fields)
  end.

Lemma wp_response o Q w :
  (∀ resp, jr_id resp = op_id o → jr_status resp = op_status o → Q (Ok resp) w) →
  wp (_response o) Q w.
Proof. intros HQ. unfold _response. apply wp_bind, wp_gets, wp_ret. by apply HQ. Qed.

Lemma wp_publish i j Q w :
  (∀ e', Q (Ok tt) (World (w_db w) (w_tx w) (w_dup w) e')) → wp (publish i j) Q w.
Proof. intros HQ. apply wp_from_env. intros [] e' _. apply HQ. Qed.

Lemma wp_compare_digest a b Q w :
  Q (Raise TypeError) w → Q (Ok (bool_decide (a = b))) w → wp (compare_digest a b) Q w.
Proof. intros Hr Ho. apply wp_bind, wp_raise_if; intros _; [done|by apply wp_ret]. Qed.

(** The outcome of a request: accepted, a replay of a recorded one, or refused;
    only the first changes the tables. *)
Definition request_post self c d (r : outcome (JobResponse * bool)) w : Prop :=
  match r with
  | Ok (resp, true) =>
    ∃ o, accepted self c d resp o (w_db w) ∧ replayable self c o (w_db w)
  | Ok (resp, false) =>
    w_db w = d ∧ ∃ i o, db_operations d !! i = Some o ∧ jr_id resp = op_id o ∧
      op_of_key (p_user_id (self_principal self)) (hmac_key (call_key c)) o = true
  | Raise _ => w_db w = d
  end.

(** The payload checks read the workload row only. *)
Lemma wp_requested_change wl payload Q w :
  (∀ x, Q (Raise x) w) →
  (∀ fields, (∀ w' : world E, requested_change wl payload w' = (Ok fields, w')) →
     (∀ id a k, call_guard (CallAdmin id a k payload) wl) → Q (Ok fields) w) →
  wp (requested_change wl payload) Q w.
Proof.
  intros Hr Ho. unfold requested_change. destruct payload as [p|p].
  - do 2 wp_step; [done|]. do 2 wp_step; [done|]. wp_step. apply Ho.
    + intros w'. unfold requested_change, mbind, M_bind. by rewrite H2, H3.
    + intros id a k. apply bool_decide_eq_false in H2. apply dec_stable in H2. split; [done|].
      intros g b Hg Hne Hb. rewrite Hg, Hb in H3. destruct (Z.eqb_spec g 0); [done|].
      by apply Z.ltb_ge in H3.
  - apply wp_bind. unfold compare_digest. apply wp_bind, wp_raise_if; intros Ha; [done|].
    wp_step. do 2 wp_step; [done|]. do 2 wp_step; [done|]. do 2 wp_step; [done|]. wp_step.
    apply Ho.
    + intros w'. unfold requested_change, compare_digest, mbind, M_bind, raise_if, when,
        mret, M_ret. by rewrite Ha, H2, H3, H4.
    + intros id a k. apply negb_false_iff, bool_decide_eq_true in H2.
      apply bool_decide_eq_false in H3, H4. split_and!; [done|by apply eq_None_not_Some|by apply dec_stable].
Qed.

(** The recording part both requests share: from the conflict check on, for a new
    operation [o] on the workload. *)
Lemma wp_record_request o audit e1 e2 task_id d Q w :
  w_tx w = d → w_db w = d → w_dup w = false →
  Q (Raise e1) (World d d false (w_env w)) → Q (Raise e2) (World d d false (w_env w)) →
  (db_operations d !! op_id o = None → ∀ resp d' log e',
     d' = (set_rows <[op_id o := o]> d) <| db_audit_logs := log |> → integrity d' = true →
     jr_id resp = op_id o → jr_status resp = op_status o →
     Q (Ok (resp, true)) (World d' d' false e')) →
  wp (db_add o;; or_conflict flush e1;; add_audit_event audit;; or_conflict commit e2;;
      publish (op_id o) task_id;; response ← _response o; mret (response, true)) Q w.
Proof.
  intros Htx Hdb Hd H1' H2' Hok. wp_run.
  - by rewrite Hdb.
  - by rewrite Hdb.
  - apply wp_publish. intros e'. apply wp_bind, wp_response. intros resp Hid Hst. apply wp_ret.
    eapply Hok; try done; [|by rewrite Htx].
    subst b. rewrite Hd in *. by fresh_row.
Qed.

Lemma wp_request_power self id action k reason d w :
  w_tx w = d → w_db w = d → w_dup w = false →
  wp (request_power_action self id action k reason)
    (request_post self (CallPower id action k reason) d) w.
Proof.
  intros Htx Hdb Hd. unfold request_power_action. do 2 wp_step; [done|]. do 4 wp_step; [done|].
  do 2 wp_step; [done|]. do 2 wp_step. wp_step.
  - do 2 wp_step; [done|]. apply wp_bind, wp_response. intros resp Hid _. apply wp_ret.
    match goal with Hf : first_row _ _ = Some _ |- _ => apply first_row_Some in Hf as [Hk [i Hi]] end.
    subst. split; [done|]. eauto 6.
  - do 2 wp_step. wp_step; [by wp_step|]. do 6 wp_step.
    eapply wp_record_request with (d := d); [done|done|done|reflexivity|reflexivity|].
    intros Hnew resp d' log e9 -> Hi Hid Hst.
    exists (new_operation self a0 a1 ("POWER_" +:+ str_upper (PowerAction_value action))
      (PowerAction_value action) a (hmac_key k)
      (sha256_text [JUuid id; JStr ":"; JStr (PowerAction_value action)])
      [("action_mode", JStr (_action_mode action)); ("reason_recorded", reason_recorded reason);
       ("workload_kind", JStr (wl_kind a))] a2).
    subst. match goal with Hf : first_row _ _ = Some a |- _ =>
      pose proof Hf as Hrow; apply first_row_Some in Hf as [Hact [i Ha]] end.
    unfold actionable in Hact. rewrite !andb_true_iff, !bool_decide_eq_true, negb_true_iff in Hact.
    destruct Hact as [[[Hwid Hpres] Htmpl] Hkind]. split.
    + split; try done.
      * by apply bool_decide_eq_false, dec_stable in H2.
      * exists i, a. split_and!; try done. split; [done|]. intros [Hk Hr]. by rewrite Hk, Hr in H5.
      * by apply op_conflicts_free.
      * by eexists.
      * split_and!; try done. unfold op_of_key. simpl. by rewrite !bool_decide_true.
    + split; [done|]. exists a. by split_and!.
Qed.

Lemma wp_request_admin self id action k payload d w :
  w_tx w = d → w_db w = d → w_dup w = false →
  wp (request_admin_action self id action k payload)
    (request_post self (CallAdmin id action k payload) d) w.
Proof.
  intros Htx Hdb Hd. unfold request_admin_action. do 2 wp_step; [done|]. do 4 wp_step; [done|].
  apply wp_bind, wp_requested_change; [done|]. intros fields Hfields Hguard.
  do 2 wp_step. wp_step.
  - do 2 wp_step; [done|]. apply wp_bind, wp_response. intros resp Hid _. apply wp_ret.
    match goal with Hf : first_row (op_of_key _ _) _ = Some _ |- _ =>
      apply first_row_Some in Hf as [Hk [i Hi]] end.
    subst. split; [done|]. eauto 6.
  - do 4 wp_step; [done|]. do 6 wp_step.
    eapply wp_record_request with (d := d); [done|done|done|reflexivity|reflexivity|].
    intros Hnew resp d' log e9 -> Hi Hid Hst.
    exists (new_operation self a0 a1 (admin_operation_type action) (AdminVmAction_value action)
      a (hmac_key k) (sha256_json
        (obj_merge [("vm_id", JUuid id); ("action", JStr (AdminVmAction_value action))] fields))
      fields a2).
    subst. match goal with Hf : first_row _ _ = Some a |- _ =>
      pose proof Hf as Hrow; apply first_row_Some in Hf as [Hact [i Ha]] end.
    unfold actionable in Hact. rewrite !andb_true_iff, !bool_decide_eq_true, negb_true_iff in Hact.
    destruct Hact as [[Hwid Hpres] Htmpl]. split.
    + split; try done.
      * by apply bool_decide_eq_false, dec_stable in H2.
      * exists i, a. by split_and!; try apply (Hguard id action k).
      * apply op_conflicts_free. simpl. rewrite <-Hwid. apply eq_None_not_Some.
        by apply (bool_decide_eq_false_1 _ H7).
      * by eexists.
      * split_and!; try done. unfold op_of_key. simpl. by rewrite !bool_decide_true.
    + split; [done|]. exists a, fields. by split_and!.
Qed.

Lemma wp_operation_run self c d w :
  w_tx w = d → w_db w = d → w_dup w = false →
  wp (operation_run self c) (request_post self c d) w.
Proof. destruct c; [apply wp_request_power|apply wp_request_admin]. Qed.

(** The only row of an idempotency key is the one that is found. *)
Lemma replay_found self c o d i :
  integrity d = true → db_operations d !! i = Some o →
  op_of_key (p_user_id (self_principal self)) (hmac_key (call_key c)) o = true →
  first_row (op_of_key (p_user_id (self_principal self)) (hmac_key (call_key c))) d = Some o.
Proof.
  intros Hi Ho Hk. eapply first_row_unique; [exact Ho|done|]. intros j s Hj Hs.
  unfold op_of_key in *. rewrite andb_true_iff, !bool_decide_eq_true in *. destruct_and!.
  assert (j = i) as ->; [|simpl in *; congruence].
  eapply (integrity_unique uq_operations_idempotency d); [by simpl; tauto|done..|].
  unfold uq_operations_idempotency. congruence.
Qed.

Lemma wp_replay self c o d w i :
  w_tx w = d → integrity d = true → db_operations d !! i = Some o →
  op_of_key (p_user_id (self_principal self)) (hmac_key (call_key c)) o = true →
  replayable self c o d →
  wp (operation_run self c)
    (λ r w', w_db w' = w_db w ∧ ∃ resp, r = Ok (resp, false) ∧ jr_id resp = op_id o) w.
Proof.
  intros Htx Hi Ho Hk [Hrole Hc]. pose proof (replay_found _ _ _ _ _ Hi Ho Hk) as Hf. subst.
  destruct c as [id a k r|id a k p]; simpl in *.
  - destruct Hc as (wl & Hrow & Hg & Hfp). unfold request_power_action.
    apply wp_bind, wp_raise_if; [congruence|intros _]. apply wp_bind, wp_db_scalar. intros ? <-.
    rewrite Hrow. apply wp_bind, wp_ret, wp_bind, wp_raise_if; [congruence|intros _].
    apply wp_bind, wp_db_scalar. intros ? <-. rewrite Hf.
    apply wp_bind, wp_raise_if; [intros Hb%bool_decide_eq_true; congruence|intros _].
    apply wp_bind, wp_response. intros resp Hid _. apply wp_ret. eauto.
  - destruct Hc as (wl & fields & Hrow & Hg & Hfp). unfold request_admin_action.
    apply wp_bind, wp_raise_if; [congruence|intros _]. apply wp_bind, wp_db_scalar. intros ? <-.
    rewrite Hrow. apply wp_bind, wp_ret, wp_bind. unfold wp at 1. rewrite Hg. simpl.
    apply wp_bind, wp_db_scalar. intros ? <-. rewrite Hf.
    apply wp_bind, wp_raise_if; [intros Hb%bool_decide_eq_true; congruence|intros _].
    apply wp_bind, wp_response. intros resp Hid _. apply wp_ret. eauto.
Qed.

(** C11: an accepted request was authorized, found the workload present and in the
    state the action needs, with no other operation QUEUED or RUNNING on it, and
    recorded exactly one new QUEUED operation, which the response names. *)
Theorem accepted_request self c d e resp d' e' :
  exec (operation_run self c) d e = (Ok (resp, true), d', e') →
  ∃ o, accepted self c d resp o d'.
Proof.
  intros Hrun. eapply exec_wp in Hrun; [|by apply wp_operation_run].
  destruct Hrun as (w & (o & Ha & _) & <- & _). eauto.
Qed.

(** Repeating an accepted request returns the same job and changes nothing,
    whatever the clock and the identifiers drawn meanwhile. *)
Theorem request_is_idempotent self c d e1 resp d' e1' e2 r d'' e2' :
  exec (operation_run self c) d e1 = (Ok (resp, true), d', e1') →
  exec (operation_run self c) d' e2 = (r, d'', e2') →
  d'' = d' ∧ ∃ resp', r = Ok (resp', false) ∧ jr_id resp' = jr_id resp.
Proof.
  intros H1' H2'. eapply exec_wp in H1'; [|by apply wp_operation_run].
  destruct H1' as (w & (o & Ha & Hr) & Hw & _). rewrite Hw in *.
  pose proof Ha as [_ _ _ Hi _ [log Hd] (_ & _ & _ & Hk) [Hid _]].
  eapply exec_wp in H2'; [|apply (wp_replay self c o d' _ (op_id o)); try done].
  - destruct H2' as (w2 & (Hw2 & resp' & -> & Hid') & <- & _). split; [done|].
    exists resp'. split; [done|]. congruence.
  - rewrite Hd. apply lookup_insert_eq.
Qed.

(** A request that is not accepted leaves the database as it was: refused with
    any error, or answered from the recorded operation of its idempotency key. *)
Theorem unaccepted_request_changes_nothing self c d e r d' e' :
  exec (operation_run self c) d e = (r, d', e') →
  (∀ resp, r ≠ Ok (resp, true)) → d' = d.
Proof.
  intros Hrun Hr. eapply exec_wp in Hrun; [|by apply wp_operation_run].
  destruct Hrun as (w & Hp & <- & _). destruct r as [[resp []]|x]; simpl in Hp; [|by destruct Hp|done].
  by destruct (Hr resp).
Qed.
End props.

(** A power request, its repetition, and one with another key. *)
Definition demo_call (key : string) : operation_call := CallPower 7 START key None.
Definition demo_ask (key : string) (d : db) : outcome (JobResponse * bool) * db * script :=
  exec (operation_run demo_admin (demo_call key)) d (script_at 500 [] [] []).

Lemma demo_ask_eq key d :
  exec (operation_run demo_admin (demo_call key)) d (script_at 500 [] [] []) =
  ((demo_ask key d).1.1, (demo_ask key d).1.2, (demo_ask key d).2).
Proof. unfold demo_ask. by destruct (exec _ _ _) as [[]]. Qed.

Definition demo_response : JobResponse :=
  mkJobResponse 500 7 None (JobPower START) "STANDARD" OS_QUEUED
    [("action_mode", JStr "STANDARD"); ("reason_recorded", JBool false);
     ("workload_kind", JStr "QEMU")] None None None None None 30000000000 None None.

Lemma demo_ask_accepted :
  exec (operation_run demo_admin (demo_call "key-1")) demo_power_base (script_at 500 [] [] []) =
  (Ok (demo_response, true), demo_queued, (demo_ask "key-1" demo_power_base).2).
Proof. vm_compute. reflexivity. Qed.

Lemma accepted_request_witness :
  ∃ o, accepted demo_admin (demo_call "key-1") demo_power_base demo_response o demo_queued.
Proof. eapply (accepted_request demo_admin (demo_call "key-1")), demo_ask_accepted. Defined.

Lemma request_is_idempotent_witness :
  (demo_ask "key-1" demo_queued).1.2 = demo_queued ∧
  ∃ resp, (demo_ask "key-1" demo_queued).1.1 = Ok (resp, false) ∧ jr_id resp = 500%N.
Proof.
  apply (request_is_idempotent demo_admin (demo_call "key-1") _ _ _ _ _ _ _ _ _
    demo_ask_accepted (demo_ask_eq "key-1" demo_queued)).
Defined.

Lemma unaccepted_request_changes_nothing_witness :
  (∀ resp, (demo_ask "key-2" demo_queued).1.1 ≠ Ok (resp, true)) ∧
  (demo_ask "key-2" demo_queued).1.2 = demo_queued.
Proof.
  assert (∀ resp, (demo_ask "key-2" demo_queued).1.1 ≠ Ok (resp, true)) as Hr
    by (intros resp; by vm_compute).
  split; [exact Hr|].
  apply (unaccepted_request_changes_nothing demo_admin (demo_call "key-2") _ _ _ _ _
    (demo_ask_eq "key-2" demo_queued) Hr).
Defined.
