(* ===== verification/Auth.v ===== *)
(** * Authentication

    app/services/auth.py, app/security/tokens.py and app/dependencies.py: logins
    with their throttle, rotating refresh tokens with reuse detection, and the
    access tokens that the API accepts.  A raw refresh secret is the [N] that the
    runtime drew for it. *)
From S2P Require Import Prelude Models Database AuditLog Operations.

(** ** Libraries *)

(** argon2-cffi: [hash] salts, [verify] is total ([PasswordManager.verify] turns
    the library's exceptions into [False]). *)
Class Passwords (E : Type) := {
  pw_hash : string → E → string * E;
  pw_verify : string → string → bool }.

Definition hash_password {E} `{Passwords E} (password : string) : DBM E string :=
  from_env (pw_hash password).

(** The payload of an access token; its times are whole seconds, as PyJWT writes
    them. *)
Record jwt_payload := JwtPayload {
  jp_sub : N; jp_type : string; jp_epoch : Z; jp_role : UserRole; jp_jti : N;
  jp_iat : Z; jp_exp : Z; jp_iss : string; jp_aud : string }.

(** PyJWT with the application's key: [jwt_decode now audience issuer token] is
    [None] where the library raises, or where a claim does not have its type. *)
Class Jwt := {
  jwt_encode : jwt_payload → string;
  jwt_decode : Z → string → string → string → option jwt_payload;
  (** [sha256(secret).digest()] of a refresh secret *)
  sha256_secret : N → N }.

(** What PyJWT documents: it accepts its own tokens in their time, never reads
    another payload from them, and writes them without white space. *)
Class JwtLaws `{Jwt} := {
  jwt_round_trip p now :
    seconds (jp_iat p) ≤ now → now < seconds (jp_exp p) →
    jwt_decode now (jp_aud p) (jp_iss p) (jwt_encode p) = Some p;
  jwt_authentic p q now aud iss :
    jwt_decode now aud iss (jwt_encode p) = Some q → q = p;
  jwt_text p : str_strip (jwt_encode p) = jwt_encode p }.

(** ** Settings and schemas *)

Record AuthSettings := mkAuthSettings {
  access_token_ttl_seconds : Z; refresh_token_ttl_days : Z; login_failure_limit : Z;
  login_failure_window_seconds : Z; login_lockout_seconds : Z;
  jwt_issuer : string; jwt_audience : string }.

(** app/schemas/auth.py: [None] where the validator raises [ValueError]. *)
Definition normalize_email (value : string) : option string :=
  let normalized := str_lower (str_strip value) in
  if (320 <? Z.of_nat (String.length normalized)) || negb (str_contains "@" normalized) ||
     String.prefix "@" normalized
  then None else Some normalized.

Record LoginRequest := mkLoginRequest { lr_email : string; lr_password : string }.

Record TokenResponse := mkTokenResponse {
  tr_access_token : string; tr_refresh_token : N; tr_expires_in : Z }.

(** ** Errors *)

Definition INVALID_CREDENTIALS : exn :=
  app_error 401 "INVALID_CREDENTIALS" "The email or password is invalid.".
Definition INVALID_REFRESH : exn :=
  app_error 401 "INVALID_REFRESH_TOKEN" "The refresh token is invalid or expired.".
Definition RATE_LIMITED : exn :=
  app_error 429 "LOGIN_RATE_LIMITED" "Too many login attempts. Try again later.".
Definition REFRESH_TOKEN_REUSED : exn :=
  app_error 401 "REFRESH_TOKEN_REUSED"
    "Refresh token reuse was detected; the session was revoked.".
Definition INVALID_ACCESS_TOKEN : exn :=
  app_error 401 "INVALID_ACCESS_TOKEN" "The access token is invalid or expired.".
Definition AUTHENTICATION_REQUIRED : exn :=
  app_error 401 "AUTHENTICATION_REQUIRED" "A valid access token is required.".

Section auth.
Context {E : Type} `{Runtime E} `{Passwords E} `{Jwt} `{Digests}.
Context (settings : AuthSettings).

(** ** app/security/tokens.py *)

Definition refresh_ttl : Z := seconds (refresh_token_ttl_days settings * 86400).
Definition access_ttl : Z := seconds (access_token_ttl_seconds settings).

(** PyJWT turns a [datetime] into [timegm(value.utctimetuple())]. *)
Definition timestamp (t : Z) : Z := t / seconds 1.

Definition access_payload (u : user) (now : Z) (jti : N) : jwt_payload := {|
  jp_sub := u_id u; jp_type := "access"; jp_epoch := u_session_epoch u; jp_role := u_role u;
  jp_jti := jti; jp_iat := timestamp now; jp_exp := timestamp (now + access_ttl);
  jp_iss := jwt_issuer settings; jp_aud := jwt_audience settings |}.

Definition create_access_token (u : user) : DBM E (string * Z) :=
  now ← datetime_now;
  jti ← uuid4;
  mret (jwt_encode (access_payload u now jti), access_token_ttl_seconds settings).

Record AccessClaims := mkAccessClaims { ac_user_id : N; ac_session_epoch : Z }.

Definition decode_access_token (token : string) : DBM E AccessClaims :=
  now ← datetime_now;
  match jwt_decode now (jwt_audience settings) (jwt_issuer settings) token with
  | Some payload =>
    raise_if (bool_decide (jp_type payload ≠ "access")) INVALID_ACCESS_TOKEN;;
    mret (mkAccessClaims (jp_sub payload) (jp_epoch payload))
  | None => raise INVALID_ACCESS_TOKEN
  end.

(** ** app/dependencies.py *)

(** [authorization.removeprefix("Bearer ").strip()], if it starts so. *)
Definition bearer_token (authorization : string) : option string :=
  if String.prefix "Bearer " authorization
  then Some (str_strip (String.substring 7 (String.length authorization - 7) authorization))
  else None.

Definition get_current_principal (authorization : option string) : DBM E Principal :=
  raw_token ← or_raise AUTHENTICATION_REQUIRED (authorization ≫= bearer_token);
  claims ← decode_access_token raw_token;
  row ← db_get user (ac_user_id claims);
  match row with
  | Some u =>
    raise_if (negb (u_is_active u) ||
              bool_decide (u_session_epoch u ≠ ac_session_epoch claims)) INVALID_ACCESS_TOKEN;;
    mret (mkPrincipal (u_id u) (u_email u) (u_role u) (u_session_epoch u))
  | None => raise INVALID_ACCESS_TOKEN
  end.

(** ** app/services/auth.py *)

Definition _throttle_key (email source : string) : N :=
  hmac_key (email +:+ String (Ascii.ascii_of_nat 0) "" +:+ source).

Definition locked_out (throttle : option login_throttle) (now : Z) : bool :=
  match throttle ≫= lt_locked_until with Some until => now <? until | None => false end.

(** The throttle row after one more failure, and whether it locks. *)
Definition failed_throttle (throttle : option login_throttle) (key_hash : N) (now : Z)
  : login_throttle * bool :=
  let t :=
    match throttle with
    | None => LoginThrottle key_hash 0 now None
    | Some t =>
      if seconds (login_failure_window_seconds settings) <=? now - lt_window_started_at t
      then t <| lt_failure_count := 0 |> <| lt_window_started_at := now |>
             <| lt_locked_until := None |>
      else t
    end in
  let t := t <| lt_failure_count := lt_failure_count t + 1 |> in
  if login_failure_limit settings <=? lt_failure_count t
  then (t <| lt_locked_until := Some (now + seconds (login_lockout_seconds settings)) |>, true)
  else (t, false).

Definition _record_failure (throttle : option login_throttle) (key_hash : N) (now : Z)
  : DBM E bool :=
  let t := failed_throttle throttle key_hash now in
  match throttle with None => db_add t.1 | Some _ => db_save t.1 end;;
  mret t.2.

Definition _revoke_family (family_id : N) (now : Z) : DBM E () :=
  db_update_where (λ t : refresh_token, bool_decide (rt_family_id t = family_id) &&
                        bool_decide (rt_revoked_at t = None))
    (λ t, t <| rt_revoked_at := Some now |>).

Definition _issue_token_pair (u : user) (now : Z) : DBM E TokenResponse :=
  refresh_secret ← token_urlsafe;
  family_id ← uuid4;
  id ← uuid4;
  db_add (RefreshToken id (u_id u) family_id (sha256_secret refresh_secret) None None
            (now + refresh_ttl) None None);;
  access ← create_access_token u;
  mret (mkTokenResponse access.1 refresh_secret access.2).

Definition login_audit (request_id outcome : string) (u : option user) : audit_args :=
  (audit_event "AUTH_LOGIN" outcome (Some request_id))
    <| a_actor_user_id := u_id <$> u |> <| a_actor_role := u_role <$> u |>.

Definition token_audit (action outcome request_id : string) (u : user) (family_id : N)
  : audit_args :=
  (audit_event action outcome (Some request_id))
    <| a_actor_user_id := Some (u_id u) |> <| a_actor_role := Some (u_role u) |>
    <| a_target_type := Some "refresh_token_family" |>
    <| a_target_id := Some (JUuid family_id) |>.

(** The branch of a wrong password, an unknown email or an inactive user. *)
Definition login_failed (u : option user) (throttle : option login_throttle)
    (key_hash : N) (now : Z) (request_id : string) : DBM E TokenResponse :=
  locked ← _record_failure throttle key_hash now;
  add_audit_event ((login_audit request_id "DENIED" u)
    <| a_details := Some [("reason", JStr "INVALID_CREDENTIALS")] |>
    <| a_error_code := Some "INVALID_CREDENTIALS" |>);;
  commit;;
  raise (if locked : bool then RATE_LIMITED else INVALID_CREDENTIALS).

(** The branch of valid credentials. *)
Definition login_accepted (u : user) (throttle : option login_throttle) (now : Z)
    (request_id : string) : DBM E TokenResponse :=
  match throttle with Some t => db_delete t | None => mret tt end;;
  let u := u <| u_last_login_at := Some now |> in
  db_save u;;
  token_response ← _issue_token_pair u now;
  add_audit_event ((login_audit request_id "SUCCEEDED" (Some u))
    <| a_target_type := Some "user" |> <| a_target_id := Some (JUuid (u_id u)) |>);;
  commit;;
  mret token_response.

Definition login (request : LoginRequest) (source request_id : string)
  : DBM E TokenResponse :=
  now ← datetime_now;
  let key_hash := _throttle_key (lr_email request) source in
  throttle ← db_get login_throttle key_hash;
  if locked_out throttle now then
    add_audit_event ((login_audit request_id "DENIED" None)
      <| a_details := Some [("reason", JStr "RATE_LIMITED")] |>
      <| a_error_code := Some "LOGIN_RATE_LIMITED" |>);;
    commit;;
    raise RATE_LIMITED
  else
    row ← db_scalar (λ u : user, bool_decide (u_email u = lr_email request));
    match row with
    | Some u =>
      if pw_verify (u_password_hash u) (lr_password request) && u_is_active u
      then login_accepted u throttle now request_id
      else login_failed row throttle key_hash now request_id
    | None => login_failed None throttle key_hash now request_id
    end.

(** A token that was used or revoked came back: the family and every access token
    of the user end. *)
Definition refresh_reused (stored : refresh_token) (u : user) (now : Z) (request_id : string)
  : DBM E TokenResponse :=
  db_save (stored <| rt_reuse_detected_at := Some now |>);;
  _revoke_family (rt_family_id stored) now;;
  db_save (u <| u_session_epoch := u_session_epoch u + 1 |>);;
  add_audit_event (token_audit "AUTH_REFRESH_REUSE" "DENIED" request_id u (rt_family_id stored));;
  commit;;
  raise REFRESH_TOKEN_REUSED.

(** Rotation: a replacement in the same family, the old one revoked. *)
Definition refresh_rotated (stored : refresh_token) (u : user) (now : Z) (request_id : string)
  : DBM E TokenResponse :=
  raw_replacement ← token_urlsafe;
  id ← uuid4;
  db_add (RefreshToken id (u_id u) (rt_family_id stored) (sha256_secret raw_replacement)
            (Some (rt_id stored)) None (now + refresh_ttl) None None);;
  flush;;
  db_save (stored <| rt_revoked_at := Some now |> <| rt_replaced_by_id := Some id |>);;
  access ← create_access_token u;
  add_audit_event (token_audit "AUTH_REFRESH" "SUCCEEDED" request_id u (rt_family_id stored));;
  commit;;
  mret (mkTokenResponse access.1 raw_replacement access.2).

Definition refresh (raw_token : N) (request_id : string) : DBM E TokenResponse :=
  now ← datetime_now;
  let token_hash := sha256_secret raw_token in
  row ← db_scalar (λ t : refresh_token, bool_decide (rt_token_hash t = token_hash));
  stored ← or_raise INVALID_REFRESH row;
  raise_if (negb (bool_decide (rt_token_hash stored = token_hash))) INVALID_REFRESH;;
  row ← db_get user (rt_user_id stored);
  match row with
  | None => raise INVALID_REFRESH
  | Some u =>
    raise_if (negb (u_is_active u)) INVALID_REFRESH;;
    if bool_decide (rt_revoked_at stored ≠ None) || bool_decide (rt_replaced_by_id stored ≠ None)
    then refresh_reused stored u now request_id
    else if rt_expires_at stored <=? now then
      db_save (stored <| rt_revoked_at := Some now |>);;
      commit;;
      raise INVALID_REFRESH
    else refresh_rotated stored u now request_id
  end.

Definition logout (raw_token : N) (request_id : string) : DBM E () :=
  now ← datetime_now;
  row ← db_scalar (λ t : refresh_token, bool_decide (rt_token_hash t = sha256_secret raw_token));
  match row with
  | None => mret tt
  | Some stored =>
    row ← db_get user (rt_user_id stored);
    _revoke_family (rt_family_id stored) now;;
    match row with
    | Some u =>
      db_save (u <| u_session_epoch := u_session_epoch u + 1 |>);;
      add_audit_event (token_audit "AUTH_LOGOUT" "SUCCEEDED" request_id u (rt_family_id stored))
    | None => mret tt
    end;;
    commit
  end.
End auth.
