(* ===== verification/AuthProps.v ===== *)
(** * Authentication: properties

    Refresh-token rotation and theft detection, the login throttle, and the access
    tokens that a change of session epoch ends. *)
From Stdlib Require Import Lia.
From S2P Require Import Prelude Models Database AuditLog Operations Auth.

(** ** Saves that keep the schema *)

Lemma integrity_save_user d u u' :
  db_users d !! u_id u' = Some u → u_email u' = u_email u →
  integrity d = true → integrity (set_rows <[u_id u' := u']> d) = true.
Proof.
  intros Hu He. integrity_rest.
  eapply (unique_onb_save uq_users_email d _ (u_id u') u u'); try done.
  unfold uq_users_email. by rewrite He.
Qed.

Lemma integrity_save_token d t t' :
  db_refresh_tokens d !! rt_id t' = Some t → rt_token_hash t' = rt_token_hash t →
  integrity d = true → integrity (set_rows <[rt_id t' := t']> d) = true.
Proof.
  intros Ht Hh. integrity_rest.
  eapply (unique_onb_save uq_refresh_tokens_hash d _ (rt_id t') t t'); try done.
  unfold uq_refresh_tokens_hash. by rewrite Hh.
Qed.

Lemma integrity_update_tokens d (g : refresh_token → refresh_token) :
  (∀ t, rt_token_hash (g t) = rt_token_hash t) →
  integrity d = true → integrity (set_rows (fmap g) d) = true.
Proof.
  intros Hg. integrity_rest.
  eapply (unique_onb_fmap uq_refresh_tokens_hash g d); try done.
  intros t. unfold uq_refresh_tokens_hash. by rewrite Hg.
Qed.

(** ** Sound tables and live tokens *)

Record auth_sound (d : db) : Prop := {
  as_integrity : integrity d = true;
  as_users : keyed user d;
  as_tokens : keyed refresh_token d }.

#[export] Instance auth_sound_dec d : Decision (auth_sound d).
Proof.
  refine (cast_if (decide (integrity d = true ∧ keyed user d ∧ keyed refresh_token d)));
    abstract (destruct_and?; first [by split | by intros []; auto]).
Defined.

(** Every token of the family is revoked. *)
Definition family_dead (family : N) (d : db) : Prop :=
  ∀ i t, db_refresh_tokens d !! i = Some t → rt_family_id t = family → rt_revoked_at t ≠ None.

(** At most one token of a family is not revoked. *)
Definition one_live_token (d : db) : Prop :=
  ∀ i j s t, db_refresh_tokens d !! i = Some s → db_refresh_tokens d !! j = Some t →
    rt_family_id s = rt_family_id t → rt_revoked_at s = None → rt_revoked_at t = None → i = j.

Definition revoked_in (family : N) (now : Z) (t : refresh_token) : refresh_token :=
  if bool_decide (rt_family_id t = family) && bool_decide (rt_revoked_at t = None)
  then t <| rt_revoked_at := Some now |> else t.

Lemma revoked_in_spec family now t :
  rt_id (revoked_in family now t) = rt_id t ∧
  rt_token_hash (revoked_in family now t) = rt_token_hash t ∧
  rt_family_id (revoked_in family now t) = rt_family_id t ∧
  rt_user_id (revoked_in family now t) = rt_user_id t ∧
  rt_replaced_by_id (revoked_in family now t) = rt_replaced_by_id t ∧
  (rt_revoked_at (revoked_in family now t) = None ↔
     rt_revoked_at t = None ∧ rt_family_id t ≠ family).
Proof.
  unfold revoked_in. repeat case_bool_decide; simpl; split_and!; naive_solver.
Qed.

(** The database after [_revoke_family] and the epoch's increment. *)
Definition next_epoch (u : user) : user := u <| u_session_epoch := u_session_epoch u + 1 |>.

Definition session_ended (family : N) (now : Z) (u : user) (d : db) : db :=
  set_rows <[u_id (next_epoch u) := next_epoch u]> (set_rows (fmap (revoked_in family now)) d).

Lemma session_ended_sound family now u d log :
  auth_sound d → db_users d !! u_id u = Some u →
  auth_sound ((session_ended family now u d) <| db_audit_logs := log |>).
Proof.
  intros [Hi Hu Ht] Huu. split.
  - rewrite integrity_log. unfold session_ended.
    apply (integrity_save_user _ u (next_epoch u)); [exact Huu|done|].
    apply integrity_update_tokens; [|done]. intros t. apply revoked_in_spec.
  - exact (lookup_insert_key u_id (db_users d) (next_epoch u) Hu).
  - intros i t. simpl. rewrite lookup_fmap, fmap_Some. intros (s & Hs & ->).
    rewrite (proj1 (revoked_in_spec family now s)). by apply Ht.
Qed.

Lemma session_ended_dead family now u d log :
  family_dead family ((session_ended family now u d) <| db_audit_logs := log |>).
Proof.
  intros i t. simpl. rewrite lookup_fmap, fmap_Some. intros (s & Hs & ->) Hf Hn.
  destruct (revoked_in_spec family now s) as (_ & _ & Hfam & _ & _ & Hr).
  apply Hr in Hn as [_ Hn]. congruence.
Qed.

Section tokens.
Context {E : Type} `{Runtime E} `{Passwords E} `{Jwt} `{Digests}.
Context (settings : AuthSettings).
Implicit Types (d : db) (w : world E) (u : user) (stored : refresh_token).

(** A session that just began. *)
Definition begins d w : Prop := w_tx w = d ∧ w_db w = d ∧ w_dup w = false.

Definition reuse_marked (now : Z) (stored : refresh_token) : refresh_token :=
  stored <| rt_reuse_detected_at := Some now |>.

Lemma wp_create_access_token u Q w :
  (∀ now jti e', env_now (w_env w) = (now, e') →
     ∀ e'', Q (Ok (jwt_encode (access_payload settings u now jti), access_token_ttl_seconds settings))
       (World (w_db w) (w_tx w) (w_dup w) e'')) →
  wp (create_access_token settings u) Q w.
Proof. intros HQ. unfold create_access_token. wp_run. by eapply HQ. Qed.

Lemma wp_revoke_family family now Q w :
  Q (Ok tt) (World (w_db w) (set_rows (fmap (revoked_in family now)) (w_tx w))
               (w_dup w) (w_env w)) →
  wp (_revoke_family family now) Q w.
Proof. done. Qed.

(** Reuse ends the session, whatever else is stored. *)
Lemma wp_refresh_reused stored u now request_id d w Q :
  auth_sound d → begins d w → db_refresh_tokens d !! rt_id stored = Some stored →
  db_users d !! u_id u = Some u →
  (∀ d' log e', d' = (session_ended (rt_family_id stored) now u
      (set_rows <[rt_id (reuse_marked now stored) := reuse_marked now stored]> d))
        <| db_audit_logs := log |> → auth_sound d' →
      Q (Raise REFRESH_TOKEN_REUSED) (World d' d' false e')) →
  wp (refresh_reused stored u now request_id) Q w.
Proof.
  intros Hd (Htx & Hdb & Hdup) Hs Hu HQ. destruct w as [wd wt wb we]. simpl in *. subst.
  assert (auth_sound (set_rows <[rt_id (reuse_marked now stored) := reuse_marked now stored]> d))
    as Hd1.
  { destruct Hd as [Hi Hku Hkt]. split; [|done|].
    - by apply (integrity_save_token _ stored (reuse_marked now stored)).
    - exact (lookup_insert_key rt_id (db_refresh_tokens d) (reuse_marked now stored) Hkt). }
  unfold refresh_reused. do 3 wp_step. apply wp_revoke_family.
  cbv beta iota; cbn [w_db w_tx w_dup w_env]. do 4 wp_step.
  pose proof (session_ended_sound (rt_family_id stored) now u _ log Hd1 Hu) as Hd2.
  apply wp_bind, wp_commit_sound; [done|exact (as_integrity _ Hd2)|]. by eapply HQ.
Qed.

Definition used_by (now : Z) (id : N) (stored : refresh_token) : refresh_token :=
  stored <| rt_revoked_at := Some now |> <| rt_replaced_by_id := Some id |>.

Definition replacement (id : N) (u : user) (stored : refresh_token) (raw : N) (now : Z)
  : refresh_token :=
  RefreshToken id (u_id u) (rt_family_id stored) (sha256_secret raw) (Some (rt_id stored)) None
    (now + refresh_ttl settings) None None.

Definition rotated (id raw : N) (u : user) (stored : refresh_token) (now : Z) d : db :=
  set_rows <[rt_id (used_by now id stored) := used_by now id stored]>
    (set_rows <[id := replacement id u stored raw now]> d).

(** A rotation that commits: what it returned and what it left. *)
Definition rotation stored u d (resp : TokenResponse) d' : Prop :=
  ∃ id raw now iat jti log,
    resp = mkTokenResponse (jwt_encode (access_payload settings u iat jti)) raw
             (access_token_ttl_seconds settings) ∧
    db_refresh_tokens d !! id = None ∧
    d' = (rotated id raw u stored now d) <| db_audit_logs := log |> ∧ auth_sound d'.

Lemma wp_refresh_rotated stored u now request_id d w :
  auth_sound d → begins d w → db_refresh_tokens d !! rt_id stored = Some stored →
  wp (refresh_rotated settings stored u now request_id)
    (λ r w', match r with Ok resp => rotation stored u d resp (w_db w') | Raise _ => w_db w' = d end) w.
Proof.
  intros Hd (Htx & Hdb & Hdup) Hs. destruct w as [wd wt wb we]. simpl in *. subst.
  unfold refresh_rotated. do 8 wp_step; [done|]. do 2 wp_step.
  apply wp_bind, wp_create_access_token. intros iat jti e1 _ e2. do 4 wp_step; [done|]. wp_step.
  exists a0, a, now, iat, jti, log. split; [done|].
  assert (db_refresh_tokens d !! a0 = None) as Hnew by by fresh_row.
  split_and!; [done|done|]. destruct Hd as [Hi Hku Hkt]. split; [done|done|].
  intros i t Ht. simpl in Ht. apply lookup_insert_Some in Ht as [[<- <-]|[_ Ht]]; [done|].
  apply lookup_insert_Some in Ht as [[<- <-]|[_ Ht]]; [done|]. by apply Hkt.
Qed.

Lemma token_by_hash d i stored raw :
  integrity d = true → db_refresh_tokens d !! i = Some stored →
  rt_token_hash stored = sha256_secret raw →
  first_row (λ t : refresh_token, bool_decide (rt_token_hash t = sha256_secret raw)) d = Some stored.
Proof.
  intros Hi Hs Hh. eapply first_row_unique; [exact Hs|by apply bool_decide_eq_true|].
  intros j t Hj Ht%bool_decide_eq_true.
  assert (j = i) as ->.
  2: { change (db_refresh_tokens d !! i = Some t) in Hj. rewrite Hs in Hj. by injection Hj. }
  eapply (integrity_unique uq_refresh_tokens_hash d); [by simpl; tauto|done|exact Hj|exact Hs|reflexivity|].
  unfold uq_refresh_tokens_hash. congruence.
Qed.

Definition expired (now : Z) (stored : refresh_token) : refresh_token :=
  stored <| rt_revoked_at := Some now |>.

(** Every way a refresh can end. *)
Definition refresh_post raw d (r : outcome TokenResponse) w : Prop :=
  match r with
  | Ok resp => ∃ stored u,
      db_refresh_tokens d !! rt_id stored = Some stored ∧
      rt_token_hash stored = sha256_secret raw ∧
      db_users d !! u_id u = Some u ∧ rt_user_id stored = u_id u ∧ u_is_active u = true ∧
      rt_revoked_at stored = None ∧ rotation stored u d resp (w_db w)
  | Raise x =>
      w_db w = d ∨
      (∃ stored u now log, x = REFRESH_TOKEN_REUSED ∧
         db_refresh_tokens d !! rt_id stored = Some stored ∧
         w_db w = (session_ended (rt_family_id stored) now u
           (set_rows <[rt_id (reuse_marked now stored) := reuse_marked now stored]> d))
             <| db_audit_logs := log |> ∧ auth_sound (w_db w)) ∨
      (∃ stored now, x = INVALID_REFRESH ∧ db_refresh_tokens d !! rt_id stored = Some stored ∧
         w_db w = set_rows <[rt_id stored := expired now stored]> d ∧ auth_sound (w_db w))
  end.

Lemma wp_refresh raw request_id d w :
  auth_sound d → begins d w →
  wp (refresh settings raw request_id) (refresh_post raw d) w.
Proof.
  intros Hd (Htx & Hdb & Hdup). destruct w as [wd wt wb we]. simpl in *. subst.
  unfold refresh. do 4 wp_step. do 2 wp_step; [by left|]. do 2 wp_step; [by left|].
  do 2 wp_step. wp_step; [|wp_step; by left]. do 2 wp_step; [by left|].
  match goal with Hf : first_row _ _ = ?row, Hr : ?row = Some ?t |- _ =>
    rewrite Hr in Hf; apply first_row_Some in Hf as [Hh [i Hi]]; rename t into stored end.
  apply bool_decide_eq_true in Hh.
  assert (rt_id stored = i) as <- by by apply (as_tokens _ Hd).
  match goal with Hf : rows _ !! _ = Some ?t |- _ => rename t into u; rename Hf into Hu end.
  assert (u_id u = rt_user_id stored) as Huid by exact (as_users _ Hd _ _ Hu).
  rewrite <-Huid in Hu. wp_step; [|wp_step].
  - eapply wp_refresh_reused; [done|done|done|done|].
    intros d' log e2 -> Hd'. right; left. by exists stored, u, a, log.
  - do 4 wp_step; [by left|]. wp_step. right; right. exists stored, a. split_and!; try done.
    destruct Hd as [Hi2 Hku Hkt]. split; [done|done|].
    exact (lookup_insert_key rt_id (db_refresh_tokens d) (expired a stored) Hkt).
  - eapply wp_mono; [by apply wp_refresh_rotated|]. intros [resp|x] w' Hr; [|by left].
    exists stored, u. split_and!; try done; [by apply negb_false_iff|].
    match goal with Hb : _ || _ = false |- _ => apply orb_false_iff in Hb as [Hb _];
      by apply bool_decide_eq_false, dec_stable in Hb end.
Qed.

(** A dead token of an active user: theft. *)
Lemma wp_refresh_dead raw request_id stored u d w :
  auth_sound d → begins d w → db_refresh_tokens d !! rt_id stored = Some stored →
  rt_token_hash stored = sha256_secret raw → db_users d !! rt_user_id stored = Some u →
  u_is_active u = true → rt_revoked_at stored ≠ None →
  wp (refresh settings raw request_id)
    (λ r w', r = Raise REFRESH_TOKEN_REUSED ∧ ∃ now log,
       w_db w' = (session_ended (rt_family_id stored) now u
         (set_rows <[rt_id (reuse_marked now stored) := reuse_marked now stored]> d))
           <| db_audit_logs := log |> ∧ auth_sound (w_db w')) w.
Proof.
  intros Hd (Htx & Hdb & Hdup) Hs Hh Hu Ha Hr. destruct w as [wd wt wb we]. simpl in *. subst.
  assert (u_id u = rt_user_id stored) as Huid by exact (as_users _ Hd _ _ Hu).
  unfold refresh. do 2 wp_step. apply wp_bind, wp_db_scalar. intros ? <-. cbn [w_tx].
  rewrite (token_by_hash _ _ _ _ (as_integrity _ Hd) Hs Hh). apply wp_bind, wp_ret, wp_bind.
  apply wp_raise_if; [rewrite bool_decide_true by done; done|intros _].
  apply wp_bind, wp_db_get. intros ? <-. change (rows _ !! _) with (db_users d !! rt_user_id stored).
  rewrite Hu. apply wp_bind, wp_raise_if; [by rewrite Ha|intros _].
  rewrite (bool_decide_true (rt_revoked_at stored ≠ None)) by done. simpl.
  eapply wp_refresh_reused; [done|done|done|by rewrite Huid|].
  intros d' log e2 -> Hd'. split; [done|]. by exists a, log.
Qed.

(** *** Access tokens *)

Lemma substring_all t : String.substring 0 (String.length t) t = t.
Proof. induction t as [|a t IH]; simpl; [done|]. by rewrite IH. Qed.

Lemma bearer_token_app t : bearer_token ("Bearer " +:+ t) = Some (str_strip t).
Proof.
  unfold bearer_token. simpl. rewrite Nat.sub_0_r, substring_all. by destruct t.
Qed.

Definition principal_of u : Principal :=
  mkPrincipal (u_id u) (u_email u) (u_role u) (u_session_epoch u).

Context `{!JwtLaws}.

(** The token's whole seconds cover its lifetime but for its last second. *)
Lemma payload_in_time u iat jti now :
  iat ≤ now → now + seconds 1 ≤ iat + access_ttl settings →
  let p := access_payload settings u iat jti in
  seconds (jp_iat p) ≤ now ∧ now < seconds (jp_exp p).
Proof.
  cbv zeta. unfold access_payload. cbn [jp_iat jp_exp]. generalize (access_ttl settings).
  intros ttl. unfold timestamp, seconds. rewrite Z.mul_1_l. intros Hlo Hhi.
  pose proof (Z.div_mod iat 1000000 ltac:(lia)).
  pose proof (Z.div_mod (iat + ttl) 1000000 ltac:(lia)).
  pose proof (Z.mod_pos_bound iat 1000000 ltac:(lia)).
  pose proof (Z.mod_pos_bound (iat + ttl) 1000000 ltac:(lia)). lia.
Qed.

(** A token of the right epoch is accepted in its time. *)
Lemma wp_principal_accepted u u' iat jti w now e' :
  db_users (w_tx w) !! u_id u = Some u' → u_is_active u' = true →
  u_session_epoch u' = u_session_epoch u → env_now (w_env w) = (now, e') →
  iat ≤ now → now + seconds 1 ≤ iat + access_ttl settings →
  wp (get_current_principal settings
        (Some ("Bearer " +:+ jwt_encode (access_payload settings u iat jti))))
    (λ r w', r = Ok (principal_of u') ∧ w_db w' = w_db w) w.
Proof.
  intros Hu Ha He Hnow Hlo Hhi. unfold get_current_principal, decode_access_token. simpl.
  rewrite bearer_token_app, jwt_text. apply wp_bind, wp_ret, wp_bind, wp_bind, wp_from_env.
  intros ? ? Hn. rewrite Hnow in Hn. injection Hn as <- <-.
  set (p := access_payload settings u iat jti).
  change (jwt_audience settings) with (jp_aud p). change (jwt_issuer settings) with (jp_iss p).
  destruct (payload_in_time u iat jti now Hlo Hhi) as [Hiat Hexp].
  rewrite jwt_round_trip by done. apply wp_bind, wp_raise_if; [done|intros _]. apply wp_ret.
  apply wp_bind, wp_db_get. intros ? <-. simpl. rewrite Hu.
  apply wp_bind, wp_raise_if; [|intros _; by apply wp_ret].
  rewrite Ha, He. by rewrite bool_decide_false by (intros Hx; by apply Hx).
Qed.

(** A token of another epoch is refused at any time. *)
Lemma wp_principal_refused u u' iat jti w :
  db_users (w_tx w) !! u_id u = Some u' → u_session_epoch u' ≠ u_session_epoch u →
  wp (get_current_principal settings
        (Some ("Bearer " +:+ jwt_encode (access_payload settings u iat jti))))
    (λ r _, r = Raise INVALID_ACCESS_TOKEN) w.
Proof.
  intros Hu He. unfold get_current_principal, decode_access_token. simpl.
  rewrite bearer_token_app, jwt_text. apply wp_bind, wp_ret, wp_bind, wp_bind, wp_from_env.
  intros now e' _. destruct (jwt_decode _ _ _ _) as [q|] eqn:Hq; [|by apply wp_raise].
  apply jwt_authentic in Hq as ->. apply wp_bind, wp_raise_if; [done|intros _]. apply wp_ret.
  apply wp_bind, wp_db_get. intros ? <-. simpl. rewrite Hu.
  apply wp_bind, wp_raise_if; [intros _; done|]. by rewrite bool_decide_true, orb_true_r.
Qed.

(** C13: when a refresh token that was already exchanged comes back, the theft is
    answered: the session it belongs to ends, so that the replacement it had been
    exchanged for is refused too, and the access token issued with it is refused at
    any time. *)
Theorem refresh_token_theft raw rid1 rid2 rid3 d e1 resp d1 e1' e2 r d2 e2' e3 :
  auth_sound d →
  exec (refresh settings raw rid1) d e1 = (Ok resp, d1, e1') →
  exec (refresh settings raw rid2) d1 e2 = (r, d2, e2') →
  r = Raise REFRESH_TOKEN_REUSED ∧
  (exec (refresh settings (tr_refresh_token resp) rid3) d2 e3).1.1 = Raise REFRESH_TOKEN_REUSED ∧
  (exec (get_current_principal settings (Some ("Bearer " +:+ tr_access_token resp))) d2 e3).1.1
    = Raise INVALID_ACCESS_TOKEN.
Proof.
  intros Hd H1' H2'.
  eapply exec_wp in H1'; [|by apply (wp_refresh raw rid1 d)].
  destruct H1' as (w1 & (stored & u & Hs & Hh & Hu & Huid & Ha & _ & Hrot) & Hw1 & _).
  destruct Hrot as (id & raw' & now & iat & jti & log & -> & Hnew & Hd1 & Hs1). rewrite Hw1 in *.
  assert (id ≠ rt_id stored) as Hne by congruence.
  assert (db_refresh_tokens d1 !! rt_id stored = Some (used_by now id stored)) as Hst1.
  { rewrite Hd1. apply lookup_insert_eq. }
  assert (db_users d1 !! u_id u = Some u) as Hu1 by by rewrite Hd1.
  eapply exec_wp in H2'; [|apply (wp_refresh_dead raw rid2 (used_by now id stored) u d1);
    try done; simpl; by rewrite Huid].
  destruct H2' as (w2 & (-> & now2 & log2 & Hd2 & Hs2) & Hw2 & _). rewrite Hw2 in *.
  assert (db_users d2 !! u_id u = Some (next_epoch u)) as Hu2.
  { rewrite Hd2. apply lookup_insert_eq. }
  set (repl := replacement id u stored raw' now).
  assert (db_refresh_tokens d2 !! id = Some (revoked_in (rt_family_id stored) now2 repl)) as Ht2.
  { rewrite Hd2. simpl. rewrite lookup_fmap, lookup_insert_ne by done. rewrite Hd1. simpl.
    rewrite lookup_insert_ne by done. by rewrite lookup_insert_eq. }
  destruct (revoked_in_spec (rt_family_id stored) now2 repl)
    as (Hrid & Hrh & Hrf & Hru & _ & Hrev).
  split_and!; [done| |].
  - destruct (exec (refresh settings _ rid3) d2 e3) as [[r3 d3] e3'] eqn:Hx3.
    eapply exec_wp in Hx3; [|apply (wp_refresh_dead raw' rid3
      (revoked_in (rt_family_id stored) now2 repl) (next_epoch u) d2); try done].
    + by destruct Hx3 as (w3 & (-> & _) & _).
    + by rewrite Hrid.
    + by rewrite Hru.
    + intros Hn. apply Hrev in Hn as [_ Hn]. by apply Hn.
  - destruct (exec (get_current_principal _ _) d2 e3) as [[r3 d3] e3'] eqn:Hx3.
    eapply exec_wp in Hx3; [|apply (wp_principal_refused u (next_epoch u) iat jti); [done|simpl; lia]].
    by destruct Hx3 as (w3 & -> & _).
Qed.
End tokens.
