(* ===== verification/DemoAuth.v ===== *)
(** * Concrete runs of the authentication service

    Toy passwords and access tokens that satisfy the documented laws, and a user
    who logs in, for the witnesses. *)
From Stdlib Require Import Lia.
From stdpp Require Import countable.
From S2P Require Import Prelude Models Database AuditLog Operations Auth IpAddr Ipam IpamInv.
From S2P Require Import IpamOps Demo PveApi PowerRunner DemoPower.

#[export] Instance demo_passwords : Passwords demo :=
  {| pw_hash p e := ("h:" +:+ p, e); pw_verify h p := bool_decide (h = "h:" +:+ p) |}.

(** ** Tokens: the payload's code in binary *)

Definition payload_tuple (p : jwt_payload) :=
  (jp_sub p, jp_type p, jp_epoch p, match jp_role p with SUPER_ADMIN => 0%N | OPERATOR => 1%N | CUSTOMER => 2%N end,
   jp_jti p, jp_iat p, jp_exp p, jp_iss p, jp_aud p).

Definition tuple_payload (t : N * string * Z * N * N * Z * Z * string * string) : jwt_payload :=
  let '(sub, type, epoch, role, jti, iat, exp, iss, aud) := t in
  JwtPayload sub type epoch (match role with 0 => SUPER_ADMIN | 1 => OPERATOR | _ => CUSTOMER end)%N
    jti iat exp iss aud.

Lemma tuple_payload_tuple p : tuple_payload (payload_tuple p) = p.
Proof. by destruct p as [? ? ? [] ? ? ? ? ?]. Qed.

Definition bit0 : Ascii.ascii := Ascii.ascii_of_nat 48.
Definition bit1 : Ascii.ascii := Ascii.ascii_of_nat 49.

Fixpoint bits (p : positive) : string :=
  match p with
  | xH => "."
  | xO p => String bit0 (bits p)
  | xI p => String bit1 (bits p)
  end.

Fixpoint unbits (s : string) : option positive :=
  match s with
  | String a r =>
    if decide (a = bit0) then xO <$> unbits r
    else if decide (a = bit1) then xI <$> unbits r
    else match r with EmptyString => Some xH | _ => None end
  | EmptyString => None
  end.

Lemma unbits_bits p : unbits (bits p) = Some p.
Proof. induction p as [p IH|p IH|]; simpl; rewrite ?IH; done. Qed.

Lemma rstrip_bits p : str_rstrip (bits p) = bits p.
Proof. induction p as [p IH|p IH|]; simpl; [..|done]; rewrite IH; by destruct p. Qed.

#[export] Instance demo_jwt : Jwt :=
  {| jwt_encode p := bits (encode (payload_tuple p));
     jwt_decode now aud iss token :=
       code ← unbits token;
       t ← decode code;
       let p := tuple_payload t in
       if (seconds (jp_iat p) <=? now) && (now <? seconds (jp_exp p)) &&
          bool_decide (jp_aud p = aud) && bool_decide (jp_iss p = iss)
       then Some p else None;
     sha256_secret n := (n * 7919)%N |}.

#[export] Instance demo_jwt_laws : JwtLaws.
Proof.
  split.
  - intros p now Hlo Hhi. unfold jwt_decode, jwt_encode, demo_jwt, mbind, option_bind.
    rewrite unbits_bits, decode_encode, tuple_payload_tuple, !bool_decide_true by done.
    by rewrite (proj2 (Z.leb_le _ _) Hlo), (proj2 (Z.ltb_lt _ _) Hhi).
  - intros p q now aud iss. unfold jwt_decode, jwt_encode, demo_jwt, mbind, option_bind.
    rewrite unbits_bits, decode_encode, tuple_payload_tuple. cbv zeta. destruct (_ && _); by intros [= <-].
  - intros p. simpl. unfold str_strip. generalize (encode (payload_tuple p)). intros c.
    replace (str_lstrip (bits c)) with (bits c) by by destruct c. apply rstrip_bits.
Qed.

(** ** A user *)

Definition demo_auth_settings : AuthSettings :=
  mkAuthSettings 900 30 3 900 900 "pve-master" "pve-master-api".

Definition demo_operator : user :=
  User 2 "op@example.com" "Op" OPERATOR "h:correct horse" true 0 None None None None 1.

Definition demo_auth_db : db := empty_db <| db_users := {[ 2%N := demo_operator ]} |>.

Definition demo_right : LoginRequest := mkLoginRequest "op@example.com" "correct horse".
Definition demo_wrong : LoginRequest := mkLoginRequest "op@example.com" "guess".

(** Minute [n], identifiers from [1000 n]. *)
Definition demo_minute (n : N) : demo := Demo (Z.of_N n * seconds 60) (1000 * n).

Definition demo_session : outcome TokenResponse * db * demo :=
  exec (login demo_auth_settings demo_right "192.0.2.7" "req") demo_auth_db (demo_minute 1).

Definition demo_rotated : outcome TokenResponse * db * demo :=
  exec (refresh demo_auth_settings 1000 "req") demo_session.1.2 (demo_minute 2).

Example demo_session_ok : ∃ r, demo_session.1.1 = Ok r ∧ tr_refresh_token r = 1000%N.
Proof. eexists. split; vm_compute; reflexivity. Qed.

Example demo_rotated_ok : ∃ r, demo_rotated.1.1 = Ok r ∧ tr_refresh_token r = 2000%N.
Proof. eexists. split; vm_compute; reflexivity. Qed.
