(* ===== verification/LoginProps.v ===== *)
(** * Logins: properties

    How a login can end, the throttle over a series of failures, and what every
    authentication call keeps of the token families. *)
From Stdlib Require Import Lia.
From S2P Require Import Prelude Models Database AuditLog Operations PveApi PowerRunner Auth.
From S2P Require Import AuthProps IpAddr Ipam IpamInv IpamOps Demo DemoPower DemoAuth.

(** The calls of [AuthService]. *)
Inductive auth_call :=
| CallLogin (request : LoginRequest) (source request_id : string)
| CallRefresh (raw_token : N) (request_id : string)
| CallLogout (raw_token : N) (request_id : string).

Section login.
Context {E : Type} `{Runtime E} `{Passwords E} `{Jwt} `{Digests}.
Context (settings : AuthSettings).
Implicit Types (d : db) (w : world E) (u : user).

Definition auth_run (c : auth_call) : DBM E (option TokenResponse) :=
  match c with
  | CallLogin request source id => r ← login settings request source id; mret (Some r)
  | CallRefresh raw id => r ← refresh settings raw id; mret (Some r)
  | CallLogout raw id => logout raw id;; mret None
  end.

Lemma integrity_throttles d (g : gmap N login_throttle → gmap N login_throttle) :
  integrity (set_rows g d) = integrity d.
Proof. by destruct d. Qed.

(** A failure counts, whatever the reason. *)
Lemma wp_login_failed row throttle key_hash now request_id d w :
  auth_sound d → begins d w → db_login_throttles d !! key_hash = throttle →
  (∀ t, throttle = Some t → lt_key_hash t = key_hash) →
  wp (login_failed settings row throttle key_hash now request_id)
    (λ r w', let t' := failed_throttle settings throttle key_hash now in
       r = Raise (if t'.2 then RATE_LIMITED else INVALID_CREDENTIALS) ∧ ∃ log,
       w_db w' = (set_rows <[key_hash := t'.1]> d) <| db_audit_logs := log |>) w.
Proof.
  intros Hd (Htx & Hdb & Hdup) Ht Hk. destruct w as [wd wt wb we]. simpl in *. subst wd wt wb.
  set (t' := failed_throttle settings throttle key_hash now).
  assert (lt_key_hash t'.1 = key_hash) as Hkey.
  { unfold t', failed_throttle. destruct throttle as [t|]; [specialize (Hk t eq_refl)|];
      repeat case_match; simpl; done. }
  unfold login_failed, _record_failure. fold t'. cbv zeta. apply wp_bind, wp_bind.
  assert (∀ b, b = false → wp (add_audit_event ((login_audit request_id "DENIED" row)
      <| a_details := Some [("reason", JStr "INVALID_CREDENTIALS")] |>
      <| a_error_code := Some "INVALID_CREDENTIALS" |>);; commit;;
      raise (A := TokenResponse) (if t'.2 then RATE_LIMITED else INVALID_CREDENTIALS))
    (λ r w', r = Raise (if t'.2 then RATE_LIMITED else INVALID_CREDENTIALS) ∧ ∃ log,
       w_db w' = (set_rows <[key_hash := t'.1]> d) <| db_audit_logs := log |>)
    (World d (set_rows <[key_hash := t'.1]> d) b we)) as Hrest.
  { intros b ->. do 2 wp_step.
    apply wp_bind, wp_commit_sound; [done| |by apply wp_raise; eauto].
    cbn [w_tx]. rewrite integrity_log, integrity_throttles. apply Hd. }
  destruct throttle as [t|]; wp_step; try intros; wp_step;
    change (key t'.1) with (lt_key_hash t'.1); rewrite Hkey; apply Hrest; [done|].
  match goal with Hb : ?b = _ |- ?b = false => rewrite Hb end. simpl. by rewrite Hkey, Ht.
Qed.

(** The database after an accepted login. *)
Definition first_token (id family raw : N) u (now : Z) : refresh_token :=
  RefreshToken id (u_id u) family (sha256_secret raw) None None
    (now + refresh_ttl settings) None None.

Definition seen (now : Z) u : user := u <| u_last_login_at := Some now |>.

Definition logged_in (key_hash id family raw : N) u (now : Z) d : db :=
  set_rows <[id := first_token id family raw u now]>
    (set_rows <[u_id (seen now u) := seen now u]>
      (set_rows (delete (M := gmap N login_throttle) key_hash) d)).

Definition accepted_login (request : LoginRequest) (key_hash : N) (now : Z) d
    (resp : TokenResponse) d' : Prop :=
  ∃ u id family raw iat jti log,
    db_users d !! u_id u = Some u ∧ u_email u = lr_email request ∧
    pw_verify (u_password_hash u) (lr_password request) = true ∧ u_is_active u = true ∧
    db_refresh_tokens d !! id = None ∧
    resp = mkTokenResponse (jwt_encode (access_payload settings u iat jti)) raw
             (access_token_ttl_seconds settings) ∧
    d' = (logged_in key_hash id family raw u now d) <| db_audit_logs := log |> ∧ auth_sound d'.

Lemma wp_login_accepted u throttle now request_id request key_hash d w :
  auth_sound d → begins d w → db_login_throttles d !! key_hash = throttle →
  (∀ t, throttle = Some t → lt_key_hash t = key_hash) →
  db_users d !! u_id u = Some u → u_email u = lr_email request →
  pw_verify (u_password_hash u) (lr_password request) && u_is_active u = true →
  wp (login_accepted settings u throttle now request_id)
    (λ r w', match r with
             | Ok resp => accepted_login request key_hash now d resp (w_db w')
             | Raise x => x = IntegrityError ∧ w_db w' = d
             end) w.
Proof.
  intros Hd (Htx & Hdb & Hdup) Ht Hk Hu He Hok. destruct w as [wd wt wb we]. simpl in *. subst wd wt wb.
  unfold login_accepted. apply wp_bind.
  assert (wp (match throttle with Some t => db_delete t | None => mret () end)
    (λ r w', r = Ok tt ∧ w' =
       World d (set_rows (delete (M := gmap N login_throttle) key_hash) d) false we)
    (World d d false we)) as Hdel.
  { destruct throttle as [t|]; (split; [done|]).
    - by rewrite <-(Hk t eq_refl).
    - simpl. f_equal. destruct d. simpl in *. unfold upd. simpl. f_equal.
      symmetry. by apply delete_id. }
  eapply wp_mono; [exact Hdel|]. intros r w' [-> ->]. cbv zeta. do 3 wp_step.
  unfold _issue_token_pair. do 8 wp_step.
  apply wp_bind, wp_create_access_token. intros iat jti e4 _ e5. apply wp_ret. do 4 wp_step; [done|].
  wp_step. apply andb_true_iff in Hok as [Hpw Hact].
  assert (db_refresh_tokens d !! a1 = None) as Hnew by by fresh_row.
  exists u, a1, a0, a, iat, jti, log. split_and!; try done.
  destruct Hd as [Hi Hku Hkt]. split; [done| |].
  - exact (lookup_insert_key u_id (db_users d) (seen now u) Hku).
  - exact (lookup_insert_key rt_id (db_refresh_tokens d) (first_token a1 a0 a u now) Hkt).
Qed.

(** Every way a login can end. *)
Definition login_post (request : LoginRequest) (source : string) d (now : Z)
    (r : outcome TokenResponse) w : Prop :=
  let key_hash := _throttle_key (lr_email request) source in
  let throttle := db_login_throttles d !! key_hash in
  let failed := failed_throttle settings throttle key_hash now in
  if locked_out throttle now
  then r = Raise RATE_LIMITED ∧ ∃ log, w_db w = d <| db_audit_logs := log |>
  else
    match r with
    | Ok resp => accepted_login request key_hash now d resp (w_db w)
    | Raise x =>
      x = IntegrityError ∧ w_db w = d ∨
      x = (if failed.2 then RATE_LIMITED else INVALID_CREDENTIALS) ∧ ∃ log,
        w_db w = (set_rows <[key_hash := failed.1]> d) <| db_audit_logs := log |>
    end.

Lemma wp_login request source request_id d w :
  auth_sound d → keyed login_throttle d → begins d w →
  wp (login settings request source request_id)
    (login_post request source d (env_now (w_env w)).1) w.
Proof.
  intros Hd Hkt Hw. unfold login, login_post.
  apply wp_bind, wp_from_env. intros now e' Hn. rewrite Hn. simpl (_.1).
  set (key_hash := _throttle_key _ _). apply wp_bind, wp_db_get. intros ? <-.
  destruct w as [wd wt wb we]. destruct Hw as (Htx & Hdb & Hdup). simpl in *. subst wd wt wb.
  destruct (locked_out _ _) eqn:Hlock.
  { do 2 wp_step. apply wp_bind, wp_commit_sound; [done| |apply wp_raise; eauto].
    cbn [w_tx]. rewrite integrity_log. apply Hd. }
  assert (∀ t, db_login_throttles d !! key_hash = Some t → lt_key_hash t = key_hash) as Hk
    by (intros t Ht; by apply Hkt).
  assert (∀ row, wp (login_failed settings row (db_login_throttles d !! key_hash) key_hash now request_id)
    (λ r w, match r with
            | Ok resp => accepted_login request key_hash now d resp (w_db w)
            | Raise x =>
              x = IntegrityError ∧ w_db w = d ∨
              x = (if (failed_throttle settings (db_login_throttles d !! key_hash) key_hash now).2
                   then RATE_LIMITED else INVALID_CREDENTIALS) ∧ ∃ log,
                w_db w = (set_rows <[key_hash :=
                  (failed_throttle settings (db_login_throttles d !! key_hash) key_hash now).1]> d)
                  <| db_audit_logs := log |>
            end) (World d d false e')) as Hfail.
  { intros row. eapply wp_mono; [by apply wp_login_failed|]. intros r w [-> Hlog]. by right. }
  apply wp_bind, wp_db_scalar. intros ? <-. destruct (first_row _ _) as [u|] eqn:Hu; [|apply Hfail].
  destruct (_ && _) eqn:Hok; [|apply Hfail].
  apply first_row_Some in Hu as [He%bool_decide_eq_true [i Hi]].
  assert (u_id u = i) as <- by by apply (as_users _ Hd).
  eapply wp_mono; [by eapply wp_login_accepted|]. intros [resp|x] w Hr; [done|by left].
Qed.

(** *** The throttle *)

(** A series of logins for one email and source that were refused, and their
    times. *)
Inductive refused_logins (email source : string) : db → list Z → db → Prop :=
| refused_none d : refused_logins email source d [] d
| refused_more d password id (e : E) x d1 e1 nows d2 :
    exec (login settings (mkLoginRequest email password) source id) d e = (Raise x, d1, e1) →
    x = INVALID_CREDENTIALS ∨ x = RATE_LIMITED →
    refused_logins email source d1 nows d2 →
    refused_logins email source d ((env_now e).1 :: nows) d2.

Definition throttled d : Prop := auth_sound d ∧ keyed login_throttle d.

Lemma throttled_failed key_hash t log d :
  throttled d → lt_key_hash t = key_hash →
  throttled ((set_rows <[key_hash := t]> d) <| db_audit_logs := log |>).
Proof.
  intros [[Hi Hu Ht] Hk] <-. split; [split|].
  - by rewrite integrity_log, integrity_throttles.
  - exact Hu.
  - exact Ht.
  - exact (lookup_insert_key lt_key_hash (db_login_throttles d) t Hk).
Qed.

Lemma failed_throttle_key throttle key_hash now :
  (∀ t, throttle = Some t → lt_key_hash t = key_hash) →
  lt_key_hash (failed_throttle settings throttle key_hash now).1 = key_hash.
Proof.
  intros Hk. unfold failed_throttle. destruct throttle as [t|]; [specialize (Hk t eq_refl)|];
    repeat case_match; simpl; done.
Qed.

(** The count inside a window. *)
Definition counted (key_hash : N) (c t0 now : Z) : login_throttle :=
  LoginThrottle key_hash c t0
    (if login_failure_limit settings <=? c
     then Some (now + seconds (login_lockout_seconds settings)) else None).

Lemma failed_in_window key_hash c t0 now :
  now - t0 < seconds (login_failure_window_seconds settings) →
  (failed_throttle settings (Some (LoginThrottle key_hash c t0 None)) key_hash now).1 =
    counted key_hash (c + 1) t0 now.
Proof.
  intros Hw. unfold failed_throttle, counted. simpl lt_window_started_at.
  rewrite (proj2 (Z.leb_gt _ _) Hw). simpl. by destruct (_ <=? _).
Qed.

Lemma failed_first key_hash now :
  (failed_throttle settings None key_hash now).1 = counted key_hash 1 now now.
Proof. unfold failed_throttle, counted. simpl. by destruct (_ <=? _). Qed.

(** A refused login that was not locked out counts. *)
Lemma refused_step email source d password id (e : E) x d1 e1 :
  let key_hash := _throttle_key email source in
  let throttle := db_login_throttles d !! key_hash in
  throttled d → locked_out throttle (env_now e).1 = false →
  exec (login settings (mkLoginRequest email password) source id) d e = (Raise x, d1, e1) →
  x = INVALID_CREDENTIALS ∨ x = RATE_LIMITED →
  throttled d1 ∧ db_login_throttles d1 !! key_hash =
    Some (failed_throttle settings throttle key_hash (env_now e).1).1.
Proof.
  intros key_hash throttle [Hd Hk] Hlock Hrun Hx.
  eapply exec_wp in Hrun; [|by apply wp_login]. destruct Hrun as (w & Hp & <- & _).
  unfold login_post in Hp. simpl in Hp. fold key_hash in Hp. fold throttle in Hp.
  rewrite Hlock in Hp. destruct Hp as [[-> _]|[_ [log ->]]]; [by destruct Hx|]. split.
  - apply throttled_failed; [by split|]. apply failed_throttle_key. intros t Ht. by apply Hk.
  - apply lookup_insert_eq.
Qed.

(** The count over a series inside one window; [c] failures came before. *)
Lemma refused_series email source (t0 : Z) d nows d' c :
  let key_hash := _throttle_key email source in
  refused_logins email source d nows d' → throttled d →
  db_login_throttles d !! key_hash = Some (LoginThrottle key_hash c t0 None) →
  Forall (λ now, now - t0 < seconds (login_failure_window_seconds settings)) nows →
  c + Z.of_nat (length nows) = login_failure_limit settings → nows ≠ [] →
  throttled d' ∧ ∃ last t, list.last nows = Some last ∧
    db_login_throttles d' !! key_hash = Some t ∧
    lt_locked_until t = Some (last + seconds (login_lockout_seconds settings)).
Proof.
  intros key_hash Hr. revert c. induction Hr as [|d password id e x d1 e1 nows d2 Hrun Hx Hr IH];
    intros c Hd Ht Hall Hc Hne; [done|].
  apply Forall_cons in Hall as [Hnow Hall].
  eapply refused_step in Hrun; [|done|fold key_hash; by rewrite Ht|done].
  fold key_hash in Hrun. rewrite Ht, failed_in_window in Hrun by done.
  destruct Hrun as [Hd1 Ht1]. unfold counted in Ht1. simpl in Hc.
  destruct nows as [|now2 nows].
  - inversion Hr; subst. simpl in Hc. rewrite (proj2 (Z.leb_le _ _)) in Ht1 by lia.
    split; [done|]. by eexists _, _.
  - simpl in Hc. rewrite (proj2 (Z.leb_gt _ _)) in Ht1 by lia.
    destruct (IH (c + 1)) as (Hd2 & last & t & Hlast & Hl); [done|exact Ht1|done|simpl; lia|done|].
    split; [done|]. exists last, t. split; [|done]. by rewrite last_cons, Hlast.
Qed.

(** [login_failure_limit] refused logins inside one window lock the email and
    source: until the lockout ends the next login is refused with the same error,
    even with the right password, and changes nothing but the audit log. *)
Theorem failures_lock_out email source d (t0 : Z) nows d' last request id e r d2 e2 :
  throttled d → db_login_throttles d !! _throttle_key email source = None →
  refused_logins email source d (t0 :: nows) d' →
  Forall (λ now, now - t0 < seconds (login_failure_window_seconds settings)) nows →
  Z.of_nat (length (t0 :: nows)) = login_failure_limit settings →
  0 < login_failure_window_seconds settings →
  list.last (t0 :: nows) = Some last → lr_email request = email →
  (env_now e).1 < last + seconds (login_lockout_seconds settings) →
  exec (login settings request source id) d' e = (r, d2, e2) →
  r = Raise RATE_LIMITED ∧ ∃ log, d2 = d' <| db_audit_logs := log |>.
Proof.
  intros Hd Hnone Hr Hall Hc Hwin Hlast Hemail Hin Hrun.
  set (key_hash := _throttle_key email source) in *.
  assert (throttled d' ∧ ∃ t, db_login_throttles d' !! key_hash = Some t ∧
    lt_locked_until t = Some (last + seconds (login_lockout_seconds settings)))
    as [[Hd' Hk'] (t & Ht & Hl)].
  { inversion Hr as [|? password id1 e1 x d1 e1' ? ? Hrun1 Hx Hr1]; subst.
    eapply refused_step in Hrun1; [|done|fold key_hash; by rewrite Hnone|done].
    fold key_hash in Hrun1. rewrite Hnone, failed_first in Hrun1.
    destruct Hrun1 as [Hd1 Ht1]. unfold counted in Ht1. simpl in Hc.
    destruct nows as [|now2 nows].
    - inversion Hr1; subst. simpl in *. rewrite (proj2 (Z.leb_le _ _)) in Ht1 by lia.
      injection Hlast as <-. split; [done|]. by eexists.
    - simpl in Hc. rewrite (proj2 (Z.leb_gt _ _)) in Ht1 by lia.
      edestruct (refused_series (lr_email request) source) as (Hd2 & last' & t & Hlast' & ?);
        [exact Hr1|done|exact Ht1|done|simpl; lia|done|].
      rewrite last_cons, Hlast' in Hlast. injection Hlast as <-. split; [done|]. by exists t. }
  eapply exec_wp in Hrun; [|by apply wp_login]. destruct Hrun as (w & Hp & <- & _).
  assert (locked_out (Some t) (env_now e).1 = true) as Hlock.
  { unfold locked_out. simpl. rewrite Hl. by apply Z.ltb_lt. }
  unfold login_post in Hp. simpl (env_now _) in Hp. rewrite Hemail in Hp. fold key_hash in Hp.
  by rewrite Ht, Hlock in Hp.
Qed.

(** *** Token families *)

(** Every live token of [d'] was a live token of [d], of the same family. *)
Definition fewer_live d d' : Prop :=
  ∀ i t', db_refresh_tokens d' !! i = Some t' → rt_revoked_at t' = None →
    ∃ t, db_refresh_tokens d !! i = Some t ∧ rt_revoked_at t = None ∧
         rt_family_id t = rt_family_id t'.

Lemma fewer_live_one d d' : fewer_live d d' → one_live_token d → one_live_token d'.
Proof.
  intros Hf Ho i j s' t' Hi Hj Hfam Hs Ht.
  destruct (Hf i s' Hi Hs) as (s & ? & ? & ?), (Hf j t' Hj Ht) as (t & ? & ? & ?).
  eapply (Ho i j s t); try done. congruence.
Qed.

Lemma fewer_live_refl d d' : db_refresh_tokens d' = db_refresh_tokens d → fewer_live d d'.
Proof. intros Hd i t Hi Hr. rewrite Hd in Hi. by exists t. Qed.

Lemma fewer_live_save d d' i t t' :
  db_refresh_tokens d !! i = Some t → db_refresh_tokens d' = <[i := t']> (db_refresh_tokens d) →
  rt_family_id t' = rt_family_id t → (rt_revoked_at t' = None → rt_revoked_at t = None) →
  fewer_live d d'.
Proof.
  intros Ht Hd Hf Hr j s Hj Hs. rewrite Hd in Hj.
  apply lookup_insert_Some in Hj as [[<- <-]|[_ Hj]]; eauto.
Qed.

Lemma fewer_live_revoke d d' family now :
  db_refresh_tokens d' = revoked_in family now <$> db_refresh_tokens d → fewer_live d d'.
Proof.
  intros Hd i t'. rewrite Hd, lookup_fmap, fmap_Some. intros (t & Ht & ->) Hr.
  destruct (revoked_in_spec family now t) as (_ & _ & Hf & _ & _ & Hl).
  apply Hl in Hr as [Hr _]. by exists t.
Qed.

Lemma fewer_live_trans d1 d2 d3 : fewer_live d1 d2 → fewer_live d2 d3 → fewer_live d1 d3.
Proof.
  intros H12 H23 i t3 Hi Hr. destruct (H23 i t3 Hi Hr) as (t2 & Hi2 & Hr2 & Hf2).
  destruct (H12 i t2 Hi2 Hr2) as (t1 & ? & ? & ?). exists t1. split_and!; congruence.
Qed.

(** A new token in a family whose live token it replaces. *)
Lemma rotated_one_live id raw u stored now d log :
  one_live_token d → db_refresh_tokens d !! rt_id stored = Some stored →
  rt_revoked_at stored = None → db_refresh_tokens d !! id = None →
  one_live_token ((rotated settings id raw u stored now d) <| db_audit_logs := log |>).
Proof.
  intros Ho Hst Hlive Hnew.
  set (d' := (rotated settings id raw u stored now d) <| db_audit_logs := log |>).
  assert (db_refresh_tokens d' = <[rt_id stored := used_by now id stored]>
    (<[id := replacement settings id u stored raw now]> (db_refresh_tokens d))) as Hd' by done.
  assert (∀ i t', db_refresh_tokens d' !! i = Some t' → rt_revoked_at t' = None →
    i = id ∧ rt_family_id t' = rt_family_id stored ∨
    ∃ t, i ≠ rt_id stored ∧ db_refresh_tokens d !! i = Some t ∧ rt_revoked_at t = None ∧
         rt_family_id t = rt_family_id t') as Hcases.
  { intros i t' Hi Hr. rewrite Hd' in Hi. apply lookup_insert_Some in Hi as [[<- <-]|[Hne Hi]]; [done|].
    apply lookup_insert_Some in Hi as [[<- <-]|[Hne' Hi]]; [by left|]. right. by exists t'. }
  intros i j s' t' Hi Hj Hfam Hs Ht.
  destruct (Hcases i s' Hi Hs) as [[-> Hf]|(s & Hne & ? & ? & ?)],
    (Hcases j t' Hj Ht) as [[-> Hf']|(t & Hne' & ? & ? & ?)]; [done|..].
  - destruct Hne'. eapply (Ho j (rt_id stored) t stored); try done. congruence.
  - destruct Hne. eapply (Ho i (rt_id stored) s stored); try done. congruence.
  - eapply (Ho i j s t); try done. congruence.
Qed.

(** A logout ends the family, or nothing happened. *)
Lemma wp_logout raw request_id d w :
  auth_sound d → begins d w →
  wp (logout raw request_id) (λ r w', auth_sound (w_db w') ∧ fewer_live d (w_db w')) w.
Proof.
  intros Hd (Htx & Hdb & Hdup). destruct w as [wd wt wb we]. simpl in *. subst.
  assert (auth_sound d ∧ fewer_live d d) as Hsame by by split; [|apply fewer_live_refl].
  unfold logout. do 4 wp_step. wp_step; [|by wp_step].
  do 3 wp_step. apply wp_revoke_family. cbv beta iota. cbn [w_db w_tx w_dup w_env].
  apply wp_bind. destruct o0 as [u|].
  - match goal with Hf : rows _ !! _ = Some u |- _ => rename Hf into Hu end.
    assert (u_id u = rt_user_id r) as Huid by exact (as_users _ Hd _ _ Hu).
    rewrite <-Huid in Hu. do 3 wp_step.
    pose proof (session_ended_sound (rt_family_id r) a u d log Hd Hu) as Hd2.
    apply wp_commit_sound; [done|exact (as_integrity _ Hd2)|]. split; [exact Hd2|].
    by eapply fewer_live_revoke.
  - wp_step.
    assert (auth_sound (set_rows (fmap (revoked_in (rt_family_id r) a)) d)) as Hd2.
    { destruct Hd as [Hi Hku Hkt]. split; [|done|].
      - apply integrity_update_tokens; [|done]. intros t. apply revoked_in_spec.
      - intros i t. simpl. rewrite lookup_fmap, fmap_Some. intros (s & Hs & ->).
        rewrite (proj1 (revoked_in_spec _ _ _)). by apply Hkt. }
    apply wp_commit_sound; [done|exact (as_integrity _ Hd2)|]. split; [exact Hd2|].
    by eapply fewer_live_revoke.
Qed.

(** The new token of a login landed in a family that existed already. *)
Definition family_collision d d' : Prop :=
  ∃ i j s t, db_refresh_tokens d !! i = None ∧ db_refresh_tokens d' !! i = Some t ∧
    rt_parent_id t = None ∧ db_refresh_tokens d !! j = Some s ∧ rt_family_id s = rt_family_id t.

Lemma refresh_post_tokens raw d r w :
  auth_sound d → one_live_token d → refresh_post settings raw d r w →
  auth_sound (w_db w) ∧ one_live_token (w_db w).
Proof.
  intros Hd Ho Hp. destruct r as [resp|x].
  - destruct Hp as (stored & u & Hs & _ & _ & _ & _ & Hr & Hrot).
    destruct Hrot as (id & raw' & now & iat & jti & log & _ & Hnew & Hw & Hs').
    rewrite Hw in *. split; [done|]. by apply rotated_one_live.
  - destruct Hp as [->|[(stored & u & now & log & _ & Hs & Hw & Hs')|(stored & now & _ & Hs & Hw & Hs')]];
      [done| |]; (split; [done|]); rewrite Hw; (eapply fewer_live_one; [|exact Ho]).
    + eapply fewer_live_trans.
      * eapply (fewer_live_save d (set_rows <[rt_id (reuse_marked now stored) := reuse_marked now stored]> d)
          (rt_id stored) stored (reuse_marked now stored)); done.
      * by eapply (fewer_live_revoke _ _ (rt_family_id stored) now).
    + by eapply (fewer_live_save d _ (rt_id stored) stored (expired now stored)).
Qed.

Lemma login_post_tokens request source d now r w :
  auth_sound d → one_live_token d → keyed login_throttle d →
  login_post request source d now r w →
  auth_sound (w_db w) ∧ (one_live_token (w_db w) ∨ family_collision d (w_db w)).
Proof.
  intros Hd Ho Hk Hp. unfold login_post in Hp.
  assert (∀ log, auth_sound (d <| db_audit_logs := log |>)) as Hlog.
  { intros log. destruct Hd as [Hi ? ?]. split; [by rewrite integrity_log|done..]. }
  destruct (locked_out _ _).
  { destruct Hp as [_ [log ->]]. split; [done|]. left.
    eapply fewer_live_one; [by apply (fewer_live_refl d)|done]. }
  destruct r as [resp|x].
  - destruct Hp as (u & id & family & raw & iat & jti & log & Hu & _ & _ & _ & Hnew & _ & Hw & Hs).
    rewrite Hw in *. split; [done|]. set (t := first_token id family raw u now) in *.
    set (d' := (logged_in _ _ _ _ _ _ _) <| db_audit_logs := log |>).
    assert (db_refresh_tokens d' = <[id := t]> (db_refresh_tokens d)) as Hd' by done.
    destruct (first_row (λ s, bool_decide (rt_family_id s = family)) d) as [s|] eqn:Hf.
    { right. apply first_row_Some in Hf as [Hf%bool_decide_eq_true [j Hj]].
      exists id, j, s, t. rewrite Hd', lookup_insert_eq. by split_and!. }
    left. pose proof (first_row_None _ _ Hf) as Hno.
    assert (∀ j s, db_refresh_tokens d !! j = Some s → rt_family_id s ≠ family) as Hne.
    { intros j s Hj. specialize (Hno _ _ Hj). by apply bool_decide_eq_false in Hno. }
    intros i j s1 t1 Hi Hj Hfam Hs1 Ht1. rewrite Hd' in Hi, Hj.
    apply lookup_insert_Some in Hi as [[<- <-]|[_ Hi]], Hj as [[<- <-]|[_ Hj]]; [done|..].
    + by destruct (Hne j t1).
    + by destruct (Hne i s1).
    + by eapply (Ho i j s1 t1).
  - destruct Hp as [[_ ->]|[_ [log ->]]]; [by auto|]. split; [|left; eapply fewer_live_one; [by apply (fewer_live_refl d)|done]].
    eapply throttled_failed; [by split|]. apply failed_throttle_key. intros t Ht. by apply Hk.
Qed.

(** No call of the authentication service leaves two live tokens in one
    family, so that an exchanged token never works beside its replacement; the only
    exception is a login that drew the identifier of an existing family. *)
Theorem one_live_token_kept c d e r d' e' :
  throttled d → one_live_token d → exec (auth_run c) d e = (r, d', e') →
  auth_sound d' ∧ (one_live_token d' ∨ family_collision d d').
Proof.
  intros [Hd Hkt] Ho Hrun. destruct c as [request source id|raw id|raw id].
  - start_run Hrun. apply wp_bind. eapply wp_mono; [by apply wp_login|].
    intros r1 w Hp. cut (auth_sound (w_db w) ∧ (one_live_token (w_db w) ∨ family_collision d (w_db w))).
    { by destruct r1. }
    apply login_post_tokens in Hp; try done.
  - start_run Hrun. apply wp_bind. eapply wp_mono; [by apply (wp_refresh settings raw id d)|].
    intros r1 w Hp. cut (auth_sound (w_db w) ∧ one_live_token (w_db w)).
    { intros [Hs1 Ho1]. destruct r1; (split; [exact Hs1|left; exact Ho1]). }
    by eapply refresh_post_tokens.
  - start_run Hrun. apply wp_bind. eapply wp_mono; [by apply wp_logout|].
    intros [[]|x] w [Hs Hf]; (split; [done|left; by eapply fewer_live_one]).
Qed.

(** A login gives an access token of the user it authenticated, an active user
    with that email whose password hash accepts the password; the API accepts the
    token as that user from its issue until its lifetime is over. *)
Theorem login_round_trip `{!JwtLaws} request source id d (e : E) resp d1 e1 :
  throttled d → exec (login settings request source id) d e = (Ok resp, d1, e1) →
  ∃ u iat, db_users d !! u_id u = Some u ∧ u_email u = lr_email request ∧ u_is_active u = true ∧
    pw_verify (u_password_hash u) (lr_password request) = true ∧
    ∀ e3, iat ≤ (env_now e3).1 → (env_now e3).1 + seconds 1 ≤ iat + access_ttl settings →
      (exec (get_current_principal settings (Some ("Bearer " +:+ tr_access_token resp))) d1 e3).1.1
        = Ok (principal_of u).
Proof.
  intros [Hd Hkt] Hrun. eapply exec_wp in Hrun; [|by apply wp_login].
  destruct Hrun as (w & Hp & <- & _). unfold login_post in Hp.
  destruct (locked_out _ _); [by destruct Hp|].
  destruct Hp as (u & tid & family & raw & iat & jti & log & Hu & He & Hpw & Ha & _ & -> & Hw & _).
  exists u, iat. split_and!; try done. intros e3 Hlo Hhi.
  destruct (exec (get_current_principal _ _) _ e3) as [[r3 d3] e3'] eqn:Hx.
  destruct (env_now e3) as [now e4] eqn:Hnow.
  eapply exec_wp in Hx; [|eapply (wp_principal_accepted settings u (seen (env_now e).1 u) iat jti)].
  - by destruct Hx as (w3 & (-> & _) & _).
  - rewrite Hw. apply lookup_insert_eq.
  - done.
  - done.
  - exact Hnow.
  - exact Hlo.
  - exact Hhi.
Qed.
End login.

(** ** Witnesses *)

#[export] Instance throttled_dec d : Decision (throttled d).
Proof. unfold throttled. apply _. Defined.

(** The token 1000 is exchanged, then comes back. *)
Definition demo_resp1 : TokenResponse :=
  match demo_rotated.1.1 with Ok r => r | Raise _ => mkTokenResponse "" 0 0 end.

Definition demo_stolen : outcome TokenResponse * db * demo :=
  exec (refresh demo_auth_settings 1000 "req") demo_rotated.1.2 (demo_minute 3).

Lemma demo_rotated_eq :
  exec (refresh demo_auth_settings 1000 "req") demo_session.1.2 (demo_minute 2) =
  (Ok demo_resp1, demo_rotated.1.2, demo_rotated.2).
Proof. vm_compute. reflexivity. Qed.

Lemma demo_stolen_eq :
  exec (refresh demo_auth_settings 1000 "req") demo_rotated.1.2 (demo_minute 3) =
  (demo_stolen.1.1, demo_stolen.1.2, demo_stolen.2).
Proof. unfold demo_stolen. by destruct (exec _ _ _) as [[]]. Qed.

Lemma refresh_token_theft_witness :
  auth_sound demo_session.1.2 ∧ demo_stolen.1.1 = Raise REFRESH_TOKEN_REUSED ∧
  (exec (refresh demo_auth_settings (tr_refresh_token demo_resp1) "req") demo_stolen.1.2
    (demo_minute 4)).1.1 = Raise REFRESH_TOKEN_REUSED ∧
  (exec (get_current_principal demo_auth_settings
      (Some ("Bearer " +:+ tr_access_token demo_resp1))) demo_stolen.1.2 (demo_minute 4)).1.1
    = Raise INVALID_ACCESS_TOKEN.
Proof.
  assert (auth_sound demo_session.1.2) as Hs by (apply (bool_decide_unpack _); vm_compute; exact I).
  split; [exact Hs|].
  apply (refresh_token_theft demo_auth_settings 1000 "req" "req" "req" demo_session.1.2 _ _ _ _ _
    _ _ _ (demo_minute 4) Hs demo_rotated_eq demo_stolen_eq).
Defined.

(** The families of live tokens, as an index. *)
Lemma one_live_token_check d :
  unique_onb (λ t, match rt_revoked_at t with None => Some (rt_family_id t) | Some _ => None end) d
    = true → one_live_token d.
Proof.
  intros Hu%unique_onb_true i j s t Hi Hj Hf Hs Ht. apply (Hu i j s t (rt_family_id s) Hi Hj).
  - by rewrite Hs.
  - by rewrite Ht, Hf.
Qed.

Definition demo_call_run (d : db) (c : auth_call) (e : demo)
  : outcome (option TokenResponse) * db * demo := exec (auth_run demo_auth_settings c) d e.

Lemma demo_call_run_eq d c e :
  exec (auth_run demo_auth_settings c) d e =
  ((demo_call_run d c e).1.1, (demo_call_run d c e).1.2, (demo_call_run d c e).2).
Proof. unfold demo_call_run. by destruct (exec _ _ _) as [[]]. Qed.

Definition demo_refreshing : outcome (option TokenResponse) * db * demo :=
  demo_call_run demo_session.1.2 (CallRefresh 1000 "req") (demo_minute 2).

Lemma one_live_token_kept_witness :
  throttled demo_session.1.2 ∧ one_live_token demo_session.1.2 ∧ auth_sound demo_refreshing.1.2 ∧
  (one_live_token demo_refreshing.1.2 ∨ family_collision demo_session.1.2 demo_refreshing.1.2).
Proof.
  assert (throttled demo_session.1.2) as Hs by (apply (bool_decide_unpack _); vm_compute; exact I).
  assert (one_live_token demo_session.1.2) as Ho
    by (apply one_live_token_check; vm_compute; reflexivity).
  split; [exact Hs|]. split; [exact Ho|].
  apply (one_live_token_kept demo_auth_settings (CallRefresh 1000 "req") demo_session.1.2
    (demo_minute 2) _ _ _ Hs Ho (demo_call_run_eq _ _ _)).
Defined.

(** Three wrong guesses, then the right password. *)
Definition demo_guess (d : db) (n : N) : outcome TokenResponse * db * demo :=
  exec (login demo_auth_settings demo_wrong "192.0.2.7" "req") d (demo_minute n).
Definition demo_guess1 := demo_guess demo_auth_db 1.
Definition demo_guess2 := demo_guess demo_guess1.1.2 2.
Definition demo_guess3 := demo_guess demo_guess2.1.2 3.
Definition demo_locked : outcome TokenResponse * db * demo :=
  exec (login demo_auth_settings demo_right "192.0.2.7" "req") demo_guess3.1.2 (demo_minute 4).

Lemma demo_guess_eq d n x :
  (demo_guess d n).1.1 = Raise x →
  exec (login demo_auth_settings demo_wrong "192.0.2.7" "req") d (demo_minute n) =
  (Raise x, (demo_guess d n).1.2, (demo_guess d n).2).
Proof. unfold demo_guess. intros <-. by destruct (exec _ _ _) as [[]]. Qed.

Lemma demo_guesses :
  refused_logins demo_auth_settings "op@example.com" "192.0.2.7" demo_auth_db
    [(env_now (demo_minute 1)).1; (env_now (demo_minute 2)).1; (env_now (demo_minute 3)).1]
    demo_guess3.1.2.
Proof.
  eapply (refused_more _ _ _ _ "guess" "req" (demo_minute 1) INVALID_CREDENTIALS);
    [apply demo_guess_eq; vm_compute; reflexivity|by left|].
  eapply (refused_more _ _ _ _ "guess" "req" (demo_minute 2) INVALID_CREDENTIALS);
    [apply demo_guess_eq; vm_compute; reflexivity|by left|].
  eapply (refused_more _ _ _ _ "guess" "req" (demo_minute 3) RATE_LIMITED);
    [apply demo_guess_eq; vm_compute; reflexivity|by right|].
  apply refused_none.
Qed.

Lemma demo_locked_eq :
  exec (login demo_auth_settings demo_right "192.0.2.7" "req") demo_guess3.1.2 (demo_minute 4) =
  (demo_locked.1.1, demo_locked.1.2, demo_locked.2).
Proof. unfold demo_locked. by destruct (exec _ _ _) as [[]]. Qed.

Lemma failures_lock_out_witness :
  demo_locked.1.1 = Raise RATE_LIMITED ∧
  ∃ log, demo_locked.1.2 = demo_guess3.1.2 <| db_audit_logs := log |>.
Proof.
  eapply (failures_lock_out demo_auth_settings "op@example.com" "192.0.2.7" demo_auth_db
    (env_now (demo_minute 1)).1 [(env_now (demo_minute 2)).1; (env_now (demo_minute 3)).1]
    demo_guess3.1.2 (env_now (demo_minute 3)).1 demo_right "req" (demo_minute 4));
    [|reflexivity|exact demo_guesses|by repeat constructor|reflexivity|reflexivity|reflexivity
     |reflexivity|reflexivity|exact demo_locked_eq].
  apply (bool_decide_unpack _). vm_compute. exact I.
Defined.

Definition demo_resp0 : TokenResponse :=
  match demo_session.1.1 with Ok r => r | Raise _ => mkTokenResponse "" 0 0 end.

Lemma demo_session_eq :
  exec (login demo_auth_settings demo_right "192.0.2.7" "req") demo_auth_db (demo_minute 1) =
  (Ok demo_resp0, demo_session.1.2, demo_session.2).
Proof. vm_compute. reflexivity. Qed.

Lemma login_round_trip_witness :
  ∃ u iat, db_users demo_auth_db !! u_id u = Some u ∧ u_email u = "op@example.com" ∧
    u_is_active u = true ∧ pw_verify (u_password_hash u) "correct horse" = true ∧
    ∀ e3 : demo, iat ≤ (env_now e3).1 → (env_now e3).1 + seconds 1 ≤ iat + seconds 900 →
      (exec (get_current_principal demo_auth_settings
          (Some ("Bearer " +:+ tr_access_token demo_resp0))) demo_session.1.2 e3).1.1
        = Ok (principal_of u).
Proof.
  apply (login_round_trip demo_auth_settings demo_right "192.0.2.7" "req" demo_auth_db
    (demo_minute 1) demo_resp0 demo_session.1.2 demo_session.2); [|exact demo_session_eq].
  apply (bool_decide_unpack _). vm_compute. exact I.
Defined.
