(* ===== verification/Accounts.v ===== *)
(** * Accounts and organizations

    app/services/accounts.py: the user and organization administration that
    changes state, one definition per method of [AccountService].  The listing
    queries are left out. *)
From S2P Require Import Prelude Models Database AuditLog Auth.

(** ** app/schemas/auth.py *)

Record UserCreate := mkUserCreate {
  uc_email : string; uc_display_name : string; uc_role : UserRole; uc_password : string }.

Record UserUpdate := mkUserUpdate {
  uu_display_name : option string; uu_role : option UserRole; uu_is_active : option bool;
  uu_version : option Z }.

Record ChangePasswordRequest := mkChangePasswordRequest {
  cp_current_password : string; cp_new_password : string }.

Record OrganizationUpdate := mkOrganizationUpdate {
  ou_name : option string; ou_is_active : option bool; ou_version : Z }.

Record UserResponse := mkUserResponse {
  ur_id : N; ur_email : string; ur_display_name : string; ur_role : UserRole;
  ur_is_active : bool; ur_last_login_at : option Z; ur_version : Z }.

Definition user_response (u : user) : UserResponse :=
  mkUserResponse (u_id u) (u_email u) (u_display_name u) (u_role u) (u_is_active u)
    (u_last_login_at u) (u_version u).

(** ** Errors *)

Definition USER_NOT_FOUND : exn := app_error 404 "USER_NOT_FOUND" "The user was not found.".
Definition ORGANIZATION_NOT_FOUND : exn :=
  app_error 404 "ORGANIZATION_NOT_FOUND" "The organization was not found.".
Definition USER_VERSION_CONFLICT : exn :=
  app_error 409 "USER_VERSION_CONFLICT" "The user was modified by another request.".
Definition ORGANIZATION_VERSION_CONFLICT : exn :=
  app_error 409 "ORGANIZATION_VERSION_CONFLICT" "The organization was modified by another request.".

Definition UserRole_value (r : UserRole) : string :=
  match r with SUPER_ADMIN => "SUPER_ADMIN" | OPERATOR => "OPERATOR" | CUSTOMER => "CUSTOMER" end.

(** The email of a deleted account, [f"deleted+{user.id}@deleted.invalid"]. *)
Definition deleted_email (id : N) : string := "deleted+" +:+ pretty id +:+ "@deleted.invalid".

Section accounts.
Context {E : Type} `{Runtime E} `{Passwords E}.
Implicit Types (self : service).

(** [add_audit_event] with the service's actor; the source address comes from the
    logging context. *)
Definition account_event self (action : string) : audit_args :=
  (audit_event action "SUCCEEDED" (Some (self_request_id self)))
    <| a_actor_user_id := Some (p_user_id (self_principal self)) |>
    <| a_actor_role := Some (p_role (self_principal self)) |>.

Definition _audit self (action : string) (target_id : N) : DBM E () :=
  add_audit_event ((account_event self action)
    <| a_target_type := Some "account" |> <| a_target_id := Some (JUuid target_id) |>).

Definition _get_user (user_id : N) : DBM E user :=
  row ← db_scalar (λ u, bool_decide (u_id u = user_id) && bool_decide (u_deleted_at u = None));
  or_raise USER_NOT_FOUND row.

Definition _get_organization (organization_id : N) (include_inactive : bool)
  : DBM E organization :=
  row ← db_scalar (λ o, bool_decide (org_id o = organization_id) &&
                        (include_inactive || org_is_active o));
  or_raise ORGANIZATION_NOT_FOUND row.

Definition _flush_conflict (message : string) : DBM E () :=
  or_conflict flush (app_error 409 "RESOURCE_CONFLICT" message).

(** [update(RefreshToken).where(user, not revoked).values(revoked_at=now)]. *)
Definition revoke_user_tokens (user_id : N) (now : Z) : DBM E () :=
  db_update_where (λ t : refresh_token, bool_decide (rt_user_id t = user_id) &&
                                        bool_decide (rt_revoked_at t = None))
    (λ t, t <| rt_revoked_at := Some now |>).

Definition me self : DBM E UserResponse :=
  u ← _get_user (p_user_id (self_principal self));
  mret (user_response u).

(** The assignments both password operations make. *)
Definition with_password (password_hash : string) (u : user) : user :=
  u <| u_password_hash := password_hash |> <| u_session_epoch := u_session_epoch u + 1 |>
    <| u_version := u_version u + 1 |>.

Definition change_password self (request : ChangePasswordRequest) : DBM E () :=
  u ← _get_user (p_user_id (self_principal self));
  raise_if (negb (pw_verify (u_password_hash u) (cp_current_password request)))
    (app_error 400 "CURRENT_PASSWORD_INVALID" "The current password is invalid.");;
  password_hash ← hash_password (cp_new_password request);
  db_save (with_password password_hash u);;
  now ← datetime_now;
  revoke_user_tokens (u_id u) now;;
  _audit self "USER_PASSWORD_CHANGED" (u_id u);;
  commit.

Definition create_user self (request : UserCreate) : DBM E UserResponse :=
  require_service_role (self_principal self) [SUPER_ADMIN];;
  password_hash ← hash_password (uc_password request);
  id ← uuid4;
  let u := User id (uc_email request) (str_strip (uc_display_name request)) (uc_role request)
    password_hash true 0 None (Some (p_user_id (self_principal self))) None None 1 in
  db_add u;;
  _flush_conflict "A user with this email already exists.";;
  _audit self "USER_CREATED" id;;
  commit;;
  mret (user_response u).

Definition user_state (u : user) : list (string * json) :=
  [("display_name", JStr (u_display_name u)); ("role", JStr (UserRole_value (u_role u)));
   ("is_active", JBool (u_is_active u))].

(** The update takes an active administrator's role or account away. *)
Definition removing_super_admin (u : user) (request : UserUpdate) : bool :=
  bool_decide (u_role u = SUPER_ADMIN) &&
  (negb (bool_decide (uu_role request ∈ [None; Some SUPER_ADMIN])) ||
   bool_decide (uu_is_active request = Some false)).

(** The name and role the update sets. *)
Definition edited_user (u : user) (request : UserUpdate) : user :=
  u <| u_display_name := match uu_display_name request with
                         | Some name => str_strip name | None => u_display_name u
                         end |>
    <| u_role := default (u_role u) (uu_role request) |>.

(** The activation part of the update. *)
Definition set_active (u : user) (active : option bool) : DBM E user :=
  match active with
  | Some b =>
    if bool_decide (b ≠ u_is_active u) then
      disabled_at ← (if b then mret None else now ← datetime_now; mret (Some now));
      let u := u <| u_is_active := b |> <| u_disabled_at := disabled_at |>
                 <| u_session_epoch := u_session_epoch u + 1 |> in
      now ← datetime_now;
      revoke_user_tokens (u_id u) now;;
      mret u
    else mret u
  | None => mret u
  end.

Definition update_action (before after : user) : string :=
  if bool_decide (u_role before ≠ u_role after) then "USER_ROLE_CHANGED"
  else if u_is_active before && negb (u_is_active after) then "USER_DISABLED"
  else "USER_UPDATED".

Definition update_user self (user_id : N) (request : UserUpdate) : DBM E UserResponse :=
  require_service_role (self_principal self) [SUPER_ADMIN];;
  before ← _get_user user_id;
  raise_if (match uu_version request with
            | Some v => bool_decide (v ≠ u_version before) | None => false
            end) USER_VERSION_CONFLICT;;
  (if removing_super_admin before request then
     count ← db_count (λ u, bool_decide (u_role u = SUPER_ADMIN) && u_is_active u);
     raise_if (count <=? 1)
       (app_error 409 "LAST_SUPER_ADMIN"
          "The last active super administrator cannot be changed.")
   else mret tt);;
  u ← set_active (edited_user before request) (uu_is_active request);
  let u := u <| u_version := u_version u + 1 |> in
  db_save u;;
  add_audit_event ((account_event self (update_action before u))
    <| a_target_type := Some "user" |> <| a_target_id := Some (JUuid (u_id u)) |>
    <| a_before := Some (user_state before) |> <| a_after := Some (user_state u) |>);;
  commit;;
  mret (user_response u).

(** The assignments of [delete_user]. *)
Definition deleted_user (now : Z) (u : user) : user :=
  u <| u_email := deleted_email (u_id u) |> <| u_display_name := "삭제된 사용자" |>
    <| u_role := CUSTOMER |> <| u_is_active := false |> <| u_disabled_at := Some now |>
    <| u_deleted_at := Some now |> <| u_session_epoch := u_session_epoch u + 1 |>
    <| u_version := u_version u + 1 |>.

Definition delete_user self (user_id : N) (version : Z) : DBM E () :=
  require_service_role (self_principal self) [SUPER_ADMIN];;
  raise_if (bool_decide (user_id = p_user_id (self_principal self)))
    (app_error 409 "USER_SELF_DELETE" "The current user cannot delete their own account.");;
  u ← _get_user user_id;
  raise_if (bool_decide (version ≠ u_version u)) USER_VERSION_CONFLICT;;
  (if bool_decide (u_role u = SUPER_ADMIN) && u_is_active u then
     count ← db_count (λ u, bool_decide (u_role u = SUPER_ADMIN) && u_is_active u &&
                            bool_decide (u_deleted_at u = None));
     raise_if (count <=? 1)
       (app_error 409 "LAST_SUPER_ADMIN"
          "The last active super administrator cannot be deleted.")
   else mret tt);;
  now ← datetime_now;
  db_delete_where (λ m, bool_decide (om_user_id m = u_id u));;
  revoke_user_tokens (u_id u) now;;
  db_save (deleted_user now u);;
  add_audit_event ((account_event self "USER_DELETED")
    <| a_target_type := Some "user" |> <| a_target_id := Some (JUuid (u_id u)) |>
    <| a_before := Some (user_state u) |>
    <| a_after := Some [("is_active", JBool false); ("deleted", JBool true)] |>);;
  commit.

Definition reset_password self (user_id : N) (new_password : string) : DBM E () :=
  require_service_role (self_principal self) [SUPER_ADMIN];;
  u ← _get_user user_id;
  password_hash ← hash_password new_password;
  db_save (with_password password_hash u);;
  now ← datetime_now;
  revoke_user_tokens (u_id u) now;;
  _audit self "USER_PASSWORD_RESET" (u_id u);;
  commit.

Definition create_organization self (name : string) : DBM E organization :=
  require_service_role (self_principal self) [SUPER_ADMIN];;
  id ← uuid4;
  let o := Organization id (str_strip name) true (p_user_id (self_principal self)) 1 in
  db_add o;;
  _flush_conflict "An organization with this name already exists.";;
  _audit self "ORGANIZATION_CREATED" id;;
  commit;;
  mret o.

Definition organization_event self (action : string) (o : organization) : audit_args :=
  (account_event self action)
    <| a_organization_id := Some (org_id o) |> <| a_target_type := Some "organization" |>
    <| a_target_id := Some (JUuid (org_id o)) |>.

Definition organization_state (o : organization) : list (string * json) :=
  [("name", JStr (org_name o)); ("is_active", JBool (org_is_active o))].

Definition update_organization self (organization_id : N) (request : OrganizationUpdate)
  : DBM E organization :=
  require_service_role (self_principal self) [SUPER_ADMIN];;
  before ← _get_organization organization_id true;
  raise_if (bool_decide (ou_version request ≠ org_version before)) ORGANIZATION_VERSION_CONFLICT;;
  let o := match ou_name request with
           | Some name => before <| org_name := str_strip name |> | None => before
           end in
  raise_if (bool_decide (ou_is_active request = Some false) && org_is_active o)
    (app_error 422 "ORGANIZATION_DEACTIVATION_REQUIRES_DELETE"
       "Use the organization delete endpoint to validate and deactivate it.");;
  let o := if bool_decide (ou_is_active request = Some true)
           then o <| org_is_active := true |> else o in
  let o := o <| org_version := org_version o + 1 |> in
  db_save o;;
  add_audit_event ((organization_event self "ORGANIZATION_UPDATED" o)
    <| a_before := Some (organization_state before) |>
    <| a_after := Some (organization_state o) |>);;
  or_conflict commit (app_error 409 "ORGANIZATION_NAME_CONFLICT"
                        "An organization with this name already exists.");;
  mret o.

Definition live_provisioning (organization_id : N) (q : provisioning_request) : bool :=
  bool_decide (prq_organization_id q = organization_id) &&
  bool_decide (prq_status q ∈ [PS_QUEUED; PS_RUNNING; PS_MANUAL_REVIEW]).

Definition delete_organization self (organization_id : N) (version : Z) : DBM E () :=
  require_service_role (self_principal self) [SUPER_ADMIN];;
  o ← _get_organization organization_id false;
  raise_if (bool_decide (version ≠ org_version o)) ORGANIZATION_VERSION_CONFLICT;;
  member_count ← db_count (λ m, bool_decide (om_organization_id m = org_id o));
  assignment_count ← db_count (λ a, bool_decide (wa_organization_id a = org_id o) &&
                                    bool_decide (wa_revoked_at a = None));
  provisioning_count ← db_count (live_provisioning (org_id o));
  raise_if (negb (member_count =? 0) || negb (assignment_count =? 0) ||
            negb (provisioning_count =? 0))
    (AppError 409 "ORGANIZATION_IN_USE"
       "Remove members, workload assignments, and active provisioning requests before deleting the organization."
       [("members", JInt member_count); ("workload_assignments", JInt assignment_count);
        ("active_provisioning_requests", JInt provisioning_count)]);;
  let o' := o <| org_is_active := false |> <| org_version := org_version o + 1 |> in
  db_save o';;
  add_audit_event ((organization_event self "ORGANIZATION_DELETED" o')
    <| a_before := Some [("name", JStr (org_name o)); ("is_active", JBool true)] |>
    <| a_after := Some [("name", JStr (org_name o)); ("is_active", JBool false)] |>);;
  commit.

Definition add_member self (organization_id user_id : N) : DBM E organization_member :=
  require_service_role (self_principal self) [SUPER_ADMIN];;
  org ← db_get organization organization_id;
  row ← db_get user user_id;
  o ← or_raise ORGANIZATION_NOT_FOUND org;
  raise_if (negb (org_is_active o)) ORGANIZATION_NOT_FOUND;;
  u ← or_raise USER_NOT_FOUND row;
  raise_if (negb (u_is_active u)) USER_NOT_FOUND;;
  id ← uuid4;
  let m := OrganizationMember id (org_id o) (u_id u) (p_user_id (self_principal self)) in
  db_add m;;
  _flush_conflict "The user is already an organization member.";;
  _audit self "ORGANIZATION_MEMBER_ADDED" id;;
  commit;;
  mret m.

Definition remove_member self (organization_id user_id : N) : DBM E () :=
  require_service_role (self_principal self) [SUPER_ADMIN];;
  row ← db_scalar (λ m, bool_decide (om_organization_id m = organization_id) &&
                        bool_decide (om_user_id m = user_id));
  m ← or_raise (app_error 404 "ORGANIZATION_MEMBER_NOT_FOUND"
                  "The organization member was not found.") row;
  db_delete m;;
  add_audit_event ((account_event self "ORGANIZATION_MEMBER_REMOVED")
    <| a_organization_id := Some organization_id |>
    <| a_target_type := Some "organization_member" |>
    <| a_target_id := Some (JUuid (om_id m)) |>
    <| a_before := Some [("user_id", JUuid user_id)] |>);;
  commit.

(** *** The calls that change state *)

Inductive account_call :=
| CallChangePassword (request : ChangePasswordRequest)
| CallCreateUser (request : UserCreate)
| CallUpdateUser (user_id : N) (request : UserUpdate)
| CallDeleteUser (user_id : N) (version : Z)
| CallResetPassword (user_id : N) (new_password : string)
| CallCreateOrganization (name : string)
| CallUpdateOrganization (organization_id : N) (request : OrganizationUpdate)
| CallDeleteOrganization (organization_id : N) (version : Z)
| CallAddMember (organization_id user_id : N)
| CallRemoveMember (organization_id user_id : N).

Definition account_run self (c : account_call) : DBM E () :=
  match c with
  | CallChangePassword request => change_password self request
  | CallCreateUser request => create_user self request;; mret tt
  | CallUpdateUser id request => update_user self id request;; mret tt
  | CallDeleteUser id version => delete_user self id version
  | CallResetPassword id p => reset_password self id p
  | CallCreateOrganization name => create_organization self name;; mret tt
  | CallUpdateOrganization id request => update_organization self id request;; mret tt
  | CallDeleteOrganization id version => delete_organization self id version
  | CallAddMember o u => add_member self o u;; mret tt
  | CallRemoveMember o u => remove_member self o u
  end.
End accounts.
