(* ===== verification/AccountProps.v ===== *)
(** * Accounts and organizations: properties

    The last administrator stays, a change of credentials or of activation ends the
    user's sessions, and an error leaves no trace. *)
From Stdlib Require Import Lia.
From S2P Require Import Prelude Models Database AuditLog Operations Auth AuthProps Accounts.
From S2P Require Import PveApi PowerRunner IpAddr Ipam IpamInv IpamOps Demo DemoPower DemoAuth.

(** ** Counting rows *)

Lemma count_two {R} `{Table R} (P : R → bool) d i :
  1 < count_rows P d → ∃ j r, j ≠ i ∧ rows d !! j = Some r ∧ P r = true.
Proof.
  intros Hc. unfold count_rows, select_rows in Hc.
  assert (∃ j r, j ≠ i ∧ (j, r) ∈ map_to_list (rows d) ∧ P r = true) as (j & r & ? & Hj & ?).
  { pose proof (NoDup_fst_map_to_list (rows d)) as Hnd. revert Hc Hnd.
    generalize (map_to_list (rows d)). intros l. induction l as [|[k s] l IH]; intros Hc Hnd.
    { done. }
    simpl in Hc, Hnd. apply NoDup_cons in Hnd as [Hni Hnd]. rewrite filter_cons in Hc.
    destruct (decide (P s = true)) as [HP|HP].
    - destruct (decide (k = i)) as [->|Hne].
      + rewrite length_cons in Hc.
        match type of Hc with context [length ?f] => destruct f as [|r l'] eqn:Hf end;
          [simpl in Hc; lia|].
        assert (r ∈ r :: l') as Hr by apply list_elem_of_here. rewrite <-Hf in Hr.
        apply list_elem_of_filter in Hr as [HPr ([j r'] & -> & Hj)%list_elem_of_fmap].
        exists j, r'. split_and!; [|by apply list_elem_of_further|done].
        intros ->. apply Hni, list_elem_of_fmap. by exists (i, r').
      + exists k, s. split_and!; [done|apply list_elem_of_here|done].
    - destruct IH as (j & r & ? & ? & ?); [done..|]. exists j, r.
      split_and!; [done|by apply list_elem_of_further|done]. }
  exists j, r. by rewrite <-elem_of_map_to_list.
Qed.

(** ** Rules *)

Ltac wp_hook ::=
  match goal with
  | |- wp (add_audit_event _) _ _ => apply wp_add_audit_event; intros ?
  | |- wp (_audit _ _ _) _ _ => apply wp_add_audit_event; intros ?
  | |- wp (require_service_role _ _) _ _ => apply wp_raise_if; intros ?
  | |- wp (_flush_conflict _) _ _ => apply wp_or_conflict
  | |- wp (hash_password _) _ _ => apply wp_from_env; intros ? ? ?
  | |- wp (_get_user _) _ _ => unfold _get_user
  | |- wp (_get_organization _ _) _ _ => unfold _get_organization
  | |- wp (revoke_user_tokens _ _) _ _ => apply wp_modify
  | |- wp (db_delete_where _) _ _ => apply wp_modify
  | |- wp (set_active _ _) _ _ => unfold set_active
  end.

Section props.
Context {E : Type} `{Runtime E} `{Passwords E}.
Implicit Types (self : service) (d : db) (w : world E) (u : user).

(** A call that raises leaves the database as it was. *)
Theorem account_error_changes_nothing self c d (e : E) x d' e' :
  exec (account_run self c) d e = (Raise x, d', e') → d' = d.
Proof.
  intros Hrun. eapply exec_wp with (Q := λ r w, match r with Raise _ => w_db w = d | _ => True end)
    in Hrun; [by destruct Hrun as (w & Hp & <- & _)|].
  destruct c; simpl.
  - unfold change_password. wp_run; done.
  - unfold create_user. wp_run; done.
  - unfold update_user. wp_run; done.
  - unfold delete_user. wp_run; done.
  - unfold reset_password. wp_run; done.
  - unfold create_organization. wp_run; done.
  - unfold update_organization. wp_run; done.
  - unfold delete_organization. wp_run; done.
  - unfold add_member. wp_run; done.
  - unfold remove_member. wp_run; done.
Qed.

(** *** The last administrator *)

Definition has_super_admin d : Prop :=
  ∃ i u, db_users d !! i = Some u ∧ u_role u = SUPER_ADMIN ∧ u_is_active u = true.

(** Another row is an active administrator, or the new one is. *)
Lemma super_admin_save d d' i u' :
  has_super_admin d → db_users d' = <[i := u']> (db_users d) →
  ((∃ j u, j ≠ i ∧ db_users d !! j = Some u ∧ u_role u = SUPER_ADMIN ∧ u_is_active u = true) ∨
   (∀ u, db_users d !! i = Some u → u_role u = SUPER_ADMIN → u_is_active u = true →
      u_role u' = SUPER_ADMIN ∧ u_is_active u' = true)) →
  has_super_admin d'.
Proof.
  intros (k & v & Hk & Hr & Ha) Hd [(j & u & Hne & Hj & Hrj & Haj)|Hsame].
  - exists j, u. rewrite Hd. by rewrite lookup_insert_ne.
  - destruct (decide (k = i)) as [->|Hne].
    + exists i, u'. rewrite Hd, lookup_insert_eq. destruct (Hsame v Hk Hr Ha) as [? ?]. by split_and!.
    + exists k, v. rewrite Hd. by rewrite lookup_insert_ne.
Qed.

Lemma other_super_admin (P : user → bool) d i :
  (∀ u, P u = true → u_role u = SUPER_ADMIN ∧ u_is_active u = true) →
  (count_rows P d <=? 1) = false →
  ∃ j u, j ≠ i ∧ db_users d !! j = Some u ∧ u_role u = SUPER_ADMIN ∧ u_is_active u = true.
Proof.
  intros HP Hc%Z.leb_gt. destruct (count_two P d i) as (j & u & Hne & Hj & Hu); [lia|].
  exists j, u. destruct (HP u Hu). by split_and!.
Qed.

(** The row [_get_user] finds. *)
Lemma wp_get_user user_id Q w :
  keyed user (w_tx w) → Q (Raise USER_NOT_FOUND) w →
  (∀ u, u_id u = user_id → db_users (w_tx w) !! u_id u = Some u → Q (Ok u) w) →
  wp (_get_user user_id) Q w.
Proof.
  intros Hk Hn Hs. unfold _get_user. apply wp_bind, wp_db_scalar. intros o Hf.
  apply wp_or_raise; [done|]. intros u ->.
  apply first_row_Some in Hf as [[Hu _]%andb_true_iff [i Hi]].
  apply bool_decide_eq_true in Hu. apply Hs; [done|].
  assert (u_id u = i) as -> by exact (Hk _ _ Hi). exact Hi.
Qed.

Ltac get_user Hu :=
  apply wp_bind, wp_get_user; [done|done|];
  let u := fresh "u" in let Hid := fresh "Hid" in intros u Hid Hu; cbn [w_tx] in Hu.

Lemma super_admin_keep d d' u u' :
  has_super_admin d → db_users d !! u_id u = Some u →
  db_users d' = <[u_id u := u']> (db_users d) →
  (u_role u = SUPER_ADMIN → u_is_active u = true →
     u_role u' = SUPER_ADMIN ∧ u_is_active u' = true) → has_super_admin d'.
Proof.
  intros Hs Hu Hd Hk. eapply super_admin_save; [done|done|]. right.
  intros v Hv. rewrite Hu in Hv. by injection Hv as <-.
Qed.

(** *** What the calls on a user leave *)

Definition revoked_of (user_id : N) (now : Z) (t : refresh_token) : refresh_token :=
  if bool_decide (rt_user_id t = user_id) && bool_decide (rt_revoked_at t = None)
  then t <| rt_revoked_at := Some now |> else t.

Definition tokens_revoked (user_id : N) (now : Z) d : db :=
  set_rows (fmap (revoked_of user_id now)) d.

Definition activation_changes u (request : UserUpdate) : bool :=
  match uu_is_active request with Some b => bool_decide (b ≠ u_is_active u) | None => false end.

Lemma wp_set_active u active Q w :
  (∀ u' now disabled e', (u' = u ∨ u' = u <| u_is_active := default (u_is_active u) active |>
       <| u_disabled_at := disabled |> <| u_session_epoch := u_session_epoch u + 1 |>) →
     let changed := match active with Some b => bool_decide (b ≠ u_is_active u) | None => false end in
     u_is_active u' = default (u_is_active u) active →
     u_session_epoch u' = u_session_epoch u + Z.b2z changed →
     Q (Ok u') (World (w_db w) (if changed then tokens_revoked (u_id u) now (w_tx w) else w_tx w)
                  (w_dup w) e')) →
  wp (set_active u active) Q w.
Proof.
  intros HQ. unfold set_active. destruct w as [wd wt wb we]. destruct active as [b|].
  2: { apply wp_ret. apply (HQ u 0 None we); [by left|done|simpl; lia]. }
  simpl in HQ. destruct (bool_decide _) eqn:Hb.
  2: { apply wp_ret. apply (HQ u 0 None we); [by left| |simpl; lia].
       apply bool_decide_eq_false, dec_stable in Hb. done. }
  apply wp_bind. destruct b.
  - do 3 wp_step. do 2 wp_step. eapply HQ; [by right|done|done].
  - do 4 wp_step. do 3 wp_step. eapply HQ; [by right|done|done].
Qed.

Record user_updated (request : UserUpdate) u d d' : Prop := {
  uup_row : db_users d !! u_id u = Some u;
  uup_last : removing_super_admin u request = true →
    (count_rows (λ u, bool_decide (u_role u = SUPER_ADMIN) && u_is_active u) d <=? 1) = false;
  uup_change : ∃ u' now log, u_id u' = u_id u ∧ u_role u' = default (u_role u) (uu_role request) ∧
    u_is_active u' = default (u_is_active u) (uu_is_active request) ∧
    u_session_epoch u' = u_session_epoch u + Z.b2z (activation_changes u request) ∧
    d' = (set_rows <[u_id u' := u']> (if activation_changes u request
            then tokens_revoked (u_id u) now d else d)) <| db_audit_logs := log |> }.

Lemma wp_update_user self id request d w :
  keyed user d → begins d w →
  wp (update_user self id request)
    (λ r w', match r with
             | Ok _ => ∃ u, u_id u = id ∧ user_updated request u d (w_db w')
             | Raise _ => w_db w' = d
             end) w.
Proof.
  intros Hk (Htx & Hdb & Hdup). destruct w as [wd wt wb we]. simpl in *. subst.
  unfold update_user. do 2 wp_step; [done|]. get_user Hu. do 2 wp_step; [done|].
  apply wp_bind.
  assert (∀ Q : outcome () → world E → Prop,
    Q (Raise (app_error 409 "LAST_SUPER_ADMIN"
         "The last active super administrator cannot be changed.")) (World d d false we) →
    ((removing_super_admin u request = true →
      (count_rows (λ u, bool_decide (u_role u = SUPER_ADMIN) && u_is_active u) d <=? 1) = false) →
      Q (Ok tt) (World d d false we)) →
    wp (if removing_super_admin u request then
     count ← db_count (λ u, bool_decide (u_role u = SUPER_ADMIN) && u_is_active u);
     raise_if (count <=? 1) (app_error 409 "LAST_SUPER_ADMIN"
          "The last active super administrator cannot be changed.")
     else mret tt) Q (World d d false we)) as Hlast.
  { intros Q Hr Ho. destruct (removing_super_admin u request); [|by apply wp_ret, Ho].
    apply wp_bind, wp_db_count, wp_raise_if; [done|]. intros Hc. by apply Ho. }
  apply Hlast; [done|]. intros Hcount. cbv beta iota.
  apply wp_bind, wp_set_active. intros u' now disabled e' Hu' changed Hact Hep.
  assert (u_id u' = u_id u ∧ u_role u' = default (u_role u) (uu_role request)) as [Hid' Hrole]
    by (by destruct Hu' as [->| ->]).
  do 6 wp_step; [done|]. wp_step. exists u. split; [done|]. split; [done|done|].
  exists (u' <| u_version := u_version u' + 1 |>), now, log. split_and!; [exact Hid'|exact Hrole|exact Hact|exact Hep|reflexivity].
Qed.

Record user_deleted u d d' : Prop := {
  udl_row : db_users d !! u_id u = Some u;
  udl_last : u_role u = SUPER_ADMIN → u_is_active u = true →
    (count_rows (λ u, bool_decide (u_role u = SUPER_ADMIN) && u_is_active u &&
                      bool_decide (u_deleted_at u = None)) d <=? 1) = false;
  udl_change : ∃ now log, d' = (set_rows <[u_id u := deleted_user now u]> (tokens_revoked (u_id u) now
    (set_rows (filter (λ km : N * organization_member,
       bool_decide (om_user_id km.2 = u_id u) = false)) d))) <| db_audit_logs := log |> }.

Lemma wp_delete_user self id version d w :
  keyed user d → begins d w →
  wp (delete_user self id version)
    (λ r w', match r with
             | Ok _ => ∃ u, u_id u = id ∧ user_deleted u d (w_db w')
             | Raise _ => w_db w' = d
             end) w.
Proof.
  intros Hk (Htx & Hdb & Hdup). destruct w as [wd wt wb we]. simpl in *. subst.
  unfold delete_user. do 2 wp_step; [done|]. do 2 wp_step; [done|]. get_user Hu.
  do 2 wp_step; [done|]. apply wp_bind.
  match goal with |- wp (if ?b then _ else _) ?Q _ =>
    assert ((b = true → (count_rows (λ u, bool_decide (u_role u = SUPER_ADMIN) && u_is_active u &&
      bool_decide (u_deleted_at u = None)) d <=? 1) = false) → Q (Ok tt) (World d d false we)) as Hgo end.
  - intros Hcount. cbv beta iota. wp_run; [done|].
    exists u. split; [done|]. split; [done| |by eexists _, _].
    intros Hr Ha. apply Hcount. by rewrite bool_decide_true, Ha.
  - wp_step; [|by apply wp_ret, Hgo]. do 2 wp_step. wp_step; [done|]. by apply Hgo.
Qed.

(** The password operations. *)
Lemma wp_store_password self action u h (e : E) d :
  db_users d !! u_id u = Some u →
  wp (db_save (with_password h u);; now ← datetime_now; revoke_user_tokens (u_id u) now;;
      _audit self action (u_id u);; commit)
    (λ r w', match r with
             | Ok _ => ∃ now log, w_db w' = (tokens_revoked (u_id u) now
                 (set_rows <[u_id u := with_password h u]> d)) <| db_audit_logs := log |>
             | Raise _ => w_db w' = d
             end) (World d d false e).
Proof. intros Hu. wp_run; [done|]. by eexists _, _. Qed.

(** C20: an active super administrator remains: no call takes the role or the
    account of the last one away. *)
Theorem super_admin_remains self c d (e : E) r d' e' :
  keyed user d → has_super_admin d → exec (account_run self c) d e = (r, d', e') →
  has_super_admin d'.
Proof.
  intros Hk Hs Hrun. start_run Hrun. destruct c; simpl.
  - unfold change_password. get_user Hu. do 2 wp_step; [done|]. do 2 wp_step.
    eapply wp_mono; [by apply wp_store_password|]. intros [[]|x] w; [|by intros ->].
    intros (now & log & ->). by eapply super_admin_keep; [exact Hs|exact Hu|reflexivity|].
  - unfold create_user. wp_run; try done.
    eapply (super_admin_save d); [exact Hs|reflexivity|]. right. intros v Hv.
    assert (db_users d !! a0 = None) as Hnew by by fresh_row.
    change (db_users d !! a0 = Some v) in Hv. by rewrite Hnew in Hv.
  - apply wp_bind. eapply wp_mono; [by apply wp_update_user|]. intros [resp|x] w; [|by intros ->].
    intros (u & _ & [Hu Hlast (u' & now & log & Hid & Hrole & Hact & _ & Hd)]). apply wp_ret.
    eapply (super_admin_save d _ (u_id u) u'); [exact Hs| |].
    { rewrite Hd, Hid. by destruct (activation_changes u request). }
    unfold removing_super_admin in Hlast.
    destruct (decide (u_role u = SUPER_ADMIN)) as [Hr|Hr].
    2: { right. intros v Hv. rewrite Hu in Hv. by injection Hv as <-. }
    destruct (negb (bool_decide (uu_role request ∈ [None; Some SUPER_ADMIN])) ||
      bool_decide (uu_is_active request = Some false)) eqn:Hb.
    { left. eapply other_super_admin; [|apply Hlast; by rewrite bool_decide_true].
      intros v. by rewrite andb_true_iff, bool_decide_eq_true. }
    right. intros v Hv. rewrite Hu in Hv. injection Hv as <-. intros _ Ha.
    apply orb_false_iff in Hb as [Hb1%negb_false_iff%bool_decide_eq_true Hb2%bool_decide_eq_false].
    rewrite Hrole, Hact. rewrite !elem_of_cons in Hb1. split.
    + destruct Hb1 as [->|[->|Hb1]]; [done|done|by apply not_elem_of_nil in Hb1].
    + by destruct (uu_is_active request) as [[]|].
  - eapply wp_mono; [by apply wp_delete_user|]. intros [[]|x] w; [|by intros ->].
    intros (u & _ & [Hu Hlast (now & log & Hd)]).
    eapply (super_admin_save d _ (u_id u) (deleted_user now u)); [exact Hs|by rewrite Hd|].
    destruct (decide (u_role u = SUPER_ADMIN ∧ u_is_active u = true)) as [[Hr Ha]|Hno].
    + left. eapply other_super_admin; [|by apply Hlast]. intros v.
      rewrite !andb_true_iff, bool_decide_eq_true. tauto.
    + right. intros v Hv. rewrite Hu in Hv. injection Hv as <-. tauto.
  - unfold reset_password. do 2 wp_step; [done|]. get_user Hu. do 2 wp_step.
    eapply wp_mono; [by apply wp_store_password|]. intros [[]|x] w; [|by intros ->].
    intros (now & log & ->). by eapply super_admin_keep; [exact Hs|exact Hu|reflexivity|].
  - unfold create_organization. by wp_run.
  - unfold update_organization. by wp_run.
  - unfold delete_organization. by wp_run.
  - unfold add_member. by wp_run.
  - unfold remove_member. by wp_run.
Qed.

(** *** The end of sessions *)

(** The user whose credentials or activation the call changes. *)
Definition cuts_off self c d : option N :=
  match c with
  | CallChangePassword _ => Some (p_user_id (self_principal self))
  | CallResetPassword id _ | CallDeleteUser id _ => Some id
  | CallUpdateUser id request =>
    match db_users d !! id with
    | Some u => if activation_changes u request then Some id else None
    | None => None
    end
  | _ => None
  end.

(** No refresh token of the user is live, no access token has the user's epoch. *)
Definition sessions_ended (user_id : N) d d' : Prop :=
  (∀ i t, db_refresh_tokens d' !! i = Some t → rt_user_id t = user_id → rt_revoked_at t ≠ None) ∧
  ∃ u u', db_users d !! user_id = Some u ∧ db_users d' !! user_id = Some u' ∧
    u_session_epoch u' = u_session_epoch u + 1.

Lemma tokens_revoked_ended user_id now d d' u u' :
  db_refresh_tokens d' = revoked_of user_id now <$> db_refresh_tokens d →
  db_users d !! user_id = Some u → db_users d' !! user_id = Some u' →
  u_session_epoch u' = u_session_epoch u + 1 → sessions_ended user_id d d'.
Proof.
  intros Ht Hu Hu' He. split; [|by exists u, u'].
  intros i t. rewrite Ht, lookup_fmap, fmap_Some. intros (s & Hs & ->). unfold revoked_of.
  intros Huid. destruct (bool_decide (rt_user_id s = user_id)) eqn:H1'; simpl in *.
  - by destruct (bool_decide (rt_revoked_at s = None)) eqn:H2';
      [|apply bool_decide_eq_false in H2'].
  - by apply bool_decide_eq_false in H1'.
Qed.

(** C21: after a successful change or reset of a password, a deletion, or a change
    of activation, no refresh token of that user is live and every access token
    issued before carries an old session epoch. *)
Theorem credential_change_ends_sessions self c d user_id (e : E) d' e' :
  keyed user d → cuts_off self c d = Some user_id →
  exec (account_run self c) d e = (Ok tt, d', e') → sessions_ended user_id d d'.
Proof.
  intros Hk Hcut Hrun. revert Hrun. 
  eassert (wp (account_run self c) (λ r w', r = Ok tt → sessions_ended user_id d (w_db w'))
    (World d d false e)) as Hwp; [|intros Hrun; eapply exec_wp in Hrun; [|exact Hwp];
      destruct Hrun as (w & Hp & <- & _); by apply Hp].
  destruct c as [| |id request|id version|id password| | | | |]; simplify_eq/=.
  - unfold change_password. get_user Hu. do 2 wp_step; [done|]. do 2 wp_step.
    eapply wp_mono; [by apply wp_store_password|]. intros [[]|x] w; [|done].
    intros (now & log & ->) _. rewrite Hid in *.
    eapply tokens_revoked_ended; [reflexivity|exact Hu|apply lookup_insert_eq|done].
  - apply wp_bind. eapply wp_mono; [by apply wp_update_user|]. intros [resp|x] w; [|done].
    intros (u & <- & [Hu _ (u' & now & log & Hid & _ & _ & Hep & Hd)]). apply wp_ret. intros _.
    rewrite Hu in Hcut. destruct (activation_changes u request); simplify_eq/=.
    eapply tokens_revoked_ended; [by rewrite Hd|exact Hu| |exact Hep].
    rewrite Hd, Hid. apply lookup_insert_eq.
  - eapply wp_mono; [by apply wp_delete_user|]. intros [[]|x] w; [|done].
    intros (u & <- & [Hu _ (now & log & Hd)]) _.
    eapply tokens_revoked_ended; [by rewrite Hd|exact Hu|rewrite Hd; apply lookup_insert_eq|done].
  - unfold reset_password. do 2 wp_step; [done|]. get_user Hu. do 2 wp_step.
    eapply wp_mono; [by apply wp_store_password|]. intros [[]|x] w; [|done].
    intros (now & log & ->) _. rewrite Hid in *.
    eapply tokens_revoked_ended; [reflexivity|exact Hu|apply lookup_insert_eq|done].
Qed.

Definition deletion_allowed (id : N) (version : Z) d d' : Prop :=
  ∃ o log, db_organizations d !! id = Some o ∧ org_version o = version ∧
    d' = (set_rows <[id := o <| org_is_active := false |> <| org_version := version + 1 |>]> d)
           <| db_audit_logs := log |> ∧
    (∀ i m, db_members d !! i = Some m → om_organization_id m ≠ id) ∧
    (∀ i a, db_assignments d !! i = Some a → wa_organization_id a = id → wa_revoked_at a ≠ None) ∧
    (∀ i q, db_requests d !! i = Some q → prq_organization_id q = id →
       prq_status q ≠ PS_QUEUED ∧ prq_status q ≠ PS_RUNNING ∧ prq_status q ≠ PS_MANUAL_REVIEW).

(** An organization is deactivated only when it has no member, no active
    workload assignment and no provisioning request under way; nothing else
    changes. *)
Theorem deleted_organization_unused self id version d (e : E) d' e' :
  keyed organization d → exec (delete_organization self id version) d e = (Ok tt, d', e') →
  deletion_allowed id version d d'.
Proof.
  intros Hk Hrun. eapply exec_wp with (Q := λ r w, r = Ok tt → deletion_allowed id version d (w_db w))
    in Hrun; [destruct Hrun as (w & Hp & <- & _); by apply Hp|].
  unfold delete_organization. do 2 wp_step; [done|].
  apply wp_bind. unfold _get_organization. do 2 wp_step. wp_step; [done|].
  match goal with Hf : first_row _ _ = ?o, Ho : ?o = Some ?a |- _ =>
    rewrite Ho in Hf; rename a into org; apply first_row_Some in Hf as [Hid [i Hi]] end.
  apply andb_true_iff in Hid as [Hid%bool_decide_eq_true _]. simpl in Hi.
  assert (org_id org = i) as <- by exact (Hk _ _ Hi).
  do 2 wp_step; [done|]. do 6 wp_step. do 2 wp_step; [done|]. wp_run; [done|]. intros _.
  rewrite !orb_false_iff, !negb_false_iff, !Z.eqb_eq in *. destruct_and!.
  match goal with Hv : bool_decide (version ≠ _) = false |- _ =>
    apply bool_decide_eq_false, dec_stable in Hv end.
  match goal with
  | Hm : count_rows (λ _ : organization_member, _) _ = 0,
    Ha : count_rows (λ _ : workload_assignment, _) _ = 0,
    Hr : count_rows (live_provisioning _) _ = 0 |- _ =>
    rename Hm into Hmembers; rename Ha into Hassigned; rename Hr into Hrequests
  end.
  exists org, log. subst id version. split_and!; [exact Hi|done|done|..].
  - intros j m Hj. refine (proj1 (bool_decide_eq_false _) _).
    by apply (count_rows_0 (λ m, bool_decide (om_organization_id m = org_id org)) d
      (Z.eq_le_incl _ _ Hmembers) j m).
  - intros j a Hj Ha. refine (proj1 (bool_decide_eq_false _) _).
    pose proof (count_rows_0 _ d (Z.eq_le_incl _ _ Hassigned) j a Hj) as Hn. cbv beta in Hn.
    by rewrite (bool_decide_true (wa_organization_id a = org_id org)) in Hn.
  - intros j q Hj Hq.
    pose proof (count_rows_0 _ d (Z.eq_le_incl _ _ Hrequests) j q Hj) as Hn.
    unfold live_provisioning in Hn.
    rewrite (bool_decide_true (prq_organization_id q = org_id org)) in Hn by done.
    by destruct (prq_status q).
Qed.
End props.

(** ** Witnesses *)

Definition demo_root : user :=
  User 1 "admin@example.com" "Admin" SUPER_ADMIN "h:root" true 0 None None None None 1.

Definition demo_org : organization := Organization 20 "Acme" true 1 3.

(** The operator of [demo_session] with an administrator and an organization. *)
Definition demo_accounts_db : db :=
  demo_session.1.2 <| db_users ::= <[1%N := demo_root]> |>
                   <| db_organizations := {[ 20%N := demo_org ]} |>.

Definition demo_account (c : account_call) : outcome () * db * demo :=
  exec (account_run demo_admin c) demo_accounts_db (demo_minute 9).

Lemma demo_account_eq c :
  exec (account_run demo_admin c) demo_accounts_db (demo_minute 9) =
  ((demo_account c).1.1, (demo_account c).1.2, (demo_account c).2).
Proof. unfold demo_account. by destruct (exec _ _ _) as [[]]. Qed.

Lemma demo_accounts_keyed : keyed user demo_accounts_db.
Proof. apply (bool_decide_unpack _). vm_compute. exact I. Qed.

(** The administrator disables the operator, whose session is live. *)
Definition demo_disable : account_call :=
  CallUpdateUser 2 (mkUserUpdate None None (Some false) (Some 1)).

Lemma credential_change_ends_sessions_witness :
  (∃ i t, db_refresh_tokens demo_accounts_db !! i = Some t ∧ rt_user_id t = 2%N ∧
     rt_revoked_at t = None) ∧
  sessions_ended 2 demo_accounts_db (demo_account demo_disable).1.2.
Proof.
  split.
  - exists 1002%N. eexists. split_and!; vm_compute; reflexivity.
  - apply (credential_change_ends_sessions demo_admin demo_disable demo_accounts_db 2%N
      (demo_minute 9) (demo_account demo_disable).1.2 (demo_account demo_disable).2);
      [exact demo_accounts_keyed|reflexivity|].
    vm_compute. reflexivity.
Defined.

(** The only administrator may not give the role up. *)
Definition demo_step_down : account_call :=
  CallUpdateUser 1 (mkUserUpdate None (Some OPERATOR) None None).

Lemma super_admin_remains_witness :
  (∃ x, (demo_account demo_step_down).1.1 = Raise x) ∧
  has_super_admin (demo_account demo_step_down).1.2.
Proof.
  split; [eexists; vm_compute; reflexivity|].
  apply (super_admin_remains demo_admin demo_step_down demo_accounts_db (demo_minute 9)
    (demo_account demo_step_down).1.1 (demo_account demo_step_down).1.2
    (demo_account demo_step_down).2); [exact demo_accounts_keyed| |exact (demo_account_eq _)].
  exists 1%N, demo_root. split_and!; reflexivity.
Defined.

Lemma account_error_changes_nothing_witness :
  (demo_account demo_step_down).1.2 = demo_accounts_db.
Proof.
  apply (account_error_changes_nothing demo_admin demo_step_down demo_accounts_db (demo_minute 9)
    (app_error 409 "LAST_SUPER_ADMIN" "The last active super administrator cannot be changed.")
    (demo_account demo_step_down).1.2 (demo_account demo_step_down).2).
  vm_compute. reflexivity.
Defined.

Definition demo_drop_org : outcome () * db * demo :=
  exec (delete_organization demo_admin 20 3) demo_accounts_db (demo_minute 9).

Lemma deleted_organization_unused_witness :
  deletion_allowed 20 3 demo_accounts_db demo_drop_org.1.2.
Proof.
  apply (deleted_organization_unused demo_admin 20%N 3 demo_accounts_db (demo_minute 9)
    demo_drop_org.1.2 demo_drop_org.2);
    [apply (bool_decide_unpack _); vm_compute; exact I|vm_compute; reflexivity].
Defined.
