(* ===== verification/IpamProps.v ===== *)
(** * IP address management: the properties

    What the IPAM service promises, each with a run of the service on which it
    applies. *)
From Stdlib Require Import Lia.
From S2P Require Import Prelude Models Database AuditLog IpAddr IpText FreeOffset.
From S2P Require Import Ipam IpamInv IpamOps Demo.

(** ** Facts the properties share *)

(** The pool and the address of an active allocation. *)
Lemma active_allocation d j l a p :
  ipam_good d →
  db_allocations d !! j = Some l → alloc_active l = true →
  db_addresses d !! alloc_ip_address_id l = Some a → db_pools d !! addr_pool_id a = Some p →
  held a ∧ pool_is_active p = true ∧ addr_wf (addr_address a) ∧
  net_contains (pool_cidr p) (addr_address a) = true.
Proof.
  intros [_ Hinv] Hl Hact Ha Hp.
  pose proof (active_not_free Hinv _ _ _ Hl Hact Ha) as Hh.
  destruct (ii_addr _ _ _ _ Hinv _ _ Ha) as (q & Hq & [? ? ? ?]). simplify_eq.
  split_and!; try done. by eapply (held_pool_active Hinv).
Qed.

(** Two rows of one pool hold different addresses. *)
Lemma same_pool_distinct d i j a b :
  integrity d = true → db_addresses d !! i = Some a → db_addresses d !! j = Some b →
  addr_pool_id a = addr_pool_id b → addr_address a = addr_address b → i = j.
Proof.
  intros Hint Ha Hb Hp Had.
  apply (integrity_unique uq_ip_addresses d) with (r := a) (s := b)
    (k := (addr_pool_id b, addr_address b)); try done; unfold uq_ip_addresses;
    [simpl; tauto|congruence].
Qed.

Lemma same_address_distinct d i j l m :
  integrity d = true → db_allocations d !! i = Some l → db_allocations d !! j = Some m →
  alloc_active l = true → alloc_active m = true →
  alloc_ip_address_id l = alloc_ip_address_id m → i = j.
Proof.
  intros Hint Hl Hm Hla Hma Heq.
  apply (integrity_unique uq_ip_allocations_active_address d) with (r := l) (s := m)
    (k := alloc_ip_address_id m); try done;
    unfold uq_ip_allocations_active_address, only; rewrite ?Hla, ?Hma;
    [simpl; tauto|congruence|done].
Qed.

(** ** No address is held twice *)

(** C1: in every state that the IPAM calls of any services, interleaved with other
    transactions, can reach, two different active allocations never hold the same
    IP address in overlapping cluster scopes. *)
Theorem no_address_held_twice (E : Type) `{RuntimeLaws E} d i j l m a b p q :
  ipam_reach (E := E) d →
  db_allocations d !! i = Some l → db_allocations d !! j = Some m → i ≠ j →
  alloc_active l = true → alloc_active m = true →
  db_addresses d !! alloc_ip_address_id l = Some a →
  db_addresses d !! alloc_ip_address_id m = Some b →
  db_pools d !! addr_pool_id a = Some p → db_pools d !! addr_pool_id b = Some q →
  same_scope (pool_cluster_id p) (pool_cluster_id q) = true →
  addr_address a ≠ addr_address b.
Proof.
  intros Hd Hl Hm Hij Hla Hma Ha Hb Hp Hq Hsc Heq.
  pose proof (ipam_reach_good _ Hd) as Hgood. pose proof Hgood as [Hint Hinv].
  destruct (active_allocation d i l a p) as (_ & Hpa & Hwf & Hin); [done..|].
  destruct (active_allocation d j m b q) as (_ & Hqa & _ & Hin'); [done..|].
  rewrite <-Heq in Hin'.
  destruct (decide (addr_pool_id a = addr_pool_id b)) as [Hpool|Hpool].
  - apply Hij. eapply (same_address_distinct d i j l m); try done.
    by eapply (same_pool_distinct d _ _ a b).
  - pose proof (ii_scope _ _ _ _ Hinv _ _ _ _ Hp Hq Hpool Hpa Hqa Hsc) as Hno.
    rewrite (overlaps_complete _ _ (addr_address a)) in Hno; try done.
    + by apply (ii_pool _ _ _ _ Hinv _ _ Hp).
    + by apply (ii_pool _ _ _ _ Hinv _ _ Hq).
Qed.

Lemma no_address_held_twice_witness :
  ∃ l m a b, db_allocations demo_two !! 201%N = Some l ∧ db_allocations demo_two !! 301%N = Some m ∧
    db_addresses demo_two !! alloc_ip_address_id l = Some a ∧
    db_addresses demo_two !! alloc_ip_address_id m = Some b ∧
    addr_address a ≠ addr_address b.
Proof.
  do 4 eexists. split_and!; [vm_compute; reflexivity..|].
  eapply (no_address_held_twice demo demo_two 201 301);
    [exact demo_two_reach|vm_compute; reflexivity|vm_compute; reflexivity|done|..];
    vm_compute; reflexivity.
Defined.

(** ** The service keeps its invariant *)

(** C2: whatever call a service receives, and whatever it answers, a database that
    satisfies the schema and the IPAM invariant (pools of a scope disjoint,
    addresses inside their pool, address states in agreement with allocations)
    still does afterwards. *)
Theorem ipam_invariant (E : Type) `{RuntimeLaws E} self c d e r d' e' :
  ipam_good d → call_wf c → exec (ipam_run self c) d e = (r, d', e') → ipam_good d'.
Proof. intros Hd Hc Hrun. by eapply ipam_run_ok in Hrun as [[? _] _]. Qed.

Lemma ipam_invariant_witness :
  ipam_good (after_at 400 (ipam_run demo_admin (CallReserveAddress 100 (v4 10 0 0 5) "dns"))
    demo_two).
Proof.
  unfold after_at. destruct (exec _ _ _) as [[r d'] e'] eqn:He.
  refine (ipam_invariant demo _ _ _ _ _ _ _ demo_two_good _ He). apply v4_wf; lia.
Defined.

(** C3: the service refines the life cycle of addresses.  No row disappears or
    changes its pool or value, and in one call every address makes at most one
    lawful move; it returns to AVAILABLE only from QUARANTINED, once its
    quarantine has ended. *)
Theorem address_life_cycle (E : Type) `{RuntimeLaws E} self c d e r d' e' :
  ipam_good d → call_wf c → exec (ipam_run self c) d e = (r, d', e') →
  addr_moves (env_now e).1 (db_addresses d) (db_addresses d').
Proof. intros Hd Hc Hrun. by eapply ipam_run_ok in Hrun as [[_ ?] _]. Qed.

Lemma address_life_cycle_witness :
  addr_moves 60000000 (db_addresses demo_two)
    (db_addresses (exec (ipam_run demo_admin (CallRelease 201 "done")) demo_two
       (Demo 60000000 400)).1.2).
Proof.
  destruct (exec _ _ _) as [[r d'] e'] eqn:He.
  by refine (address_life_cycle demo _ _ _ _ _ _ _ demo_two_good _ He).
Defined.

(** C4: a call that raises leaves the database exactly as it was, except for the
    assertion failure of [release] on a reservation that no workload owns. *)
Theorem failed_call_changes_nothing (E : Type) `{RuntimeLaws E} self c d e x d' e' :
  ipam_good d → call_wf c → exec (ipam_run self c) d e = (Raise x, d', e') →
  d' = d ∨
  (x = AssertionError ∧ ∃ id reason l, c = CallRelease id reason ∧
     db_allocations d !! id = Some l ∧ alloc_status l = AL_RESERVED).
Proof. intros Hd Hc Hrun. by eapply ipam_run_ok in Hrun as [_ ?]. Qed.

Lemma failed_call_changes_nothing_witness :
  ∃ x, (exec (ipam_run demo_admin (CallAllocate 100 7 (Some (v4 10 0 0 7)))) demo_two
    (Demo 60000000 400)).1.1 = Raise x ∧
  (exec (ipam_run demo_admin (CallAllocate 100 7 (Some (v4 10 0 0 7)))) demo_two
    (Demo 60000000 400)).1.2 = demo_two.
Proof.
  destruct (exec _ _ _) as [[r d'] e'] eqn:He. destruct r as [[]|x].
  { exfalso. vm_compute in He. discriminate He. }
  exists x. split; [done|].
  apply (failed_call_changes_nothing demo) in He as [?|(_ & i & s & l & Hc & _)].
  - done.
  - discriminate Hc.
  - exact demo_two_good.
  - intros r [= <-]. apply v4_wf; lia.
Defined.

(** ** Every handed-out address is usable *)

(** In a reachable state, an address that is not administratively disabled is
    inside its pool and is neither the network address, the IPv4 broadcast
    address, the gateway, nor in an excluded range of the pool. *)
Theorem usable_addresses (E : Type) `{RuntimeLaws E} d i a :
  ipam_reach (E := E) d → db_addresses d !! i = Some a → addr_state a ≠ DISABLED →
  ∃ p, db_pools d !! addr_pool_id a = Some p ∧
    net_contains (pool_cidr p) (addr_address a) = true ∧
    addr_address a ≠ network_address (pool_cidr p) ∧
    (net_version (pool_cidr p) = 4 → addr_address a ≠ broadcast_address (pool_cidr p)) ∧
    pool_gateway p ≠ Some (addr_address a) ∧
    ∀ j x, db_exclusions d !! j = Some x → ex_pool_id x = addr_pool_id a →
      ip_int (addr_address a) < ip_int (ex_start_address x) ∨
      ip_int (ex_end_address x) < ip_int (addr_address a).
Proof.
  intros Hd Ha Hst. destruct (ipam_reach_good _ Hd) as [_ Hinv].
  destruct (ii_addr _ _ _ _ Hinv _ _ Ha) as (p & Hp & [Hwf Hin Hadm _]).
  destruct (Hadm Hst) as [Hsp Hx]. exists p. unfold special in Hsp.
  rewrite !orb_false_iff, andb_false_iff, !bool_decide_eq_false in Hsp.
  destruct Hsp as [[Hnet Hbc] Hgw]. split_and!; try done.
  - intros Hv. by destruct Hbc.
  - intros Hg. rewrite Hg in Hgw. by apply bool_decide_eq_false in Hgw.
  - intros j x Hj Hjp.
    assert (ex_pool_id x = pool_id p) as Hxp
      by (rewrite Hjp; symmetry; apply (ii_key_pool _ _ _ _ Hinv _ _ Hp)).
    pose proof (Hx j x Hj Hxp). lia.
Qed.

Lemma usable_addresses_witness :
  ∃ a p, db_addresses demo_two !! 200%N = Some a ∧ db_pools demo_two !! 100%N = Some p ∧
    net_contains (pool_cidr p) (addr_address a) = true.
Proof.
  do 2 eexists. split_and!; [vm_compute; reflexivity..|].
  destruct (usable_addresses demo demo_two 200 _ demo_two_reach
    ltac:(vm_compute; reflexivity) ltac:(vm_compute; congruence)) as (p & Hp & Hin & _).
  vm_compute in Hp. injection Hp as <-. exact Hin.
Defined.

(** ** Exhaustion is real *)

(** An automatic allocation is refused with IP_POOL_EXHAUSTED only when every
    address of the pool is reserved by the network, excluded, or already has a row
    that is taken (or locked by a concurrent transaction): the search misses no
    free address, whatever the strategy and the cursor. *)
Theorem exhaustion_is_real (E : Type) `{RuntimeLaws E} self id workload_id d e d' e' :
  ipam_good d →
  exec (ipam_run self (CallAllocate id workload_id None)) d e = (Raise POOL_EXHAUSTED, d', e') →
  ∃ pool, db_pools d !! id = Some pool ∧ exhausted d e pool.
Proof.
  intros Hgood Hrun. eapply exec_wp with (Q := λ r _, r = Raise POOL_EXHAUSTED →
    ∃ pool, db_pools d !! id = Some pool ∧ exhausted d e pool) in Hrun.
  { destruct Hrun as (w & HQ & _). by apply HQ. }
  unfold ipam_run, ipam_service. wp_run; try done.
  simpl. unfold allocate, _locked_pool, select_address. wp_run; try done. subst.
  match goal with Hp : rows _ !! id = Some _, Ha : negb _ = false |- _ =>
    destruct (locked_row d Hgood _ _ Hp Ha) as [Hrow Hact];
    eapply wp_mono; [apply wp_automatic_exhausted; [done|exact Hrow|exact Hact]|]; simpl in Hp
  end.
  intros [b|x] w' Hex; [|intros [= ->]; eexists; split; [eassumption|by apply Hex]].
  unfold _allocation_response. wp_run; try done.
Qed.

(** A pool of two usable addresses, one taken and the other disabled. *)
Definition demo_full : db :=
  after_at 400 (ipam_run demo_admin (CallReserveAddress 100 (v4 10 0 0 5) "dns")) demo_two.

Lemma exhaustion_is_real_witness :
  ∃ pool, db_pools demo_full !! 100%N = Some pool ∧ exhausted demo_full (Demo 0 500) pool.
Proof.
  eapply (exhaustion_is_real demo demo_admin 100 7).
  - exact ipam_invariant_witness.
  - apply exec_outcome. vm_compute. reflexivity.
Defined.

(** ** Leaving quarantine *)

(** [approve_release] on a quarantined address answers by the clock alone:
    before the end of the quarantine it refuses with 409 IP_QUARANTINE_ACTIVE;
    from that moment on it never does, and when it answers the address is
    AVAILABLE with no quarantine and its allocation RELEASED. *)
Theorem approve_release_by_clock (E : Type) `{RuntimeLaws E} self id d e r d' e' a u :
  ipam_good d → p_role (self_principal self) = SUPER_ADMIN →
  db_addresses d !! id = Some a → addr_state a = QUARANTINED →
  addr_quarantined_until a = Some u →
  exec (ipam_service self (approve_release self id)) d e = (r, d', e') →
  if (env_now e).1 <? u
  then r = Raise (app_error 409 "IP_QUARANTINE_ACTIVE" "The quarantine period has not elapsed.")
       ∧ d' = d
  else (r = Raise IntegrityError ∧ d' = d) ∨
       ∃ l a' resp, r = Ok resp ∧ ra_state resp = AVAILABLE ∧
         db_addresses d' !! id = Some a' ∧ addr_state a' = AVAILABLE ∧
         addr_quarantined_until a' = None ∧
         db_allocations d' !! alloc_id l = Some l ∧ alloc_ip_address_id l = id ∧
         alloc_status l = AL_RELEASED.
Proof.
  intros Hgood Hrole Ha Hst Hu Hrun. pose proof Hgood as [Hint Hinv].
  pose proof (ii_key_addr _ _ _ _ Hinv _ _ Ha) as Hk.
  destruct (ii_held _ _ _ _ Hinv _ _ Ha ltac:(right; right; done)) as (j & l & Hl & Hlip & Hact).
  destruct (ii_alloc _ _ _ _ Hinv _ _ Hl) as (b & Hb & Hm). rewrite Hlip in Hb. simplify_eq.
  destruct (ii_addr _ _ _ _ Hinv _ _ Ha) as (p & Hp & _).
  assert (alloc_status l = AL_QUARANTINED) as Hls.
  { unfold alloc_matches, alloc_active in *. destruct (alloc_status l); naive_solver congruence. }
  start_run Hrun. unfold ipam_service, approve_release, _audit_and_commit. wp_run; fresh_row;
    repeat match goal with
      | Hx : db_addresses _ !! _ = Some ?b, Hy : db_addresses _ !! _ = Some ?c |- _ =>
        first [is_evar b | is_evar c | rewrite Hx in Hy; injection Hy as <-]
      | Hn : env_now e = _ |- _ => rewrite Hn; simpl; clear Hn
      | Hb : match addr_quarantined_until a with _ => _ end = _ |- _ => rewrite Hu in Hb; rewrite Hb
      end; try congruence.
  - by apply bool_decide_eq_true in H1; rewrite Hrole in H1; destruct H1; apply list_elem_of_here.
  - match goal with Hb : bool_decide (_ ≠ _) = true |- _ => by apply bool_decide_eq_true in Hb end.
  - done.
  - match goal with Hf : first_row _ _ = None |- _ =>
      apply (first_row_None _ _ Hf) in Hl end.
    unfold alloc_in_status in Hl. by rewrite Hlip, Hls, !bool_decide_true in Hl.
  - by left.
  - right. match goal with Hf : first_row _ _ = Some ?m |- _ =>
      apply (allocation_row d Hgood) in Hf as (_ & _ & Hip%bool_decide_eq_true) end.
    match goal with |- context [insert (alloc_id _) ?m _] => exists m end.
    do 2 eexists. split_and!; [reflexivity|reflexivity|apply lookup_insert_eq|..]; try done.
    apply lookup_insert_eq.
Qed.

(** A released address, before and after its ten minutes. *)
Definition demo_quarantined : db :=
  (exec (ipam_run demo_admin (CallRelease 201 "done")) demo_two (Demo 60000000 400)).1.2.

Lemma demo_quarantined_good : ipam_good demo_quarantined.
Proof.
  unfold demo_quarantined. destruct (exec _ _ _) as [[r d'] e'] eqn:He. simpl.
  apply (ipam_run_ok (E := demo)) in He as [[? _] _]; [done|exact demo_two_good|done].
Qed.

Lemma approve_release_by_clock_witness :
  (exec (ipam_service demo_admin (approve_release demo_admin 200)) demo_quarantined
     (Demo 659999999 500)).1.2 = demo_quarantined ∧
  ∃ resp, (exec (ipam_service demo_admin (approve_release demo_admin 200)) demo_quarantined
     (Demo 660000000 500)).1.1 = Ok resp ∧ ra_state resp = AVAILABLE.
Proof.
  split.
  - destruct (exec _ _ _) as [[r d'] e'] eqn:He.
    eapply (approve_release_by_clock demo) in He;
      [|exact demo_quarantined_good|done|vm_compute; reflexivity..].
    vm_compute in He. apply He.
  - eexists. split; [vm_compute; reflexivity|reflexivity].
Defined.
