(* ===== verification/Endpoints.v ===== *)
(** * The endpoint policy

    app/security/endpoints.py: which addresses the backend may contact on behalf of
    a cluster, over the parts of [urllib.parse] and [ipaddress] that it uses.  Name
    resolution is a parameter. *)
From S2P Require Import Prelude Models IpAddr Operations.

(** ** Strings *)

Definition PERCENT : Ascii.ascii := Ascii.ascii_of_nat 37.
Definition AT : Ascii.ascii := Ascii.ascii_of_nat 64.
Definition LBRACKET : Ascii.ascii := Ascii.ascii_of_nat 91.
Definition RBRACKET : Ascii.ascii := Ascii.ascii_of_nat 93.

Fixpoint str_filter (keep : Ascii.ascii → bool) (s : string) : string :=
  match s with
  | EmptyString => EmptyString
  | String a r => if keep a then String a (str_filter keep r) else str_filter keep r
  end.

Fixpoint str_all (p : Ascii.ascii → bool) (s : string) : bool :=
  match s with
  | EmptyString => true
  | String a r => p a && str_all p r
  end.

Definition has_char (c : Ascii.ascii) (s : string) : bool :=
  negb (str_all (λ a, bool_decide (a ≠ c)) s).

(** The longest prefix without a stop character, and the rest. *)
Fixpoint str_span (stop : Ascii.ascii → bool) (s : string) : string * string :=
  match s with
  | EmptyString => (EmptyString, EmptyString)
  | String a r => if stop a then (EmptyString, s)
                  else let '(l, t) := str_span stop r in (String a l, t)
  end.

(** [s.partition(c)]; the middle says whether the separator is there. *)
Definition str_partition (c : Ascii.ascii) (s : string) : string * bool * string :=
  match str_span (λ a, bool_decide (a = c)) s with
  | (l, String _ r) => (l, true, r)
  | (l, EmptyString) => (l, false, EmptyString)
  end.

(** [s.rpartition(c)[2]]: what follows the last separator, or all. *)
Fixpoint after_last (c : Ascii.ascii) (s : string) : string :=
  match s with
  | EmptyString => EmptyString
  | String a r => if has_char c r then after_last c r
                  else if bool_decide (a = c) then r else s
  end.

(** [s.rstrip(c)]. *)
Fixpoint str_rstrip_char (c : Ascii.ascii) (s : string) : string :=
  match s with
  | EmptyString => EmptyString
  | String a r =>
    match str_rstrip_char c r with
    | EmptyString => if bool_decide (a = c) then EmptyString else String a EmptyString
    | r' => String a r'
    end
  end.

(** ** [ipaddress]: addresses and their classes *)

(** [IPv6Address(s)]; the scope identifier takes no part in what follows. *)
Definition v6_address (s : string) : option ip_addr :=
  let '(addr, scoped, scope) := str_partition PERCENT s in
  if scoped && (str_is_empty scope || has_char PERCENT scope) then None
  else IpAddr 6 <$> v6_int_from_string addr.

(** [ip_address(s)], [None] for its [ValueError]. *)
Definition ip_address_of (s : string) : option ip_addr :=
  match v4_int_from_string s with
  | Some v => Some (IpAddr 4 v)
  | None => v6_address s
  end.

(** A network by its leading 16 (IPv6) or 8 bits (IPv4). *)
Definition v6_block (leading prefixlen : Z) : ip_net := IpNet 6 (Z.shiftl leading 112) prefixlen.
Definition v4_block (leading prefixlen : Z) : ip_net := IpNet 4 (Z.shiftl leading 24) prefixlen.

(** [_IPv6Constants._reserved_networks]. *)
Definition v6_reserved : list ip_net := [
  v6_block 0x0000 8; v6_block 0x0100 8; v6_block 0x0200 7; v6_block 0x0400 6; v6_block 0x0800 5;
  v6_block 0x1000 4; v6_block 0x4000 3; v6_block 0x6000 3; v6_block 0x8000 3; v6_block 0xA000 3;
  v6_block 0xC000 3; v6_block 0xE000 4; v6_block 0xF000 5; v6_block 0xF800 6; v6_block 0xFE00 9 ].

(** [IPv6Address.ipv4_mapped]: the address that the properties below are those of
    (Python 3.12.6 and later). *)
Definition unmapped (a : ip_addr) : ip_addr :=
  if bool_decide (ip_version a = 6) && (Z.shiftr (ip_int a) 32 =? 0xFFFF)
  then IpAddr 4 (Z.land (ip_int a) 0xFFFFFFFF) else a.

Definition by_version {A} (a : ip_addr) (v4 v6 : A) : A :=
  if bool_decide (ip_version a = 4) then v4 else v6.

Definition is_unspecified (a : ip_addr) : bool := ip_int (unmapped a) =? 0.
Definition is_loopback (a : ip_addr) : bool :=
  let a := unmapped a in by_version a (net_contains (v4_block 127 8) a) (ip_int a =? 1).
Definition is_link_local (a : ip_addr) : bool :=
  let a := unmapped a in
  net_contains (by_version a (IpNet 4 (Z.shiftl 0xA9FE 16) 16) (v6_block 0xFE80 10)) a.
Definition is_multicast (a : ip_addr) : bool :=
  let a := unmapped a in net_contains (by_version a (v4_block 224 4) (v6_block 0xFF00 8)) a.
Definition is_reserved (a : ip_addr) : bool :=
  let a := unmapped a in existsb (λ n, net_contains n a) (by_version a [v4_block 240 4] v6_reserved).

Example address_classes :
  map (λ s, (λ a, (is_unspecified a, is_loopback a, is_link_local a, is_multicast a, is_reserved a))
              <$> ip_address_of s)
    ["0.0.0.0"; "127.8.0.1"; "169.254.169.254"; "224.0.0.251"; "255.255.255.255";
     "::1"; "fe80::1%eth0"; "ff02::1"; "::ffff:127.0.0.1"; "192.0.2.1"; "2001:db8::1"; "pve"]
  = [Some (true, false, false, false, false); Some (false, true, false, false, false);
     Some (false, false, true, false, false); Some (false, false, false, true, false);
     Some (false, false, false, false, true); Some (false, true, false, false, true);
     Some (false, false, true, false, false); Some (false, false, false, true, false);
     Some (false, true, false, false, false); Some (false, false, false, false, false);
     Some (false, false, false, false, false); None].
Proof. vm_compute. reflexivity. Qed.

(** ** [urllib.parse.urlsplit] *)

(** What [urlsplit] finds before the path. *)
Record split_result := mkSplitResult { us_scheme : string; us_netloc : string }.

(** Name resolution ([loop.getaddrinfo]: [None] for [OSError]) and, for a host
    outside ASCII, whether [_checknetloc] accepts its Unicode normal form. *)
Class Resolver (E : Type) := {
  env_resolve : string → Z → E → option (list string) * E;
  nfkc_safe : string → bool }.

Definition code_of (a : Ascii.ascii) : nat := Ascii.nat_of_ascii a.
Definition is_alpha (a : Ascii.ascii) : bool :=
  ((65 <=? code_of a) && (code_of a <=? 90) || (97 <=? code_of a) && (code_of a <=? 122))%nat.
Definition is_digit (a : Ascii.ascii) : bool := bool_decide (is_Some (digit_value a)).
Definition is_hex (a : Ascii.ascii) : bool := bool_decide (is_Some (hex_value a)).

(** [scheme_chars]: letters, digits and "+-.". *)
Definition scheme_char (a : Ascii.ascii) : bool :=
  is_alpha a || is_digit a || bool_decide (code_of a ∈ [43; 45; 46]%nat).

Fixpoint lstrip_c0 (s : string) : string :=
  match s with
  | String a r => if (code_of a <=? 32)%nat then lstrip_c0 r else s
  | EmptyString => EmptyString
  end.

Definition removed_byte (a : Ascii.ascii) : bool := bool_decide (code_of a ∈ [9; 10; 13]%nat).

Definition split_scheme (url : string) : string * string :=
  match str_partition COLON url with
  | (String a r, true, rest) =>
    if is_alpha a && str_all scheme_char r then (str_lower (String a r), rest) else ("", url)
  | _ => ("", url)
  end.

(** [_check_bracketed_host]. *)
Definition check_bracketed_host (host : string) : bool :=
  match host with
  | String a r =>
    if bool_decide (code_of a = 118%nat) then
      let '(version, dotted, rest) := str_partition DOT r in
      dotted && str_nonempty version && str_all is_hex version && str_nonempty rest
    else match ip_address_of host with Some ip => bool_decide (ip_version ip = 6) | None => false end
  | EmptyString => false
  end.

(** [_check_bracketed_netloc], of a text with both brackets. *)
Definition check_bracketed_netloc (netloc : string) : bool :=
  let hostname_and_port := after_last AT netloc in
  let '(before_bracket, have_open_br, bracketed) := str_partition LBRACKET hostname_and_port in
  if have_open_br then
    let '(host, _, port) := str_partition RBRACKET bracketed in
    negb (str_nonempty before_bracket) &&
    (negb (str_nonempty port) || String.prefix ":" port) && check_bracketed_host host
  else check_bracketed_host (str_partition COLON hostname_and_port).1.1.

Section policy.
Context {E : Type} `{Resolver E}.

Definition netloc_ok (netloc : string) : bool :=
  (if has_char LBRACKET netloc || has_char RBRACKET netloc
   then has_char LBRACKET netloc && has_char RBRACKET netloc && check_bracketed_netloc netloc
   else true) &&
  (str_ascii netloc || nfkc_safe (E := E) netloc).

(** [None] for [ValueError]. *)
Definition urlsplit (url : string) : option split_result :=
  let '(scheme, rest) := split_scheme (str_filter (λ a, negb (removed_byte a)) (lstrip_c0 url)) in
  let netloc :=
    match rest with
    | String a (String b r) =>
      if bool_decide (a = SLASH) && bool_decide (b = SLASH)
      then (str_span (λ a, bool_decide (code_of a ∈ [47; 63; 35]%nat)) r).1 else ""
    | _ => ""
    end in
  if netloc_ok netloc then Some (mkSplitResult scheme netloc) else None.

(** [SplitResult._hostinfo]. *)
Definition hostinfo (u : split_result) : string * string :=
  let info := after_last AT (us_netloc u) in
  let '(_, have_open_br, bracketed) := str_partition LBRACKET info in
  if have_open_br then
    let '(host, _, rest) := str_partition RBRACKET bracketed in
    (host, (str_partition COLON rest).2)
  else let '(host, _, port) := str_partition COLON info in (host, port).

Definition url_hostname (u : split_result) : option string :=
  let host := (hostinfo u).1 in
  if str_nonempty host then
    let '(name, zoned, zone) := str_partition PERCENT host in
    Some (str_lower name +:+ (if zoned then String PERCENT zone else ""))
  else None.

(** [parsed.port or 443]; [None] for [ValueError]. *)
Definition url_port (u : split_result) : option Z :=
  let text := (hostinfo u).2 in
  if str_nonempty text then
    port ← int_of_string text;
    if port <=? 65535 then Some (if port =? 0 then 443 else port) else None
  else Some 443.

(** ** [ProxmoxEndpointPolicy] *)

Record ProxmoxEndpointPolicy := mkProxmoxEndpointPolicy {
  _allowed_hosts : list string; _allowed_networks : list ip_net }.

Definition _normalize_host (host : string) : string := str_rstrip_char DOT (str_lower (str_strip host)).

(** The constructor, [None] for its [ValueError]. *)
Definition endpoint_policy (allowed_hosts allowed_networks : list string)
  : option ProxmoxEndpointPolicy :=
  networks ← mapM ip_network allowed_networks;
  Some (mkProxmoxEndpointPolicy (map _normalize_host allowed_hosts) networks).

Definition _not_allowed : exn :=
  app_error 422 "PVE_ENDPOINT_NOT_ALLOWED"
    "The Proxmox endpoint is outside the configured management network policy.".
Definition unresolvable : exn :=
  app_error 422 "PVE_ENDPOINT_UNRESOLVABLE"
    "The Proxmox endpoint could not be resolved safely.".

Definition _always_forbidden (address : ip_addr) : bool :=
  is_unspecified address || is_loopback address || is_link_local address ||
  is_multicast address || is_reserved address.

Definition _addresses (host : string) (port : Z) : M E (list ip_addr) :=
  match ip_address_of host with
  | Some address => mret [address]
  | None =>
    values ← (λ e, (Ok (env_resolve host port e).1, (env_resolve host port e).2));
    values ← or_raise unresolvable values;
    or_raise unresolvable (mapM ip_address_of values)
  end.

(** The two ways in: the host by name, or every address by network. *)
Definition endpoint_allowed (p : ProxmoxEndpointPolicy) (host : string) (addresses : list ip_addr)
  : bool :=
  bool_decide (host ∈ _allowed_hosts p) ||
  forallb (λ a, existsb (λ n, net_contains n a) (_allowed_networks p)) addresses.

Definition validate (p : ProxmoxEndpointPolicy) (endpoint : string) : M E () :=
  parsed ← or_raise ValueError (urlsplit endpoint);
  raise_if (bool_decide (us_scheme parsed ≠ "https")) _not_allowed;;
  host ← or_raise _not_allowed (url_hostname parsed);
  let normalized_host := _normalize_host host in
  port ← or_raise ValueError (url_port parsed);
  addresses ← _addresses normalized_host port;
  raise_if (match addresses with [] => true | _ => existsb _always_forbidden addresses end)
    _not_allowed;;
  raise_if (negb (endpoint_allowed p normalized_host addresses)) _not_allowed.

(** ** What an accepted endpoint is *)

(** Addresses a policy lets through. *)
Definition permitted (p : ProxmoxEndpointPolicy) (host : string) (addresses : list ip_addr) : Prop :=
  addresses ≠ [] ∧ Forall (λ a, _always_forbidden a = false) addresses ∧
  endpoint_allowed p host addresses = true.

(** The policy resolved the host of the endpoint, from [e] to [e'], to permitted
    addresses. *)
Inductive resolved (p : ProxmoxEndpointPolicy) (endpoint : string) (e e' : E) : Prop :=
| resolved_to parsed host port addresses :
    urlsplit endpoint = Some parsed → us_scheme parsed = "https" →
    url_hostname parsed = Some host → url_port parsed = Some port →
    _addresses (_normalize_host host) port e = (Ok addresses, e') →
    permitted p (_normalize_host host) addresses →
    resolved p endpoint e e'.

(** At most one look-up leads from [e] to [e']. *)
Definition looked_up (e e' : E) : Prop := e' = e ∨ ∃ host port, e' = (env_resolve host port e).2.

Lemma wp_addresses host port (Q : outcome (list ip_addr) → E → Prop) e :
  (∀ addresses e', _addresses host port e = (Ok addresses, e') → looked_up e e' →
    Q (Ok addresses) e') →
  (∀ e', looked_up e e' → Q (Raise unresolvable) e') → wp (_addresses host port) Q e.
Proof.
  intros Hok Hbad. apply wp_intro. intros r e' Ha. pose proof Ha as Hrun.
  unfold _addresses in Ha. destruct (ip_address_of host) as [a|].
  { injection Ha as <- <-. apply Hok; [done|by left]. }
  assert (looked_up e (env_resolve host port e).2) as Hl by (right; eauto).
  unfold mbind, M_bind in Ha. destruct (env_resolve host port e) as [[values|] e1].
  - simpl in Ha. destruct (mapM _ values); simpl in Ha; injection Ha as <- <-;
      [by apply Hok|by apply Hbad].
  - simpl in Ha. injection Ha as <- <-. by apply Hbad.
Qed.

Definition endpoint_errors : list exn := [ValueError; _not_allowed; unresolvable].

Lemma wp_validate p endpoint (Q : outcome () → E → Prop) e :
  (∀ e', resolved p endpoint e e' → Q (Ok tt) e') →
  (∀ x e', x ∈ endpoint_errors → looked_up e e' → Q (Raise x) e') →
  wp (validate p endpoint) Q e.
Proof.
  intros Hok Hbad.
  assert (∀ e', looked_up e e' → Q (Raise _not_allowed) e') as Hna.
  { intros e' He. apply Hbad; [unfold endpoint_errors; set_solver|done]. }
  assert (Q (Raise ValueError) e) as Hv.
  { apply Hbad; [unfold endpoint_errors; set_solver|by left]. }
  assert (Q (Raise _not_allowed) e) as Hn by (apply Hna; by left).
  unfold validate. apply wp_bind, wp_or_raise; [done|]. intros parsed Hparsed.
  apply wp_bind, wp_raise_if; [done|]. intros Hs%bool_decide_eq_false%dec_stable.
  apply wp_bind, wp_or_raise; [done|]. intros host Hhost.
  apply wp_bind, wp_or_raise; [done|]. intros port Hport. apply wp_bind, wp_addresses.
  - intros addresses e' Ha Hl. apply wp_bind, wp_raise_if; [by intros; apply Hna|]. intros Hforb.
    apply wp_raise_if; [by intros; apply Hna|]. intros Hall%negb_false_iff.
    apply Hok. econstructor; [done..|]. destruct addresses as [|a l]; [done|].
    split_and!; [done| |done]. apply Forall_forall. intros b Hb.
    apply not_true_iff_false. intros Hf. apply not_true_iff_false in Hforb. apply Hforb.
    apply List.existsb_exists. exists b. by rewrite <-list_elem_of_In.
  - intros e' Hl. apply Hbad; [unfold endpoint_errors; set_solver|done].
Qed.
End policy.
