(* ===== verification/Client.v ===== *)
(** * The Proxmox client

    app/proxmox/client.py: [ProxmoxClient], one definition per method, over httpx as
    a parameter: what a call sends, and what it makes of the answer.  Closing the
    client and the console's websocket are left out. *)
From S2P Require Import Prelude Models PveApi IpAddr Operations Endpoints.

(** ** httpx *)

(** The classes of an exception's [__cause__] and [__context__] chain that matter. *)
Inductive chained := SSLError | OtherException.

Inductive transport_error :=
| TimeoutException
| ConnectError (chain : list chained)
| NetworkError
| OtherTransportError.

Abbreviation form := (list (string * string)).

Record http_request := mkHttpRequest {
  hr_method : string; hr_path : string; hr_params : option form; hr_data : option form }.

(** [hs_json] is [None] where [response.json()] raises [ValueError]. *)
Record http_response := mkHttpResponse { hs_status_code : Z; hs_json : option json }.

(** What the client keeps of its constructor's arguments; timeouts and connection
    limits are the transport's. *)
Record ProxmoxClient := mkProxmoxClient {
  _api_base_url : string; _authorization : string; _ca_bundle_pem : option string;
  _endpoint_policy : ProxmoxEndpointPolicy }.

(** [load_verify_locations] accepts the bundle; [AsyncClient.request]. *)
Class HttpTransport (E : Type) := {
  ca_bundle_loads : string → bool;
  env_http : ProxmoxClient → http_request → E → (transport_error + http_response) * E }.

(** ** Text *)

Definition hex_upper (n : nat) : Ascii.ascii := Ascii.ascii_of_nat (if n <? 10 then 48 + n else 55 + n)%nat.

(** The characters [urllib.parse.quote] never quotes: letters, digits and "_.-~". *)
Definition unreserved (a : Ascii.ascii) : bool :=
  is_alpha a || is_digit a || bool_decide (code_of a ∈ [45; 46; 95; 126]%nat).

(** [quote(s, safe="")] on the UTF-8 bytes of [s]. *)
Fixpoint quote (s : string) : string :=
  match s with
  | EmptyString => EmptyString
  | String a r =>
    if unreserved a then String a (quote r)
    else String PERCENT (String (hex_upper (code_of a / 16))
           (String (hex_upper (code_of a mod 16)) (quote r)))
  end.

(** [len(s)]: the bytes of its UTF-8 encoding that start a character. *)
Fixpoint str_len (s : string) : Z :=
  match s with
  | EmptyString => 0
  | String a r =>
    (if ((128 <=? code_of a) && (code_of a <? 192))%nat then 0 else 1) + str_len r
  end.

(** [f"/{a}/{b}/..."]. *)
Definition path_of (segments : list string) : string :=
  foldr (λ segment rest, String SLASH (segment +:+ rest)) "" segments.

(** [int(s)] on decimal digits, with single underscores between them. *)
Fixpoint int_of_body (acc : Z) (after_digit : bool) (s : string) : option Z :=
  match s with
  | EmptyString => if after_digit then Some acc else None
  | String a r =>
    match digit_value a with
    | Some v => int_of_body (acc * 10 + v) true r
    | None => if after_digit && bool_decide (code_of a = 95%nat) then int_of_body acc false r
              else None
    end
  end.

Definition py_int (s : string) : option Z :=
  match str_strip s with
  | String a r =>
    if bool_decide (code_of a = 45%nat) then Z.opp <$> int_of_body 0 false r
    else if bool_decide (code_of a = 43%nat) then int_of_body 0 false r
    else int_of_body 0 false (String a r)
  | EmptyString => None
  end.

Example text_functions :
  quote "pve 1/a_b~é" = "pve%201%2Fa_b~%C3%A9" ∧ path_of ["api2"; "json"] = "/api2/json" ∧
  map py_int [" 42 "; "-1_0"; "1__0"; "0x1"; ""; "5900"] =
    [Some 42; Some (-10); None; None; None; Some 5900] ∧ str_len "é1" = 2.
Proof. split_and!; reflexivity. Qed.

(** ** Answers *)

Definition _invalid_response : exn :=
  app_error 502 "PVE_INVALID_RESPONSE" "The Proxmox API returned an invalid response body.".

Definition _is_tls_error (chain : list chained) : bool :=
  existsb (λ c, match c with SSLError => true | OtherException => false end) chain.

(** The [except] clauses of [_request_data]; what they do not name goes through. *)
Definition transport_exn (error : transport_error) : exn :=
  match error with
  | TimeoutException =>
    app_error 504 "PVE_TIMEOUT"
      "The Proxmox API did not respond within the configured timeout."
  | ConnectError chain =>
    if _is_tls_error chain
    then app_error 502 "PVE_TLS_ERROR" "The Proxmox TLS certificate could not be verified."
    else app_error 503 "CLUSTER_UNREACHABLE" "The Proxmox cluster is unreachable."
  | NetworkError => app_error 503 "CLUSTER_UNREACHABLE" "The Proxmox cluster is unreachable."
  | OtherTransportError => TransportError
  end.

Definition status_exn (status_code : Z) : option exn :=
  if status_code =? 401 then
    Some (app_error 401 "PVE_AUTH_FAILED" "The Proxmox API token was rejected.")
  else if status_code =? 403 then
    Some (app_error 403 "PVE_PERMISSION_DENIED"
            "The Proxmox API token lacks a required permission.")
  else if 500 <=? status_code then
    Some (app_error 502 "PVE_UPSTREAM_ERROR" "The Proxmox API returned a server error.")
  else if 400 <=? status_code then
    Some (app_error 502 "PVE_INVALID_RESPONSE"
            "The Proxmox API returned an unexpected response.")
  else None.

(** [expected_type]: [dict], [list] or [str]. *)
Inductive json_type := ExpectDict | ExpectList | ExpectStr.

Definition is_instance (j : json) (expected : json_type) : bool :=
  match expected, j with
  | ExpectDict, JObj _ | ExpectList, JList _ | ExpectStr, (JStr _ | JUuid _) => true
  | _, _ => false
  end.

(** The [data] of a response body, [None] for [_invalid_response()]. *)
Definition response_data (body : option json) (expected : json_type) (allow_null_data : bool)
  : option json :=
  match body with
  | Some (JObj payload) =>
    data ← obj_get "data" payload;
    match data with
    | JNull => if allow_null_data then Some (JStr "") else None
    | _ => if is_instance data expected then Some data else None
    end
  | _ => None
  end.

(** [cast(dict[str, Any], data)]. *)
Definition as_dict (data : json) : json_object := match data with JObj fields => fields | _ => [] end.

Definition as_object (j : json) : option json_object :=
  match j with JObj fields => Some fields | _ => None end.

Definition is_upid (s : string) : bool := String.prefix "UPID:" s && (str_len s <=? 2048).

(** ** Requests *)

Section client.
Context {E : Type} `{Resolver E} `{HttpTransport E}.
Implicit Types (self : ProxmoxClient) (kind node : string) (vmid : Z).

Definition http_send self (request : http_request) : M E (transport_error + http_response) :=
  λ e, (Ok (env_http self request e).1, (env_http self request e).2).

(** The constructor, with the [allowed_hosts] and [allowed_networks] of the settings. *)
Definition ProxmoxClient_init (allowed_hosts allowed_networks : list string)
    (api_base_url token_identifier token_secret : string) (ca_bundle_pem : option string)
  : M E ProxmoxClient :=
  raise_if (match ca_bundle_pem with
            | Some bundle => negb (ca_bundle_loads (E := E) bundle) | None => false end)
    (app_error 422 "INVALID_CA_BUNDLE" "The custom CA bundle is not a valid PEM certificate.");;
  policy ← or_raise ValueError (endpoint_policy allowed_hosts allowed_networks);
  mret (mkProxmoxClient (str_rstrip_char SLASH api_base_url)
          ("PVEAPIToken=" +:+ token_identifier +:+ "=" +:+ token_secret) ca_bundle_pem policy).

Definition _request_data self (request : http_request) (expected : json_type)
    (allow_null_data : bool) : M E json :=
  validate (_endpoint_policy self) (_api_base_url self);;
  answer ← http_send self request;
  match answer with
  | inl error => raise (transport_exn error)
  | inr response =>
    match status_exn (hs_status_code response) with
    | Some x => raise x
    | None => or_raise _invalid_response (response_data (hs_json response) expected allow_null_data)
    end
  end.

Definition get (path : list string) (params : option form) : http_request :=
  mkHttpRequest "GET" (path_of ("api2" :: "json" :: path)) params None.
Definition send (method : string) (path : list string) (data : option form) : http_request :=
  mkHttpRequest method (path_of ("api2" :: "json" :: path)) None data.

Definition _require_upid (data : json) : M E string :=
  match data with
  | JStr s => raise_if (negb (is_upid s)) _invalid_response;; mret s
  | _ => raise _invalid_response
  end.

Definition _require_object_list (data : json) : M E (list json_object) :=
  match data with
  | JList items => or_raise _invalid_response (mapM as_object items)
  | _ => raise _invalid_response
  end.

Definition get_dict self (path : list string) : M E json_object :=
  data ← _request_data self (get path None) ExpectDict false; mret (as_dict data).

Definition get_objects self (path : list string) (params : option form) : M E (list json_object) :=
  data ← _request_data self (get path params) ExpectList false; _require_object_list data.

Definition post_task self (method : string) (path : list string) (data : option form) : M E string :=
  data ← _request_data self (send method path data) ExpectStr false; _require_upid data.

Definition _guest_type kind : M E string :=
  if bool_decide (kind = "QEMU") then mret "qemu"
  else if bool_decide (kind = "LXC") then mret "lxc"
  else raise ValueError.

(** ** The methods *)

Definition test_connection self : M E json_object :=
  version ← get_dict self ["version"];
  _request_data self (get ["nodes"] None) ExpectList false;;
  _request_data self (get ["cluster"; "resources"] (Some [("type", "vm")])) ExpectList false;;
  _request_data self (get ["cluster"; "resources"] (Some [("type", "storage")])) ExpectList false;;
  mret [("version", default JNull (obj_get "version" version));
        ("release", default JNull (obj_get "release" version));
        ("capabilities", JObj [("nodes", JBool true); ("guests", JBool true);
                               ("storages", JBool true)])].

Definition get_nodes self : M E (list json_object) := get_objects self ["nodes"] None.

Definition get_node_status self node : M E json_object :=
  get_dict self ["nodes"; quote node; "status"].

Definition get_node_rrd_data self node (timeframe : string) : M E (list json_object) :=
  get_objects self ["nodes"; quote node; "rrddata"]
    (Some [("timeframe", timeframe); ("cf", "AVERAGE")]).

Definition get_guests self : M E (list json_object) :=
  get_objects self ["cluster"; "resources"] (Some [("type", "vm")]).

Definition get_storages self : M E (list json_object) :=
  get_objects self ["cluster"; "resources"] (Some [("type", "storage")]).

Definition get_storage_configurations self : M E (list json_object) :=
  get_objects self ["storage"] None.

Definition get_node_storages self node : M E (list json_object) :=
  get_objects self ["nodes"; quote node; "storage"] None.

Definition get_vm_status self node vmid : M E json_object :=
  get_dict self ["nodes"; quote node; "qemu"; pretty vmid; "status"; "current"].

Definition get_guest_status self kind node vmid : M E json_object :=
  guest_type ← _guest_type kind;
  get_dict self ["nodes"; quote node; guest_type; pretty vmid; "status"; "current"].

Definition get_guest_config self kind node vmid : M E json_object :=
  guest_type ← _guest_type kind;
  get_dict self ["nodes"; quote node; guest_type; pretty vmid; "config"].

Definition configure_guest self kind node vmid (cores memory_mib : Z) : M E () :=
  guest_type ← _guest_type kind;
  _request_data self
    (send "PUT" ["nodes"; quote node; guest_type; pretty vmid; "config"]
       (Some [("cores", pretty cores); ("memory", pretty memory_mib)])) ExpectStr true;;
  mret tt.

Definition resize_guest_disk self kind node vmid (disk : string) (size_bytes : Z) : M E () :=
  guest_type ← _guest_type kind;
  _request_data self
    (send "PUT" ["nodes"; quote node; guest_type; pretty vmid; "resize"]
       (Some [("disk", disk); ("size", pretty size_bytes)])) ExpectStr true;;
  mret tt.

Definition delete_guest self kind node vmid : M E string :=
  guest_type ← _guest_type kind;
  post_task self "DELETE" ["nodes"; quote node; guest_type; pretty vmid] None.

Definition submit_guest_power_action self kind node vmid (action : string) : M E string :=
  let allowed_actions := ["start"; "shutdown"; "stop"; "reboot"] ++
    (if bool_decide (kind = "QEMU") then ["reset"] else []) in
  raise_if (bool_decide (action ∉ allowed_actions)) ValueError;;
  guest_type ← _guest_type kind;
  post_task self "POST" ["nodes"; quote node; guest_type; pretty vmid; "status"; action] None.

Definition submit_vm_power_action self node vmid (action : string) : M E string :=
  submit_guest_power_action self "QEMU" node vmid action.

Definition get_task_status self node (upid : string) : M E json_object :=
  get_dict self ["nodes"; quote node; "tasks"; quote upid; "status"].

Definition bad_storage vmid (storage : string) : bool :=
  (vmid <=? 0) || negb (str_nonempty storage) || (255 <? str_len storage).

Definition submit_guest_backup self node vmid (storage mode compression : string) : M E string :=
  raise_if (bool_decide (mode ≠ "snapshot") || bool_decide (compression ≠ "zstd")) ValueError;;
  raise_if (bad_storage vmid storage) ValueError;;
  post_task self "POST" ["nodes"; quote node; "vzdump"]
    (Some [("vmid", pretty vmid); ("storage", storage); ("mode", mode);
           ("compress", compression)]).

Definition get_backup_content self node (storage : string) vmid : M E (list json_object) :=
  raise_if (bad_storage vmid storage) ValueError;;
  get_objects self ["nodes"; quote node; "storage"; quote storage; "content"]
    (Some [("content", "backup"); ("vmid", pretty vmid)]).

Definition submit_guest_restore self kind node (archive : string) vmid (name : string) : M E string :=
  guest_type ← _guest_type kind;
  raise_if ((vmid <? 100) || negb (str_nonempty archive) || (1024 <? str_len archive) ||
            negb (str_nonempty name) || (63 <? str_len name)) ValueError;;
  let payload := [("vmid", pretty vmid); ("start", "0")] ++
    (if bool_decide (guest_type = "qemu")
     then [("archive", archive); ("name", name); ("unique", "1")]
     else [("ostemplate", archive); ("hostname", name); ("restore", "1")]) in
  post_task self "POST" ["nodes"; quote node; guest_type] (Some payload).

Definition get_task_log self node (upid : string) : M E (list json_object) :=
  raise_if (negb (str_nonempty upid) || (2048 <? str_len upid)) ValueError;;
  get_objects self ["nodes"; quote node; "tasks"; quote upid; "log"]
    (Some [("start", "0"); ("limit", "500")]).

Definition clone_qemu_template self (source_node : string) (source_vmid : Z)
    (target_node : string) (target_vmid : Z) (name storage : string) : M E string :=
  post_task self "POST" ["nodes"; quote source_node; "qemu"; pretty source_vmid; "clone"]
    (Some [("newid", pretty target_vmid); ("node", target_node); ("name", name);
           ("storage", storage); ("full", "1")]).

Definition qemu_parameters : list string :=
  ["cores"; "memory"; "net0"; "ipconfig0"; "nameserver"; "ciuser"; "cipassword"; "sshkeys"].

(** [values] is a dict: its keys are distinct. *)
Definition configure_qemu self node vmid (values : form) : M E () :=
  raise_if (bool_decide (values = []) || negb (forallb (λ kv, bool_decide (kv.1 ∈ qemu_parameters)) values))
    ValueError;;
  let payload := map (λ kv, if bool_decide (kv.1 = "sshkeys") then (kv.1, quote kv.2) else kv) values in
  _request_data self (send "PUT" ["nodes"; quote node; "qemu"; pretty vmid; "config"] (Some payload))
    ExpectStr true;;
  mret tt.

Definition resize_qemu_disk self node vmid (disk : string) (size_bytes : Z) : M E () :=
  _request_data self
    (send "PUT" ["nodes"; quote node; "qemu"; pretty vmid; "resize"]
       (Some [("disk", disk); ("size", pretty size_bytes)])) ExpectStr true;;
  mret tt.

(** *** The console *)

Record ConsoleProxyTicket := mkConsoleProxyTicket {
  cpt_kind : string; cpt_node : string; cpt_vmid : Z; cpt_port : Z; cpt_ticket : string;
  cpt_user : option string }.

(** [isinstance(value, str)]. *)
Definition as_str (j : option json) : option string :=
  match j with Some (JStr s) => Some s | _ => None end.

(** [int(port_value)] of an [int] or a [str], [None] for [_invalid_response()]. *)
Definition port_of (j : option json) : option Z :=
  match j with
  | Some (JStr s) => py_int s
  | _ => as_int j
  end.

(** A non-empty string of at most [limit] characters. *)
Definition short_str (limit : Z) (o : option string) : bool :=
  match o with Some s => str_nonempty s && (str_len s <=? limit) | None => false end.

Definition console_ticket kind node vmid (data : json_object) : option ConsoleProxyTicket :=
  let ticket := as_str (obj_get "ticket" data) in
  let user_value := as_str (obj_get "user" data) in
  port ← port_of (obj_get "port" data);
  text ← ticket;
  if negb (short_str 4096 ticket) ||
     (bool_decide (kind = "lxc") && negb (short_str 255 user_value)) ||
     negb ((1 <=? port) && (port <=? 65535))
  then None else Some (mkConsoleProxyTicket kind node vmid port text user_value).

Definition create_console_proxy self kind node vmid : M E ConsoleProxyTicket :=
  guest_type ← _guest_type kind;
  let proxy_endpoint := if bool_decide (guest_type = "qemu") then "vncproxy" else "termproxy" in
  data ← _request_data self
    (send "POST" ["nodes"; quote node; guest_type; pretty vmid; proxy_endpoint]
       (if bool_decide (guest_type = "qemu") then Some [("websocket", "1")] else None))
    ExpectDict false;
  or_raise _invalid_response (console_ticket guest_type node vmid (as_dict data)).
End client.
