(* ===== verification/DemoNet.v ===== *)
(** * A concrete network

    Two names and a script of HTTP answers, for the witnesses about the Proxmox
    client and the cluster service. *)
From S2P Require Import Prelude Models Database AuditLog PveApi IpAddr Endpoints Client.
From S2P Require Import Ipam IpamInv IpamOps Demo.

Record net := Net { nt_demo : demo; nt_answers : list (transport_error + http_response) }.

Definition net_demo {A} (f : demo → A * demo) (e : net) : A * net :=
  ((f (nt_demo e)).1, Net (f (nt_demo e)).2 (nt_answers e)).

#[export] Instance net_runtime : Runtime net :=
  {| env_now := net_demo env_now; env_uuid4 := net_demo env_uuid4;
     env_randrange n := net_demo (env_randrange n); env_token := net_demo env_token;
     env_locked _ _ := false; env_request_id _ := None; env_source_ip _ := None;
     env_user_agent _ := None |}.

#[export] Instance net_resolver : Resolver net :=
  {| env_resolve host _ e :=
       (if bool_decide (host = "pve.example.com") then Some ["192.0.2.10"; "2001:db8::10"]
        else if bool_decide (host = "evil.example.com") then Some ["192.0.2.10"; "127.0.0.1"]
        else None, e);
     nfkc_safe _ := false |}.

#[export] Instance net_transport : HttpTransport net :=
  {| ca_bundle_loads bundle := bool_decide (bundle ≠ "");
     env_http _ _ e :=
       (default (inl TimeoutException) (head (nt_answers e)), Net (nt_demo e) (tail (nt_answers e))) |}.

Definition http_ok (data : json) : transport_error + http_response :=
  inr (mkHttpResponse 200 (Some (JObj [("data", data)]))).

(** The answers of a healthy cluster to a connection test. *)
Definition healthy : list (transport_error + http_response) :=
  [http_ok (JObj [("version", JStr "8.2")]); http_ok (JList []); http_ok (JList []); http_ok (JList [])].

Definition net_at (n : N) (answers : list (transport_error + http_response)) : net :=
  Net (Demo (Z.of_N n * seconds 60) n) answers.

Definition demo_policy : ProxmoxEndpointPolicy :=
  default (mkProxmoxEndpointPolicy [] []) (endpoint_policy [" PVE.example.com. "] ["192.0.2.0/24"]).

Definition demo_client (url : string) : ProxmoxClient :=
  mkProxmoxClient url "PVEAPIToken=root@pam!x=secret" None demo_policy.
