(* ===== verification/ClientProps.v ===== *)
(** * What the client sends and answers

    Properties of Client.v: every request names the guest of its call, leaves only
    for an endpoint that the policy has just accepted, and every answer is validated
    or an error of a fixed list. *)
From Stdlib Require Import Lia.
From S2P Require Import Prelude Models Database PveApi IpAddr IpText Operations Endpoints Client.
From S2P Require Import Demo DemoNet.

(** ** The calls *)

Inductive client_call :=
| CTestConnection | CGetNodes | CGetGuests | CGetStorages | CGetStorageConfigurations
| CGetNodeStatus (node : string)
| CGetNodeRrdData (node timeframe : string)
| CGetNodeStorages (node : string)
| CGetVmStatus (node : string) (vmid : Z)
| CGetGuestStatus (kind node : string) (vmid : Z)
| CGetGuestConfig (kind node : string) (vmid : Z)
| CConfigureGuest (kind node : string) (vmid cores memory_mib : Z)
| CResizeGuestDisk (kind node : string) (vmid : Z) (disk : string) (size_bytes : Z)
| CDeleteGuest (kind node : string) (vmid : Z)
| CSubmitGuestPowerAction (kind node : string) (vmid : Z) (action : string)
| CSubmitVmPowerAction (node : string) (vmid : Z) (action : string)
| CGetTaskStatus (node upid : string)
| CGetTaskLog (node upid : string)
| CSubmitGuestBackup (node : string) (vmid : Z) (storage mode compression : string)
| CGetBackupContent (node storage : string) (vmid : Z)
| CSubmitGuestRestore (kind node archive : string) (vmid : Z) (name : string)
| CCloneQemuTemplate (source_node : string) (source_vmid : Z) (target_node : string)
    (target_vmid : Z) (name storage : string)
| CConfigureQemu (node : string) (vmid : Z) (values : form)
| CResizeQemuDisk (node : string) (vmid : Z) (disk : string) (size_bytes : Z)
| CCreateConsoleProxy (kind node : string) (vmid : Z).

Inductive answer :=
| ADict (fields : json_object)
| AObjects (items : list json_object)
| AUpid (upid : string)
| ATicket (ticket : ConsoleProxyTicket)
| ADone.

Section run.
Context {E : Type} `{Resolver E} `{HttpTransport E}.

Definition client_run (self : ProxmoxClient) (c : client_call) : M E answer :=
  match c with
  | CTestConnection => ADict <$> test_connection self
  | CGetNodes => AObjects <$> get_nodes self
  | CGetGuests => AObjects <$> get_guests self
  | CGetStorages => AObjects <$> get_storages self
  | CGetStorageConfigurations => AObjects <$> get_storage_configurations self
  | CGetNodeStatus node => ADict <$> get_node_status self node
  | CGetNodeRrdData node timeframe => AObjects <$> get_node_rrd_data self node timeframe
  | CGetNodeStorages node => AObjects <$> get_node_storages self node
  | CGetVmStatus node vmid => ADict <$> get_vm_status self node vmid
  | CGetGuestStatus kind node vmid => ADict <$> get_guest_status self kind node vmid
  | CGetGuestConfig kind node vmid => ADict <$> get_guest_config self kind node vmid
  | CConfigureGuest kind node vmid cores memory_mib =>
    (λ _, ADone) <$> configure_guest self kind node vmid cores memory_mib
  | CResizeGuestDisk kind node vmid disk size_bytes =>
    (λ _, ADone) <$> resize_guest_disk self kind node vmid disk size_bytes
  | CDeleteGuest kind node vmid => AUpid <$> delete_guest self kind node vmid
  | CSubmitGuestPowerAction kind node vmid action =>
    AUpid <$> submit_guest_power_action self kind node vmid action
  | CSubmitVmPowerAction node vmid action => AUpid <$> submit_vm_power_action self node vmid action
  | CGetTaskStatus node upid => ADict <$> get_task_status self node upid
  | CGetTaskLog node upid => AObjects <$> get_task_log self node upid
  | CSubmitGuestBackup node vmid storage mode compression =>
    AUpid <$> submit_guest_backup self node vmid storage mode compression
  | CGetBackupContent node storage vmid => AObjects <$> get_backup_content self node storage vmid
  | CSubmitGuestRestore kind node archive vmid name =>
    AUpid <$> submit_guest_restore self kind node archive vmid name
  | CCloneQemuTemplate source_node source_vmid target_node target_vmid name storage =>
    AUpid <$> clone_qemu_template self source_node source_vmid target_node target_vmid name storage
  | CConfigureQemu node vmid values => (λ _, ADone) <$> configure_qemu self node vmid values
  | CResizeQemuDisk node vmid disk size_bytes =>
    (λ _, ADone) <$> resize_qemu_disk self node vmid disk size_bytes
  | CCreateConsoleProxy kind node vmid => ATicket <$> create_console_proxy self kind node vmid
  end.
End run.

(** ** Recorded runs *)

(** What leaves the process: a name look-up with its answer, a request. *)
Inductive net_event :=
| LookedUp (host : string) (port : Z) (values : option (list string))
| Sent (client : ProxmoxClient) (request : http_request).

Record logged (E : Type) := Logged { lg_env : E; lg_events : list net_event }.
Arguments Logged {E} _ _.
Arguments lg_env {E} _.
Arguments lg_events {E} _.

#[export] Instance logged_resolver {E} `{Resolver E} : Resolver (logged E) :=
  {| env_resolve host port t :=
       let r := env_resolve host port (lg_env t) in
       (r.1, Logged r.2 (lg_events t ++ [LookedUp host port r.1]));
     nfkc_safe := nfkc_safe (E := E) |}.

#[export] Instance logged_transport {E} `{HttpTransport E} : HttpTransport (logged E) :=
  {| ca_bundle_loads := ca_bundle_loads (E := E);
     env_http self request t :=
       let r := env_http self request (lg_env t) in
       (r.1, Logged r.2 (lg_events t ++ [Sent self request])) |}.

Definition requests (events : list net_event) : list http_request :=
  omap (λ ev, match ev with Sent _ request => Some request | LookedUp _ _ _ => None end) events.

Section vetted.
Context {E : Type} `{Resolver E}.

(** The policy of [self] accepts its endpoint, given what was just looked up. *)
Definition vetted_after (self : ProxmoxClient) (before : list net_event) : Prop :=
  ∃ parsed host port addresses,
    urlsplit (E := E) (_api_base_url self) = Some parsed ∧ us_scheme parsed = "https" ∧
    url_hostname parsed = Some host ∧ url_port parsed = Some port ∧
    permitted (_endpoint_policy self) (_normalize_host host) addresses ∧
    ((∃ a, ip_address_of (_normalize_host host) = Some a ∧ addresses = [a]) ∨
     (∃ earlier values, before = earlier ++ [LookedUp (_normalize_host host) port (Some values)] ∧
        mapM ip_address_of values = Some addresses)).

(** Every request of [self] alone, right after its endpoint was vetted. *)
Definition vetted (self : ProxmoxClient) (events : list net_event) : Prop :=
  ∀ before client request after, events = before ++ Sent client request :: after →
    client = self ∧ vetted_after self before.

Lemma vetted_nil self : vetted self [].
Proof. intros before client request after Heq. by destruct before. Qed.

Lemma vetted_lookup self host port values : vetted self [LookedUp host port values].
Proof. by intros [|ev [|]] client request after Heq; simplify_eq/=. Qed.

Lemma vetted_after_app self events before :
  vetted_after self before → vetted_after self (events ++ before).
Proof.
  intros (parsed & host & port & addresses & Hu & Hs & Hh & Hp & Hperm & Hor).
  exists parsed, host, port, addresses. split_and!; try done.
  destruct Hor as [?|(earlier & values & -> & ?)]; [by left|right].
  exists (events ++ earlier), values. by rewrite app_assoc.
Qed.

Lemma vetted_app self events1 events2 :
  vetted self events1 → vetted self events2 → vetted self (events1 ++ events2).
Proof.
  intros H1 H2 before client request after Heq.
  apply app_eq_app in Heq as (l & [[-> Heq]|[-> Heq]]).
  - destruct l as [|ev l]; simpl in Heq.
    + destruct (H2 [] client request after) as [-> Hv]; [done|].
      split; [done|]. rewrite <-(app_nil_r before). by apply vetted_after_app.
    + injection Heq as <- ->. by eapply H1.
  - destruct (H2 l client request after) as [-> Hv]; [done|].
    split; [done|]. by apply vetted_after_app.
Qed.

Lemma vetted_send self events request :
  vetted self events → requests events = [] → vetted_after self events →
  vetted self (events ++ [Sent self request]).
Proof.
  intros Hv Hr Ha before client rq after Heq. symmetry in Heq.
  destruct after as [|ev after _] using rev_ind.
  - apply app_inj_tail in Heq as [-> [= -> ->]]. done.
  - change (before ++ Sent client rq :: after ++ [ev]) with (before ++ (Sent client rq :: after) ++ [ev]) in Heq.
    rewrite app_assoc in Heq. apply app_inj_tail in Heq as [Heq _].
    by eapply Hv.
Qed.
End vetted.

(** ** What one request does *)

(** A run that extends the record by vetted events with these requests. *)
Definition extends {E} `{Resolver E} (self : ProxmoxClient) (rqs : list http_request)
    (t t' : logged E) : Prop :=
  ∃ events, lg_events t' = lg_events t ++ events ∧ vetted (E := E) self events ∧ requests events = rqs.

Section extends.
Context {E : Type} `{Resolver E}.
Implicit Types (t : logged E).

Lemma extends_refl self t : extends self [] t t.
Proof. exists []. rewrite app_nil_r. split_and!; [done|apply vetted_nil|done]. Qed.

Lemma extends_trans self rqs1 rqs2 t1 t2 t3 :
  extends self rqs1 t1 t2 → extends self rqs2 t2 t3 → extends self (rqs1 ++ rqs2) t1 t3.
Proof.
  intros (l1 & H1 & Hv1 & <-) (l2 & H2 & Hv2 & <-). exists (l1 ++ l2). split_and!.
  - by rewrite H2, H1, app_assoc.
  - by apply vetted_app.
  - unfold requests. by rewrite omap_app.
Qed.

Lemma extends_lookup self t t' : looked_up t t' → extends self [] t t'.
Proof.
  intros [->|(host & port & ->)]; [apply extends_refl|].
  eexists. split_and!; [reflexivity|apply vetted_lookup|done].
Qed.

(** An accepted endpoint: the look-up is on record, and the request may follow. *)
Lemma resolved_extends self t t' :
  resolved (_endpoint_policy self) (_api_base_url self) t t' →
  ∃ events, lg_events t' = lg_events t ++ events ∧ vetted (E := E) self events ∧
    requests events = [] ∧ vetted_after (E := E) self events.
Proof.
  intros [parsed host port addresses Hu Hs Hh Hp Ha Hperm]. unfold _addresses in Ha.
  destruct (ip_address_of (_normalize_host host)) as [a|] eqn:Hip.
  - injection Ha as <- <-. exists []. rewrite app_nil_r. split_and!; [done|apply vetted_nil|done|].
    exists parsed, host, port, [a]. split_and!; try done. left. eauto.
  - unfold mbind, M_bind in Ha. simpl in Ha.
    destruct (env_resolve (_normalize_host host) port (lg_env t)) as [[values|] e1]; simpl in Ha; [|done].
    destruct (mapM ip_address_of values) as [l|] eqn:Hl; simpl in Ha; [|done].
    injection Ha as -> <-. simpl. eexists. split_and!; [reflexivity|apply vetted_lookup|done|].
    exists parsed, host, port, addresses. split_and!; try done. right. by exists [], values.
Qed.
End extends.

(** The [AppError]s of the client and the policy. *)
Definition client_errors : list (Z * string) := [
  (504, "PVE_TIMEOUT"); (502, "PVE_TLS_ERROR"); (503, "CLUSTER_UNREACHABLE");
  (401, "PVE_AUTH_FAILED"); (403, "PVE_PERMISSION_DENIED"); (502, "PVE_UPSTREAM_ERROR");
  (502, "PVE_INVALID_RESPONSE"); (422, "PVE_ENDPOINT_NOT_ALLOWED");
  (422, "PVE_ENDPOINT_UNRESOLVABLE") ].

(** Past the checks of its arguments, a call raises one of these: an [AppError] of
    the list, the [ValueError] of an endpoint that is no URL, or an httpx error
    that [_request_data] does not name. *)
Definition client_exn (x : exn) : Prop :=
  match x with
  | AppError status code _ _ => (status, code) ∈ client_errors
  | ValueError | TransportError => True
  | _ => False
  end.

Section request.
Context {E : Type} `{Resolver E} `{HttpTransport E}.
Implicit Types (t : logged E).

Lemma endpoint_errors_client x : x ∈ endpoint_errors → client_exn x.
Proof.
  unfold endpoint_errors. rewrite !elem_of_cons, elem_of_nil.
  intros [->|[->|[->|[]]]]; simpl; unfold client_errors; set_solver.
Qed.

Lemma transport_exn_client error : client_exn (transport_exn error).
Proof.
  destruct error as [|chain| |]; simpl; try case_match; simpl; unfold client_errors; set_solver.
Qed.

Lemma status_exn_client status x : status_exn status = Some x → client_exn x.
Proof.
  unfold status_exn. intros Hx. repeat case_match; simplify_eq; simpl; unfold client_errors; set_solver.
Qed.

Lemma invalid_response_client : client_exn _invalid_response.
Proof. simpl. unfold client_errors. set_solver. Qed.

Lemma response_data_instance body expected allow data :
  response_data body expected allow = Some data →
  is_instance data expected = true ∨ allow = true ∧ data = JStr "".
Proof.
  unfold response_data. destruct body as [[| | | | | |payload]|]; try done. simpl.
  destruct (obj_get "data" payload) as [[| | | | | |]|]; simpl; intros Hd; try done;
    repeat case_match; simplify_eq; auto; by left.
Qed.

Lemma wp_request_data self request expected allow (Q : outcome json → logged E → Prop) t :
  (∀ data t', extends self [request] t t' →
     is_instance data expected = true ∨ allow = true ∧ data = JStr "" → Q (Ok data) t') →
  (∀ x rqs t', extends self rqs t t' → rqs = [] ∨ rqs = [request] → client_exn x →
     Q (Raise x) t') →
  wp (_request_data self request expected allow) Q t.
Proof.
  intros Hok Hbad. unfold _request_data. apply wp_bind, wp_validate.
  2: { intros x t' Hx Hl. eapply Hbad; [by apply extends_lookup|by left|by apply endpoint_errors_client]. }
  intros t' (events & Hev & Hv & Hr & Ha)%resolved_extends.
  apply wp_bind, wp_intro. intros answer t'' Hs. unfold http_send in Hs. injection Hs as <- <-.
  assert (extends self [request] t (env_http self request t').2) as Hext.
  { exists (events ++ [Sent self request]). simpl. split_and!.
    - by rewrite Hev, app_assoc.
    - by apply vetted_send.
    - unfold requests in *. rewrite omap_app. simpl. by rewrite Hr. }
  change (env_http self request t').1 with (env_http self request (lg_env t')).1 in *.
  destruct (env_http self request (lg_env t')).1 as [error|response].
  { apply wp_raise. eapply Hbad; [exact Hext|by right|apply transport_exn_client]. }
  destruct (status_exn (hs_status_code response)) as [x|] eqn:Hx.
  { apply wp_raise. eapply Hbad; [exact Hext|by right|by eapply status_exn_client]. }
  apply wp_or_raise; intros.
  - eapply Hbad; [exact Hext|by right|apply invalid_response_client].
  - apply Hok; [exact Hext|by eapply response_data_instance].
Qed.
End request.

(** ** The requests of a call *)

Definition guest_type_of (kind : string) : option string :=
  if bool_decide (kind = "QEMU") then Some "qemu"
  else if bool_decide (kind = "LXC") then Some "lxc" else None.

Definition guest_request (kind : string) (request : string → http_request)
  : option (list http_request) :=
  guest_type ← guest_type_of kind; Some [request guest_type].

(** The path of a guest, and of a node. *)
Definition guest_path (node guest_type : string) (vmid : Z) (rest : list string) : list string :=
  ["nodes"; quote node; guest_type; pretty vmid] ++ rest.

Definition power_allowed (kind action : string) : bool :=
  bool_decide (action ∈ ["start"; "shutdown"; "stop"; "reboot"] ++
                        (if bool_decide (kind = "QEMU") then ["reset"] else [])).

Definition power_request (kind node : string) (vmid : Z) (action : string)
  : option (list http_request) :=
  if power_allowed kind action
  then guest_request kind (λ ty, send "POST" (guest_path node ty vmid ["status"; action]) None)
  else None.

Definition accept (refused : bool) (request : http_request) : option (list http_request) :=
  if refused then None else Some [request].

(** What a call sends when nothing fails, in order; [None] where it refuses its
    arguments. *)
Definition call_plan (c : client_call) : option (list http_request) :=
  match c with
  | CTestConnection => Some [
      get ["version"] None; get ["nodes"] None;
      get ["cluster"; "resources"] (Some [("type", "vm")]);
      get ["cluster"; "resources"] (Some [("type", "storage")])]
  | CGetNodes => Some [get ["nodes"] None]
  | CGetGuests => Some [get ["cluster"; "resources"] (Some [("type", "vm")])]
  | CGetStorages => Some [get ["cluster"; "resources"] (Some [("type", "storage")])]
  | CGetStorageConfigurations => Some [get ["storage"] None]
  | CGetNodeStatus node => Some [get ["nodes"; quote node; "status"] None]
  | CGetNodeRrdData node timeframe => Some [get ["nodes"; quote node; "rrddata"]
      (Some [("timeframe", timeframe); ("cf", "AVERAGE")])]
  | CGetNodeStorages node => Some [get ["nodes"; quote node; "storage"] None]
  | CGetVmStatus node vmid => Some [get (guest_path node "qemu" vmid ["status"; "current"]) None]
  | CGetGuestStatus kind node vmid =>
    guest_request kind (λ ty, get (guest_path node ty vmid ["status"; "current"]) None)
  | CGetGuestConfig kind node vmid =>
    guest_request kind (λ ty, get (guest_path node ty vmid ["config"]) None)
  | CConfigureGuest kind node vmid cores memory_mib =>
    guest_request kind (λ ty, send "PUT" (guest_path node ty vmid ["config"])
      (Some [("cores", pretty cores); ("memory", pretty memory_mib)]))
  | CResizeGuestDisk kind node vmid disk size_bytes =>
    guest_request kind (λ ty, send "PUT" (guest_path node ty vmid ["resize"])
      (Some [("disk", disk); ("size", pretty size_bytes)]))
  | CDeleteGuest kind node vmid =>
    guest_request kind (λ ty, send "DELETE" (guest_path node ty vmid []) None)
  | CSubmitGuestPowerAction kind node vmid action => power_request kind node vmid action
  | CSubmitVmPowerAction node vmid action => power_request "QEMU" node vmid action
  | CGetTaskStatus node upid => Some [get ["nodes"; quote node; "tasks"; quote upid; "status"] None]
  | CGetTaskLog node upid =>
    accept (negb (str_nonempty upid) || (2048 <? str_len upid))
      (get ["nodes"; quote node; "tasks"; quote upid; "log"]
         (Some [("start", "0"); ("limit", "500")]))
  | CSubmitGuestBackup node vmid storage mode compression =>
    accept (bool_decide (mode ≠ "snapshot") || bool_decide (compression ≠ "zstd") ||
            bad_storage vmid storage)
      (send "POST" ["nodes"; quote node; "vzdump"]
         (Some [("vmid", pretty vmid); ("storage", storage); ("mode", mode);
                ("compress", compression)]))
  | CGetBackupContent node storage vmid =>
    accept (bad_storage vmid storage)
      (get ["nodes"; quote node; "storage"; quote storage; "content"]
         (Some [("content", "backup"); ("vmid", pretty vmid)]))
  | CSubmitGuestRestore kind node archive vmid name =>
    guest_type ← guest_type_of kind;
    accept ((vmid <? 100) || negb (str_nonempty archive) || (1024 <? str_len archive) ||
            negb (str_nonempty name) || (63 <? str_len name))
      (send "POST" ["nodes"; quote node; guest_type] (Some ([("vmid", pretty vmid); ("start", "0")] ++
         (if bool_decide (guest_type = "qemu")
          then [("archive", archive); ("name", name); ("unique", "1")]
          else [("ostemplate", archive); ("hostname", name); ("restore", "1")]))))
  | CCloneQemuTemplate source_node source_vmid target_node target_vmid name storage =>
    Some [send "POST" (guest_path source_node "qemu" source_vmid ["clone"])
      (Some [("newid", pretty target_vmid); ("node", target_node); ("name", name);
             ("storage", storage); ("full", "1")])]
  | CConfigureQemu node vmid values =>
    accept (bool_decide (values = []) ||
            negb (forallb (λ kv, bool_decide (kv.1 ∈ qemu_parameters)) values))
      (send "PUT" (guest_path node "qemu" vmid ["config"])
         (Some (map (λ kv, if bool_decide (kv.1 = "sshkeys") then (kv.1, quote kv.2) else kv) values)))
  | CResizeQemuDisk node vmid disk size_bytes =>
    Some [send "PUT" (guest_path node "qemu" vmid ["resize"])
      (Some [("disk", disk); ("size", pretty size_bytes)])]
  | CCreateConsoleProxy kind node vmid =>
    guest_request kind (λ ty, send "POST"
      (guest_path node ty vmid [if bool_decide (ty = "qemu") then "vncproxy" else "termproxy"])
      (if bool_decide (ty = "qemu") then Some [("websocket", "1")] else None))
  end.

(** A UPID, and a ticket that can be dialled. *)
Definition answer_ok (a : answer) : Prop :=
  match a with
  | AUpid upid => is_upid upid = true
  | ATicket ticket =>
    1 ≤ cpt_port ticket ≤ 65535 ∧ short_str 4096 (Some (cpt_ticket ticket)) = true ∧
    (cpt_kind ticket = "lxc" → short_str 255 (cpt_user ticket) = true)
  | _ => True
  end.

Section calls.
Context {E : Type} `{Resolver E} `{HttpTransport E}.
Implicit Types (t : logged E).

Lemma wp_fmap {S A B} (f : A → B) (m : M S A) (Q : outcome B → S → Prop) s :
  wp m (λ r s', Q (match r with Ok a => Ok (f a) | Raise x => Raise x end) s') s → wp (f <$> m) Q s.
Proof. unfold wp, fmap, M_fmap. by destruct (m s) as [[a|x] s']. Qed.

(** The outcome of a call that sends [plan]. *)
Definition follows {A} self (plan : list http_request) (P : A → Prop) t (r : outcome A)
    (t' : logged E) : Prop :=
  ∃ rqs, extends self rqs t t' ∧ rqs `prefix_of` plan ∧
    match r with Ok a => rqs = plan ∧ P a | Raise x => client_exn x end.

Lemma wp_follow_request self request expected allow P t :
  (∀ data, is_instance data expected = true ∨ allow = true ∧ data = JStr "" → P data) →
  wp (_request_data self request expected allow) (follows self [request] P t) t.
Proof.
  intros HP. apply wp_request_data.
  - intros data t' Hext Hd. exists [request]. auto.
  - intros x rqs t' Hext Hrqs Hx. exists rqs. split_and!; [done| |done].
    destruct Hrqs as [->| ->]; [apply prefix_nil|done].
Qed.

(** What follows the last request neither sends nor looks up. *)
Lemma wp_follow_then {A B} self plan (P : A → Prop) (P' : B → Prop) (m : M (logged E) A) f t :
  wp m (follows self plan P t) t →
  (∀ a s, P a → wp (f a) (λ r s', s' = s ∧ match r with Ok b => P' b | Raise x => client_exn x end) s) →
  wp (m ≫= f) (follows self plan P' t) t.
Proof.
  intros Hm Hf. apply wp_bind. eapply wp_mono; [exact Hm|].
  intros [a|x] t1 (rqs & Hext & Hpre & Hr); [|by exists rqs].
  destruct Hr as [-> HP]. eapply wp_mono; [by apply Hf|]. intros r s' [-> Hr].
  exists plan. split_and!; try done. by destruct r.
Qed.

(** One call after another. *)
Lemma wp_follow_seq {A B} self plan1 plan2 (P : A → Prop) (P' : B → Prop) (m : M (logged E) A) f t :
  wp m (follows self plan1 P t) t → (∀ a s, P a → wp (f a) (follows self plan2 P' s) s) →
  wp (m ≫= f) (follows self (plan1 ++ plan2) P' t) t.
Proof.
  intros Hm Hf. apply wp_bind. eapply wp_mono; [exact Hm|].
  intros [a|x] t1 (rqs & Hext & Hpre & Hr).
  - destruct Hr as [-> HP]. eapply wp_mono; [by apply Hf|].
    intros r t2 (rqs2 & Hext2 & Hpre2 & Hr2). exists (plan1 ++ rqs2). split_and!.
    + by eapply extends_trans.
    + by apply prefix_app.
    + destruct r; [|done]. by destruct Hr2 as [-> ?].
  - exists rqs. split_and!; [done|by apply prefix_app_r|done].
Qed.

Lemma wp_follow_fmap {A} self plan (P : answer → Prop) (g : A → answer) (m : M (logged E) A) t :
  wp m (follows self plan (P ∘ g) t) t → wp (g <$> m) (follows self plan P t) t.
Proof.
  intros Hm. apply wp_fmap. eapply wp_mono; [exact Hm|].
  intros [a|x] t' (rqs & ? & ? & ?); exists rqs; auto.
Qed.

Lemma wp_get_dict self path (P : json_object → Prop) t :
  (∀ d, P d) → wp (get_dict self path) (follows self [get path None] P t) t.
Proof.
  intros HP. eapply wp_follow_then; [by apply (wp_follow_request _ _ _ _ (λ _, True))|].
  intros a s _. by apply wp_ret.
Qed.

Lemma wp_get_objects self path params (P : list json_object → Prop) t :
  (∀ l, P l) → wp (get_objects self path params) (follows self [get path params] P t) t.
Proof.
  intros HP. eapply wp_follow_then; [by apply (wp_follow_request _ _ _ _ (λ _, True))|].
  intros data s _. destruct data; try by (apply wp_raise; split; [|apply invalid_response_client]).
  apply wp_or_raise; [split; [done|apply invalid_response_client]|auto].
Qed.

Lemma wp_post_task self method path data t :
  wp (post_task self method path data) (follows self [send method path data] (λ u, is_upid u = true) t) t.
Proof.
  eapply wp_follow_then; [by apply (wp_follow_request _ _ _ _ (λ _, True))|].
  intros j s _. destruct j; try by (apply wp_raise; split; [|apply invalid_response_client]).
  apply wp_bind, wp_raise_if; [split; [done|apply invalid_response_client]|].
  intros Hu%negb_false_iff. by apply wp_ret.
Qed.

Lemma wp_put self method path data t :
  wp (_request_data self (send method path data) ExpectStr true;; mret tt)
    (follows self [send method path data] (λ _, True) t) t.
Proof.
  eapply wp_follow_then; [by apply (wp_follow_request _ _ _ _ (λ _, True))|].
  intros j s _. by apply wp_ret.
Qed.
End calls.

Section contract.
Context {E : Type} `{Resolver E} `{HttpTransport E}.
Implicit Types (t : logged E).

(** [_guest_type] agrees with [guest_type_of]. *)
Lemma guest_type_cases kind t :
  _guest_type kind t = match guest_type_of kind with
                       | Some ty => (Ok ty, t) | None => (Raise ValueError, t) end.
Proof. unfold _guest_type, guest_type_of. by repeat case_bool_decide. Qed.

(** A run against the plan of its call. *)
Definition planned {A} self (plan : option (list http_request)) (P : A → Prop) t
    (r : outcome A) (t' : logged E) : Prop :=
  match plan with
  | Some rqs => follows self rqs P t r t'
  | None => r = Raise ValueError ∧ t' = t
  end.

Lemma wp_planned_guest {A} self kind request (P : A → Prop) (m : string → M (logged E) A) t :
  (∀ ty, guest_type_of kind = Some ty → wp (m ty) (follows self [request ty] P t) t) →
  wp (_guest_type kind ≫= m) (planned self (guest_request kind request) P t) t.
Proof.
  intros Hm. unfold wp, mbind, M_bind, guest_request. rewrite guest_type_cases.
  destruct (guest_type_of kind); simpl; [by apply Hm|done].
Qed.

Lemma wp_planned_accept {A} self refused request (P : A → Prop) (m : M (logged E) A) t :
  wp m (follows self [request] P t) t →
  wp (raise_if refused ValueError;; m) (planned self (accept refused request) P t) t.
Proof. intros Hm. apply wp_bind, wp_raise_if; intros ->; [done|exact Hm]. Qed.

Lemma wp_planned_power self kind node vmid action t :
  wp (submit_guest_power_action self kind node vmid action)
    (planned self (power_request kind node vmid action) (λ u, is_upid u = true) t) t.
Proof.
  unfold submit_guest_power_action, power_request, power_allowed. apply wp_bind, wp_raise_if.
  - intros Hb%bool_decide_eq_true. by rewrite bool_decide_false.
  - intros Hb%bool_decide_eq_false%dec_stable. rewrite bool_decide_true by done.
    apply wp_planned_guest. intros ty _. apply wp_post_task.
Qed.

Lemma console_ticket_ok kind node vmid data ticket :
  console_ticket kind node vmid data = Some ticket → answer_ok (ATicket ticket).
Proof.
  unfold console_ticket. destruct (port_of _) as [port|]; simpl; [|done].
  destruct (as_str (obj_get "ticket" data)) as [text|] eqn:Ht; simpl; [|done].
  destruct (_ || _ || _) eqn:Hb; [done|]. intros [= <-]. simpl.
  apply orb_false_iff in Hb as [[Hs Hu]%orb_false_iff Hp].
  apply negb_false_iff, andb_true_iff in Hp as [Hp1%Z.leb_le Hp2%Z.leb_le].
  split_and!; [lia|lia|by apply negb_false_iff in Hs|].
  intros ->. rewrite bool_decide_true in Hu by done. by apply negb_false_iff in Hu.
Qed.

Lemma wp_planned_console self kind node vmid t :
  wp (create_console_proxy self kind node vmid)
    (planned self (call_plan (CCreateConsoleProxy kind node vmid)) (λ k, answer_ok (ATicket k)) t) t.
Proof.
  apply wp_planned_guest. intros ty _.
  eapply wp_follow_then; [by apply (wp_follow_request _ _ _ _ (λ _, True))|].
  intros data s _. apply wp_or_raise.
  - intros _. split; [done|apply invalid_response_client].
  - intros ticket Hk. split; [done|by eapply console_ticket_ok].
Qed.

Lemma wp_planned_test self t :
  wp (test_connection self) (planned self (call_plan CTestConnection) (λ _, True) t) t.
Proof.
  eapply (wp_follow_seq _ [_] [_; _; _] (λ _, True)); [by apply wp_get_dict|]. intros v s1 _.
  eapply (wp_follow_seq _ [_] [_; _] (λ _, True)); [by apply wp_follow_request|]. intros n s2 _.
  eapply (wp_follow_seq _ [_] [_] (λ _, True)); [by apply wp_follow_request|]. intros g s3 _.
  eapply wp_follow_then; [by apply (wp_follow_request _ _ _ _ (λ _, True))|].
  intros st s4 _. by apply wp_ret.
Qed.

Lemma wp_planned_fmap {A} self plan (P : answer → Prop) (g : A → answer) (m : M (logged E) A) t :
  wp m (planned self plan (P ∘ g) t) t → wp (g <$> m) (planned self plan P t) t.
Proof.
  destruct plan as [rqs|]; [apply wp_follow_fmap|]. intros Hm. apply wp_fmap.
  eapply wp_mono; [exact Hm|]. by intros r t' [-> ->].
Qed.

Lemma wp_client_run self c t :
  wp (client_run self c) (planned self (call_plan c) answer_ok t) t.
Proof.
  destruct c; simpl client_run; apply wp_planned_fmap;
    first [ by apply wp_planned_test
          | by apply wp_get_dict | by apply wp_get_objects
          | apply wp_planned_power | apply wp_planned_console
          | apply wp_put | apply wp_post_task
          | apply wp_planned_accept;
              first [by apply wp_get_objects | apply wp_post_task | apply wp_put]
          | apply wp_planned_guest; intros ty _;
              first [by apply wp_get_dict | apply wp_post_task | apply wp_put]
          | idtac ].
  - (* submit_guest_backup *)
    unfold submit_guest_backup. simpl call_plan. apply wp_bind, wp_raise_if; intros ->; [done|].
    by apply wp_planned_accept, wp_post_task.
  - (* submit_guest_restore *)
    unfold submit_guest_restore, wp, mbind, M_bind. rewrite guest_type_cases. simpl call_plan.
    destruct (guest_type_of kind) as [ty|]; simpl; [|done].
    by apply wp_planned_accept, wp_post_task.
Qed.
End contract.

(** ** Whom a request concerns *)

(** [urllib.parse.unquote] on bytes. *)
Fixpoint unquote (s : string) : string :=
  match s with
  | EmptyString => EmptyString
  | String a r =>
    if bool_decide (a = PERCENT) then
      match r with
      | String h (String l r') =>
        match hex_value h, hex_value l with
        | Some h, Some l => String (Ascii.ascii_of_nat (Z.to_nat (16 * h + l))) (unquote r')
        | _, _ => String a (unquote r)
        end
      | _ => String a (unquote r)
      end
    else String a (unquote r)
  end.

(** A statement on characters, checked on the 256 of them. *)
Lemma forall_ascii (P : Ascii.ascii → bool) :
  forallb P (map Ascii.ascii_of_nat (seq 0 256)) = true → ∀ a, P a = true.
Proof.
  intros HP a. rewrite List.forallb_forall in HP. apply HP, in_map_iff.
  exists (Ascii.nat_of_ascii a). split; [apply Ascii.ascii_nat_embedding|].
  apply in_seq. pose proof (Ascii.nat_ascii_bounded a). lia.
Qed.

Definition quoted_high (a : Ascii.ascii) : Ascii.ascii := hex_upper (code_of a / 16).
Definition quoted_low (a : Ascii.ascii) : Ascii.ascii := hex_upper (code_of a mod 16).

Definition quote_char_ok (a : Ascii.ascii) : bool :=
  bool_decide (quoted_high a ≠ SLASH) && bool_decide (quoted_low a ≠ SLASH) &&
  (negb (unreserved a) || bool_decide (a ≠ SLASH) && bool_decide (a ≠ PERCENT)) &&
  match hex_value (quoted_high a), hex_value (quoted_low a) with
  | Some h, Some l => bool_decide (Ascii.ascii_of_nat (Z.to_nat (16 * h + l)) = a)
  | _, _ => false
  end.

Lemma quote_char_all a : quote_char_ok a = true.
Proof. revert a. apply forall_ascii. vm_compute. reflexivity. Qed.

Lemma quote_cons a s :
  quote (String a s) =
    if unreserved a then String a (quote s)
    else String PERCENT (String (quoted_high a) (String (quoted_low a) (quote s))).
Proof. reflexivity. Qed.

Lemma unquote_quote s : unquote (quote s) = s.
Proof.
  induction s as [|a s IH]; [done|]. rewrite quote_cons.
  pose proof (quote_char_all a) as Ha. unfold quote_char_ok in Ha.
  apply andb_true_iff in Ha as [[_ Hu]%andb_true_iff Hhex].
  destruct (unreserved a); cbn [unquote] in *.
  - apply andb_true_iff in Hu as [_ Hp]. apply bool_decide_eq_true in Hp.
    by rewrite bool_decide_false, IH.
  - rewrite bool_decide_true by done.
    destruct (hex_value (quoted_high a)), (hex_value (quoted_low a)); try done.
    apply bool_decide_eq_true in Hhex. exact (f_equal2 String Hhex IH).
Qed.

Lemma quote_no_slash s : str_free SLASH (quote s) = true.
Proof.
  induction s as [|a s IH]; [done|]. rewrite quote_cons.
  pose proof (quote_char_all a) as Ha. unfold quote_char_ok in Ha.
  apply andb_true_iff in Ha as [[[Hh Hl]%andb_true_iff Hu]%andb_true_iff _].
  destruct (unreserved a); simpl in *.
  - apply andb_true_iff in Hu as [-> _]. exact IH.
  - by rewrite Hh, Hl, IH.
Qed.

Lemma pretty_N_go_no_slash x s : str_free SLASH s = true → str_free SLASH (pretty_N_go x s) = true.
Proof.
  revert s. induction (N.lt_wf_0 x) as [x _ IH]; intros s Hs.
  destruct (decide (x = 0%N)) as [->|Hx]; [by rewrite pretty_N_go_0|].
  rewrite pretty_N_go_step by lia. apply IH; [apply N.div_lt; lia|].
  simpl. rewrite Hs. unfold pretty_N_char. by repeat case_match.
Qed.

Lemma pretty_no_slash (z : Z) : str_free SLASH (pretty z) = true.
Proof.
  assert (∀ n : N, str_free SLASH (pretty n) = true) as HN.
  { intros n. unfold pretty, pretty_N. case_decide; [done|]. by apply pretty_N_go_no_slash. }
  destruct z as [|p|p]; [done|apply HN|exact (HN (Npos p))].
Qed.

Lemma str_app_empty s : s +:+ "" = s.
Proof. induction s as [|a s IH]; [done|]. exact (f_equal (String a) IH). Qed.

Lemma str_split_path segments :
  Forall (λ s, str_free SLASH s = true) segments → segments ≠ [] →
  str_split SLASH (path_of segments) = "" :: segments.
Proof.
  intros Hall Hne. assert (∀ rest, str_split SLASH (String SLASH rest) = "" :: str_split SLASH rest) as Hs
    by (intros rest; exact (str_split_app SLASH "" rest eq_refl)).
  destruct segments as [|seg segments]; [done|]. clear Hne. simpl path_of. rewrite Hs.
  f_equal. revert seg Hall. induction segments as [|next segments IH]; intros seg [Hseg Hall]%Forall_cons.
  - simpl. rewrite str_app_empty. by apply str_split_single.
  - simpl. rewrite str_split_app by done. f_equal. by apply IH.
Qed.

(** Whom a call is about: a node, the type of a guest, virtual machine numbers. *)
Record target (V : Type) := mkTarget { tg_node : string; tg_type : option string; tg_vmids : list V }.
Arguments mkTarget {V} _ _ _.
Arguments tg_node {V} _.
Arguments tg_type {V} _.
Arguments tg_vmids {V} _.

Definition call_target (c : client_call) : option (target Z) :=
  match c with
  | CTestConnection | CGetNodes | CGetGuests | CGetStorages | CGetStorageConfigurations => None
  | CGetNodeStatus node | CGetNodeRrdData node _ | CGetNodeStorages node
  | CGetTaskStatus node _ | CGetTaskLog node _ => Some (mkTarget node None [])
  | CSubmitGuestBackup node vmid _ _ _ | CGetBackupContent node _ vmid =>
    Some (mkTarget node None [vmid])
  | CGetVmStatus node vmid | CSubmitVmPowerAction node vmid _ | CConfigureQemu node vmid _
  | CResizeQemuDisk node vmid _ _ => Some (mkTarget node (Some "qemu") [vmid])
  | CCloneQemuTemplate source_node source_vmid _ target_vmid _ _ =>
    Some (mkTarget source_node (Some "qemu") [source_vmid; target_vmid])
  | CGetGuestStatus kind node vmid | CGetGuestConfig kind node vmid
  | CConfigureGuest kind node vmid _ _ | CResizeGuestDisk kind node vmid _ _
  | CDeleteGuest kind node vmid | CSubmitGuestPowerAction kind node vmid _
  | CSubmitGuestRestore kind node _ vmid _ | CCreateConsoleProxy kind node vmid =>
    Some (mkTarget node (guest_type_of kind) [vmid])
  end.

(** The values of the "vmid" and "newid" fields of a form. *)
Definition form_vmids (fields : form) : list string :=
  omap (λ kv, if bool_decide (kv.1 ∈ ["vmid"; "newid"]) then Some kv.2 else None) fields.

(** The same, read off the request. *)
Definition request_target (request : http_request) : option (target string) :=
  match str_split SLASH (hr_path request) with
  | _ :: _ :: _ :: collection :: node :: rest =>
    if bool_decide (collection = "nodes") then
      let guest_type := match rest with
                        | ty :: _ => if bool_decide (ty ∈ ["qemu"; "lxc"]) then Some ty else None
                        | [] => None end in
      let path_vmids := match guest_type, rest with Some _, _ :: vmid :: _ => [vmid] | _, _ => [] end in
      Some (mkTarget (unquote node) guest_type
        (path_vmids ++ form_vmids (default [] (hr_params request) ++ default [] (hr_data request))))
    else None
  | _ => None
  end.

Lemma guest_type_of_elem kind ty : guest_type_of kind = Some ty → ty ∈ ["qemu"; "lxc"].
Proof. unfold guest_type_of. repeat case_bool_decide; intros; simplify_eq; set_solver. Qed.

Lemma guest_type_no_slash kind ty : guest_type_of kind = Some ty → str_free SLASH ty = true.
Proof. unfold guest_type_of. by repeat case_bool_decide; intros; simplify_eq. Qed.

Lemma power_no_slash kind action : power_allowed kind action = true → str_free SLASH action = true.
Proof.
  unfold power_allowed. intros Ha%bool_decide_eq_true.
  case_bool_decide; simpl in Ha; rewrite !elem_of_cons, elem_of_nil in Ha; naive_solver.
Qed.

(** A node's request, from its segments. *)
Lemma node_target method node rest params data :
  Forall (λ s, str_free SLASH s = true) rest →
  request_target (mkHttpRequest method (path_of ("api2" :: "json" :: "nodes" :: quote node :: rest))
                    params data) =
    let guest_type := match rest with
                      | ty :: _ => if bool_decide (ty ∈ ["qemu"; "lxc"]) then Some ty else None
                      | [] => None end in
    Some (mkTarget node guest_type
      (match guest_type, rest with Some _, _ :: vmid :: _ => [vmid] | _, _ => [] end ++
       form_vmids (default [] params ++ default [] data))).
Proof.
  intros Hrest. unfold request_target. cbn [hr_path hr_params hr_data]. rewrite str_split_path; [|by repeat constructor; try apply quote_no_slash|done].
  by rewrite unquote_quote.
Qed.

Definition target_text (g : target Z) : target string :=
  mkTarget (tg_node g) (tg_type g) (map pretty (tg_vmids g)).

#[export] Instance target_text_inj : Inj (=) (=) target_text.
Proof.
  intros [n ty l] [n' ty' l'] [= -> -> Hl]. f_equal.
  revert l' Hl. induction l as [|z l IH]; intros [|z' l'] Hl; simpl in Hl; try done.
  injection Hl as Hz%(inj pretty) Hl. by rewrite Hz, (IH l').
Qed.

(** The values of a configuration are none of a form's numbers. *)
Lemma qemu_values_vmids (values : form) :
  forallb (λ kv, bool_decide (kv.1 ∈ qemu_parameters)) values = true →
  form_vmids (map (λ kv, if bool_decide (kv.1 = "sshkeys") then (kv.1, quote kv.2) else kv) values) = [].
Proof.
  induction values as [|[k v] values IH]; simpl; [done|].
  intros [Hk%bool_decide_eq_true Hv]%andb_true_iff. rewrite IH by done.
  rewrite bool_decide_false; [done|].
  replace (_ : string * string).1 with k by by case_bool_decide.
  intros Hin. assert (k ∉ ["vmid"; "newid"]) as []; [|done]. clear Hin. revert k Hk.
  apply Forall_forall. repeat constructor; set_solver.
Qed.

#[local] Hint Resolve pretty_no_slash quote_no_slash : core.

(** The request of a call carries the call's target. *)
Lemma request_target_ok c plan request :
  call_plan c = Some plan → request ∈ plan → request_target request = target_text <$> call_target c.
Proof.
  intros Hplan Hin.
  destruct c; simpl in Hplan;
    unfold power_request, guest_request, accept in Hplan;
    repeat match type of Hplan with
           | (if ?b then _ else _) = _ => destruct b eqn:?; [|]
           | context [guest_type_of ?k] => destruct (guest_type_of k) as [ty|] eqn:?; simpl in Hplan
           end; try discriminate Hplan; injection Hplan as <-;
    repeat match type of Hin with
           | _ ∈ _ :: _ => apply elem_of_cons in Hin as [->|Hin]
           | _ ∈ [] => by apply not_elem_of_nil in Hin
           end; try reflexivity.
  all: unfold get, send, guest_path; simpl app; rewrite node_target.
  all: try match goal with H : guest_type_of _ = Some _ |- _ => pose proof (guest_type_no_slash _ _ H) end.
  all: try match goal with H : power_allowed _ _ = true |- _ => pose proof (power_no_slash _ _ H) end.
  all: try (repeat first [apply Forall_nil_2 | apply Forall_cons_2]; solve [done | by case_bool_decide]).
  all: try match goal with H : guest_type_of _ = Some _ |- _ => pose proof (guest_type_of_elem _ _ H) end.
  all: cbv beta iota zeta; rewrite ?bool_decide_true by (done || set_solver); try reflexivity.
  all: try (destruct (bool_decide (ty = "qemu")); unfold target_text; simpl;
            match goal with H : guest_type_of _ = Some _ |- _ => rewrite ?H end; reflexivity).
  - match goal with H : guest_type_of _ = Some _ |- _ => injection H as <- end. reflexivity.
  - match goal with H : _ || negb _ = false |- _ =>
      apply orb_false_iff in H as [_ Hv%negb_false_iff] end.
    simpl default. rewrite app_nil_l, qemu_values_vmids by done. reflexivity.
Qed.

(** ** The properties *)

Section properties.
Context {E : Type} `{Resolver E} `{HttpTransport E}.
Implicit Types (self : ProxmoxClient) (c : client_call) (e : E).

(** The record of a run that starts without one. *)
Definition sent (t : logged E) : list http_request := requests (lg_events t).

Lemma client_run_planned self c e r t :
  client_run self c (Logged e []) = (r, t) →
  planned self (call_plan c) answer_ok (Logged e []) r t.
Proof. intros Hrun. eapply wp_run; [apply wp_client_run|exact Hrun]. Qed.

Lemma planned_sent {A} self plan (P : A → Prop) e r t :
  planned self (Some plan) P (Logged e []) r t → sent t `prefix_of` plan.
Proof. intros (rqs & (l & Hl & _ & Hr) & Hp & _). unfold sent. rewrite Hl. simpl. by rewrite Hr. Qed.

(** A call of the client either refuses its arguments before anything leaves the
    process, or sends a prefix of the requests of its kind and ends in an [AppError]
    of the fixed list (an httpx error that no clause names goes through), or sends
    all of them and answers a value it has validated: a task identifier begins with
    "UPID:" and has at most 2048 characters, a console ticket names a port in range. *)
Theorem client_answers self c e r t :
  client_run self c (Logged e []) = (r, t) →
  match call_plan c with
  | None => r = Raise ValueError ∧ t = Logged e []
  | Some plan =>
    sent t `prefix_of` plan ∧
    match r with
    | Ok a => sent t = plan ∧ answer_ok a
    | Raise x => client_exn x
    end
  end.
Proof.
  intros Hrun%client_run_planned. destruct (call_plan c) as [plan|]; [|done].
  split; [by eapply planned_sent|]. destruct Hrun as (rqs & (l & Hl & _ & Hr) & _ & Hres).
  unfold sent. rewrite Hl. simpl. rewrite Hr. destruct r; [|done]. by destruct Hres as [-> ?].
Qed.


End properties.

(** ** Witnesses *)

Definition demo_power (url : string) : outcome answer * logged net :=
  client_run (demo_client url) (CSubmitGuestPowerAction "LXC" "pve/1" 101 "stop")
    (Logged (net_at 1 [http_ok (JStr "UPID:pve:1")]) []).

Lemma demo_power_eq url :
  client_run (demo_client url) (CSubmitGuestPowerAction "LXC" "pve/1" 101 "stop")
    (Logged (net_at 1 [http_ok (JStr "UPID:pve:1")]) []) = ((demo_power url).1, (demo_power url).2).
Proof. apply surjective_pairing. Qed.

(** One request, answered by a task identifier. *)
Lemma client_answers_witness :
  (demo_power "https://pve.example.com:8006").1 = Ok (AUpid "UPID:pve:1") ∧
  length (sent (demo_power "https://pve.example.com:8006").2) = 1%nat ∧
  is_upid "UPID:pve:1" = true.
Proof.
  assert ((demo_power "https://pve.example.com:8006").1 = Ok (AUpid "UPID:pve:1")) as Hr
    by (vm_compute; reflexivity).
  pose proof (client_answers _ _ _ _ _ (demo_power_eq "https://pve.example.com:8006")) as Hok.
  simpl call_plan in Hok. rewrite Hr in Hok. destruct Hok as (_ & Hsent & Hupid).
  rewrite Hsent. split_and!; [exact Hr|reflexivity|exact Hupid].
Defined.


