(* ===== verification/Clusters.v ===== *)
(** * Clusters

    app/services/clusters.py, app/security/credentials.py and app/schemas/cluster.py:
    registering a Proxmox cluster with its encrypted API token, changing and removing
    it, testing the connection and importing the inventory.  The service talks to a
    cluster through Client.v.  AES-GCM and pydantic's parsing are parameters. *)
From S2P Require Import Prelude Models Database AuditLog Operations PveApi IpAddr Endpoints.
From S2P Require Import Client.

(** ** app/security/credentials.py *)

Record EncryptedCredential := mkEncryptedCredential {
  ec_ciphertext : string; ec_nonce : string; ec_key_version : string }.

(** [os.urandom(12)], and AES-GCM under the key that HKDF derives for cluster tokens:
    [None] stands for [InvalidTag] and [UnicodeDecodeError].  The associated data is
    the triple whose text the source formats. *)
Class CredentialSecrets (E : Type) := {
  env_nonce : E → string * E;
  token_encrypt : string → string → N * N * string → string;
  token_decrypt : string → string → N * N * string → option string }.

(** Decryption undoes encryption under the same nonce and associated data. *)
Class CredentialLaws (E : Type) `{CredentialSecrets E} : Prop :=
  token_round_trip nonce secret ad :
    token_decrypt nonce (token_encrypt nonce secret ad) ad = Some secret.

Section credentials.
Context {E : Type} `{CredentialSecrets E}.

Definition key_version : string := "v1".

Definition _associated_data (cluster_id credential_id : N) (version : string) : N * N * string :=
  (cluster_id, credential_id, version).

Definition encrypt (secret : string) (cluster_id credential_id : N) : DBM E EncryptedCredential :=
  nonce ← from_env env_nonce;
  mret (mkEncryptedCredential
    (token_encrypt nonce secret (_associated_data cluster_id credential_id key_version))
    nonce key_version).

Definition decrypt (encrypted : EncryptedCredential) (cluster_id credential_id : N) : option string :=
  token_decrypt (ec_nonce encrypted) (ec_ciphertext encrypted)
    (_associated_data cluster_id credential_id (ec_key_version encrypted)).
End credentials.

(** ** app/schemas/cluster.py *)

Record ClusterCreate := mkClusterCreate {
  ccr_name : string; ccr_api_base_url : string; ccr_token_identifier : string;
  ccr_token_secret : string; ccr_ca_bundle_pem : option string }.

Record ClusterUpdate := mkClusterUpdate {
  cup_name : option string; cup_api_base_url : option string;
  cup_token_identifier : option string; cup_token_secret : option string;
  cup_ca_bundle_pem : option string; cup_clear_ca_bundle : bool; cup_version : option Z }.

Record ClusterResponse := mkClusterResponse {
  clr_id : N; clr_name : string; clr_api_base_url : string; clr_is_active : bool;
  clr_ca_configured : bool; clr_last_connection_error_code : option string;
  clr_last_connected_at : option Z; clr_token_identifier : string;
  clr_last_used_at : option Z; clr_version : Z }.

Record ClusterRemovalBlock := mkClusterRemovalBlock { crb_code : string; crb_count : Z }.

Record ConnectionTestResponse := mkConnectionTestResponse {
  ctr_reachable : bool; ctr_tls_valid : bool; ctr_authenticated : bool; ctr_version : option string; ctr_release : option string; ctr_capabilities : list (string * bool) }.

(** The floating-point column [cpu] of the first two resources is left out. *)
Record NodeResponse := mkNodeResponse {
  nr_node : string; nr_status : option string; nr_maxcpu : option Z; nr_mem : option Z;
  nr_maxmem : option Z; nr_disk : option Z; nr_maxdisk : option Z; nr_uptime : option Z }.

(** [gr_template] is an [int] or a [bool] as an integer. *)
Record GuestResponse := mkGuestResponse {
  gr_vmid : Z; gr_node : option string; gr_type : string; gr_name : option string;
  gr_status : option string; gr_maxcpu : option Z; gr_mem : option Z; gr_maxmem : option Z;
  gr_disk : option Z; gr_maxdisk : option Z; gr_uptime : option Z; gr_template : option Z }.

Record StorageResponse := mkStorageResponse {
  sr_storage : string; sr_node : option string; sr_type : option string; sr_status : option string;
  sr_total : option Z; sr_used : option Z; sr_avail : option Z; sr_shared : option Z;
  sr_content : option string }.

(** pydantic's [model_validate], [None] for [ValidationError]. *)
Class Schemas := {
  parse_node : json_object → option NodeResponse;
  parse_guest : json_object → option GuestResponse;
  parse_storage : json_object → option StorageResponse }.

(** [data.get(key)], where absent and null are the same. *)
Definition get_field (key : string) (data : json_object) : option json :=
  match obj_get key data with Some JNull => None | o => o end.

(** [normalize_cluster_resource_capacity]. *)
Definition take_from (key alias : string) (data : json_object) : json_object :=
  match get_field key data, get_field alias data with
  | None, Some v => obj_set key v data
  | _, _ => data
  end.

Definition normalize_cluster_resource_capacity (value : json_object) : json_object :=
  let data := take_from "used" "disk" (take_from "total" "maxdisk" value) in
  match get_field "avail" data, as_int (get_field "total" data), as_int (get_field "used" data) with
  | None, Some total, Some used => obj_set "avail" (JInt (Z.max 0 (total - used))) data
  | _, _, _ => data
  end.

Example capacity_aliases :
  normalize_cluster_resource_capacity [("maxdisk", JInt 10); ("disk", JInt 4); ("total", JNull)] =
    [("maxdisk", JInt 10); ("disk", JInt 4); ("total", JInt 10); ("used", JInt 4); ("avail", JInt 6)].
Proof. reflexivity. Qed.

(** ** Errors *)

Definition CLUSTER_NOT_FOUND : exn :=
  app_error 404 "CLUSTER_NOT_FOUND" "The Proxmox cluster was not found.".
Definition CLUSTER_DISABLED : exn :=
  app_error 409 "CLUSTER_DISABLED" "The Proxmox cluster is disabled.".
Definition CLUSTER_CREDENTIAL_MISSING : exn :=
  app_error 409 "CLUSTER_CREDENTIAL_MISSING" "The Proxmox cluster has no active credential.".
Definition CREDENTIAL_DECRYPTION_FAILED : exn :=
  app_error 500 "CREDENTIAL_DECRYPTION_FAILED"
    "The stored Proxmox credential could not be decrypted.".
Definition CLUSTER_CONFLICT : exn :=
  app_error 409 "CLUSTER_CONFLICT" "A cluster with the same name or endpoint already exists.".
Definition CLUSTER_VERSION_CONFLICT : exn :=
  app_error 409 "CLUSTER_VERSION_CONFLICT" "The cluster was modified by another request.".
Definition PVE_CREDENTIAL_REENTRY_REQUIRED : exn :=
  app_error 422 "PVE_CREDENTIAL_REENTRY_REQUIRED"
    "The Proxmox token secret must be re-entered when connection details change.".
Definition invalid_item : exn :=
  app_error 502 "PVE_INVALID_RESPONSE" "The Proxmox API returned an invalid resource item.".
Definition invalid_workload_item : exn :=
  app_error 502 "PVE_INVALID_RESPONSE" "The Proxmox API returned an invalid workload item.".

Definition block_json (b : ClusterRemovalBlock) : json :=
  JObj [("code", JStr (crb_code b)); ("count", JInt (crb_count b))].

Definition CLUSTER_REMOVAL_BLOCKED (blocks : list ClusterRemovalBlock) : exn :=
  AppError 409 "CLUSTER_REMOVAL_BLOCKED" "The cluster still has dependent resources."
    [("blocks", JList (map block_json blocks))].

(** ** The service *)

(** The settings it reads. *)
Record PveSettings := mkPveSettings {
  pve_allowed_hosts : list string; pve_allowed_networks : list string }.

Record ClusterConnection := mkClusterConnection {
  cn_cluster_id : N; cn_credential_id : N; cn_api_base_url : string;
  cn_ca_bundle_pem : option string; cn_token_identifier : string; cn_token_secret : string }.

Record ClusterService := mkClusterService {
  cs_principal : Principal; cs_settings : PveSettings }.

(** Run a computation over the environment alone. *)
Definition on_env {E A} (m : M E A) : DBM E A := λ w,
  ((m (w_env w)).1, World (w_db w) (w_tx w) (w_dup w) (m (w_env w)).2).

Lemma wp_on_env {E A} (m : M E A) (Q : outcome A → world E → Prop) w :
  wp m (λ r e', Q r (World (w_db w) (w_tx w) (w_dup w) e')) (w_env w) → wp (on_env m) Q w.
Proof. done. Qed.

Definition _normalize_url (url : string) : string := str_rstrip_char SLASH url.

Definition _optional_string (value : option json) : option string :=
  match value with Some (JStr s) => Some s | _ => None end.

(** [_capabilities], [None] for its error. *)
Definition _capabilities (result : json_object) : option (list (string * bool)) :=
  match obj_get "capabilities" result with
  | Some (JObj fields) =>
    mapM (λ kv, match kv.2 with JBool b => Some (kv.1, b) | _ => None end) fields
  | _ => None
  end.

Definition _to_response (c : cluster) (credential : cluster_credential) : ClusterResponse := {|
  clr_id := cl_id c; clr_name := cl_name c; clr_api_base_url := cl_api_base_url c;
  clr_is_active := cl_is_active c;
  clr_ca_configured := bool_decide (is_Some (cl_ca_bundle_pem c));
  clr_last_connection_error_code := cl_last_connection_error_code c;
  clr_last_connected_at := cl_last_connected_at c;
  clr_token_identifier := cc_token_identifier credential;
  clr_last_used_at := cc_last_used_at credential; clr_version := cl_version c |}.

Definition active_credential_of (cluster_id : N) (c : cluster_credential) : bool :=
  bool_decide (cc_cluster_id c = cluster_id) && cc_is_active c.

Section clusters.
Context {E : Type} `{Runtime E} `{Resolver E} `{HttpTransport E} `{CredentialSecrets E}.
Context `{Schemas}.
Implicit Types (self : ClusterService) (cluster_id : N).

(** The constructor: its role check precedes every method. *)
Definition cluster_service {A} self (method : DBM E A) : DBM E A :=
  require_service_role (cs_principal self) [SUPER_ADMIN; OPERATOR];;
  method.

(** *** Helpers *)

Definition cluster_audit self (action outcome : string) cluster_id : audit_args :=
  (audit_event action outcome None)
    <| a_actor_user_id := Some (p_user_id (cs_principal self)) |>
    <| a_actor_role := Some (p_role (cs_principal self)) |>
    <| a_target_type := Some "cluster" |> <| a_target_id := Some (JUuid cluster_id) |>.

Definition _client self (connection : ClusterConnection) : M E ProxmoxClient :=
  ProxmoxClient_init (pve_allowed_hosts (cs_settings self)) (pve_allowed_networks (cs_settings self))
    (cn_api_base_url connection) (cn_token_identifier connection) (cn_token_secret connection)
    (cn_ca_bundle_pem connection).

(** [async with self._client(connection) as client: ... method()]. *)
Definition with_client {A} self (connection : ClusterConnection) (method : ProxmoxClient → M E A)
  : DBM E A :=
  on_env (client ← _client self connection; method client).

Definition _probe self (connection : ClusterConnection) : DBM E json_object :=
  with_client self connection test_connection.

Definition _get_cluster cluster_id : DBM E cluster :=
  row ← db_get cluster cluster_id;
  or_raise CLUSTER_NOT_FOUND row.

Definition _active_credential (c : cluster) : DBM E cluster_credential :=
  row ← db_scalar (active_credential_of (cl_id c));
  or_raise CLUSTER_CREDENTIAL_MISSING row.

Definition _decrypt cluster_id (credential : cluster_credential) : DBM E string :=
  or_raise CREDENTIAL_DECRYPTION_FAILED
    (decrypt (mkEncryptedCredential (cc_secret_ciphertext credential) (cc_secret_nonce credential)
                (cc_key_version credential)) cluster_id (cc_id credential)).

Definition _commit_or_conflict : DBM E () := or_conflict commit CLUSTER_CONFLICT.

Definition _record_connection_result cluster_id (error_code : option string) : DBM E () :=
  c ← _get_cluster cluster_id;
  match error_code with
  | Some code => db_save (c <| cl_last_connection_error_code := Some code |>)
  | None =>
    now ← datetime_now;
    db_save (c <| cl_last_connection_error_code := None |> <| cl_last_connected_at := Some now |>);;
    credential ← _active_credential c;
    now ← datetime_now;
    db_save (credential <| cc_last_used_at := Some now |>)
  end;;
  commit.

Definition _connection_snapshot cluster_id : DBM E ClusterConnection :=
  c ← _get_cluster cluster_id;
  raise_if (negb (cl_is_active c)) CLUSTER_DISABLED;;
  credential ← _active_credential c;
  token_secret ← _decrypt (cl_id c) credential;
  rollback;;
  mret (mkClusterConnection (cl_id c) (cc_id credential) (cl_api_base_url c) (cl_ca_bundle_pem c)
          (cc_token_identifier credential) token_secret).

Definition _call_resource self cluster_id (method : ProxmoxClient → M E (list json_object))
  : DBM E (list json_object) :=
  connection ← _connection_snapshot cluster_id;
  result ← catch_app (with_client self connection method)
    (λ error, _record_connection_result cluster_id (Some (pe_code error));; raise (exn_of error));
  _record_connection_result cluster_id None;;
  mret result.

Definition _validate_items {T} (model_validate : json_object → option T) (items : list json_object)
  : DBM E (list T) :=
  or_raise invalid_item (mapM model_validate items).

(** *** Registering a cluster *)

(** The credential of a new token; [is_active] and [last_used_at] as both callers set
    them. *)
Definition new_credential (id cluster_id : N) (token_identifier : string)
    (encrypted : EncryptedCredential) (now : Z) : cluster_credential := {|
  cc_id := id; cc_cluster_id := cluster_id; cc_token_identifier := token_identifier;
  cc_secret_ciphertext := ec_ciphertext encrypted; cc_secret_nonce := ec_nonce encrypted;
  cc_key_version := ec_key_version encrypted; cc_is_active := true;
  cc_last_used_at := Some now; cc_retired_at := None |}.

Definition create self (request : ClusterCreate) : DBM E ClusterResponse :=
  cluster_id ← uuid4;
  credential_id ← uuid4;
  let connection := mkClusterConnection cluster_id credential_id
    (_normalize_url (ccr_api_base_url request)) (ccr_ca_bundle_pem request)
    (ccr_token_identifier request) (ccr_token_secret request) in
  _probe self connection;;
  encrypted ← encrypt (cn_token_secret connection) cluster_id credential_id;
  now ← datetime_now;
  let c := Cluster cluster_id (str_strip (ccr_name request)) (cn_api_base_url connection)
    (ccr_ca_bundle_pem request) true None (Some now) None 1 in
  let credential := new_credential credential_id cluster_id (ccr_token_identifier request)
    encrypted now in
  db_add c;;
  db_add credential;;
  add_audit_event ((cluster_audit self "CLUSTER_CREATED" "SUCCEEDED" cluster_id)
    <| a_after := Some [
         ("name", JStr (cl_name c)); ("api_base_url", JStr (cl_api_base_url c));
         ("ca_configured", JBool (bool_decide (is_Some (cl_ca_bundle_pem c))));
         ("token_identifier", JStr (cc_token_identifier credential))] |>);;
  _commit_or_conflict;;
  mret (_to_response c credential).

(** *** Changing a cluster *)

(** The connection a request asks for: URL, CA bundle, token identifier. *)
Definition requested_identity (c : cluster) (credential : cluster_credential)
    (request : ClusterUpdate) : string * option string * string :=
  (match cup_api_base_url request with
   | Some url => _normalize_url url | None => cl_api_base_url c end,
   if cup_clear_ca_bundle request then None
   else match cup_ca_bundle_pem request with Some pem => Some pem | None => cl_ca_bundle_pem c end,
   str_or (cup_token_identifier request) (cc_token_identifier credential)).

Definition stored_identity (c : cluster) (credential : cluster_credential)
  : string * option string * string :=
  (cl_api_base_url c, cl_ca_bundle_pem c, cc_token_identifier credential).

(** [connection_changed]: any connection field is in the request. *)
Definition connection_changed (request : ClusterUpdate) : bool :=
  bool_decide (is_Some (cup_api_base_url request)) ||
  bool_decide (is_Some (cup_ca_bundle_pem request)) || cup_clear_ca_bundle request ||
  bool_decide (is_Some (cup_token_identifier request)) ||
  bool_decide (is_Some (cup_token_secret request)).

(** The request replaces the credential. *)
Definition token_changed (request : ClusterUpdate) : bool :=
  bool_decide (is_Some (cup_token_identifier request)) ||
  bool_decide (is_Some (cup_token_secret request)).

Definition cluster_fields (c : cluster) (credential : cluster_credential) : list (string * json) := [
  ("name", JStr (cl_name c)); ("api_base_url", JStr (cl_api_base_url c));
  ("ca_configured", JBool (bool_decide (is_Some (cl_ca_bundle_pem c))));
  ("token_identifier", JStr (cc_token_identifier credential));
  ("is_active", JBool (cl_is_active c))].

(** Retire the credential and store a new one in its place. *)
Definition replace_credential (c : cluster) (credential : cluster_credential)
    (token_identifier token_secret : string) (now : Z) : DBM E cluster_credential :=
  db_save (credential <| cc_last_used_at := Some now |> <| cc_is_active := false |>
             <| cc_retired_at := Some now |>);;
  flush;;
  replacement_id ← uuid4;
  encrypted ← encrypt token_secret (cl_id c) replacement_id;
  let replacement := new_credential replacement_id (cl_id c) token_identifier encrypted now in
  db_add replacement;;
  mret replacement.

(** [update] once the connection answered: what is stored. *)
Definition apply_update (request : ClusterUpdate) (c : cluster) (credential : cluster_credential)
    (identity : string * option string * string) (token_secret : string)
  : DBM E (cluster * cluster_credential) :=
  let '(api_base_url, ca_bundle_pem, token_identifier) := identity in
  let c := c <| cl_name := match cup_name request with
                           | Some name => str_strip name | None => cl_name c end |>
             <| cl_api_base_url := api_base_url |> <| cl_ca_bundle_pem := ca_bundle_pem |>
             <| cl_version := cl_version c + 1 |> in
  if connection_changed request then
    now ← datetime_now;
    let c := c <| cl_last_connected_at := Some now |> <| cl_last_connection_error_code := None |> in
    db_save c;;
    credential ← (if token_changed request
                  then replace_credential c credential token_identifier token_secret now
                  else let credential := credential <| cc_last_used_at := Some now |> in
                       db_save credential;; mret credential);
    mret (c, credential)
  else
    db_save c;;
    mret (c, credential).

Definition store_update self (request : ClusterUpdate) (before : list (string * json))
    (identity : string * option string * string) (token_secret : string)
    (rows : cluster * cluster_credential) : DBM E ClusterResponse :=
  rows ← apply_update request rows.1 rows.2 identity token_secret;
  add_audit_event ((cluster_audit self
      (if token_changed request then "CLUSTER_API_TOKEN_CHANGED" else "CLUSTER_UPDATED")
      "SUCCEEDED" (cl_id rows.1))
    <| a_before := Some before |> <| a_after := Some (cluster_fields rows.1 rows.2) |>);;
  _commit_or_conflict;;
  mret (_to_response rows.1 rows.2).

Definition update self cluster_id (request : ClusterUpdate) : DBM E ClusterResponse :=
  c ← _get_cluster cluster_id;
  credential ← _active_credential c;
  let before := cluster_fields c credential in
  raise_if (match cup_version request with
            | Some version => bool_decide (version ≠ cl_version c) | None => false end)
    CLUSTER_VERSION_CONFLICT;;
  let identity := requested_identity c credential request in
  raise_if (bool_decide (identity ≠ stored_identity c credential) &&
            bool_decide (cup_token_secret request = None))
    PVE_CREDENTIAL_REENTRY_REQUIRED;;
  token_secret ← match cup_token_secret request with
                 | Some secret => mret secret | None => _decrypt (cl_id c) credential end;
  rows ← (if connection_changed request then
            rollback;;
            _probe self (mkClusterConnection (cl_id c) (cc_id credential) identity.1.1 identity.1.2
                           identity.2 token_secret);;
            c ← _get_cluster cluster_id;
            credential ← _active_credential c;
            mret (c, credential)
          else mret (c, credential));
  store_update self request before identity token_secret rows.

(** *** Removing a cluster *)

(** The six counts of [_removal_blocks], in the order of its dict. *)
Definition removal_counts cluster_id (d : db) : list ClusterRemovalBlock := [
  mkClusterRemovalBlock "ASSIGNED_WORKLOADS" (count_rows (λ wl,
    bool_decide (wl_cluster_id wl = cluster_id) && bool_decide (is_Some (wl_organization_id wl))) d);
  mkClusterRemovalBlock "ACTIVE_OPERATIONS" (count_rows (λ o,
    bool_decide (op_cluster_id o = cluster_id) && bool_decide (op_status o ∈ [OS_QUEUED; OS_RUNNING])) d);
  mkClusterRemovalBlock "ACTIVE_PROVISIONING_REQUESTS" (count_rows (λ q,
    bool_decide (prq_target_cluster_id q = cluster_id) &&
    bool_decide (prq_status q ∈ [PS_QUEUED; PS_RUNNING; PS_MANUAL_REVIEW])) d);
  mkClusterRemovalBlock "PROVISIONING_NODES" (count_rows (λ n,
    bool_decide (pn_cluster_id n = cluster_id)) d);
  mkClusterRemovalBlock "TEMPLATES" (count_rows (λ t,
    match db_workloads d !! tpl_source_workload_id t with
    | Some wl => bool_decide (wl_cluster_id wl = cluster_id) | None => false end) d);
  mkClusterRemovalBlock "CLUSTER_IP_POOLS" (count_rows (λ p,
    bool_decide (pool_cluster_id p = Some cluster_id)) d) ].

Definition blocks_of cluster_id (d : db) : list ClusterRemovalBlock :=
  filter (λ b, 0 < crb_count b) (removal_counts cluster_id d).

Definition _removal_blocks cluster_id : DBM E (list ClusterRemovalBlock) :=
  gets (λ w, blocks_of cluster_id (w_tx w)).

Definition removal_check cluster_id : DBM E (bool * list ClusterRemovalBlock) :=
  _get_cluster cluster_id;;
  blocks ← _removal_blocks cluster_id;
  mret (bool_decide (blocks = []), blocks).

(** A present workload of the cluster, and its row when the cluster goes. *)
Definition present_in cluster_id (wl : workload) : bool :=
  bool_decide (wl_cluster_id wl = cluster_id) && wl_is_present wl.
Definition mark_absent (now : Z) (wl : workload) : workload :=
  wl <| wl_is_present := false |> <| wl_observed_at := now |> <| wl_version := wl_version wl + 1 |>.

Definition delete self cluster_id : DBM E () :=
  c ← _get_cluster cluster_id;
  if negb (cl_is_active c) then mret tt else
  blocks ← _removal_blocks cluster_id;
  raise_if (bool_decide (blocks ≠ [])) (CLUSTER_REMOVAL_BLOCKED blocks);;
  now ← datetime_now;
  db_save (c <| cl_is_active := false |> <| cl_disabled_at := Some now |>
             <| cl_version := cl_version c + 1 |>);;
  credential ← _active_credential c;
  db_save (credential <| cc_is_active := false |> <| cc_retired_at := Some now |>);;
  db_update_where (present_in cluster_id) (mark_absent now);;
  add_audit_event ((cluster_audit self "CLUSTER_DISABLED" "SUCCEEDED" (cl_id c))
    <| a_before := Some [("is_active", JBool true)] |>
    <| a_after := Some [("is_active", JBool false)] |>);;
  commit.

(** *** Testing the connection, reading the resources *)

Definition test_connection self cluster_id : DBM E ConnectionTestResponse :=
  connection ← _connection_snapshot cluster_id;
  result ← catch_app (_probe self connection) (λ error,
    _record_connection_result cluster_id (Some (pe_code error));;
    add_audit_event ((cluster_audit self "CLUSTER_CONNECTION_TEST" "FAILED" cluster_id)
      <| a_error_code := Some (pe_code error) |>);;
    commit;;
    raise (exn_of error));
  _record_connection_result cluster_id None;;
  add_audit_event (cluster_audit self "CLUSTER_CONNECTION_TEST" "SUCCEEDED" cluster_id);;
  commit;;
  capabilities ← or_raise
    (app_error 502 "PVE_INVALID_RESPONSE"
       "The Proxmox API returned invalid capability information.")
    (_capabilities result);
  mret (mkConnectionTestResponse true true true (_optional_string (obj_get "version" result))
          (_optional_string (obj_get "release" result)) capabilities).

Definition nodes self cluster_id : DBM E (list NodeResponse) :=
  raw ← _call_resource self cluster_id get_nodes;
  _validate_items parse_node raw.

Definition guests self cluster_id : DBM E (list GuestResponse) :=
  raw ← _call_resource self cluster_id get_guests;
  _validate_items parse_guest raw.

Definition storages self cluster_id : DBM E (list StorageResponse) :=
  raw ← _call_resource self cluster_id get_storages;
  _validate_items (parse_storage ∘ normalize_cluster_resource_capacity) raw.

(** *** Importing the inventory *)

(** The condition on a reported guest, given those before it. *)
Definition invalid_guest (seen_vmids : list Z) (guest : GuestResponse) : bool :=
  (gr_vmid guest <=? 0) || bool_decide (gr_vmid guest ∈ seen_vmids) ||
  bool_decide (str_upper (gr_type guest) ∉ ["QEMU"; "LXC"]) ||
  match gr_node guest with
  | None => true
  | Some node => negb (str_nonempty (str_strip node)) || (255 <? str_len node)
  end ||
  match gr_name guest with Some name => 255 <? str_len name | None => false end.

Definition power_state_of (guest : GuestResponse) : string :=
  let power_state := match gr_status guest with
                     | Some status => if str_nonempty status then str_upper status else "UNKNOWN"
                     | None => "UNKNOWN" end in
  if 20 <? str_len power_state then "UNKNOWN" else power_state.

Definition is_template (guest : GuestResponse) : bool :=
  match gr_template guest with Some t => negb (t =? 0) | None => false end.

Definition imported_workload (id cluster_id : N) (now : Z) (node : string) (guest : GuestResponse)
  : workload := {|
  wl_id := id; wl_cluster_id := cluster_id; wl_vmid := gr_vmid guest; wl_node := node;
  wl_kind := str_upper (gr_type guest); wl_name := gr_name guest;
  wl_power_state := power_state_of guest; wl_cpu_cores := gr_maxcpu guest;
  wl_memory_bytes := gr_maxmem guest; wl_disk_bytes := gr_maxdisk guest;
  wl_is_template := is_template guest; wl_is_present := true; wl_organization_id := None;
  wl_observed_at := now; wl_version := 1 |}.

Definition refreshed_workload (now : Z) (node : string) (guest : GuestResponse) (wl : workload)
  : workload :=
  wl <| wl_node := node |> <| wl_kind := str_upper (gr_type guest) |>
     <| wl_name := gr_name guest |> <| wl_power_state := power_state_of guest |>
     <| wl_cpu_cores := gr_maxcpu guest |> <| wl_memory_bytes := gr_maxmem guest |>
     <| wl_disk_bytes := gr_maxdisk guest |> <| wl_is_template := is_template guest |>
     <| wl_is_present := true |> <| wl_observed_at := now |> <| wl_version := wl_version wl + 1 |>.

(** What the loop carries. *)
Record import_state := mkImportState {
  im_existing : gmap Z workload; im_seen_vmids : list Z; im_created : Z; im_updated : Z }.

(** The body of the loop. *)
Definition import_guest cluster_id (now : Z) (st : import_state) (guest : GuestResponse)
  : DBM E import_state :=
  raise_if (invalid_guest (im_seen_vmids st) guest) invalid_workload_item;;
  node ← assert_some (gr_node guest);
  let seen_vmids := gr_vmid guest :: im_seen_vmids st in
  match im_existing st !! gr_vmid guest with
  | None =>
    id ← uuid4;
    let wl := imported_workload id cluster_id now node guest in
    db_add wl;;
    mret (mkImportState (<[gr_vmid guest := wl]> (im_existing st)) seen_vmids
            (im_created st + 1) (im_updated st))
  | Some wl =>
    db_save (refreshed_workload now node guest wl);;
    mret (mkImportState (im_existing st) seen_vmids (im_created st) (im_updated st + 1))
  end.

Fixpoint import_loop cluster_id (now : Z) (st : import_state) (guests : list GuestResponse)
  : DBM E import_state :=
  match guests with
  | [] => mret st
  | guest :: guests =>
    st ← import_guest cluster_id now st guest;
    import_loop cluster_id now st guests
  end.

Record WorkloadImportResponse := mkWorkloadImportResponse {
  wir_cluster_id : N; wir_discovered : Z; wir_created : Z; wir_updated : Z }.

(** [{item.vmid: item for item in rows}]. *)
Definition by_vmid (rows : list workload) : gmap Z workload :=
  fold_left (λ m wl, <[wl_vmid wl := wl]> m) rows ∅.

Definition import_workloads self cluster_id : DBM E WorkloadImportResponse :=
  raw ← _call_resource self cluster_id get_guests;
  guests ← _validate_items parse_guest raw;
  _get_cluster cluster_id;;
  existing_rows ← db_select (λ wl, bool_decide (wl_cluster_id wl = cluster_id));
  now ← datetime_now;
  st ← import_loop cluster_id now (mkImportState (by_vmid existing_rows) [] 0 0) guests;
  let discovered := Z.of_nat (length guests) in
  add_audit_event ((cluster_audit self "PVE_WORKLOADS_IMPORTED" "SUCCEEDED" cluster_id)
    <| a_after := Some [("discovered", JInt discovered); ("created", JInt (im_created st));
                        ("updated", JInt (im_updated st))] |>);;
  or_conflict commit (app_error 409 "WORKLOAD_IMPORT_CONFLICT"
    "The workload inventory changed during import; retry the request.");;
  mret (mkWorkloadImportResponse cluster_id discovered (im_created st) (im_updated st)).

(** *** The calls of the service *)

Inductive cluster_call :=
| CallCreate (request : ClusterCreate)
| CallUpdate (cluster_id : N) (request : ClusterUpdate)
| CallDelete (cluster_id : N)
| CallTest (cluster_id : N)
| CallNodes (cluster_id : N)
| CallGuests (cluster_id : N)
| CallStorages (cluster_id : N)
| CallImport (cluster_id : N).

Definition cluster_run self (c : cluster_call) : DBM E () :=
  cluster_service self
    match c with
    | CallCreate request => create self request;; mret tt
    | CallUpdate cluster_id request => update self cluster_id request;; mret tt
    | CallDelete cluster_id => delete self cluster_id
    | CallTest cluster_id => test_connection self cluster_id;; mret tt
    | CallNodes cluster_id => nodes self cluster_id;; mret tt
    | CallGuests cluster_id => guests self cluster_id;; mret tt
    | CallStorages cluster_id => storages self cluster_id;; mret tt
    | CallImport cluster_id => import_workloads self cluster_id;; mret tt
    end.
End clusters.
