(* ===== verification/ClusterInv.v ===== *)
(** * The invariant of clusters and credentials

    Which clusters can be reached: an active cluster has exactly one active
    credential, which decrypts; a disabled one has none.  Each way the service
    changes the two tables keeps it. *)
From Stdlib Require Import Lia.
From S2P Require Import Prelude Models Database AuditLog Operations PveApi IpAddr Endpoints.
From S2P Require Import Client Clusters.

Section good.
Context {E : Type} `{CredentialSecrets E}.
Implicit Types (C : gmap N cluster) (K : gmap N cluster_credential).

(** What [_decrypt] finds in a credential of the cluster. *)
Definition secret_of (cluster_id : N) (k : cluster_credential) : option string :=
  decrypt (mkEncryptedCredential (cc_secret_ciphertext k) (cc_secret_nonce k) (cc_key_version k))
    cluster_id (cc_id k).

Definition is_active_row K (i : N) (j : N) (k : cluster_credential) : Prop :=
  K !! j = Some k ∧ active_credential_of i k = true.

(** Active clusters and active credentials name each other, and the latter can be
    read. *)
Record good C K : Prop := {
  gd_cluster i c : C !! i = Some c → cl_is_active c = true → ∃ j k, is_active_row K i j k;
  gd_credential i j k : is_active_row K i j k →
    (∃ c, C !! i = Some c ∧ cl_is_active c = true) ∧ is_Some (secret_of i k) }.

(** At most one active credential for each cluster. *)
Definition single K : Prop := ∀ i j j' k k', is_active_row K i j k → is_active_row K i j' k' → j = j'.

(** A credential that was at most used. *)
Definition same_credential (k k' : cluster_credential) : Prop :=
  k' <| cc_last_used_at := cc_last_used_at k |> = k.

Lemma active_row_cluster i j k K : is_active_row K i j k → cc_cluster_id k = i ∧ cc_is_active k = true.
Proof. intros [_ [?%bool_decide_eq_true ?]%andb_true_iff]. done. Qed.

Lemma active_insert_ne K i j j' k k' :
  j ≠ j' → is_active_row (<[j := k]> K) i j' k' ↔ is_active_row K i j' k'.
Proof. intros Hne. unfold is_active_row. by rewrite lookup_insert_ne. Qed.

Lemma active_insert_eq K i j k k' :
  is_active_row (<[j := k]> K) i j k' ↔ k' = k ∧ active_credential_of i k = true.
Proof.
  unfold is_active_row. rewrite lookup_insert_eq. split; [intros [[= ->] ?]|intros [-> ?]]; done.
Qed.

Lemma same_credential_active i k k' :
  same_credential k k' → active_credential_of i k' = active_credential_of i k ∧
    secret_of i k' = secret_of i k.
Proof. unfold same_credential. intros Hk. rewrite <-Hk. done. Qed.

(** The cluster's row changes, not whether it is active. *)
Lemma good_save_cluster C K i c c' :
  good C K → C !! i = Some c → cl_is_active c' = cl_is_active c → good (<[i := c']> C) K.
Proof.
  intros [Hc Hk] Hi Ha. split.
  - intros i' c'' [[<- <-]|[_ Hi']]%lookup_insert_Some Hact; [|by eapply Hc].
    eapply Hc; [done|]. by rewrite <-Ha.
  - intros i' j k Hjk. destruct (Hk _ _ _ Hjk) as [(c0 & Hc0 & Hact) ?]. split; [|done].
    destruct (decide (i = i')) as [<-|Hne].
    + exists c'. rewrite lookup_insert_eq. split; [done|]. congruence.
    + exists c0. by rewrite lookup_insert_ne.
Qed.

(** The credential is only marked as used. *)
Lemma good_save_credential C K j k k' :
  good C K → K !! j = Some k → same_credential k k' → good C (<[j := k']> K).
Proof.
  intros [Hc Hk] Hj Hs. split.
  - intros i c Hi Hact. destruct (Hc _ _ Hi Hact) as (j0 & k0 & Hjk).
    destruct (decide (j = j0)) as [<-|Hne].
    + exists j, k'. apply active_insert_eq. split; [done|].
      rewrite (proj1 (same_credential_active i k k' Hs)). destruct Hjk as [Hj' ?]. congruence.
    + exists j0, k0. by apply active_insert_ne.
  - intros i j0 k0 Hjk. destruct (decide (j = j0)) as [<-|Hne].
    + apply active_insert_eq in Hjk as [-> Hact].
      destruct (same_credential_active i k k' Hs) as [Ha ->]. rewrite Ha in Hact. by eapply Hk.
    + apply active_insert_ne in Hjk; [|done]. by eapply Hk.
Qed.

(** A new cluster with its credential. *)
Lemma good_create C K i c j k :
  good C K → C !! i = None → K !! j = None → cl_is_active c = true →
  active_credential_of i k = true → is_Some (secret_of i k) → good (<[i := c]> C) (<[j := k]> K).
Proof.
  intros [Hc Hk] Hi Hj Hact Hak Hsec. split.
  - intros i' c' [[<- <-]|[Hne Hi']]%lookup_insert_Some Ha'.
    + exists j, k. by apply active_insert_eq.
    + destruct (Hc _ _ Hi' Ha') as (j' & k' & Hjk). exists j', k'. apply active_insert_ne; [|done].
      intros ->. destruct Hjk. congruence.
  - intros i' j' k' Hjk. destruct (decide (j = j')) as [<-|Hne].
    + apply active_insert_eq in Hjk as [-> Ha'].
      apply andb_true_iff in Hak as [Hak%bool_decide_eq_true _].
      apply andb_true_iff in Ha' as [Ha'%bool_decide_eq_true _].
      rewrite <-Ha', Hak. split; [|done]. exists c. by rewrite lookup_insert_eq.
    + apply active_insert_ne in Hjk; [|done]. destruct (Hk _ _ _ Hjk) as [(c' & Hc' & ?) ?].
      split; [|done]. exists c'. rewrite lookup_insert_ne; [done|]. intros ->. congruence.
Qed.

(** The credential [j] is retired and the active [j2] takes its place. *)
Lemma good_replace C K i j k k1 j2 k2 :
  good C K → single K → is_active_row K i j k → cc_is_active k1 = false →
  active_credential_of i k2 = true → is_Some (secret_of i k2) → <[j := k1]> K !! j2 = None →
  good C (<[j2 := k2]> (<[j := k1]> K)).
Proof.
  intros [Hc Hk] Hone Hjk Hret Hak Hsec Hfresh.
  apply lookup_insert_None in Hfresh as [Hfresh Hne2]. split.
  - intros i' c' Hi' Ha'. destruct (decide (i = i')) as [<-|Hne].
    + exists j2, k2. by apply active_insert_eq.
    + destruct (Hc _ _ Hi' Ha') as (j' & k' & Hjk'). exists j', k'.
      assert (j' ≠ j) as Hj'.
      { intros ->. destruct (active_row_cluster _ _ _ _ Hjk), (active_row_cluster _ _ _ _ Hjk').
        destruct Hjk as [Hj ?], Hjk' as [Hj' ?]. congruence. }
      rewrite !active_insert_ne; [done|done|]. intros ->. destruct Hjk'. congruence.
  - intros i' j' k' Hjk'. destruct (decide (j2 = j')) as [<-|Hne].
    + apply active_insert_eq in Hjk' as [-> Ha'].
      apply andb_true_iff in Hak as [Hak%bool_decide_eq_true _].
      apply andb_true_iff in Ha' as [Ha'%bool_decide_eq_true _].
      assert (i' = i) as -> by congruence. split; [|done]. by eapply Hk.
    + apply active_insert_ne in Hjk'; [|done]. destruct (decide (j = j')) as [<-|Hnej].
      * apply active_insert_eq in Hjk' as [-> Ha'].
        apply andb_true_iff in Ha' as [_ Ha']. congruence.
      * apply active_insert_ne in Hjk'; [|done]. by eapply Hk.
Qed.

(** The cluster is disabled and its credential retired. *)
Lemma good_disable C K i c' j k k1 :
  good C K → single K → is_active_row K i j k → cc_is_active k1 = false →
  cl_is_active c' = false → good (<[i := c']> C) (<[j := k1]> K).
Proof.
  intros [Hc Hk] Hone Hjk Hret Hdis. split.
  - intros i' c0 [[<- <-]|[Hne Hi']]%lookup_insert_Some Ha'; [congruence|].
    destruct (Hc _ _ Hi' Ha') as (j' & k' & Hjk'). exists j', k'. apply active_insert_ne; [|done].
    intros <-. destruct (active_row_cluster _ _ _ _ Hjk), (active_row_cluster _ _ _ _ Hjk').
    destruct Hjk as [Hj ?], Hjk' as [Hj' ?]. congruence.
  - intros i' j' k' Hjk'. destruct (decide (j = j')) as [<-|Hnej].
    { apply active_insert_eq in Hjk' as [-> Ha'].
      apply andb_true_iff in Ha' as [_ Ha']. congruence. }
    apply active_insert_ne in Hjk'; [|done]. destruct (Hk _ _ _ Hjk') as [(c0 & Hc0 & ?) ?].
    split; [|done]. exists c0. rewrite lookup_insert_ne; [done|]. intros ->.
    apply Hnej. by eapply Hone.
Qed.

(** ** On databases *)

Record clusters_ok (d : db) : Prop := {
  co_integrity : integrity d = true;
  co_clusters : keyed cluster d;
  co_credentials : keyed cluster_credential d;
  co_good : good (db_clusters d) (db_credentials d) }.

Lemma integrity_single d : integrity d = true → single (db_credentials d).
Proof.
  intros Hi i j j' k k' Hjk Hjk'.
  pose proof (integrity_unique uq_cluster_credentials_active_cluster d
    ltac:(simpl; tauto) Hi) as Hu.
  destruct (active_row_cluster _ _ _ _ Hjk), (active_row_cluster _ _ _ _ Hjk').
  destruct Hjk as [Hj _], Hjk' as [Hj' _].
  eapply (Hu j j' k k' i); try done; unfold uq_cluster_credentials_active_cluster, only;
    repeat match goal with Hx : cc_is_active _ = true |- _ => rewrite Hx; clear Hx end; congruence.
Qed.

(** The row that [_active_credential] finds. *)
Lemma first_active d i k :
  keyed cluster_credential d →
  first_row (active_credential_of i) d = Some k → is_active_row (db_credentials d) i (cc_id k) k.
Proof.
  intros Hk Hf. apply first_row_Some in Hf as [Ha [j Hj]]. pose proof (Hk _ _ Hj) as Hid.
  simpl in *. by subst j.
Qed.
End good.

(** ** The steps of the service *)

Section steps.
Context {E : Type} `{Runtime E} `{Resolver E} `{HttpTransport E} `{CredentialSecrets E}.
Context `{Schemas}.
Implicit Types (self : ClusterService) (d : db) (e : E).

(** The connection of an active cluster, as the database holds it. *)
Definition holds_connection d (connection : ClusterConnection) : Prop :=
  ∃ c k secret,
    db_clusters d !! cn_cluster_id connection = Some c ∧ cl_is_active c = true ∧
    is_active_row (db_credentials d) (cn_cluster_id connection) (cc_id k) k ∧
    secret_of (cn_cluster_id connection) k = Some secret ∧
    connection = mkClusterConnection (cl_id c) (cc_id k) (cl_api_base_url c) (cl_ca_bundle_pem c)
                   (cc_token_identifier k) secret.

(** The client of the connection ran [method] and got [v]. *)
Definition answered {A} self connection (method : ProxmoxClient → M E A) (v : A) : Prop :=
  ∃ e e', (client ← _client self connection; method client) e = (Ok v, e').

Lemma wp_get_cluster cluster_id (Q : outcome cluster → world E → Prop) w :
  (db_clusters (w_tx w) !! cluster_id = None → Q (Raise CLUSTER_NOT_FOUND) w) →
  (∀ c, db_clusters (w_tx w) !! cluster_id = Some c → Q (Ok c) w) →
  wp (_get_cluster cluster_id) Q w.
Proof.
  intros Hn Hs. apply wp_bind, wp_db_get. intros o Ho. apply wp_or_raise.
  - intros ->. by apply Hn.
  - intros c ->. by apply Hs.
Qed.

Lemma wp_active_credential c (Q : outcome cluster_credential → world E → Prop) w :
  keyed cluster_credential (w_tx w) →
  (first_row (active_credential_of (cl_id c)) (w_tx w) = None → Q (Raise CLUSTER_CREDENTIAL_MISSING) w) →
  (∀ k, is_active_row (db_credentials (w_tx w)) (cl_id c) (cc_id k) k → Q (Ok k) w) →
  wp (_active_credential c) Q w.
Proof.
  intros Hk Hn Hs. apply wp_bind, wp_db_scalar. intros o Ho. apply wp_or_raise.
  - intros ->. by apply Hn.
  - intros k ->. by apply Hs, first_active.
Qed.

Lemma wp_with_client {A} self connection (method : ProxmoxClient → M E A) Q d e :
  (∀ r e', match r with Ok v => answered self connection method v | Raise _ => True end →
     Q r (World d d false e')) →
  wp (with_client self connection method) Q (World d d false e).
Proof.
  intros HQ. apply wp_on_env, wp_intro. intros r e' Hr. apply HQ. destruct r; [|done].
  by exists e, e'.
Qed.

Lemma wp_connection_snapshot cluster_id Q d e :
  clusters_ok d →
  (∀ x, Q (Raise x) (World d d false e)) →
  (∀ connection, cn_cluster_id connection = cluster_id → holds_connection d connection →
     Q (Ok connection) (World d d false e)) →
  wp (_connection_snapshot cluster_id) Q (World d d false e).
Proof.
  intros [_ Kc Kk _] Hbad Hok. apply wp_bind, wp_get_cluster; [by intros; apply Hbad|]. simpl.
  intros c Hc. pose proof (Kc _ _ Hc) as Hid. simpl in Hid. subst cluster_id.
  apply wp_bind, wp_raise_if; [by intros; apply Hbad|]. intros Hact%negb_false_iff.
  apply wp_bind, wp_active_credential; [done|by intros; apply Hbad|]. simpl. intros k Hk.
  apply wp_bind, wp_or_raise; [by intros; apply Hbad|]. intros secret Hs.
  apply wp_bind, wp_rollback, wp_ret. simpl. apply Hok; [done|].
  by exists c, k, secret.
Qed.

(** What bookkeeping leaves of the other tables. *)
Definition observed d d' : Prop := db_workloads d' = db_workloads d.

#[local] Hint Extern 0 (observed _ _) => unfold observed; reflexivity : core.

Lemma wp_record_connection_result cluster_id code Q d e :
  clusters_ok d →
  (∀ x w, w_db w = d → Q (Raise x) w) →
  (∀ d' e', clusters_ok d' → observed d d' → Q (Ok tt) (World d' d' false e')) →
  wp (_record_connection_result cluster_id code) Q (World d d false e).
Proof.
  intros [Hi Kc Kk Hg] Hbad Hok. apply wp_bind, wp_get_cluster; [by intros; apply Hbad|]. simpl.
  intros c Hc. pose proof (Kc _ _ Hc) as Hid. simpl in Hid. subst cluster_id.
  destruct code as [code|].
  - apply wp_bind, wp_db_save, wp_commit; [by intros; apply Hbad|]. intros _ Hint. apply Hok; [|done].
    split; [exact Hint|exact (lookup_insert_key cl_id _ _ Kc)|exact Kk|]. by eapply good_save_cluster.
  - apply wp_bind, wp_bind, wp_from_env. intros now e1 _. apply wp_bind, wp_db_save, wp_bind.
    apply wp_active_credential; [exact Kk|by intros; apply Hbad|]. simpl. intros k Hk.
    apply wp_bind, wp_from_env. intros now' e2 _. apply wp_db_save, wp_commit; [by intros; apply Hbad|].
    intros _ Hint. apply Hok; [|done]. split; [exact Hint|exact (lookup_insert_key cl_id _ _ Kc)| |].
    + exact (lookup_insert_key cc_id _ _ Kk).
    + simpl. eapply good_save_credential; [by eapply good_save_cluster|apply Hk|by destruct k].
Qed.

(** [_call_resource]: the rows of the inventory stay, and the answer is the client's. *)
Lemma wp_call_resource self cluster_id method Q d e :
  clusters_ok d →
  (∀ x w, clusters_ok (w_db w) → observed d (w_db w) → Q (Raise x) w) →
  (∀ raw connection d' e', clusters_ok d' → observed d d' → cn_cluster_id connection = cluster_id →
     holds_connection d connection → answered self connection method raw →
     Q (Ok raw) (World d' d' false e')) →
  wp (_call_resource self cluster_id method) Q (World d d false e).
Proof.
  intros Hd Hbad Hok. apply wp_bind, wp_connection_snapshot; [done|intros; by apply Hbad|].
  intros connection Hid Hconn. apply wp_bind, wp_catch_app, wp_with_client.
  intros r e1 Hr. destruct r as [raw|x].
  - apply wp_bind, wp_record_connection_result; [done|intros ? ? <-; by apply Hbad|].
    intros d' e' Hd' Hobs. apply wp_ret. by eapply Hok.
  - destruct x; try (by apply Hbad).
    apply wp_bind, wp_record_connection_result; [done|intros ? ? <-; by apply Hbad|].
    intros d' e' Hd' Hobs. by apply wp_raise, Hbad.
Qed.
End steps.

(** ** Registering and changing a cluster *)

Section changes.
Context {E : Type} `{Runtime E} `{Resolver E} `{HttpTransport E} `{CredentialSecrets E}.
Context `{Schemas} `{!CredentialLaws E}.
Implicit Types (self : ClusterService) (d : db) (e : E).

(** The same endpoint, CA bundle and token. *)
Definition same_endpoint (a b : ClusterConnection) : Prop :=
  cn_api_base_url a = cn_api_base_url b ∧ cn_ca_bundle_pem a = cn_ca_bundle_pem b ∧
  cn_token_identifier a = cn_token_identifier b ∧ cn_token_secret a = cn_token_secret b.

(** The database holds a connection of the cluster to this endpoint. *)
Definition connected_as d cluster_id (connection : ClusterConnection) : Prop :=
  ∃ stored, cn_cluster_id stored = cluster_id ∧ holds_connection d stored ∧
            same_endpoint stored connection.

(** What the working copy must be for a commit to keep the invariant. *)
Record tables_ok (d : db) : Prop := {
  to_clusters : keyed cluster d;
  to_credentials : keyed cluster_credential d;
  to_good : good (db_clusters d) (db_credentials d) }.

Lemma clusters_ok_commit d : tables_ok d → integrity d = true → clusters_ok d.
Proof. by intros []. Qed.

(** Encryption, and what it makes of the secret. *)
Lemma wp_encrypt secret cluster_id credential_id Q (w : world E) :
  (∀ encrypted e', decrypt encrypted cluster_id credential_id = Some secret →
     Q (Ok encrypted) (World (w_db w) (w_tx w) (w_dup w) e')) →
  wp (encrypt secret cluster_id credential_id) Q w.
Proof.
  intros HQ. apply wp_bind, wp_from_env. intros nonce e' _. apply wp_ret. apply HQ.
  apply token_round_trip.
Qed.

Lemma new_credential_row id cluster_id token_identifier encrypted now secret :
  decrypt encrypted cluster_id id = Some secret →
  active_credential_of cluster_id (new_credential id cluster_id token_identifier encrypted now) = true ∧
  secret_of cluster_id (new_credential id cluster_id token_identifier encrypted now) = Some secret.
Proof.
  intros Hs. split; [|by destruct encrypted].
  unfold active_credential_of. simpl. by rewrite bool_decide_true.
Qed.

Lemma wp_create self request d e :
  clusters_ok d →
  wp (create self request)
    (λ r w, match r with
            | Raise _ => w_db w = d
            | Ok _ => ∃ connection v,
                clusters_ok (w_db w) ∧ observed d (w_db w) ∧
                db_clusters d !! cn_cluster_id connection = None ∧
                holds_connection (w_db w) connection ∧ answered self connection Client.test_connection v ∧
                connection = mkClusterConnection (cn_cluster_id connection) (cn_credential_id connection)
                  (_normalize_url (ccr_api_base_url request)) (ccr_ca_bundle_pem request)
                  (ccr_token_identifier request) (ccr_token_secret request)
            end) (World d d false e).
Proof.
  intros [Hi Kc Kk Hg]. apply wp_bind, wp_from_env. intros cid e1 _.
  apply wp_bind, wp_from_env. intros kid e2 _. apply wp_bind, wp_with_client.
  intros [v|x] e3 Hv; [|done]. apply wp_bind, wp_encrypt. simpl. intros encrypted e4 Hs.
  apply wp_bind, wp_from_env. intros now e5 _. apply wp_bind, wp_db_add. simpl. intros b1 Hb1.
  apply wp_bind, wp_db_add. simpl. intros b2 Hb2. apply wp_bind, wp_add_audit_event. simpl. intros log.
  apply wp_bind, wp_or_conflict, wp_commit; [done|]. simpl. intros -> Hint.
  symmetry in Hb2. apply orb_false_iff in Hb2 as [-> Hb2]. symmetry in Hb1.
  apply bool_decide_eq_false in Hb1, Hb2.
  apply eq_None_not_Some in Hb1, Hb2. simpl in Hb1, Hb2. apply wp_ret. simpl.
  eexists _, v. split_and!; [| | | |exact Hv|reflexivity]; simpl; try done.
  - destruct (new_credential_row kid cid (ccr_token_identifier request) encrypted now _ Hs) as [Ha Hsec].
    split; [exact Hint|exact (lookup_insert_key cl_id _ _ Kc)|exact (lookup_insert_key cc_id _ _ Kk)|].
    by apply good_create.
  - destruct (new_credential_row kid cid (ccr_token_identifier request) encrypted now _ Hs) as [Ha Hsec].
    eexists _, (new_credential kid cid (ccr_token_identifier request) encrypted now), _. simpl.
    rewrite lookup_insert_eq.
    split_and!; [done|done|apply active_insert_eq; by split|exact Hsec|done].
Qed.

(** The new row of an updated cluster. *)
Lemma wp_replace_credential (c : cluster) (k : cluster_credential) tokid secret now
    (Q : outcome cluster_credential → world E → Prop) w :
  keyed cluster_credential (w_tx w) → db_credentials (w_tx w) !! cc_id k = Some k →
  (∀ x w', w_db w' = w_db w → Q (Raise x) w') →
  (∀ k1 k2 b e', cc_id k1 = cc_id k → cc_is_active k1 = false →
     active_credential_of (cl_id c) k2 = true → secret_of (cl_id c) k2 = Some secret →
     cc_token_identifier k2 = tokid →
     (b = false → <[cc_id k := k1]> (db_credentials (w_tx w)) !! cc_id k2 = None) →
     Q (Ok k2) (World (w_db w) ((w_tx w) <| db_credentials ::=
        λ K, <[cc_id k2 := k2]> (<[cc_id k := k1]> K) |>) b e')) →
  wp (replace_credential c k tokid secret now) Q w.
Proof.
  intros Kk Hk Hbad Hok. apply wp_bind, wp_db_save. simpl. apply wp_bind, wp_flush; [by intros; apply Hbad|].
  intros Hdup Hint. apply wp_bind, wp_from_env. intros kid e1 _. apply wp_bind, wp_encrypt.
  simpl. intros encrypted e2 Hs. apply wp_bind, wp_db_add. simpl. intros b Hb. apply wp_ret.
  destruct (new_credential_row kid (cl_id c) tokid encrypted now _ Hs) as [Ha Hsec].
  eapply Hok; [| | exact Ha|exact Hsec|done|]; try done.
  intros ->. symmetry in Hb. apply orb_false_iff in Hb as [_ Hb].
  by apply bool_decide_eq_false, eq_None_not_Some in Hb.
Qed.

(** [apply_update] from the rows of a clean session. *)
Lemma wp_apply_update request c k identity secret d e :
  clusters_ok d → db_clusters d !! cl_id c = Some c → is_active_row (db_credentials d) (cl_id c) (cc_id k) k →
  (token_changed request = false → identity.2 = cc_token_identifier k ∧ secret_of (cl_id c) k = Some secret) →
  wp (apply_update request c k identity secret)
    (λ r w, w_db w = d ∧
       match r with
       | Raise _ => True
       | Ok rows => cl_id rows.1 = cl_id c ∧ (w_dup w = false →
           tables_ok (w_tx w) ∧ observed d (w_tx w) ∧
           connected_as (w_tx w) (cl_id c)
             (mkClusterConnection (cl_id c) 0 identity.1.1 identity.1.2 identity.2 secret))
       end) (World d d false e).
Proof.
  intros [Hint Kc Kk Hg] Hc Hk Htok. destruct identity as [[url ca] tokid]. simpl in Htok.
  destruct (gd_credential _ _ Hg _ _ _ Hk) as [(c0 & Hc0 & Hact) [secret0 Hs0]].
  assert (c0 = c) as -> by congruence.
  set (c1 := c <| cl_name := match cup_name request with
                             | Some name => str_strip name | None => cl_name c end |>
               <| cl_api_base_url := url |> <| cl_ca_bundle_pem := ca |>
               <| cl_version := cl_version c + 1 |>).
  assert (∀ (c' : cluster) k' (d1 : db), cl_id c' = cl_id c → cl_is_active c' = true →
    cl_api_base_url c' = url → cl_ca_bundle_pem c' = ca →
    db_clusters d1 = <[cl_id c := c']> (db_clusters d) → keyed cluster_credential d1 →
    good (db_clusters d1) (db_credentials d1) → db_workloads d1 = db_workloads d →
    is_active_row (db_credentials d1) (cl_id c) (cc_id k') k' →
    secret_of (cl_id c) k' = Some secret → cc_token_identifier k' = tokid →
    tables_ok d1 ∧ observed d d1 ∧
    connected_as d1 (cl_id c) (mkClusterConnection (cl_id c) 0 url ca tokid secret)) as Hdone.
  { intros c' k' d1 Hid Ha' Hurl Hca HC HK HG HW Hk' Hsec Htid. split_and!; [split; [|done|done]|done|].
    - intros i r Hr. simpl in Hr. rewrite HC in Hr.
      apply lookup_insert_Some in Hr as [[<- <-]|[_ Hr]]; [done|by apply Kc].
    - exists (mkClusterConnection (cl_id c) (cc_id k') url ca tokid secret).
      split_and!; [done| |by split_and!].
      exists c', k', secret. simpl. rewrite HC, lookup_insert_eq. subst url ca tokid. rewrite Hid. by split_and!. }
  unfold apply_update. destruct (connection_changed request) eqn:Hch.
  - apply wp_bind, wp_from_env. intros now e1 _. fold c1.
    set (c2 := c1 <| cl_last_connected_at := Some now |> <| cl_last_connection_error_code := None |>).
    apply wp_bind, wp_db_save. destruct (token_changed request).
    + apply wp_bind, wp_replace_credential; simpl; [exact Kk|apply Hk|done|].
      intros k1 k2 b e2 Hid1 Hret Ha2 Hs2 Ht2 Hfresh. apply wp_ret. simpl. split; [done|]. split; [done|].
      intros ->. specialize (Hfresh eq_refl).
      apply (Hdone c2 k2); try done.
      * intros i r Hr. simpl in Hr. apply lookup_insert_Some in Hr as [[<- <-]|[_ Hr]]; [done|].
        apply lookup_insert_Some in Hr as [[<- <-]|[_ Hr]]; [done|by apply Kk].
      * eapply (good_replace _ (db_credentials d)); [by eapply good_save_cluster|by apply integrity_single|exact Hk|done..| |exact Hfresh].
        by exists secret.
      * by apply active_insert_eq.
    + destruct (Htok eq_refl) as [Ht Hs]. apply wp_bind, wp_bind, wp_db_save. simpl. apply wp_ret, wp_ret.
      simpl. split; [done|]. split; [done|]. intros _.
      apply (Hdone c2 (k <| cc_last_used_at := Some now |>)); try done.
      * exact (lookup_insert_key cc_id _ _ Kk).
      * eapply good_save_credential; [by eapply good_save_cluster|apply Hk|by destruct k].
      * apply active_insert_eq. split; [done|]. by destruct Hk.
  - apply wp_bind, wp_db_save. simpl. apply wp_ret. simpl. split; [done|]. split; [done|]. intros _.
    assert (token_changed request = false) as Hnt.
    { unfold connection_changed in Hch. unfold token_changed.
      repeat match goal with Hx : _ || _ = false |- _ => apply orb_false_iff in Hx as [? ?] end.
      by apply orb_false_iff. }
    destruct (Htok Hnt) as [Ht Hs]. apply (Hdone c1 k); try done.
    by eapply good_save_cluster.
Qed.

(** An update: what it stored, what it probed. *)
Definition updated self d cluster_id request d' : Prop :=
  ∃ connection, connected_as d' cluster_id connection ∧
    (cup_token_secret request = Some (cn_token_secret connection) ∨
     connected_as d cluster_id connection) ∧
    if connection_changed request
    then ∃ probed v, same_endpoint probed connection ∧ answered self probed Client.test_connection v
    else connected_as d cluster_id connection.

Lemma requested_unchanged c k request :
  connection_changed request = false → requested_identity c k request = stored_identity c k.
Proof.
  unfold connection_changed, requested_identity. intros Hch.
  repeat match goal with Hx : _ || _ = false |- _ => apply orb_false_iff in Hx as [? ?] end.
  repeat match goal with Hx : bool_decide (is_Some ?o) = false |- _ =>
    apply bool_decide_eq_false, eq_None_not_Some in Hx end.
  repeat match goal with Hx : _ = _ |- _ => rewrite Hx; clear Hx end. done.
Qed.

Lemma requested_without_secret c k request secret :
  bool_decide (requested_identity c k request ≠ stored_identity c k) &&
    bool_decide (cup_token_secret request = None) = false →
  match cup_token_secret request with
  | Some s => secret = s
  | None => secret_of (cl_id c) k = Some secret
  end →
  cup_token_secret request = Some secret ∨
  requested_identity c k request = stored_identity c k ∧ secret_of (cl_id c) k = Some secret.
Proof.
  intros Hre Hs. destruct (cup_token_secret request) as [s|]; [left; congruence|right].
  split; [|done]. apply andb_false_iff in Hre as [Hre|Hre]; apply bool_decide_eq_false in Hre; [|done].
  by apply dec_stable.
Qed.

(** The secret the request names, or the stored one. *)
Lemma wp_request_secret (c : cluster) (k : cluster_credential) request Q (w : world E) :
  (∀ x, Q (Raise x) w) →
  (∀ secret, match cup_token_secret request with
             | Some s => secret = s | None => secret_of (cl_id c) k = Some secret end →
     Q (Ok secret) w) →
  wp (match cup_token_secret request with
      | Some secret => mret secret | None => _decrypt (cl_id c) k end) Q w.
Proof.
  intros Hbad Hok. destruct (cup_token_secret request); [by apply wp_ret, Hok|].
  apply wp_or_raise; [intros _; apply Hbad|intros secret; apply Hok].
Qed.

Lemma wp_update self cluster_id request d e :
  clusters_ok d →
  wp (update self cluster_id request)
    (λ r w, match r with
            | Raise _ => w_db w = d
            | Ok _ => clusters_ok (w_db w) ∧ observed d (w_db w) ∧ updated self d cluster_id request (w_db w)
            end) (World d d false e).
Proof.
  intros Hd. pose proof Hd as [Hint Kc Kk Hg]. apply wp_bind, wp_get_cluster; [done|]. simpl. intros c Hc.
  pose proof (Kc _ _ Hc) as Hid. simpl in Hid. subst cluster_id.
  apply wp_bind, wp_active_credential; [done|done|]. simpl. intros k Hk.
  apply wp_bind, wp_raise_if; [done|intros _]. apply wp_bind, wp_raise_if; [done|]. intros Hre.
  apply wp_bind, wp_request_secret; [done|]. intros secret Hsec.
  pose proof (requested_without_secret c k request secret Hre Hsec) as Hwho.
  set (identity := requested_identity c k request) in *.
  destruct (gd_credential _ _ Hg _ _ _ Hk) as [(c0 & Hc0 & Hact) _].
  assert (c0 = c) as -> by congruence. clear Hc0.
  set (connection := mkClusterConnection (cl_id c) 0 identity.1.1 identity.1.2 identity.2 secret).
  assert (identity = stored_identity c k → secret_of (cl_id c) k = Some secret →
          connected_as d (cl_id c) connection) as Hstored.
  { intros Hidn Hs. exists (mkClusterConnection (cl_id c) (cc_id k) (cl_api_base_url c)
      (cl_ca_bundle_pem c) (cc_token_identifier k) secret). split_and!; [done| |].
    - exists c, k, secret. by split_and!.
    - unfold connection. rewrite Hidn. by split_and!. }
  apply wp_bind.
  assert (∀ e1, wp (store_update self request (cluster_fields c k) identity secret (c, k))
    (λ r w, match r with
            | Raise _ => w_db w = d
            | Ok _ => clusters_ok (w_db w) ∧ observed d (w_db w) ∧
                connected_as (w_db w) (cl_id c) connection
            end) (World d d false e1)) as Hrest.
  { intros e1. apply wp_bind. eapply wp_mono; [apply wp_apply_update; try done|].
    - intros Hnt. unfold token_changed in Hnt. apply orb_false_iff in Hnt as [Hn1 Hn2].
      apply bool_decide_eq_false, eq_None_not_Some in Hn1, Hn2.
      destruct Hwho as [Hw|[Hidn Hs]]; [congruence|]. by rewrite Hidn.
    - intros [rows|x] w [Hdb Hrows]; [|done]. destruct Hrows as [_ Hrows].
      apply wp_bind, wp_add_audit_event. intros log. apply wp_bind, wp_or_conflict, wp_commit; [done|].
      simpl. intros Hdup Hint'. apply wp_ret. destruct (Hrows Hdup) as (Htab & Hobs & Hconn).
      split_and!; [|done|done]. apply clusters_ok_commit; [by destruct Htab; split|done]. }
  destruct (connection_changed request) eqn:Hch.
  - apply wp_bind, wp_rollback. simpl. apply wp_bind, wp_with_client. intros [v|x] e1 Hv; [|done].
    apply wp_bind, wp_get_cluster; [done|]. simpl. intros c1 Hc1. assert (c1 = c) as -> by congruence.
    apply wp_bind, wp_active_credential; [done|done|]. simpl. intros k1 Hk1.
    assert (k1 = k) as ->.
    { pose proof (integrity_single d Hint _ _ _ _ _ Hk Hk1) as Hj.
      destruct Hk as [Hk _], Hk1 as [Hk1 _]. congruence. }
    apply wp_ret. eapply wp_mono; [apply (Hrest e1)|].
    intros [resp|x] w; [|done]. intros (? & ? & ?). split_and!; [done|done|].
    exists connection. rewrite Hch. split_and!; [done| |].
    + destruct Hwho as [Hw|[Hidn Hs]]; [by left|right; by apply Hstored].
    + eexists _, v. split; [|exact Hv]. by split_and!.
  - assert (connected_as d (cl_id c) connection) as Hsame.
    { pose proof (requested_unchanged c k request Hch) as Hidn. apply Hstored; [done|].
      destruct Hwho as [Hw|[_ Hs]]; [|done]. unfold connection_changed in Hch. rewrite Hw in Hch.
      by rewrite orb_true_r in Hch. }
    apply wp_ret. eapply wp_mono; [apply (Hrest e)|].
    intros [resp|x] w; [|done]. intros (? & ? & ?). split_and!; [done|done|].
    exists connection. rewrite Hch. split_and!; [done|by right|done].
Qed.
End changes.
