(* ===== verification/ClusterProps.v ===== *)
(** * What the cluster service guarantees

    The invariant over every call, the connection that is stored, where a stored
    secret is sent, when a cluster may go, and what an import does to the
    inventory. *)
From Stdlib Require Import Lia.
From S2P Require Import Prelude Models Database AuditLog Operations PveApi IpAddr Endpoints.
From S2P Require Import Client Clusters ClusterInv.

Section props.
Context {E : Type} `{Runtime E} `{Resolver E} `{HttpTransport E} `{CredentialSecrets E}.
Context `{Schemas} `{!CredentialLaws E}.
Implicit Types (self : ClusterService) (d : db) (e : E).

#[local] Hint Extern 0 (observed _ _) => unfold observed; reflexivity : core.

(** ** Removing *)

(** The rows of a removed cluster, and all others as they were. *)
Definition removed cluster_id d d' : Prop :=
  ∃ now c k,
    db_clusters d !! cluster_id = Some c ∧ cl_is_active c = true ∧
    is_active_row (db_credentials d) cluster_id (cc_id k) k ∧
    db_clusters d' = <[cluster_id := c <| cl_is_active := false |> <| cl_disabled_at := Some now |>
                                       <| cl_version := cl_version c + 1 |>]> (db_clusters d) ∧
    db_credentials d' = <[cc_id k := k <| cc_is_active := false |> <| cc_retired_at := Some now |>]>
                          (db_credentials d) ∧
    db_workloads d' = (λ wl, if present_in cluster_id wl then mark_absent now wl else wl)
                        <$> db_workloads d.

Lemma integrity_save_cluster d i c c' :
  db_clusters d !! i = Some c → cl_name c' = cl_name c → cl_api_base_url c' = cl_api_base_url c →
  integrity d = true → integrity (d <| db_clusters ::= <[i := c']> |>) = true.
Proof.
  intros Hc Hn Hu. integrity_rest.
  - eapply (unique_onb_save uq_clusters_name d _ i c c'); try done.
    unfold uq_clusters_name. by rewrite Hn.
  - eapply (unique_onb_save uq_clusters_url d _ i c c'); try done.
    unfold uq_clusters_url. by rewrite Hu.
Qed.

Lemma integrity_retire_credential d j k k' :
  db_credentials d !! j = Some k → cc_is_active k' = false →
  integrity d = true → integrity (d <| db_credentials ::= <[j := k']> |>) = true.
Proof.
  intros Hk Ha. integrity_rest.
  eapply (unique_onb_save uq_cluster_credentials_active_cluster d _ j k k'); try done.
  unfold uq_cluster_credentials_active_cluster, only. by rewrite Ha.
Qed.

Lemma integrity_map_workloads d (g : workload → workload) :
  (∀ wl, uq_workloads_vmid (g wl) = uq_workloads_vmid wl) →
  (∀ wl, ck_workloads_kind (g wl) = ck_workloads_kind wl) →
  integrity d = true → integrity (d <| db_workloads ::= fmap g |>) = true.
Proof.
  intros Hu Hk. integrity_rest.
  - by eapply (unique_onb_fmap uq_workloads_vmid g d).
  - by eapply (check_onb_fmap ck_workloads_kind g d).
Qed.

Lemma wp_delete self cluster_id d e :
  clusters_ok d →
  wp (delete self cluster_id)
    (λ r w, match r with
            | Raise x => w_db w = d ∧
                (x = CLUSTER_REMOVAL_BLOCKED (blocks_of cluster_id d) ∧ blocks_of cluster_id d ≠ [] ∨
                 x = CLUSTER_NOT_FOUND ∧ db_clusters d !! cluster_id = None)
            | Ok _ =>
                (w_db w = d ∧ ∃ c, db_clusters d !! cluster_id = Some c ∧ cl_is_active c = false) ∨
                blocks_of cluster_id d = [] ∧ clusters_ok (w_db w) ∧ removed cluster_id d (w_db w)
            end) (World d d false e).
Proof.
  intros Hd. pose proof Hd as [Hint Kc Kk Hg].
  apply wp_bind, wp_get_cluster; [by intros; split; [|right]|]. simpl. intros c Hc.
  pose proof (Kc _ _ Hc) as Hid. simpl in Hid. subst cluster_id.
  destruct (cl_is_active c) eqn:Hact; simpl; [|apply wp_ret; left; eauto].
  apply wp_bind, wp_gets, wp_bind, wp_raise_if; simpl.
  { intros Hb%bool_decide_eq_true. split; [done|by left]. }
  intros Hb%bool_decide_eq_false%dec_stable. apply wp_bind, wp_from_env. intros now e1 _.
  apply wp_bind, wp_db_save, wp_bind, wp_active_credential; simpl; [exact Kk| |].
  { intros Hnone. destruct (gd_cluster _ _ Hg _ _ Hc Hact) as (j & k & [Hj Hk]).
    pose proof (first_row_None (active_credential_of (cl_id c)) _ Hnone j k Hj). congruence. }
  intros k Hk. apply wp_bind, wp_db_save, wp_bind, wp_modify, wp_bind, wp_add_audit_event.
  simpl. intros log. apply wp_commit; [|simpl; intros _ Hint'].
  { intros Hbad%negb_true_iff. exfalso. apply not_true_iff_false in Hbad. apply Hbad.
    cbn [w_tx]. rewrite integrity_log.
    apply integrity_map_workloads; [intros wl; by destruct (present_in (cl_id c) wl)..|].
    eapply integrity_retire_credential; [apply Hk|reflexivity|].
    by eapply integrity_save_cluster. }
  right. split; [done|]. split.
  - split; [exact Hint'|exact (lookup_insert_key cl_id _ _ Kc)|exact (lookup_insert_key cc_id _ _ Kk)|].
    simpl. eapply (good_disable _ _ (cl_id c)); [exact Hg|by apply (integrity_single d)|exact Hk|done..].
  - exists now, c, k. by split_and!.
Qed.

(** ** Testing and reading *)

Lemma wp_test_connection self cluster_id d e :
  clusters_ok d →
  wp (test_connection self cluster_id) (λ _ w, clusters_ok (w_db w) ∧ observed d (w_db w))
    (World d d false e).
Proof.
  intros Hd. apply wp_bind, wp_connection_snapshot; [done|done|].
  intros connection _ _. apply wp_bind, wp_catch_app, wp_with_client. intros r e1 _.
  assert (∀ d1 log, clusters_ok d1 → integrity (d1 <| db_audit_logs := log |>) = true →
            clusters_ok (d1 <| db_audit_logs := log |>)) as Hlog.
  { intros d1 log [? ? ? ?] Hint. by split. }
  destruct r as [result|x].
  - apply wp_bind, wp_record_connection_result; [done|by intros x w ->|]. intros d1 e2 Hd1 Hobs.
    apply wp_bind, wp_add_audit_event. simpl. intros log. apply wp_bind, wp_commit; [done|].
    simpl. intros _ Hint. apply wp_bind, wp_or_raise; intros; [|apply wp_ret];
      (split; [by apply Hlog|exact Hobs]).
  - destruct x; try done. apply wp_bind, wp_record_connection_result; [done|by intros x w ->|].
    intros d1 e2 Hd1 Hobs. apply wp_bind, wp_add_audit_event. simpl. intros log.
    apply wp_bind, wp_commit; [done|]. simpl. intros _ Hint. apply wp_raise.
    split; [by apply Hlog|exact Hobs].
Qed.

Lemma wp_read_items {T} self cluster_id method (parse : json_object → option T) d e :
  clusters_ok d →
  wp (raw ← _call_resource self cluster_id method; _validate_items parse raw)
    (λ _ w, clusters_ok (w_db w) ∧ observed d (w_db w)) (World d d false e).
Proof.
  intros Hd. apply wp_bind, wp_call_resource; [done|done|].
  intros raw connection d' e' Hd' Hobs _ _ _. by apply wp_or_raise.
Qed.

(** ** Importing *)

Implicit Types (W : gmap N workload) (guests : list GuestResponse).

(** The import, one guest after another, on the rows. *)
Inductive imported (cluster_id : N) (now : Z)
  : gmap N workload → list GuestResponse → gmap N workload → Prop :=
| imported_nil W : imported cluster_id now W [] W
| imported_new W guest guests W' i node :
    W !! i = None →
    (∀ j wl, W !! j = Some wl → wl_cluster_id wl = cluster_id → wl_vmid wl ≠ gr_vmid guest) →
    gr_node guest = Some node →
    imported cluster_id now (<[i := imported_workload i cluster_id now node guest]> W) guests W' →
    imported cluster_id now W (guest :: guests) W'
| imported_known W guest guests W' i wl node :
    W !! i = Some wl → wl_cluster_id wl = cluster_id → wl_vmid wl = gr_vmid guest →
    gr_node guest = Some node →
    imported cluster_id now (<[i := refreshed_workload now node guest wl]> W) guests W' →
    imported cluster_id now W (guest :: guests) W'.

(** The dictionary of the loop, off the numbers it has seen, is the table. *)
Definition indexes (cluster_id : N) W (st : import_state) : Prop :=
  ∀ v, v ∉ im_seen_vmids st →
    match im_existing st !! v with
    | Some wl => W !! wl_id wl = Some wl ∧ wl_cluster_id wl = cluster_id ∧ wl_vmid wl = v
    | None => ∀ j wl, W !! j = Some wl → wl_cluster_id wl = cluster_id → wl_vmid wl ≠ v
    end.

(** Reported numbers: all different, and new to the loop. *)
Definition fresh_vmids (seen : list Z) guests : Prop :=
  NoDup (map gr_vmid guests) ∧ ∀ g, g ∈ guests → gr_vmid g ∉ seen ∧ invalid_guest [] g = false.

Lemma valid_guest seen guest :
  invalid_guest seen guest = false → gr_vmid guest ∉ seen ∧ invalid_guest [] guest = false.
Proof.
  unfold invalid_guest. rewrite !orb_false_iff.
  intros [[[[Hv Hs%bool_decide_eq_false] Hk] Hn] Hname]. rewrite Hv, Hk, Hn, Hname. done.
Qed.

Lemma fresh_cons seen guest guests :
  gr_vmid guest ∉ seen → invalid_guest [] guest = false →
  fresh_vmids (gr_vmid guest :: seen) guests → fresh_vmids seen (guest :: guests).
Proof.
  intros Hs Hv [Hnd Hall]. split.
  - simpl. apply NoDup_cons. split; [|done]. intros (g & Hg & Hin)%list_elem_of_fmap.
    destruct (Hall g Hin) as [Hne _]. rewrite Hg in Hne. set_solver.
  - intros g [->|Hin]%elem_of_cons; [done|]. destruct (Hall g Hin). split; [set_solver|done].
Qed.

Lemma wp_import_loop cluster_id now guests st (w : world E) :
  (w_dup w = false → indexes cluster_id (db_workloads (w_tx w)) st) →
  wp (import_loop cluster_id now st guests)
    (λ r w', w_db w' = w_db w ∧ db_clusters (w_tx w') = db_clusters (w_tx w) ∧
       db_credentials (w_tx w') = db_credentials (w_tx w) ∧
       match r with
       | Ok st' =>
         im_created st' + im_updated st' =
           im_created st + im_updated st + Z.of_nat (length guests) ∧
         (w_dup w' = false → w_dup w = false ∧ fresh_vmids (im_seen_vmids st) guests ∧
            imported cluster_id now (db_workloads (w_tx w)) guests (db_workloads (w_tx w')))
       | Raise _ => True
       end) w.
Proof.
  revert st w. induction guests as [|guest guests IH]; intros st w Hix; simpl.
  { apply wp_ret. split_and!; try done; [lia|]. intros Hd. split_and!; [done| |constructor].
    split; [constructor|]. by intros g ?%not_elem_of_nil. }
  apply wp_bind, wp_bind, wp_raise_if; [by repeat split|]. intros [Hs Hv]%valid_guest.
  apply wp_bind, wp_assert_some; [by repeat split|]. intros node Hnode.
  destruct (im_existing st !! gr_vmid guest) as [wl|] eqn:Hm.
  - apply wp_bind, wp_db_save, wp_ret. cbv beta iota. eapply wp_mono; [apply IH|].
    + intros Hd v Hv'. specialize (Hix Hd). pose proof (Hix _ Hs) as Hg. rewrite Hm in Hg.
      destruct Hg as (Hwl & Hc & Hvm). simpl in *. apply not_elem_of_cons in Hv' as [Hne Hv'].
      specialize (Hix v Hv'). destruct (im_existing st !! v) as [wl'|].
      * destruct Hix as (Hwl' & ? & ?). split_and!; [|done|done].
        rewrite lookup_insert_ne; [done|]. intros Heq. rewrite <-Heq in Hwl'. congruence.
      * intros j r Hj. apply lookup_insert_Some in Hj as [[_ <-]|[_ Hj]]; [simpl; congruence|by apply (Hix j)].
    + intros r w' (Hdb & Hcl & Hcr & Hr). split_and!; try done. destruct r as [st'|]; [|done].
      destruct Hr as [Hn Hr]. simpl in Hn. split; [simpl; lia|]. intros Hd.
      destruct (Hr Hd) as (Hd0 & ? & Himp). pose proof (Hix Hd0 _ Hs) as Hg. rewrite Hm in Hg.
      destruct Hg as (Hwl & Hc & Hvm). split_and!; [done|by apply fresh_cons|].
      by eapply imported_known.
  - apply wp_bind, wp_from_env. intros id e1 _. apply wp_bind, wp_db_add. intros b Hb. simpl in Hb.
    assert (b = false → w_dup w = false ∧ db_workloads (w_tx w) !! id = None) as Hfresh.
    { intros ->. symmetry in Hb. apply orb_false_iff in Hb as [? Hb].
      by apply bool_decide_eq_false, eq_None_not_Some in Hb. }
    apply wp_ret. cbv beta iota. eapply wp_mono; [apply IH|].
    + intros Hd v Hv'. destruct (Hfresh Hd) as [Hd0 Hid]. specialize (Hix Hd0).
      simpl in *. apply not_elem_of_cons in Hv' as [Hne Hv']. rewrite lookup_insert_ne by congruence.
      specialize (Hix v Hv'). destruct (im_existing st !! v) as [wl'|].
      * destruct Hix as (Hwl' & ? & ?). split_and!; [|done|done].
        rewrite lookup_insert_ne; [done|]. intros ->. congruence.
      * intros j r Hj. apply lookup_insert_Some in Hj as [[_ <-]|[_ Hj]]; [simpl; congruence|by apply (Hix j)].
    + intros r w' (Hdb & Hcl & Hcr & Hr). split_and!; try done. destruct r as [st'|]; [|done].
      destruct Hr as [Hn Hr]. simpl in Hn. split; [simpl; lia|]. intros Hd.
      destruct (Hr Hd) as (Hb0 & ? & Himp). destruct (Hfresh Hb0) as [Hd0 Hid].
      pose proof (Hix Hd0 _ Hs) as Hg. rewrite Hm in Hg.
      split_and!; [done|by apply fresh_cons|]. by eapply imported_new.
Qed.

(** [by_vmid] of the cluster's rows. *)
Lemma by_vmid_lookup (rows : list workload) v wl :
  by_vmid rows !! v = Some wl → wl ∈ rows ∧ wl_vmid wl = v.
Proof.
  unfold by_vmid. assert (∀ m : gmap Z workload, fold_left (λ m wl, <[wl_vmid wl := wl]> m) rows m !! v = Some wl →
    m !! v = Some wl ∨ wl ∈ rows ∧ wl_vmid wl = v) as Hf.
  { induction rows as [|r rows IH]; intros m Hm; simpl in *; [by left|].
    destruct (IH _ Hm) as [[[<- <-]|[_ Hm']]%lookup_insert_Some|[? ?]]; [right|by left|right];
      split; try done; [apply list_elem_of_here|by apply list_elem_of_further]. }
  intros [Hm|?]%Hf; [by rewrite lookup_empty in Hm|done].
Qed.

Lemma by_vmid_None (rows : list workload) v wl : by_vmid rows !! v = None → wl ∈ rows → wl_vmid wl ≠ v.
Proof.
  unfold by_vmid. assert (∀ m : gmap Z workload, fold_left (λ m wl, <[wl_vmid wl := wl]> m) rows m !! v = None →
    m !! v = None ∧ ∀ wl, wl ∈ rows → wl_vmid wl ≠ v) as Hf.
  { induction rows as [|r rows IH]; intros m Hm; simpl in *.
    - split; [done|]. by intros ? ?%not_elem_of_nil.
    - destruct (IH _ Hm) as [Hm' Hall]. apply lookup_insert_None in Hm' as [Hm' Hne].
      split; [done|]. by intros ? [->|?]%elem_of_cons; [|apply Hall]. }
  intros [_ Hall]%Hf. apply Hall.
Qed.

Lemma indexes_start cluster_id d :
  keyed workload d →
  indexes cluster_id (db_workloads d)
    (mkImportState (by_vmid (select_rows (λ wl, bool_decide (wl_cluster_id wl = cluster_id)) d)) [] 0 0).
Proof.
  intros Kw v _. simpl. destruct (by_vmid _ !! v) as [wl|] eqn:Hv.
  - apply by_vmid_lookup in Hv as [[Hc%bool_decide_eq_true [i Hi]]%elem_of_select Hvm].
    pose proof (Kw _ _ Hi) as Hk. simpl in *. by subst i.
  - intros j wl Hj Hc. eapply by_vmid_None; [exact Hv|]. apply elem_of_select.
    split; [by apply bool_decide_eq_true|by exists j].
Qed.

(** What an import read and what it made of it. *)
Definition import_done self cluster_id d (response : WorkloadImportResponse) d' : Prop :=
  ∃ connection raw guests now,
    cn_cluster_id connection = cluster_id ∧ holds_connection d connection ∧
    answered self connection get_guests raw ∧ mapM parse_guest raw = Some guests ∧
    fresh_vmids [] guests ∧ imported cluster_id now (db_workloads d) guests (db_workloads d') ∧
    wir_discovered response = Z.of_nat (length guests) ∧
    wir_created response + wir_updated response = wir_discovered response.

Lemma wp_import_workloads self cluster_id d e :
  clusters_ok d → keyed workload d →
  wp (import_workloads self cluster_id)
    (λ r w, clusters_ok (w_db w) ∧
       match r with
       | Raise _ => observed d (w_db w)
       | Ok response => import_done self cluster_id d response (w_db w)
       end) (World d d false e).
Proof.
  intros Hd Kw. apply wp_bind, wp_call_resource; [done|done|].
  intros raw connection d1 e1 Hd1 Hobs Hid Hconn Hans.
  apply wp_bind, wp_or_raise; [done|]. intros guests Hg.
  apply wp_bind, wp_get_cluster; [done|]. intros c Hc. apply wp_bind, wp_db_select.
  apply wp_bind, wp_from_env. intros now e2 _. apply wp_bind.
  assert (keyed workload d1) as Kw1 by (intros i r Hr; simpl in Hr; rewrite Hobs in Hr; by apply Kw).
  eapply wp_mono; [apply wp_import_loop; intros _; by apply indexes_start|].
  intros r w (Hdb & Hcl & Hcr & Hr). simpl in Hdb. destruct r as [st|x]; [|by rewrite Hdb].
  destruct Hr as [Hn Hr]. simpl in Hn. apply wp_bind, wp_add_audit_event. intros log.
  apply wp_bind, wp_or_conflict, wp_commit; simpl; [by rewrite Hdb; split|]. intros Hdup Hint.
  apply wp_ret. simpl. destruct (Hr Hdup) as (_ & Hfresh & Himp). simpl in *. split.
  - destruct Hd1 as [_ Kc Kk Hgd]. split; simpl.
    + exact Hint.
    + intros i r Hi. simpl in Hi. rewrite Hcl in Hi. by apply Kc.
    + intros i r Hi. simpl in Hi. rewrite Hcr in Hi. by apply Kk.
    + by rewrite Hcl, Hcr.
  - rewrite Hobs in Himp. exists connection, raw, guests, now. split_and!; try done.
Qed.

(** ** All calls *)

Definition cluster_done self (call : cluster_call) d d' : Prop :=
  match call with
  | CallCreate request => ∃ connection v,
      db_clusters d !! cn_cluster_id connection = None ∧ holds_connection d' connection ∧
      answered self connection Client.test_connection v ∧
      connection = mkClusterConnection (cn_cluster_id connection) (cn_credential_id connection)
        (_normalize_url (ccr_api_base_url request)) (ccr_ca_bundle_pem request)
        (ccr_token_identifier request) (ccr_token_secret request)
  | CallUpdate cluster_id request => updated self d cluster_id request d'
  | CallDelete cluster_id =>
      d' = d ∧ (∃ c, db_clusters d !! cluster_id = Some c ∧ cl_is_active c = false) ∨
      blocks_of cluster_id d = [] ∧ removed cluster_id d d'
  | CallImport cluster_id => ∃ response, import_done self cluster_id d response d'
  | _ => True
  end.

Lemma wp_cluster_run self call d e :
  clusters_ok d → keyed workload d →
  wp (cluster_run self call)
    (λ r w, clusters_ok (w_db w) ∧
       (r = Ok tt → cluster_done self call d (w_db w)) ∧
       match r, call with
       | Ok _, (CallImport _ | CallDelete _) => True
       | _, _ => observed d (w_db w)
       end)
    (World d d false e).
Proof.
  intros Hd Kw. unfold cluster_run, cluster_service.
  apply wp_bind, wp_raise_if; [intros _; by destruct call|intros _].
  destruct call as [request|id request|id|id|id|id|id|id]; [apply wp_bind|apply wp_bind|idtac|apply wp_bind..].
  - eapply wp_mono; [by apply wp_create|]. intros [resp|x] w.
    + intros (connection & v & ? & ? & ? & ? & ? & ?). apply wp_ret. split_and!; [done| |done].
      intros _. by exists connection, v.
    + intros Hw. rewrite Hw. by split_and!.
  - eapply wp_mono; [by apply wp_update|]. intros [resp|x] w.
    + intros (? & ? & ?). by apply wp_ret.
    + intros Hw. rewrite Hw. by split_and!.
  - eapply wp_mono; [by apply wp_delete|]. intros [[]|x] w.
    + intros [[Hw Hc]|(Hb & Hok & Hrem)].
      * rewrite Hw. split_and!; [done| |done]. intros _. by left.
      * split_and!; [done| |done]. intros _. by right.
    + intros [Hw _]. rewrite Hw. by split_and!.
  - eapply wp_mono; [by apply wp_test_connection|]. intros [resp|x] w [? ?]; by try apply wp_ret.
  - eapply wp_mono; [by apply wp_read_items|]. intros [resp|x] w [? ?]; by try apply wp_ret.
  - eapply wp_mono; [by apply wp_read_items|]. intros [resp|x] w [? ?]; by try apply wp_ret.
  - eapply wp_mono; [by apply wp_read_items|]. intros [resp|x] w [? ?]; by try apply wp_ret.
  - eapply wp_mono; [by apply wp_import_workloads|]. intros [resp|x] w [? ?].
    + apply wp_ret. split_and!; [done| |done]. intros _. by exists resp.
    + by split_and!.
Qed.

(** ** An import as a whole *)

(** What an import makes of each row: the known machines are refreshed, the others
    stay, the new ones get a row, and nothing else appears. *)
Record reconciled (cluster_id : N) (now : Z) W guests W' : Prop := {
  rc_known i wl guest node :
    W !! i = Some wl → wl_cluster_id wl = cluster_id → guest ∈ guests →
    gr_vmid guest = wl_vmid wl → gr_node guest = Some node →
    W' !! i = Some (refreshed_workload now node guest wl);
  rc_other i wl :
    W !! i = Some wl → (wl_cluster_id wl = cluster_id → wl_vmid wl ∉ map gr_vmid guests) →
    W' !! i = Some wl;
  rc_new guest :
    guest ∈ guests →
    (∀ j wl, W !! j = Some wl → wl_cluster_id wl = cluster_id → wl_vmid wl ≠ gr_vmid guest) →
    ∃ i node, W !! i = None ∧ gr_node guest = Some node ∧
      W' !! i = Some (imported_workload i cluster_id now node guest);
  rc_only i wl' :
    W' !! i = Some wl' → W !! i = None →
    ∃ guest node, guest ∈ guests ∧ gr_node guest = Some node ∧
      wl' = imported_workload i cluster_id now node guest }.

Definition unique_vmids (cluster_id : N) W : Prop :=
  ∀ i j r s, W !! i = Some r → W !! j = Some s → wl_cluster_id r = cluster_id →
    wl_cluster_id s = cluster_id → wl_vmid r = wl_vmid s → i = j.

Lemma unique_vmids_insert cluster_id W i wl :
  unique_vmids cluster_id W → wl_cluster_id wl = cluster_id →
  (∀ j s, W !! j = Some s → wl_cluster_id s = cluster_id → wl_vmid s = wl_vmid wl → j = i) →
  unique_vmids cluster_id (<[i := wl]> W).
Proof.
  intros Hu Hc Hv j k r s Hj Hk Hr Hs Heq.
  apply lookup_insert_Some in Hj as [[<- <-]|[Hnj Hj]], Hk as [[<- <-]|[Hnk Hk]];
    [done| | |by eapply Hu].
  - symmetry. by eapply Hv.
  - by eapply Hv.
Qed.

(** The head of the list is a known machine. *)
Lemma reconciled_known cluster_id now W guest guests W' i wl node :
  unique_vmids cluster_id W → NoDup (map gr_vmid (guest :: guests)) →
  W !! i = Some wl → wl_cluster_id wl = cluster_id → wl_vmid wl = gr_vmid guest →
  gr_node guest = Some node →
  reconciled cluster_id now (<[i := refreshed_workload now node guest wl]> W) guests W' →
  reconciled cluster_id now W (guest :: guests) W'.
Proof.
  intros Hu [Hni Hnd]%NoDup_cons Hi Hc Hv Hn [Hk Ho Hnew Honly]. split.
  - intros j s g nd Hj Hcs [->|Hin]%elem_of_cons Hvs Hnd'.
    + assert (j = i) as -> by (eapply Hu; try done; congruence).
      assert (s = wl) as -> by congruence. assert (nd = node) as -> by congruence.
      apply Ho; [by rewrite lookup_insert_eq|]. intros _. simpl. by rewrite Hv.
    + eapply Hk; try done. rewrite lookup_insert_ne; [done|]. intros ->.
      apply Hni, list_elem_of_fmap. exists g. split; [congruence|done].
  - intros j s Hj Hs. assert (i ≠ j) as Hne.
    { intros ->. assert (s = wl) as -> by congruence. apply (Hs Hc), list_elem_of_fmap. exists guest.
      split; [done|apply list_elem_of_here]. }
    apply Ho; [by rewrite lookup_insert_ne|]. intros Hcs Hin. apply (Hs Hcs). simpl. set_solver.
  - intros g [->|Hin]%elem_of_cons Hnone; [by destruct (Hnone _ _ Hi Hc)|].
    destruct (Hnew g Hin) as (j & nd & Hj & Hnd' & Hw).
    { intros j s [[<- <-]|[_ Hj]]%lookup_insert_Some Hcs; [|by eapply Hnone].
      simpl. rewrite Hv. intros Heq. apply Hni, list_elem_of_fmap. by exists g. }
    exists j, nd. split_and!; try done. by apply lookup_insert_None in Hj as [? _].
  - intros j s Hj Hn0. destruct (Honly j s Hj) as (g & nd & Hin & ? & ?).
    { rewrite lookup_insert_ne; [done|]. intros ->. congruence. }
    exists g, nd. split_and!; try done. by apply list_elem_of_further.
Qed.

(** The head of the list is new. *)
Lemma reconciled_new cluster_id now W guest guests W' i node :
  NoDup (map gr_vmid (guest :: guests)) → W !! i = None →
  (∀ j wl, W !! j = Some wl → wl_cluster_id wl = cluster_id → wl_vmid wl ≠ gr_vmid guest) →
  gr_node guest = Some node →
  reconciled cluster_id now (<[i := imported_workload i cluster_id now node guest]> W) guests W' →
  reconciled cluster_id now W (guest :: guests) W'.
Proof.
  intros [Hni Hnd]%NoDup_cons Hi Hnone Hn [Hk Ho Hnew Honly].
  assert (∀ j s, W !! j = Some s → i ≠ j) as Hne by (intros j s Hj ->; congruence).
  assert (W' !! i = Some (imported_workload i cluster_id now node guest)) as Hwi
    by (apply Ho; [by rewrite lookup_insert_eq|done]).
  split.
  - intros j s g nd Hj Hcs [->|Hin]%elem_of_cons Hvs Hnd'; [by destruct (Hnone _ _ Hj Hcs)|].
    eapply Hk; try done. rewrite lookup_insert_ne; [done|by eapply Hne].
  - intros j s Hj Hs. apply Ho; [rewrite lookup_insert_ne; [done|by eapply Hne]|].
    intros Hcs Hin. apply (Hs Hcs). simpl. set_solver.
  - intros g [->|Hin]%elem_of_cons Hg; [by exists i, node|].
    destruct (Hnew g Hin) as (j & nd & Hj & Hnd' & Hw).
    { intros j s [[<- <-]|[_ Hj]]%lookup_insert_Some Hcs; [|by eapply Hg].
      simpl. intros Heq. apply Hni, list_elem_of_fmap. by exists g. }
    exists j, nd. split_and!; try done. by apply lookup_insert_None in Hj as [? _].
  - intros j s Hj Hn0. destruct (decide (i = j)) as [<-|Hij].
    + exists guest, node. split_and!; [apply list_elem_of_here|done|congruence].
    + destruct (Honly j s Hj) as (g & nd & Hin & ? & ?); [by rewrite lookup_insert_ne|].
      exists g, nd. split_and!; try done. by apply list_elem_of_further.
Qed.

Lemma imported_reconciled cluster_id now W guests W' :
  imported cluster_id now W guests W' → unique_vmids cluster_id W → NoDup (map gr_vmid guests) →
  reconciled cluster_id now W guests W'.
Proof.
  induction 1 as [W|W guest guests W' i node Hi Hnone Hn Himp IH
                  |W guest guests W' i wl node Hi Hc Hv Hn Himp IH]; intros Hu Hnd.
  - split; intros; try done; try set_solver.
  - eapply reconciled_new; try done. apply IH; [|by apply NoDup_cons in Hnd as [_ ?]].
    apply unique_vmids_insert; [done|done|]. intros j s Hj Hs Heq. by destruct (Hnone _ _ Hj Hs).
  - eapply reconciled_known; try done. apply IH; [|by apply NoDup_cons in Hnd as [_ ?]].
    apply unique_vmids_insert; [done|done|]. intros j s Hj Hs Heq. by eapply Hu.
Qed.

Lemma imported_keyed cluster_id now W guests W' :
  imported cluster_id now W guests W' → (∀ i r, W !! i = Some r → wl_id r = i) →
  ∀ i r, W' !! i = Some r → wl_id r = i.
Proof.
  induction 1 as [W|W guest guests W' i node Hi Hnone Hn Himp IH
                  |W guest guests W' i wl node Hi Hc Hv Hn Himp IH]; intros HK; [done|..];
    apply IH; intros j r [[<- <-]|[_ Hj]]%lookup_insert_Some; simpl; auto.
Qed.

Lemma integrity_unique_vmids cluster_id d : integrity d = true → unique_vmids cluster_id (db_workloads d).
Proof.
  intros Hi i j r s Hr Hs Hcr Hcs Hv.
  pose proof (integrity_unique uq_workloads_vmid d ltac:(simpl; tauto) Hi) as Hu.
  apply (Hu i j r s (cluster_id, wl_vmid r) Hr Hs); unfold uq_workloads_vmid; congruence.
Qed.
(** ** The invariant as a whole *)

Record cluster_inv d : Prop := {
  ci_ok : clusters_ok d;
  ci_workloads : keyed workload d }.

Lemma removed_keyed cluster_id d d' :
  keyed workload d → removed cluster_id d d' → keyed workload d'.
Proof.
  intros Kw (now & c & k & _ & _ & _ & _ & _ & HW) i r Hi. simpl in Hi. rewrite HW in Hi.
  revert i r Hi. apply (lookup_fmap_key wl_id (db_workloads d)); [done|exact Kw].
Qed.

Lemma wp_cluster_run_inv self call d e :
  cluster_inv d →
  wp (cluster_run self call)
    (λ r w, cluster_inv (w_db w) ∧ (r = Ok tt → cluster_done self call d (w_db w)))
    (World d d false e).
Proof.
  intros [Hd Kw]. eapply wp_mono; [by apply wp_cluster_run|].
  intros r w (Hok & Hdone & Hobs). split; [split; [exact Hok|]|exact Hdone].
  assert (observed d (w_db w) → keyed workload (w_db w)) as Hsame
    by (intros Ho i s Hi; simpl in Hi; rewrite Ho in Hi; by apply Kw).
  destruct r as [[]|x]; [|by apply Hsame]. specialize (Hdone eq_refl).
  destruct call; simpl in Hdone; try (by apply Hsame).
  - destruct Hdone as [[-> _]|[_ Hrem]]; [done|by eapply removed_keyed].
  - destruct Hdone as (resp & conn & raw & guests & now & _ & _ & _ & _ & _ & Himp & _).
    intros i s. by apply (imported_keyed _ _ _ _ _ Himp).
Qed.

(** Before the first cluster. *)
Lemma cluster_inv_start : cluster_inv empty_db.
Proof.
  split; [split|]; try done. split.
  - intros i c Hi. by destruct (lookup_empty_Some i c).
  - intros i j k [Hj _]. by destruct (lookup_empty_Some j k).
Qed.
End props.
