(* ===== verification/ClusterSecrets.v ===== *)
(** * Where a cluster's secret goes

    Recorded runs of the cluster service: the clients that send anything carry
    either a secret of the request, or a stored one together with the endpoint it is
    stored with. *)
From Stdlib Require Import Lia.
From S2P Require Import Prelude Models Database AuditLog Operations PveApi Keeps IpAddr Endpoints.
From S2P Require Import Client ClientProps Clusters ClusterInv ClusterProps.

(** ** Recording the service *)

Definition lift_env {E A} (f : E → A * E) (t : logged E) : A * logged E :=
  ((f (lg_env t)).1, Logged (f (lg_env t)).2 (lg_events t)).

#[export] Instance logged_runtime {E} `{Runtime E} : Runtime (logged E) :=
  {| env_now := lift_env env_now; env_uuid4 := lift_env env_uuid4;
     env_randrange n := lift_env (env_randrange n); env_token := lift_env env_token;
     env_locked t := env_locked (lg_env t); env_request_id t := env_request_id (lg_env t);
     env_source_ip t := env_source_ip (lg_env t); env_user_agent t := env_user_agent (lg_env t) |}.

#[export] Instance logged_credentials {E} `{CredentialSecrets E} : CredentialSecrets (logged E) :=
  {| env_nonce := lift_env env_nonce;
     token_encrypt := token_encrypt (E := E); token_decrypt := token_decrypt (E := E) |}.

#[export] Instance logged_laws {E} `{CredentialLaws E} : CredentialLaws (logged E).
Proof. intros nonce secret ad. exact (token_round_trip (E := E) nonce secret ad). Qed.

(** The client that [_client] builds, where it builds one. *)
Definition client_of (self : ClusterService) (connection : ClusterConnection) : option ProxmoxClient :=
  policy ← endpoint_policy (pve_allowed_hosts (cs_settings self)) (pve_allowed_networks (cs_settings self));
  Some (mkProxmoxClient (str_rstrip_char SLASH (cn_api_base_url connection))
    ("PVEAPIToken=" +:+ cn_token_identifier connection +:+ "=" +:+ cn_token_secret connection)
    (cn_ca_bundle_pem connection) policy).

Section sends.
Context {E : Type} `{Runtime E} `{Resolver E} `{HttpTransport E} `{CredentialSecrets E} `{Schemas}.
Implicit Types (P : ProxmoxClient → Prop) (self : ClusterService).

(** Everything sent so far was sent by clients of [P]. *)
Definition sent_by P (w : world (logged E)) : Prop :=
  ∀ client request, Sent client request ∈ lg_events (w_env w) → P client.

Lemma sent_quiet P {A} (m : DBM (logged E) A) :
  (∀ w, lg_events (w_env (m w).2) = lg_events (w_env w)) → keeps (sent_by P) m.
Proof. intros Hm w Hw client request. rewrite Hm. apply Hw. Qed.

Lemma sent_from_env P {A} (f : E → A * E) : keeps (sent_by P) (from_env (lift_env f)).
Proof. by apply sent_quiet. Qed.

Lemma sent_commit P : keeps (sent_by P) commit.
Proof. intros w Hw. by apply wp_commit. Qed.

Lemma sent_or_conflict P m x : keeps (sent_by P) m → keeps (sent_by P) (or_conflict m x).
Proof.
  intros Hm. apply inv_try; [done|]. intros []; try apply inv_raise.
  apply inv_bind; [by apply sent_quiet|]. intros _. apply inv_raise.
Qed.

Lemma sent_audit P a : keeps (sent_by P) (add_audit_event a).
Proof. intros w Hw. by apply wp_add_audit_event. Qed.

(** A method whose every request is its client's. *)
Definition one_client {A} (method : ProxmoxClient → M (logged E) A) : Prop :=
  ∀ client t, wp (method client) (λ _ t', ∃ rqs, extends client rqs t t') t.

Lemma follows_one_client {A} (method : ProxmoxClient → M (logged E) A) plan (Q : A → Prop) :
  (∀ client t, wp (method client) (planned client (Some plan) Q t) t) → one_client method.
Proof.
  intros Hm client t. eapply wp_mono; [apply Hm|]. intros r t' (rqs & Hext & _). by exists rqs.
Qed.

Lemma one_client_test : one_client Client.test_connection.
Proof. eapply follows_one_client. intros client t. apply wp_planned_test. Qed.

Lemma one_client_objects path params : one_client (λ client, get_objects client path params).
Proof. eapply (follows_one_client _ _ (λ _, True)). intros client t. by apply wp_get_objects. Qed.

Lemma extends_sent client rqs (t t' : logged E) client' request :
  extends client rqs t t' → Sent client' request ∈ lg_events t' →
  Sent client' request ∈ lg_events t ∨ client' = client.
Proof.
  intros (events & -> & Hv & _) [Hin|Hin]%elem_of_app; [by left|right].
  apply list_elem_of_split in Hin as (before & after & Heq). by eapply Hv.
Qed.

Lemma sent_with_client P {A} self connection (method : ProxmoxClient → M (logged E) A) :
  one_client method → (∀ client, client_of self connection = Some client → P client) →
  keeps (sent_by P) (with_client self connection method).
Proof.
  intros Hone HP w Hw. apply wp_on_env. unfold _client, ProxmoxClient_init.
  apply wp_bind, wp_bind, wp_raise_if; [done|intros _]. apply wp_bind, wp_or_raise; [done|].
  intros policy Hpol. apply wp_ret. cbv beta iota. eapply wp_mono; [apply Hone|].
  intros r t' (rqs & Hext) client request Hin. simpl in Hin.
  destruct (extends_sent _ _ _ _ _ _ Hext Hin) as [Hin'| ->]; [by eapply Hw|].
  apply HP. unfold client_of. by rewrite Hpol.
Qed.
End sends.

#[local] Ltac sent_step :=
  match goal with
  | |- ∀ _, _ => intros ?
  | |- keeps _ (mbind _ _) => apply inv_bind
  | |- keeps _ (with_client _ _ _) => apply sent_with_client
  | |- keeps _ (_probe _ _) => apply sent_with_client
  | |- keeps _ commit => apply sent_commit
  | |- keeps _ _commit_or_conflict => apply sent_or_conflict
  | |- keeps _ (or_conflict _ _) => apply sent_or_conflict
  | |- keeps _ (add_audit_event _) => apply sent_audit
  | |- keeps _ rollback => by apply sent_quiet
  | |- keeps _ (db_save _) => by apply sent_quiet
  | |- keeps _ (db_add _) => by apply sent_quiet
  | |- keeps _ (db_update_where _ _) => by apply sent_quiet
  | |- keeps _ datetime_now => apply sent_from_env
  | |- keeps _ uuid4 => apply sent_from_env
  | |- keeps _ (from_env env_nonce) => apply sent_from_env
  | |- keeps _ (_get_cluster _) => unfold _get_cluster
  | |- keeps _ (_active_credential _) => unfold _active_credential
  | |- keeps _ (_decrypt _ _) => apply inv_or_raise
  | |- keeps _ (_validate_items _ _) => apply inv_or_raise
  | |- keeps _ (encrypt _ _ _) => unfold encrypt
  | |- keeps _ (catch_app _ _) => apply inv_try
  | |- keeps _ (_removal_blocks _) => apply inv_gets
  | |- keeps _ _ => inv_step
  end; cbv beta iota.
#[local] Ltac sent_run := repeat sent_step.

Section confined.
Context {E : Type} `{Runtime E} `{Resolver E} `{HttpTransport E} `{CredentialSecrets E} `{Schemas}.
Context `{!CredentialLaws E}.
Implicit Types (P : ProxmoxClient → Prop) (self : ClusterService).

Lemma sent_record P cluster_id code :
  keeps (sent_by P) (_record_connection_result (E := logged E) cluster_id code).
Proof. unfold _record_connection_result. sent_run. Qed.

Lemma sent_import_loop P cluster_id now guests st :
  keeps (sent_by P) (import_loop (E := logged E) cluster_id now st guests).
Proof. revert st. induction guests as [|g guests IH]; intros st; simpl; unfold import_guest; sent_run; auto. Qed.

Lemma sent_store_update P self request before identity secret rows :
  keeps (sent_by P) (store_update (E := logged E) self request before identity secret rows).
Proof.
  unfold store_update, apply_update, replace_credential. destruct identity as [[? ?] ?]. sent_run.
Qed.

Lemma keeps_at {A} (J : world (logged E) → Prop) (m : DBM (logged E) A) w :
  keeps J m → J w → wp m (λ _, J) w.
Proof. auto. Qed.

(** What follows a step that keeps [J] too. *)
Lemma wp_then_keeps {A B} (J : world (logged E) → Prop) (m : DBM (logged E) A) (f : A → DBM (logged E) B) w :
  wp m (λ r w', J w' ∧ match r with Ok a => keeps J (f a) | Raise _ => True end) w →
  wp (m ≫= f) (λ _, J) w.
Proof.
  intros Hm. apply wp_bind. eapply wp_mono; [exact Hm|]. intros [a|x] w' [Hw Hf]; [by apply Hf|done].
Qed.

(** The connections of a database, and one the caller brings. *)
Definition allowed_client self (d : db) (secret : option string) (client : ProxmoxClient) : Prop :=
  ∃ connection, client_of self connection = Some client ∧
    (holds_connection (E := logged E) d connection ∨ secret = Some (cn_token_secret connection)).

Lemma wp_snapshot_sent self cluster_id {A} (f : ClusterConnection → DBM (logged E) A) secret d e :
  clusters_ok (E := logged E) d → sent_by (allowed_client self d secret) (World d d false e) →
  (∀ connection,
     (∀ client, client_of self connection = Some client → allowed_client self d secret client) →
     keeps (sent_by (allowed_client self d secret)) (f connection)) →
  wp (_connection_snapshot cluster_id ≫= f) (λ _, sent_by (allowed_client self d secret)) (World d d false e).
Proof.
  intros Hd Hw Hf. apply wp_then_keeps, wp_connection_snapshot; [done|done|].
  intros connection _ Hconn. split; [done|]. apply Hf. intros client Hclient.
  exists connection. split; [done|by left].
Qed.

Lemma wp_resource_sent self cluster_id {A} path params (g : list json_object → DBM (logged E) A) secret d e :
  clusters_ok (E := logged E) d → sent_by (allowed_client self d secret) (World d d false e) →
  (∀ raw, keeps (sent_by (allowed_client self d secret)) (g raw)) →
  wp (_call_resource self cluster_id (λ client, get_objects client path params) ≫= g)
    (λ _, sent_by (allowed_client self d secret)) (World d d false e).
Proof.
  intros Hd Hw Hg. apply wp_bind. eapply wp_mono.
  - apply (wp_snapshot_sent self cluster_id _ secret); [done|done|]. intros connection Hallow.
    apply inv_bind; [apply inv_try|].
    + by apply sent_with_client; [apply one_client_objects|].
    + intros []; try apply inv_raise. apply inv_bind; [apply sent_record|]. intros _. apply inv_raise.
    + intros raw. apply inv_bind; [apply sent_record|]. intros _. apply inv_ret.
  - intros [raw|x] w Hs; [by apply Hg|done].
Qed.

Lemma wp_update_sent self cluster_id request d e :
  clusters_ok (E := logged E) d →
  sent_by (allowed_client self d (cup_token_secret request)) (World d d false e) →
  wp (update self cluster_id request)
    (λ _, sent_by (allowed_client self d (cup_token_secret request))) (World d d false e).
Proof.
  intros Hd Hw. pose proof Hd as [Hint Kc Kk Hg].
  apply wp_bind, wp_get_cluster; [done|]. simpl. intros c Hc.
  pose proof (Kc _ _ Hc) as Hid. simpl in Hid. subst cluster_id.
  apply wp_bind, wp_active_credential; [done|done|]. simpl. intros k Hk.
  apply wp_bind, wp_raise_if; [done|intros _]. apply wp_bind, wp_raise_if; [done|]. intros Hre.
  apply wp_bind, wp_request_secret; [done|]. intros secret Hsec.
  pose proof (requested_without_secret c k request secret Hre Hsec) as Hwho.
  destruct (gd_credential _ _ Hg _ _ _ Hk) as [(c0 & Hc0 & Hact) _].
  assert (c0 = c) as -> by congruence. clear Hc0 Hre Hsec.
  set (identity := requested_identity c k request) in *.
  enough (keeps (sent_by (allowed_client self d (cup_token_secret request)))
    (rows ← (if connection_changed request then
               rollback;;
               _probe self (mkClusterConnection (cl_id c) (cc_id k) identity.1.1 identity.1.2
                              identity.2 secret);;
               c ← _get_cluster (cl_id c); k ← _active_credential c; mret (c, k)
             else mret (c, k));
     store_update self request (cluster_fields c k) identity secret rows)) as Hkeep.
  { by apply Hkeep. }
  apply inv_bind; [|intros rows; apply sent_store_update]. sent_run; [apply one_client_test|].
  eexists. split; [eassumption|].
  destruct Hwho as [Hw'|[Hidn Hs]]; [by right|left]. rewrite Hidn. exists c, k, secret. by split_and!.
Qed.

(** The secret that comes with a call. *)
Definition request_secret (call : cluster_call) : option string :=
  match call with
  | CallCreate request => Some (ccr_token_secret request)
  | CallUpdate _ request => cup_token_secret request
  | _ => None
  end.

Lemma wp_run_sent self call d e :
  clusters_ok (E := logged E) d →
  sent_by (allowed_client self d (request_secret call)) (World d d false e) →
  wp (cluster_run self call) (λ _, sent_by (allowed_client self d (request_secret call))) (World d d false e).
Proof.
  intros Hd Hw. unfold cluster_run, cluster_service. apply wp_bind, wp_raise_if; [done|intros _].
  destruct call as [request|id request|id|id|id|id|id|id].
  - eapply keeps_at; [|exact Hw]. unfold create. sent_run; [apply one_client_test|].
    eexists. split; [eassumption|by right].
  - apply wp_bind. eapply wp_mono; [by apply wp_update_sent|]. by intros [resp|x] w Hs.
  - eapply keeps_at; [|exact Hw]. unfold delete. sent_run.
  - apply wp_bind. eapply wp_mono.
    + apply wp_snapshot_sent; [done|done|]. intros connection Hallow.
      apply inv_bind; [apply inv_try|]; [by apply sent_with_client; [apply one_client_test|]| |].
      * intros []; try apply inv_raise. apply inv_bind; [apply sent_record|]. intros []. sent_run.
      * intros result. apply inv_bind; [apply sent_record|]. intros []. sent_run.
    + by intros [resp|x] w Hs.
  - apply wp_bind. eapply wp_mono; [apply wp_resource_sent; [done|done|intros raw; sent_run]|].
    by intros [resp|x] w Hs.
  - apply wp_bind. eapply wp_mono; [apply wp_resource_sent; [done|done|intros raw; sent_run]|].
    by intros [resp|x] w Hs.
  - apply wp_bind. eapply wp_mono; [apply wp_resource_sent; [done|done|intros raw; sent_run]|].
    by intros [resp|x] w Hs.
  - apply wp_bind. eapply wp_mono; [apply wp_resource_sent; [done|done|intros raw; sent_run]|].
    + apply sent_import_loop.
    + cbv zeta. sent_run.
    + by intros [resp|x] w Hs.
Qed.

End confined.
