(* ===== verification/BackupSize.v ===== *)
(** * How much a backup sent

    [backup_transfer_bytes] of app/services/backup_runner.py, which reads the sizes
    that a PVE task log reports, over the parts of [re] and [decimal] that it uses.
    Log texts are taken to be ASCII, where [casefold] is [lower] and [\d], [\s] and
    [\b] have their ASCII meaning. *)
From Stdlib Require Import Lia.
From S2P Require Import Prelude Models PveApi IpAddr IpText Operations Endpoints.

(** ** [decimal.Decimal], without sign and exponent *)

(** The value is [dec_coef / 10 ^ dec_places]. *)
Record decimal := mkDecimal { dec_coef : Z; dec_places : Z }.

(** Division rounding half to even. *)
Definition half_even_div (a b : Z) : Z :=
  let q := a / b in let r := a mod b in
  if 2 * r <? b then q else if b <? 2 * r then q + 1 else if Z.even q then q else q + 1.

(** The precision of the default context. *)
Definition dec_digits (c : Z) : Z := Z.of_nat (String.length (pretty c)).

(** [int(amount * multiplier)]: the product has 28 digits, the integer is truncated. *)
Definition dec_mul_int (amount : decimal) (multiplier : Z) : Z :=
  let c := dec_coef amount * multiplier in
  let excess := if c <? 10 ^ 28 then 0 else Z.max 0 (dec_digits c - 28) in
  let c := half_even_div c (10 ^ excess) in
  let places := dec_places amount - excess in
  if 0 <=? places then c / 10 ^ places else c * 10 ^ (- places).

(** [amount == Decimal(n)]. *)
Definition dec_is (amount : decimal) (n : Z) : bool := dec_coef amount =? n * 10 ^ dec_places amount.

(** ** The patterns *)

Fixpoint digits_value (acc : Z) (s : string) : Z :=
  match s with
  | EmptyString => acc
  | String a r => digits_value (acc * 10 + default 0 (digit_value a)) r
  end.

Definition span_digits : string → string * string := str_span (λ a, negb (is_digit a)).

(** [\d+(?:\.\d+)?] at the start of the text, and what follows. *)
Definition decimal_at (s : string) : option (decimal * string) :=
  let '(whole, rest) := span_digits s in
  let plain := (mkDecimal (digits_value 0 whole) 0, rest) in
  if str_is_empty whole then None
  else match rest with
       | String a r =>
         let '(fraction, rest') := span_digits r in
         if bool_decide (a = DOT) && str_nonempty fraction
         then Some (mkDecimal (digits_value 0 (whole +:+ fraction))
                      (Z.of_nat (String.length fraction)), rest')
         else Some plain
       | EmptyString => Some plain
       end.

(** The exponent of the prefixes "KMGTPE". *)
Definition prefix_exponent (a : Ascii.ascii) : option Z :=
  (λ n, Z.of_nat n + 1) <$> String.index 0 (String (ascii_upper a) "") "KMGTPE".

Definition word_char (a : Ascii.ascii) : bool :=
  is_alpha a || is_digit a || (code_of a =? 95)%nat.

Definition is_letter (n : nat) (a : Ascii.ascii) : bool := (code_of (ascii_upper a) =? n)%nat.

(** [_SIZE_MULTIPLIERS], whose keys are a prefix and "I": "IB" is missing. *)
Definition _SIZE_MULTIPLIERS (exponent : option Z) (binary : bool) : option Z :=
  match exponent, binary with
  | Some e, true => Some (1024 ^ e)
  | Some e, false => Some (1000 ^ e)
  | None, false => Some 1
  | None, true => None
  end.

(** [[KMGTPE]?i?B\b], case-insensitive, at the start of the text: its multiplier, if
    it has one. *)
Definition unit_at (s : string) : option (option Z) :=
  let '(exponent, s) := match s with
                        | String a r => match prefix_exponent a with
                                        | Some e => (Some e, r) | None => (None, s) end
                        | EmptyString => (None, s)
                        end in
  let '(binary, s) := match s with
                      | String a r => if is_letter 73 a then (true, r) else (false, s)
                      | EmptyString => (false, s)
                      end in
  match s with
  | String a r =>
    if is_letter 66 a && match r with String b _ => negb (word_char b) | EmptyString => true end
    then Some (_SIZE_MULTIPLIERS exponent binary) else None
  | EmptyString => None
  end.

(** [_SIZE_PATTERN] at the start of the text. *)
Definition size_at (s : string) : option (decimal * option Z) :=
  '(amount, rest) ← decimal_at s;
  multiplier ← unit_at (str_lstrip rest);
  Some (amount, multiplier).

(** [re.search]: the leftmost position that matches. *)
Fixpoint search {A} (match_at : string → option A) (s : string) : option A :=
  match match_at s with
  | Some a => Some a
  | None => match s with String _ r => search match_at r | EmptyString => None end
  end.

Definition _first_size (value : string) : option Z :=
  '(amount, multiplier) ← search size_at value;
  multiplier ← multiplier;
  Some (dec_mul_int amount multiplier).

(** [_PERCENT_PATTERN]: a decimal between "(" and "%)". *)
Definition percent_at (s : string) : option decimal :=
  match s with
  | String a r =>
    if (code_of a =? 40)%nat then
      '(amount, rest) ← decimal_at r;
      if String.prefix "%)" rest then Some amount else None
    else None
  | EmptyString => None
  end.

(** ** The log *)

Fixpoint drop_chars (n : nat) (s : string) : string :=
  match n, s with
  | S n, String _ r => drop_chars n r
  | _, _ => s
  end.

(** [text[lowered.index(word) + len(word):]], where [word in lowered]. *)
Definition after_word (word text : string) : option string :=
  search (λ s, if String.prefix word (str_lower s) then Some (drop_chars (String.length word) s)
               else None) text.

Record transfer := mkTransfer {
  tr_transferred : option Z; tr_reused : option Z; tr_reused_percent : option decimal }.

(** [if parsed is not None: variable = parsed]. *)
Definition update_some {A} (parsed variable : option A) : option A :=
  match parsed with Some a => Some a | None => variable end.

(** The body of the loop. *)
Definition transfer_entry (st : transfer) (entry : json_object) : transfer :=
  match obj_get "t" entry with
  | Some (JStr text) =>
    let transferred := update_some (after_word "transferred" text ≫= _first_size) (tr_transferred st) in
    match after_word "reused" text with
    | Some rest =>
      mkTransfer transferred (update_some (_first_size rest) (tr_reused st))
        (update_some (search percent_at text) (tr_reused_percent st))
    | None => mkTransfer transferred (tr_reused st) (tr_reused_percent st)
    end
  | _ => st
  end.

Definition backup_transfer_bytes (log_entries : list json_object) : option Z :=
  let st := fold_left transfer_entry log_entries (mkTransfer None None None) in
  match tr_transferred st, tr_reused st with
  | None, _ => None
  | Some transferred, None => Some transferred
  | Some transferred, Some reused =>
    if transferred - reused <=? 0
    then match tr_reused_percent st with
         | Some percent => if dec_is percent 100 then Some 0 else None
         | None => None
         end
    else Some (transferred - reused)
  end.

Definition log_of (lines : list string) : list json_object := map (λ l, [("t", JStr l)]) lines.

(** The cases of tests/test_backup_transfer.py. *)
Example transfer_tests :
  backup_transfer_bytes (log_of ["INFO: backup was done incrementally, reused 15.75 GiB (98%)";
                                 "INFO: transferred 16.00 GiB in 8 seconds"]) = Some (256 * 1024 ^ 2) ∧
  backup_transfer_bytes (log_of ["INFO: transferred 512 MiB in 2 seconds"]) = Some (512 * 1024 ^ 2) ∧
  backup_transfer_bytes (log_of ["INFO: backup finished successfully"]) = None ∧
  backup_transfer_bytes (log_of ["INFO: backup was done incrementally, reused 16.00 GiB (99%)";
                                 "INFO: transferred 16.00 GiB in 8 seconds"]) = None ∧
  backup_transfer_bytes (log_of ["INFO: backup was done incrementally, reused 16.00 GiB (100%)";
                                 "INFO: transferred 16.00 GiB in 8 seconds"]) = Some 0.
Proof. split_and!; vm_compute; reflexivity. Qed.

Example size_texts :
  map _first_size ["12 B"; "1.5.3 kb,"; "7iB 8 B"; "3 GBit"; "x 2TiB."; "1024"] =
  [Some 12; Some 5300; None; None; Some (2 * 1024 ^ 4); None].
Proof. vm_compute. reflexivity. Qed.

(** ** What the patterns read *)

Lemma digits_value_app acc s t : digits_value acc (s +:+ t) = digits_value (digits_value acc s) t.
Proof. revert acc. induction s as [|a s IH]; intros acc; [done|]. apply IH. Qed.

Lemma digits_value_nonneg acc s : 0 ≤ acc → 0 ≤ digits_value acc s.
Proof.
  revert acc. induction s as [|a s IH]; intros acc Hacc; [done|]. simpl. apply IH.
  destruct (digit_value a) as [v|] eqn:Hv; simpl; [apply digit_value_bounds in Hv|]; lia.
Qed.

Lemma string_app_assoc (s t u : string) : (s +:+ t) +:+ u = s +:+ (t +:+ u).
Proof. induction s as [|a s IH]; [done|]. exact (f_equal (String a) IH). Qed.

Lemma str_all_app p s t : str_all p (s +:+ t) = str_all p s && str_all p t.
Proof. induction s as [|a s IH]; simpl; [done|]. rewrite IH. by destruct (p a). Qed.

Lemma pretty_N_char_digit x :
  (x < 10)%N → digit_value (pretty_N_char x) = Some (Z.of_N x).
Proof.
  intros Hx. assert (x = 0 ∨ x = 1 ∨ x = 2 ∨ x = 3 ∨ x = 4 ∨ x = 5 ∨ x = 6 ∨ x = 7 ∨ x = 8 ∨ x = 9)%N
    as Hcases by lia.
  repeat destruct Hcases as [->|Hcases]; try subst x; reflexivity.
Qed.

Lemma pretty_N_go_digits x s :
  ∃ d, pretty_N_go x s = d +:+ s ∧ str_all is_digit d = true ∧ digits_value 0 d = Z.of_N x.
Proof.
  revert s. induction (N.lt_wf_0 x) as [x _ IH]. intros s.
  destruct (decide (x = 0)%N) as [->|Hx]; [by exists ""|].
  rewrite pretty_N_go_step by lia.
  assert (x mod 10 < 10)%N as Hm by (by apply N.mod_lt).
  destruct (IH (x `div` 10)%N ltac:(apply N.div_lt; lia) (String (pretty_N_char (x mod 10)) s))
    as (d & -> & Hd & Hv).
  exists (d +:+ String (pretty_N_char (x mod 10)) ""). split_and!.
  - by rewrite string_app_assoc.
  - rewrite str_all_app, Hd. simpl. unfold is_digit. by rewrite pretty_N_char_digit.
  - rewrite digits_value_app, Hv. simpl. rewrite pretty_N_char_digit by done. simpl.
    rewrite (N.div_mod x 10) at 3 by done. lia.
Qed.

Lemma pretty_digits n :
  0 ≤ n → str_all is_digit (pretty n) = true ∧ digits_value 0 (pretty n) = n ∧ pretty n ≠ "".
Proof.
  intros Hn. destruct n as [|p|p]; [done| |lia].
  change (pretty (Z.pos p)) with (pretty_N_go (N.pos p) "").
  destruct (pretty_N_go_digits (N.pos p) "") as (d & -> & Hd & Hv).
  assert (d +:+ "" = d) as ->
    by (clear; induction d as [|a d IH]; [done|exact (f_equal (String a) IH)]).
  split_and!; [done|done|]. by intros ->.
Qed.

Lemma span_stop stop d r :
  str_all (λ a, negb (stop a)) d = true → match r with String a _ => stop a = true | EmptyString => True end →
  str_span stop (d +:+ r) = (d, r).
Proof.
  intros Hd Hr. induction d as [|a d IH]; simpl in *.
  - destruct r as [|a r]; [done|]. simpl. by rewrite Hr.
  - apply andb_true_iff in Hd as [Ha%negb_true_iff Hd]. rewrite Ha. by rewrite (IH Hd).
Qed.

Lemma str_all_ext p q s : (∀ a, p a = q a) → str_all p s = str_all q s.
Proof. intros Hpq. induction s as [|a s IH]; simpl; [done|]. by rewrite IH, Hpq. Qed.

(** A whole number followed by a space. *)
Lemma decimal_at_pretty n r :
  0 ≤ n → decimal_at (pretty n +:+ " " +:+ r) = Some (mkDecimal n 0, " " +:+ r).
Proof.
  intros Hn. destruct (pretty_digits n Hn) as (Hd & Hv & Hne). unfold decimal_at, span_digits.
  rewrite span_stop; [|by erewrite str_all_ext; [exact Hd|intros a; apply negb_involutive]|done].
  unfold str_is_empty. rewrite bool_decide_false by done. rewrite Hv.
  change (" " +:+ r) with (String (Ascii.ascii_of_nat 32) r). cbv beta iota. destruct (str_span (λ a, negb (is_digit a)) r).
  by rewrite bool_decide_false.
Qed.

Lemma search_here {A} (match_at : string → option A) s a : match_at s = Some a → search match_at s = Some a.
Proof. intros Hs. destruct s; simpl in *; by rewrite Hs. Qed.

(** The units as PVE writes them. *)
Definition size_units : list (string * Z) := [
  ("B", 1); ("KB", 1000); ("MB", 1000 ^ 2); ("GB", 1000 ^ 3); ("TB", 1000 ^ 4); ("PB", 1000 ^ 5);
  ("EB", 1000 ^ 6); ("KiB", 1024); ("MiB", 1024 ^ 2); ("GiB", 1024 ^ 3); ("TiB", 1024 ^ 4);
  ("PiB", 1024 ^ 5); ("EiB", 1024 ^ 6) ].

Lemma size_units_read u m : (u, m) ∈ size_units → unit_at (str_lstrip (" " +:+ u)) = Some (Some m).
Proof.
  assert (Forall (λ um, unit_at (str_lstrip (" " +:+ um.1)) = Some (Some um.2)) size_units) as Hall
    by (repeat constructor).
  intros Hin. rewrite Forall_forall in Hall. exact (Hall _ Hin).
Qed.

Lemma dec_mul_int_exact n m : 0 ≤ n * m < 10 ^ 28 → dec_mul_int (mkDecimal n 0) m = n * m.
Proof.
  intros Hc. unfold dec_mul_int. simpl dec_coef. simpl dec_places.
  rewrite (proj2 (Z.ltb_lt _ _)) by lia. unfold half_even_div. change (10 ^ 0) with 1.
  rewrite Z.div_1_r, Z.mod_1_r. simpl. by rewrite Z.div_1_r.
Qed.

Lemma first_size_text n u m :
  (u, m) ∈ size_units → 0 ≤ n → n * m < 10 ^ 28 →
  _first_size (pretty n +:+ " " +:+ u) = Some (n * m).
Proof.
  intros Hu Hn Hm. unfold _first_size.
  assert (0 ≤ m) as Hm0.
  { assert (Forall (λ um, 0 ≤ um.2) size_units) as Hall by (repeat constructor; vm_compute; congruence).
    rewrite Forall_forall in Hall. exact (Hall _ Hu). }
  rewrite (search_here _ _ (mkDecimal n 0, Some m)).
  - simpl. by rewrite dec_mul_int_exact by nia.
  - unfold size_at. rewrite (decimal_at_pretty n u Hn). pose proof (size_units_read u m Hu) as Hr.
    simpl in Hr |- *. by rewrite Hr.
Qed.

(** ** Sizes are not negative *)

Lemma half_even_div_nonneg a b : 0 ≤ a → 0 < b → 0 ≤ half_even_div a b.
Proof.
  intros Ha Hb. unfold half_even_div. pose proof (Z.div_pos a b Ha Hb). repeat case_match; lia.
Qed.

Lemma dec_mul_int_nonneg amount m : 0 ≤ dec_coef amount → 0 ≤ m → 0 ≤ dec_mul_int amount m.
Proof.
  intros Hc Hm. unfold dec_mul_int.
  match goal with |- context [half_even_div _ (10 ^ ?x)] => set (excess := x) end.
  assert (0 ≤ half_even_div (dec_coef amount * m) (10 ^ excess)) as Hh.
  { apply half_even_div_nonneg; [nia|]. apply Z.pow_pos_nonneg; [lia|].
    unfold excess. case_match; lia. }
  destruct (0 <=? dec_places amount - excess) eqn:Hp.
  - apply Z.div_pos; [done|]. apply Z.pow_pos_nonneg; lia.
  - apply Z.mul_nonneg_nonneg; [done|]. apply Z.pow_nonneg. lia.
Qed.

Lemma decimal_at_nonneg s amount rest : decimal_at s = Some (amount, rest) → 0 ≤ dec_coef amount.
Proof.
  unfold decimal_at. destruct (span_digits s) as [whole r]. intros Hs.
  assert (∀ t, 0 ≤ digits_value 0 t) by (intros; by apply digits_value_nonneg).
  destruct (str_is_empty whole); [done|]. destruct r as [|a r]; [by simplify_eq/=|].
  destruct (span_digits r) as [fraction r']. by case_match; simplify_eq/=.
Qed.

Lemma unit_at_nonneg s m : unit_at s = Some (Some m) → 0 ≤ m.
Proof.
  unfold unit_at, _SIZE_MULTIPLIERS. intros Hu.
  assert (∀ e, 0 ≤ 1024 ^ e ∧ 0 ≤ 1000 ^ e) as Hpow by (split; apply Z.pow_nonneg; lia).
  repeat case_match; simplify_eq; try apply Hpow; lia.
Qed.

Lemma search_elim {A} (match_at : string → option A) s a :
  search match_at s = Some a → ∃ t, match_at t = Some a.
Proof.
  induction s as [|c s IH]; simpl; (destruct (match_at _) eqn:Hm; [intros [= <-]; eauto|]); [done|auto].
Qed.

Lemma first_size_nonneg s n : _first_size s = Some n → 0 ≤ n.
Proof.
  unfold _first_size. destruct (search size_at s) as [[amount m]|] eqn:Hs; simpl; [|done].
  apply search_elim in Hs as [t Ht]. destruct m as [m|]; simpl; [|done]. intros [= <-].
  unfold size_at in Ht. destruct (decimal_at t) as [[amount' rest]|] eqn:Hd; simpl in Ht; [|done].
  destruct (unit_at (str_lstrip rest)) as [m'|] eqn:Hu; simpl in Ht; [|done]. injection Ht as -> ->.
  apply dec_mul_int_nonneg; [by eapply decimal_at_nonneg|by eapply unit_at_nonneg].
Qed.

(** ** The log as a whole *)

Definition entry_text (entry : json_object) : option string :=
  match obj_get "t" entry with Some (JStr text) => Some text | _ => None end.

(** The sizes that follow a word, and the percentages beside "reused", in order. *)
Definition sizes_after (word : string) (log : list json_object) : list Z :=
  omap (λ entry, text ← entry_text entry; after_word word text ≫= _first_size) log.
Definition reused_percents (log : list json_object) : list decimal :=
  omap (λ entry, text ← entry_text entry; after_word "reused" text ≫= λ _, search percent_at text) log.

(** What was transferred, less what was reused, as last reported. *)
Definition measured (log : list json_object) : option Z :=
  match last (sizes_after "transferred" log), last (sizes_after "reused" log) with
  | None, _ => None
  | Some t, None => Some t
  | Some t, Some r =>
    if 0 <? t - r then Some (t - r)
    else match last (reused_percents log) with
         | Some p => if dec_is p 100 then Some 0 else None
         | None => None
         end
  end.

Lemma last_omap_cons {A B} (f : A → option B) a l :
  last (omap f (a :: l)) = update_some (last (omap f l)) (f a).
Proof.
  change (omap f (a :: l)) with (match f a with Some b => b :: omap f l | None => omap f l end).
  destruct (f a) as [b|]; [by rewrite last_cons|]. by destruct (last (omap f l)).
Qed.

Lemma update_some_assoc {A} (a b c : option A) : update_some a (update_some b c) = update_some (update_some a b) c.
Proof. by destruct a. Qed.

Lemma transfer_entries log st :
  fold_left transfer_entry log st =
    mkTransfer (update_some (last (sizes_after "transferred" log)) (tr_transferred st))
      (update_some (last (sizes_after "reused" log)) (tr_reused st))
      (update_some (last (reused_percents log)) (tr_reused_percent st)).
Proof.
  revert st. induction log as [|entry log IH]; intros st; [by destruct st|]. cbn [fold_left].
  rewrite IH. unfold sizes_after, reused_percents. rewrite !last_omap_cons, <-!update_some_assoc.
  unfold transfer_entry, entry_text. destruct (obj_get "t" entry) as [[| | |text| | |]|]; try done.
  simpl. by destruct (after_word "reused" text).
Qed.

(** [backup_transfer_bytes] is the amount that the log reports as transferred, less
    what it reports as reused, each as reported last; where they are equal it is zero
    only if the log says that all of it was reused, and unknown otherwise.  It is never
    negative nor more than what was transferred.  A size is read as it is written, in
    decimal and in binary units. *)
Theorem transfer_bytes_measured log :
  backup_transfer_bytes log = measured log ∧
  (∀ n, backup_transfer_bytes log = Some n →
     ∃ t, last (sizes_after "transferred" log) = Some t ∧ 0 ≤ n ≤ t) ∧
  (∀ u m n, (u, m) ∈ size_units → 0 ≤ n → n * m < 10 ^ 28 →
     _first_size (pretty n +:+ " " +:+ u) = Some (n * m)).
Proof.
  assert (backup_transfer_bytes log = measured log) as Heq.
  { unfold backup_transfer_bytes, measured. rewrite transfer_entries. simpl.
    destruct (last (sizes_after "transferred" log)) as [t|]; [|done]. simpl.
    destruct (last (sizes_after "reused" log)) as [r|]; [|done]. simpl.
    destruct (last (reused_percents log)); simpl; repeat case_match; lia || done. }
  split_and!; [done| |by intros; apply first_size_text].
  assert (∀ word z, last (sizes_after word log) = Some z → 0 ≤ z) as Hpos.
  { intros word z [l Hl]%last_Some. assert (z ∈ sizes_after word log) as Hin
      by (rewrite Hl; apply elem_of_app; right; apply list_elem_of_here).
    apply list_elem_of_omap in Hin as (entry & _ & Hz). destruct (entry_text entry); simpl in Hz; [|done].
    destruct (after_word word _) as [rest|]; simpl in Hz; [|done]. by eapply first_size_nonneg. }
  intros n. rewrite Heq. unfold measured.
  destruct (last (sizes_after "transferred" log)) as [t|] eqn:Ht; [|done].
  pose proof (Hpos _ _ Ht).
  destruct (last (sizes_after "reused" log)) as [r|] eqn:Hr.
  - pose proof (Hpos _ _ Hr). intros Hn. exists t. split; [done|].
    repeat case_match; simplify_eq; lia.
  - intros [= <-]. exists t. split; [done|lia].
Qed.
