(* ===== verification/UuidText.v ===== *)
(** * Identifiers as text

    What services/console.py uses of Python's [uuid.UUID] and [int]: [str(id)], the
    constructor [UUID(text)], and the round trips of both.  A UUID is its 128-bit
    integer. *)
From S2P Require Import Prelude IpAddr IpText PowerRunner Endpoints Client BackupSize ClientProps.
From Stdlib Require Import Lia.

(** ** Pieces of a string *)

(** [s[:n]] and [s[n:]]. *)
Fixpoint str_take (n : nat) (s : string) : string :=
  match n, s with
  | S n, String a r => String a (str_take n r)
  | _, _ => ""
  end.

Fixpoint str_drop (n : nat) (s : string) : string :=
  match n, s with
  | S n, String _ r => str_drop n r
  | _, _ => s
  end.

(** [s.replace(needle, "")]: [skip] characters belong to an occurrence already found. *)
Fixpoint str_remove (needle : string) (skip : nat) (s : string) : string :=
  match s with
  | EmptyString => ""
  | String a r =>
    match skip with
    | S skip => str_remove needle skip r
    | O => if String.prefix needle s then str_remove needle (String.length needle - 1) r
           else String a (str_remove needle 0 r)
    end
  end.

(** [s.strip(chars)]. *)
Fixpoint lstrip_in (p : Ascii.ascii → bool) (s : string) : string :=
  match s with
  | String a r => if p a then lstrip_in p r else s
  | EmptyString => ""
  end.

Fixpoint rstrip_in (p : Ascii.ascii → bool) (s : string) : string :=
  match s with
  | EmptyString => ""
  | String a r =>
    match rstrip_in p r with
    | EmptyString => if p a then "" else String a ""
    | r' => String a r'
    end
  end.

(** ** [str(UUID)] *)

(** [n] hexadecimal digits, as in [f"{v:0{n}x}"] for [0 <= v < 16 ** n]. *)
Fixpoint fixed_hex (n : nat) (v : Z) (acc : string) : string :=
  match n with
  | O => acc
  | S n => fixed_hex n (v / 16) (String (hex_digit (v mod 16)) acc)
  end.

Definition uuid_hex (id : N) : string := fixed_hex 32 (Z.of_N id) "".

(** [UUID.__str__]. *)
Definition str_uuid (id : N) : string :=
  let hex := uuid_hex id in
  str_take 8 hex +:+ "-" +:+ str_take 4 (str_drop 8 hex) +:+ "-" +:+
  str_take 4 (str_drop 12 hex) +:+ "-" +:+ str_take 4 (str_drop 16 hex) +:+ "-" +:+ str_drop 20 hex.

(** ** [UUID(text)] *)

(** The digits of [int(s, 16)], with single underscores between them. *)
Fixpoint hex_body (acc : Z) (after_digit : bool) (s : string) : option Z :=
  match s with
  | EmptyString => if after_digit then Some acc else None
  | String a r =>
    match hex_value a with
    | Some v => hex_body (acc * 16 + v) true r
    | None => if after_digit && bool_decide (code_of a = 95%nat) then hex_body acc false r
              else None
    end
  end.

(** After the sign: an optional [0x], which an underscore may follow. *)
Definition hex_prefixed (s : string) : option Z :=
  if String.prefix "0x" s || String.prefix "0X" s then
    match str_drop 2 s with
    | String a r => if bool_decide (code_of a = 95%nat) then hex_body 0 false r
                    else hex_body 0 false (String a r)
    | EmptyString => None
    end
  else hex_body 0 false s.

(** [int(s, 16)], [None] for [ValueError]. *)
Definition int_16 (s : string) : option Z :=
  match str_strip s with
  | String a r =>
    if bool_decide (code_of a = 45%nat) then Z.opp <$> hex_prefixed r
    else if bool_decide (code_of a = 43%nat) then hex_prefixed r
    else hex_prefixed (String a r)
  | EmptyString => None
  end.

Definition is_brace (a : Ascii.ascii) : bool := bool_decide (code_of a ∈ [123; 125]%nat).

(** [UUID(text)], [None] for [ValueError]. *)
Definition uuid_of_text (text : string) : option N :=
  let hex := str_remove "uuid:" 0 (str_remove "urn:" 0 text) in
  let hex := str_remove "-" 0 (rstrip_in is_brace (lstrip_in is_brace hex)) in
  if negb (str_len hex =? 32) then None
  else
    i ← int_16 hex;
    if (0 <=? i) && (i <? 2 ^ 128) then Some (Z.to_N i) else None.

Example uuid_texts :
  str_uuid 0x0123456789abcdef0123456789abcdef = "01234567-89ab-cdef-0123-456789abcdef" ∧
  map uuid_of_text ["01234567-89ab-cdef-0123-456789abcdef"; "{urn:uuid:00000000000000000000000000000007}";
                    "0x_0-000000000000000000000000_a0f"; "7"; "-0000000000000000000000000000001"] =
    [Some 0x0123456789abcdef0123456789abcdef%N; Some 7%N; Some 0xa0f%N; None; None].
Proof. split; vm_compute; reflexivity. Qed.

(** ** Round trips *)

Lemma take_drop_str n s : str_take n s +:+ str_drop n s = s.
Proof.
  revert s. induction n as [|n IH]; intros [|a s]; try done.
  exact (f_equal (String a) (IH s)).
Qed.

Lemma drop_drop_str n m s : str_drop n (str_drop m s) = str_drop (m + n) s.
Proof. revert s. induction m as [|m IH]; intros [|a s]; [done|done|by destruct n|apply IH]. Qed.

Lemma str_all_take p n s : str_all p s = true → str_all p (str_take n s) = true.
Proof. rewrite <-(take_drop_str n s) at 1. rewrite str_all_app. by intros [? _]%andb_true_iff. Qed.

Lemma str_all_drop p n s : str_all p s = true → str_all p (str_drop n s) = true.
Proof. rewrite <-(take_drop_str n s) at 1. rewrite str_all_app. by intros [_ ?]%andb_true_iff. Qed.

(** A needle whose first character does not occur. *)
Lemma str_remove_none (p : Ascii.ascii → bool) a needle s :
  p a = false → str_all p s = true → str_remove (String a needle) 0 s = s.
Proof.
  intros Ha. induction s as [|b s IH]; [done|]. intros [Hb Hs]%andb_true_iff.
  cbn [str_remove String.prefix]. destruct (Ascii.ascii_dec a b) as [->|_]; [congruence|].
  by rewrite IH.
Qed.

Lemma str_remove_dash s t :
  str_all is_hex s = true → str_remove "-" 0 (s +:+ t) = s +:+ str_remove "-" 0 t.
Proof.
  intros Hs. induction s as [|b s IH]; [done|]. apply andb_true_iff in Hs as [Hb Hs].
  change (String b s +:+ t) with (String b (s +:+ t)).
  change (String b s +:+ str_remove "-" 0 t) with (String b (s +:+ str_remove "-" 0 t)).
  rewrite <-(IH Hs). cbn [str_remove String.prefix].
  destruct (Ascii.ascii_dec _ b) as [<-|_]; [done|done].
Qed.

Lemma lstrip_in_none p s : str_all (λ a, negb (p a)) s = true → lstrip_in p s = s.
Proof. destruct s as [|a s]; [done|]. intros [Ha%negb_true_iff _]%andb_true_iff. simpl. by rewrite Ha. Qed.

Lemma rstrip_in_none p s : str_all (λ a, negb (p a)) s = true → rstrip_in p s = s.
Proof.
  induction s as [|a s IH]; [done|]. intros [Ha%negb_true_iff Hs]%andb_true_iff. simpl.
  rewrite IH by done. destruct s; [by rewrite Ha|done].
Qed.

Lemma str_all_impl (p q : Ascii.ascii → bool) s :
  (∀ a, p a = true → q a = true) → str_all p s = true → str_all q s = true.
Proof.
  intros Hpq. induction s as [|a s IH]; [done|]. intros [Ha Hs]%andb_true_iff. simpl.
  by rewrite (Hpq a Ha), IH.
Qed.

Lemma is_hex_all (q : Ascii.ascii → bool) :
  forallb (λ n, negb (is_hex (Ascii.ascii_of_nat n)) || q (Ascii.ascii_of_nat n)) (seq 0 256) = true →
  ∀ a, is_hex a = true → q a = true.
Proof.
  intros Hall a Ha. rewrite forallb_forall in Hall.
  specialize (Hall (Ascii.nat_of_ascii a)). rewrite Ascii.ascii_nat_embedding, Ha in Hall.
  apply Hall, List.in_seq. pose proof (Ascii.nat_ascii_bounded a). lia.
Qed.

Lemma hex_not_code a n :
  is_hex (Ascii.ascii_of_nat n) = false → is_hex a = true → bool_decide (code_of a = n) = false.
Proof.
  intros Hn Ha. apply bool_decide_eq_false. intros <-. unfold code_of in Hn.
  rewrite Ascii.ascii_nat_embedding in Hn. congruence.
Qed.

Lemma hex_digit_value v : 0 ≤ v < 16 → hex_value (hex_digit v) = Some v.
Proof.
  intros Hv. assert (v = 0 ∨ v = 1 ∨ v = 2 ∨ v = 3 ∨ v = 4 ∨ v = 5 ∨ v = 6 ∨ v = 7 ∨ v = 8 ∨ v = 9 ∨
    v = 10 ∨ v = 11 ∨ v = 12 ∨ v = 13 ∨ v = 14 ∨ v = 15) as Hcases by lia.
  repeat destruct Hcases as [->|Hcases]; try subst v; reflexivity.
Qed.

Lemma fixed_hex_all n v acc : str_all is_hex acc = true → str_all is_hex (fixed_hex n v acc) = true.
Proof.
  revert v acc. induction n as [|n IH]; intros v acc Hacc; [done|]. apply IH. simpl.
  unfold is_hex. rewrite hex_digit_value by (by apply Z.mod_pos_bound). exact Hacc.
Qed.

Lemma fixed_hex_length n v acc : String.length (fixed_hex n v acc) = (n + String.length acc)%nat.
Proof. revert v acc. induction n as [|n IH]; intros v acc; [done|]. simpl. rewrite IH. simpl. lia. Qed.

Lemma hex_body_fixed n v acc s b :
  (n = 0%nat → b = true ∨ s ≠ "") → 0 ≤ v < 16 ^ Z.of_nat n → str_all is_hex s = true →
  hex_body acc b (fixed_hex n v s) = hex_body (acc * 16 ^ Z.of_nat n + v) true s.
Proof.
  revert v s b. induction n as [|n IH]; intros v s b Hn Hv Hs.
  - simpl in *. replace v with 0 by lia. rewrite Z.mul_1_r, Z.add_0_r.
    destruct s as [|a s]; [destruct (Hn eq_refl) as [->|?]; done|].
    apply andb_true_iff in Hs as [[x Hx]%bool_decide_eq_true _]. simpl. by rewrite Hx.
  - cbn [fixed_hex]. rewrite Nat2Z.inj_succ, Z.pow_succ_r in * by lia.
    pose proof (Z.mod_pos_bound v 16 eq_refl).
    rewrite IH; [| |split; [apply Z.div_pos; lia|apply Z.div_lt_upper_bound; lia]|].
    + cbn [hex_body]. rewrite hex_digit_value by done. f_equal.
      rewrite (Z.div_mod v 16) at 3 by done. ring.
    + right. done.
    + simpl. unfold is_hex at 1. by rewrite hex_digit_value.
Qed.

Lemma str_strip_hex s : str_all is_hex s = true → str_strip s = s.
Proof.
  intros Hs. assert (∀ a, is_hex a = true → is_space a = false) as Hsp.
  { intros a Ha. apply negb_true_iff. by apply (is_hex_all (λ a, negb (is_space a))). }
  assert (str_lstrip s = s) as Hl.
  { destruct s as [|a s]; [done|]. apply andb_true_iff in Hs as [Ha _]. simpl. by rewrite Hsp. }
  unfold str_strip. rewrite Hl. clear Hl. induction s as [|a s IH]; [done|].
  apply andb_true_iff in Hs as [Ha Hs]. simpl. rewrite IH by done. destruct s; [by rewrite Hsp|done].
Qed.

Lemma int_16_hex s : s ≠ "" → str_all is_hex s = true → int_16 s = hex_body 0 false s.
Proof.
  intros Hne Hs. unfold int_16. rewrite str_strip_hex by done. destruct s as [|a s]; [done|].
  apply andb_true_iff in Hs as [Ha Hs].
  assert (bool_decide (code_of a = 45%nat) = false ∧ bool_decide (code_of a = 43%nat) = false) as [-> ->].
  { by split; apply hex_not_code. }
  assert (∀ b, is_hex b = false → String.prefix (String (hex_digit 0) (String b "")) (String a s) = false) as Hx.
  { intros b Hb. simpl. case_match; [|done]. destruct s as [|c s]; [done|].
   
    apply andb_true_iff in Hs as [Hc _]. cbn [String.prefix].
    destruct (Ascii.ascii_dec b c); [congruence|done]. }
  pose proof (Hx (Ascii.ascii_of_nat 120) eq_refl) as Hlow.
  pose proof (Hx (Ascii.ascii_of_nat 88) eq_refl) as Hup. unfold hex_prefixed.
  change (String (hex_digit 0) _) with "0x" in Hlow. change (String (hex_digit 0) _) with "0X" in Hup.
  by rewrite Hlow, Hup.
Qed.

Lemma str_len_hex s : str_all is_hex s = true → str_len s = Z.of_nat (String.length s).
Proof.
  induction s as [|a s IH]; [done|]. intros [Ha Hs]%andb_true_iff. cbn [str_len String.length].
  assert (((128 <=? code_of a) && (code_of a <? 192))%nat = false) as ->.
  { apply negb_true_iff. by apply (is_hex_all (λ a, negb ((128 <=? code_of a) && (code_of a <? 192))%nat)). }
  rewrite IH by done. lia.
Qed.

Lemma uuid_hex_all id : str_all is_hex (uuid_hex id) = true.
Proof. by apply fixed_hex_all. Qed.

Lemma str_uuid_chars id : str_all (λ a, is_hex a || bool_decide (code_of a = 45%nat)) (str_uuid id) = true.
Proof.
  assert (∀ s, str_all is_hex s = true → str_all (λ a, is_hex a || bool_decide (code_of a = 45%nat)) s = true) as Hh.
  { intros s. apply str_all_impl. by intros a ->. }
  pose proof (uuid_hex_all id). unfold str_uuid. cbv zeta. rewrite !str_all_app.
  change (str_all _ "-") with true. repeat rewrite Hh by auto using str_all_take, str_all_drop.
  done.
Qed.

Lemma str_uuid_undashed id : str_remove "-" 0 (str_uuid id) = uuid_hex id.
Proof.
  pose proof (uuid_hex_all id) as Hh. unfold str_uuid. cbv zeta.
  assert (∀ t, str_remove "-" 0 ("-" +:+ t) = str_remove "-" 0 t) as Hd by (by intros [|a t]).
  do 4 rewrite str_remove_dash, Hd by auto using str_all_take, str_all_drop.
  rewrite (str_remove_none is_hex) by auto using str_all_drop.
  rewrite <-(drop_drop_str 4 _ _ : str_drop 4 (str_drop 16 (uuid_hex id)) = str_drop 20 (uuid_hex id)), take_drop_str.
  done.
Qed.

(** [UUID(str(id)) == id]. *)
Lemma uuid_text_round_trip id : (id < 2 ^ 128)%N → uuid_of_text (str_uuid id) = Some id.
Proof.
  intros Hid. pose proof (str_uuid_chars id) as Hc. unfold uuid_of_text.
  assert (∀ a, is_hex a || bool_decide (code_of a = 45%nat) = true → is_brace a = false) as Hb.
  { intros a [Ha|Ha%bool_decide_eq_true]%orb_true_iff.
    - apply negb_true_iff. by apply (is_hex_all (λ a, negb (is_brace a))).
    - unfold is_brace. by rewrite Ha. }
  assert (∀ needle, str_remove (String (Ascii.ascii_of_nat 117) needle) 0 (str_uuid id) = str_uuid id) as Hu.
  { intros needle. by apply (str_remove_none (λ a, is_hex a || bool_decide (code_of a = 45%nat))). }
  pose proof (Hu "rn:") as Hurn. pose proof (Hu "uid:") as Huuid.
  change (String _ "rn:") with "urn:" in Hurn. change (String _ "uid:") with "uuid:" in Huuid.
  rewrite Hurn, Huuid.
  rewrite lstrip_in_none, rstrip_in_none, str_uuid_undashed;
    try (eapply str_all_impl; [|exact Hc]; intros a Ha; by rewrite Hb).
  rewrite str_len_hex by apply uuid_hex_all. unfold uuid_hex at 1. rewrite fixed_hex_length. simpl negb. cbv iota.
  rewrite int_16_hex by (try apply uuid_hex_all; done).
  unfold uuid_hex. rewrite hex_body_fixed by (try done; lia). simpl hex_body.
  change (0 * _ + Z.of_N id) with (Z.of_N id). cbn [mbind option_bind].
  rewrite (proj2 (Z.leb_le 0 _)), (proj2 (Z.ltb_lt _ _)) by lia. simpl. by rewrite N2Z.id.
Qed.

Lemma str_uuid_inj id id' :
  (id < 2 ^ 128)%N → (id' < 2 ^ 128)%N → str_uuid id = str_uuid id' → id = id'.
Proof.
  intros Hid Hid' Heq. apply uuid_text_round_trip in Hid, Hid'. congruence.
Qed.
