(* ===== verification/PveJobs.v ===== *)
(** * Jobs on a cluster

    What app/services/backup_runner.py and restore_runner.py have in common: claim an
    operation and its run, submit one task to the cluster through a client of
    Client.v, poll the task, end both rows.  The two runners are this with their
    [job_kind] and [job_call]: see BackupRunner.v and RestoreRunner.v. *)
From Stdlib Require Import Lia.
From S2P Require Import Prelude Models Database AuditLog Operations PveApi PowerRunner.
From S2P Require Import IpAddr Endpoints Client Clusters.

(** [asyncio.sleep] of that many milliseconds. *)
Class Sleep (E : Type) := { env_sleep : Z → E → E }.

(** The row that goes with the operation, [BackupRun] or [RestoreRun]. *)
Class RunRow (R : Type) `{Table R} := {
  run_operation : R → N;
  run_status : R → OperationStatus;
  run_finished_at : R → option Z;
  run_begun : Z → R → R;
  run_ended : OperationStatus → Z → R → R }.

(** How a kind of job words its summary, audit event and task. *)
Record job_kind (R : Type) := mkJobKind {
  jk_label : string; jk_unknown : string; jk_step : string;
  jk_audit : operation → option R → option user → OperationStatus → option string →
             option pve_task → audit_args }.
Arguments mkJobKind {R} _ _ _ _.
Arguments jk_label {R} _.
Arguments jk_unknown {R} _.
Arguments jk_step {R} _.
Arguments jk_audit {R} _.

(** What one job asks of the cluster: the client, a check before the submission with
    the error code of its refusal, the submission, where its task runs, and what a
    success adds to the rows. *)
Record job_call (E R : Type) := mkJobCall {
  jc_open : DBM E ProxmoxClient;
  jc_ready : ProxmoxClient → M E bool; jc_conflict : string;
  jc_submit : ProxmoxClient → M E string;
  jc_cluster_id : N; jc_workload_id : N; jc_node : string;
  jc_done : ProxmoxClient → pve_task → operation → R → DBM E (operation * R) }.
Arguments mkJobCall {E R} _ _ _ _ _ _ _ _.
Arguments jc_open {E R} _.
Arguments jc_ready {E R} _ _.
Arguments jc_conflict {E R} _.
Arguments jc_submit {E R} _ _.
Arguments jc_cluster_id {E R} _.
Arguments jc_workload_id {E R} _.
Arguments jc_node {E R} _.
Arguments jc_done {E R} _ _ _ _.

(** [try: await m except AppError as exc]. *)
Definition attempt {E A} (m : M E A) : DBM E (pve_error + A) :=
  catch_app (a ← on_env m; mret (inr a)) (λ error, mret (inl error)).

Section jobs.
Context {E : Type} `{Runtime E} `{Resolver E} `{HttpTransport E} `{Sleep E} `{Digests}.
Context {R : Type} `{RunRow R}.
Context (settings : Settings) (kind : job_kind R).
Implicit Types (o : operation) (r : R) (task : pve_task) (actor : option user).

Definition sleep_ms (ms : Z) : DBM E () := from_env (λ e, (tt, env_sleep ms e)).

(** [_finish]: the operation and its run. *)
Definition ended_operation o (status : OperationStatus) (retryable : bool)
    (error_code : option string) (now : Z) : operation :=
  o <| op_status := status |>
    <| op_finished_at := Some now |>
    <| op_heartbeat_at := Some now |>
    <| op_error_code := error_code |>
    <| op_error_summary := (λ c, jk_label kind +:+ " operation failed (" +:+ c +:+ ").") <$> error_code |>
    <| op_retryable := Some retryable |>
    <| op_version := op_version o + 1 |>.

Definition finish o (run : option R) actor (status : OperationStatus) (retryable : bool)
    (error_code : option string) (task : option pve_task) : DBM E () :=
  now ← datetime_now;
  db_save (ended_operation o status retryable error_code now);;
  match run with
  | Some r => db_save (run_ended status now r)
  | None => mret tt
  end;;
  add_audit_event (jk_audit kind o run actor status error_code task);;
  commit.

(** The task after it was seen stopped: its exit status, the time. *)
Definition completed_task task (exit_status : option json) (now : Z) : pve_task :=
  task <| pt_pve_exit_status := match exit_status with
                                | None | Some JNull => None
                                | Some j => Some (py_str j)
                                end |>
       <| pt_completed_at := Some now |>.

(** The part of [_poll] after an answer that is not "running". *)
Definition poll_verdict (call : job_call E R) o r actor task (client : ProxmoxClient)
    (status : json_object) : DBM E () :=
  now ← datetime_now;
  let exit_status := obj_get "exitstatus" status in
  let task := completed_task task exit_status now in
  if negb (json_is (obj_get "status" status) "stopped") || negb (json_is exit_status "OK") then
    let task := task <| pt_status := "FAILED" |> in
    db_save task;;
    finish o (Some r) actor OS_FAILED false (Some "PVE_TASK_FAILED") (Some task)
  else
    let task := task <| pt_status := "SUCCEEDED" |> in
    db_save task;;
    rows ← jc_done call client task o r;
    finish rows.1 (Some rows.2) actor OS_SUCCEEDED false None (Some task).

(** The loop of [_poll]; an iteration counts an attempt, so the attempts left bound
    it ([poll_fuel]). *)
Fixpoint poll_loop (call : job_call E R) (fuel : nat) (deadline : Z) o r actor task
    (client : ProxmoxClient) : DBM E () :=
  now ← datetime_now;
  if (now <? deadline) && (pt_poll_attempts task <? pve_task_max_poll_attempts settings) then
    match fuel with
    | O => raise RuntimeError
    | S fuel =>
      polled_at ← datetime_now;
      let task := task <| pt_poll_attempts := pt_poll_attempts task + 1 |>
                       <| pt_last_polled_at := Some polled_at |> in
      let o := o <| op_heartbeat_at := Some polled_at |> in
      db_save task;; db_save o;;
      answer ← attempt (get_task_status client (pt_pve_node task) (pt_upid task));
      match answer with
      | inl error =>
        if retryable_code (pe_code error) then
          commit;; sleep_ms (pve_task_poll_interval_ms settings);;
          poll_loop call fuel deadline o r actor task client
        else
          let task := task <| pt_status := "FAILED" |> <| pt_error_code := Some (pe_code error) |> in
          db_save task;;
          finish o (Some r) actor OS_FAILED false (Some (pe_code error)) (Some task)
      | inr status =>
        if json_is (obj_get "status" status) "running" then
          commit;; sleep_ms (pve_task_poll_interval_ms settings);;
          poll_loop call fuel deadline o r actor task client
        else poll_verdict call o r actor task client status
      end
    end
  else
    let task := task <| pt_status := "TIMEOUT" |> <| pt_error_code := Some "PVE_TASK_TIMEOUT" |> in
    db_save task;;
    finish o (Some r) actor OS_TIMEOUT true (Some "PVE_TASK_TIMEOUT") (Some task).

Definition poll (call : job_call E R) o r actor task (client : ProxmoxClient) : DBM E () :=
  now ← datetime_now;
  poll_loop call (poll_fuel settings task) (now + seconds (pve_task_timeout_seconds settings))
    o r actor task client.

Definition new_pve_task (call : job_call E R) (id : N) o (upid : string) (submitted_at : Z) : pve_task := {|
  pt_id := id; pt_operation_id := op_id o; pt_cluster_id := jc_cluster_id call;
  pt_workload_id := jc_workload_id call; pt_step_name := jk_step kind; pt_upid := upid;
  pt_status := "RUNNING"; pt_pve_node := jc_node call; pt_pve_exit_status := None;
  pt_submitted_at := submitted_at; pt_last_polled_at := None; pt_completed_at := None;
  pt_poll_attempts := 0; pt_error_code := None; pt_error_summary := None |}.

(** Submit, record the task, poll. *)
Definition submit_job (call : job_call E R) o r actor (client : ProxmoxClient) : DBM E () :=
  ready ← on_env (jc_ready call client);
  if negb ready then finish o (Some r) actor OS_FAILED false (Some (jc_conflict call)) None
  else
    answer ← attempt (jc_submit call client);
    match answer with
    | inl error =>
      finish o (Some r) actor
        (if bool_decide (pe_code error = "PVE_TIMEOUT") then OS_TIMEOUT else OS_FAILED)
        false (Some (pe_code error)) None
    | inr upid =>
      id ← uuid4;
      submitted_at ← datetime_now;
      let task := new_pve_task call id o upid submitted_at in
      db_add task;;
      now ← datetime_now;
      let o := o <| op_heartbeat_at := Some now |> in
      db_save o;;
      commit;;
      poll call o r actor task client
    end.

(** [run] past its checks: the lease, the claim, the work. *)
Definition run_job (call : job_call E R) o r actor : DBM E () :=
  task ← db_scalar (λ t, bool_decide (pt_operation_id t = op_id o));
  now ← datetime_now;
  if lease_held settings o task now then rollback
  else if bool_decide (op_status o = OS_RUNNING) && bool_decide (task = None)
  then finish o (Some r) actor OS_FAILED false (Some (jk_unknown kind)) None
  else
    let o := claimed o now now in
    let r := run_begun now r in
    db_save o;; db_save r;;
    commit;;
    catch_app
      (client ← jc_open call;
       match task with
       | None => submit_job call o r actor client
       | Some task => poll call o r actor task client
       end)
      (λ error, finish o (Some r) actor OS_FAILED false (Some (pe_code error)) task).
End jobs.
