(* ===== verification/BackupRunner.v ===== *)
(** * The backup runner

    app/services/backup_runner.py: [BackupOperationRunner.run] as the worker executes it
    for a QUEUED or redelivered operation, as a job of PveJobs.v.  JSON numbers are
    integers here. *)
From Stdlib Require Import Lia.
From S2P Require Import Prelude Models Database AuditLog Operations PveApi PowerRunner.
From S2P Require Import IpAddr Endpoints Client Clusters BackupSize PveJobs.

#[export] Instance backup_run_row : RunRow backup_run := {|
  run_operation := br_operation_id; run_status := br_status; run_finished_at := br_finished_at;
  run_begun now r := r <| br_status := OS_RUNNING |>
                       <| br_started_at := Some (default now (br_started_at r)) |>;
  run_ended status now r := r <| br_status := status |> <| br_finished_at := Some now |> |}.

(** ** The newest snapshot *)

(** [float(z)]: 53 significant bits, half to even; [None] for [OverflowError]. *)
Definition float_of_int (z : Z) : option Z :=
  let excess := Z.max 0 (Z.log2 (Z.abs z) - 52) in
  let v := half_even_div (Z.abs z) (2 ^ excess) * 2 ^ excess in
  if 2 ^ 1024 <=? v then None else Some (Z.sgn z * v).

(** [datetime.fromtimestamp(z, tz=UTC)] in microseconds; [None] outside the years 1 to
    9999, where Python raises [ValueError], [OverflowError] or [OSError]. *)
Definition fromtimestamp (z : Z) : option Z :=
  if (-62135596800 <=? z) && (z <=? 253402300799) then Some (seconds z) else None.

Example numbers :
  map float_of_int [2 ^ 53; 2 ^ 53 + 1; 2 ^ 53 + 3; -5; 2 ^ 1024] =
    [Some (2 ^ 53); Some (2 ^ 53); Some (2 ^ 53 + 4); Some (-5); None] ∧
  fromtimestamp 1 = Some 1000000 ∧ fromtimestamp (10 ^ 12) = None.
Proof. split_and!; vm_compute; reflexivity. Qed.

(** [value in {None, vmid, str(vmid)}]: [None] where the value cannot be hashed. *)
Definition in_vmid_set (vmid : Z) (value : option json) : option bool :=
  match value with
  | None | Some JNull => Some true
  | Some (JStr s) => Some (bool_decide (s = pretty vmid))
  | Some (JList _ | JObj _) => None
  | _ => Some (bool_decide (as_int value = Some vmid))
  end.

(** The condition of the comprehension. *)
Definition is_candidate (vmid : Z) (item : json_object) : option bool :=
  match obj_get "volid" item with
  | Some (JStr _) =>
    if json_is (Some (default (JStr "backup") (obj_get "content" item))) "backup"
    then in_vmid_set vmid (obj_get "vmid" item) else Some false
  | _ => Some false
  end.

Fixpoint filter_option {A} (p : A → option bool) (l : list A) : option (list A) :=
  match l with
  | [] => Some []
  | a :: l =>
    match p a, filter_option p l with
    | Some true, Some l => Some (a :: l)
    | Some false, Some l => Some l
    | _, _ => None
    end
  end.

Definition timestamp (item : json_object) : option Z :=
  match as_int (obj_get "ctime" item) with Some z => float_of_int z | None => Some 0 end.

(** [max(candidates, key=timestamp, default=None)]: the first of the largest. *)
Fixpoint latest_of (best : option (json_object * Z)) (items : list (json_object * Z)) : option json_object :=
  match items with
  | [] => fst <$> best
  | (item, t) :: items =>
    latest_of (match best with
               | Some (_, u) => if u <? t then Some (item, t) else best
               | None => Some (item, t)
               end) items
  end.

Definition _latest_snapshot {S} (content : list json_object) (vmid : Z) : M S (option json_object) :=
  candidates ← or_raise TypeError (filter_option (is_candidate vmid) content);
  timed ← or_raise OverflowError
    (mapM (λ item, t ← timestamp item; Some (item, t)) candidates);
  mret (latest_of None timed).

Section runner.
Context {E : Type} `{Runtime E} `{Resolver E} `{HttpTransport E} `{CredentialSecrets E} `{Sleep E} `{Digests}.
Context (settings : Settings) (pve : PveSettings).

Definition backup_audit (o : operation) (run : option backup_run) (actor : option user)
    (status : OperationStatus) (error_code : option string) (task : option pve_task) : audit_args :=
  (audit_event "WORKLOAD_BACKUP"
      (if bool_decide (status = OS_SUCCEEDED) then "SUCCEEDED" else "FAILED") None)
    <| a_actor_user_id := Some (match actor with Some a => u_id a | None => op_requested_by_id o end) |>
    <| a_actor_role := u_role <$> actor |>
    <| a_organization_id := op_organization_id o |>
    <| a_workload_id := Some (op_workload_id o) |>
    <| a_operation_id := Some (op_id o) |>
    <| a_source_ip := Some (op_source_ip o) |>
    <| a_pve_upid := pt_upid <$> task |>
    <| a_target_type := Some "workload" |>
    <| a_target_id := Some (JUuid (op_workload_id o)) |>
    <| a_details := Some
         [("storage_id", default (JStr "") (obj_get "storage_id" (op_result o)));
          ("status", JStr (OperationStatus_value status));
          ("error_code", JStr (str_or error_code ""))] |>
    <| a_error_code := error_code |>.

Definition backup_kind : job_kind backup_run :=
  mkJobKind "Backup" "BACKUP_SUBMISSION_STATE_UNKNOWN" "backup" backup_audit.

Definition _finish := finish (E := E) backup_kind.

Definition open_cluster (c : cluster) (credential : cluster_credential) : DBM E ProxmoxClient :=
  secret ← _decrypt (cl_id c) credential;
  on_env (ProxmoxClient_init (pve_allowed_hosts pve) (pve_allowed_networks pve)
            (cl_api_base_url c) (cc_token_identifier credential) secret (cl_ca_bundle_pem c)).

Definition _open_client (wl : workload) : DBM E ProxmoxClient :=
  c ← db_get cluster (wl_cluster_id wl);
  credential ← db_scalar (active_credential_of (wl_cluster_id wl));
  match c, credential with
  | Some c, Some credential =>
    raise_if (negb (cl_is_active c))
      (app_error 409 "CLUSTER_UNAVAILABLE" "The workload cluster is unavailable.");;
    open_cluster c credential
  | _, _ => raise (app_error 409 "CLUSTER_UNAVAILABLE" "The workload cluster is unavailable.")
  end.

(** What the storage reports of the new snapshot; whether that is still pending. *)
Definition snapshot_fields (r : backup_run) (wl : workload) (target : backup_target)
    (client : ProxmoxClient) : DBM E (backup_run * bool) :=
  content ← attempt (get_backup_content client (wl_node wl) (bt_storage_id target) (wl_vmid wl));
  match content with
  | inl _ => mret (r, true)
  | inr content =>
    snapshot ← _latest_snapshot content (wl_vmid wl);
    match snapshot with
    | None => mret (r, true)
    | Some snapshot =>
      let r := r <| br_snapshot_volume_id := py_str <$> obj_get "volid" snapshot |> in
      r ← match as_int (obj_get "ctime" snapshot) with
          | Some ctime =>
            t ← or_raise ValueError (fromtimestamp ctime);
            mret (r <| br_snapshot_time := Some t |>)
          | None => mret r
          end;
      mret (match as_int (obj_get "size" snapshot) with
            | Some size => if 0 <=? size then r <| br_size_bytes := Some size |> else r
            | None => r
            end, false)
    end
  end.

(** What the task log reports as sent; whether that is still pending. *)
Definition transfer_fields (r : backup_run) (task : pve_task) (client : ProxmoxClient)
  : DBM E (backup_run * bool) :=
  log ← attempt (get_task_log client (pt_pve_node task) (pt_upid task));
  mret match log with
       | inl _ => (r, true)
       | inr log => (r <| br_transferred_bytes := backup_transfer_bytes log |>,
                     bool_decide (backup_transfer_bytes log = None))
       end.

Definition backup_done (wl : workload) (target : backup_target) (client : ProxmoxClient)
    (task : pve_task) (o : operation) (r : backup_run) : DBM E (operation * backup_run) :=
  '(r, metadata_pending) ← snapshot_fields r wl target client;
  '(r, transfer_measurement_pending) ← transfer_fields r task client;
  mret (o <| op_result := obj_merge (op_result o)
          [("snapshot_volume_id", json_of_opt JStr (br_snapshot_volume_id r));
           ("metadata_pending", JBool metadata_pending);
           ("transfer_measurement_pending", JBool transfer_measurement_pending)] |>, r).

Definition backup_call (r : backup_run) (wl : workload) (target : backup_target)
  : job_call E backup_run :=
  mkJobCall (_open_client wl) (λ _, mret true) ""
    (λ client, submit_guest_backup client (wl_node wl) (wl_vmid wl) (bt_storage_id target)
                 (br_mode r) (br_compression r))
    (wl_cluster_id wl) (wl_id wl) (wl_node wl) (backup_done wl target).

Definition _poll (r : backup_run) (wl : workload) (target : backup_target) :=
  poll settings backup_kind (backup_call r wl target).

(** The workload and the target can still be used. *)
Definition backup_usable (wl : workload) (target : backup_target) : bool :=
  wl_is_present wl && negb (wl_is_template wl) && bool_decide (wl_kind wl ∈ ["QEMU"; "LXC"]) &&
  bt_is_enabled target && bool_decide (bt_cluster_id target = wl_cluster_id wl).

Definition backup_actor (actor : option user) : bool :=
  match actor with
  | Some a => u_is_active a && bool_decide (u_role a ∈ [SUPER_ADMIN; OPERATOR])
  | None => false
  end.

Definition run (operation_id : N) : DBM E () :=
  row ← db_get operation operation_id;
  match row with
  | None => mret tt
  | Some o =>
    if bool_decide (op_operation_type o ≠ "WORKLOAD_BACKUP") || op_terminal o then mret tt
    else
      run ← db_scalar (λ r, bool_decide (br_operation_id r = op_id o));
      wl ← db_get workload (op_workload_id o);
      target ← match run with
               | Some r => db_get backup_target (br_backup_target_id r)
               | None => mret None
               end;
      actor ← db_get user (op_requested_by_id o);
      match run, wl, target with
      | Some r, Some wl, Some target =>
        if negb (backup_usable wl target)
        then _finish o run actor OS_FAILED false (Some "BACKUP_TARGET_OR_WORKLOAD_UNAVAILABLE") None
        else if negb (backup_actor actor)
        then _finish o run actor OS_FAILED false (Some "PERMISSION_REVOKED") None
        else run_job settings backup_kind (backup_call r wl target) o r actor
      | _, _, _ =>
        _finish o run actor OS_FAILED false (Some "BACKUP_TARGET_OR_WORKLOAD_UNAVAILABLE") None
      end
  end.

Definition run_backup_operation (operation_id : N) : DBM E () := run operation_id.
End runner.
