(* ===== verification/RestoreRunner.v ===== *)
(** * The restore runner

    app/services/restore_runner.py: [RestoreOperationRunner.run], as a job of
    PveJobs.v. *)
From Stdlib Require Import Lia.
From S2P Require Import Prelude Models Database AuditLog Operations PveApi PowerRunner.
From S2P Require Import IpAddr Endpoints Client Clusters BackupSize PveJobs BackupRunner.

#[export] Instance restore_run_row : RunRow restore_run := {|
  run_operation := rr_operation_id; run_status := rr_status; run_finished_at := rr_finished_at;
  run_begun now r := r <| rr_status := OS_RUNNING |>
                       <| rr_started_at := Some (default now (rr_started_at r)) |>;
  run_ended status now r := r <| rr_status := status |> <| rr_finished_at := Some now |> |}.

Section runner.
Context {E : Type} `{Runtime E} `{Resolver E} `{HttpTransport E} `{CredentialSecrets E} `{Sleep E} `{Digests}.
Context (settings : Settings) (pve : PveSettings).

Definition restore_audit (o : operation) (restore : option restore_run) (actor : option user)
    (status : OperationStatus) (error_code : option string) (task : option pve_task) : audit_args :=
  (audit_event "WORKLOAD_RESTORE"
      (if bool_decide (status = OS_SUCCEEDED) then "SUCCEEDED" else "FAILED") None)
    <| a_actor_user_id := Some (match actor with Some a => u_id a | None => op_requested_by_id o end) |>
    <| a_actor_role := u_role <$> actor |>
    <| a_workload_id := Some (op_workload_id o) |>
    <| a_operation_id := Some (op_id o) |>
    <| a_source_ip := Some (op_source_ip o) |>
    <| a_pve_upid := pt_upid <$> task |>
    <| a_target_type := Some "backup_run" |>
    <| a_target_id := (λ r, JUuid (rr_backup_run_id r)) <$> restore |>
    <| a_details := Some
         [("target_node", JStr (match restore with Some r => rr_target_node r | None => "" end));
          ("target_vmid", JInt (match restore with Some r => rr_target_vmid r | None => 0 end));
          ("status", JStr (OperationStatus_value status));
          ("error_code", JStr (str_or error_code ""))] |>
    <| a_error_code := error_code |>.

Definition restore_kind : job_kind restore_run :=
  mkJobKind "Restore" "RESTORE_SUBMISSION_STATE_UNKNOWN" "restore" restore_audit.

Definition _finish := finish (E := E) restore_kind.

(** [item.get("node") == node and str(item.get("status", "")).lower() == "online"]. *)
Definition node_online (node : string) (item : json_object) : bool :=
  json_is (obj_get "node" item) node &&
  bool_decide (str_lower (py_str (default (JStr "") (obj_get "status" item))) = "online").

(** [any(item.get("vmid") in {vmid, str(vmid)} for item in guests)]: the iteration stops
    at the first match, [TypeError] for a value that cannot be hashed. *)
Definition same_vmid (vmid : Z) (item : json_object) : option bool :=
  match obj_get "vmid" item with
  | None | Some JNull => Some false
  | value => in_vmid_set vmid value
  end.

Fixpoint vmid_taken (vmid : Z) (guests : list json_object) : option bool :=
  match guests with
  | [] => Some false
  | item :: guests =>
    match same_vmid vmid item with
    | Some false => vmid_taken vmid guests
    | taken => taken
    end
  end.

Definition _target_is_free (restore : restore_run) (client : ProxmoxClient) : M E bool :=
  nodes ← get_nodes client;
  if negb (existsb (node_online (rr_target_node restore)) nodes) then mret false
  else
    guests ← get_guests client;
    negb <$> or_raise TypeError (vmid_taken (rr_target_vmid restore) guests).

Definition _open_client (c : cluster) : DBM E ProxmoxClient :=
  credential ← db_scalar (active_credential_of (cl_id c));
  credential ← or_raise
    (app_error 409 "CLUSTER_UNAVAILABLE" "The restore cluster is unavailable.") credential;
  open_cluster pve c credential.

Definition restore_done (client : ProxmoxClient) (task : pve_task) (o : operation) (r : restore_run)
  : DBM E (operation * restore_run) :=
  mret (o <| op_result := obj_merge (op_result o) [("restored", JBool true)] |>, r).

Definition restore_call (r : restore_run) (archive : string) (wl : workload) (c : cluster)
  : job_call E restore_run :=
  mkJobCall (_open_client c) (_target_is_free r) "RESTORE_TARGET_CONFLICT"
    (λ client, submit_guest_restore client (wl_kind wl) (rr_target_node r) archive
                 (rr_target_vmid r) (rr_target_name r))
    (cl_id c) (wl_id wl) (rr_target_node r) restore_done.

Definition _poll (r : restore_run) (archive : string) (wl : workload) (c : cluster) :=
  poll settings restore_kind (restore_call r archive wl c).

(** The snapshot, its target, the source workload and the cluster can be used. *)
Definition restore_usable (backup : backup_run) (archive : string) (target : backup_target)
    (wl : workload) (c : cluster) : bool :=
  str_nonempty archive && bool_decide (br_status backup = OS_SUCCEEDED) && bt_is_enabled target &&
  bool_decide (wl_kind wl ∈ ["QEMU"; "LXC"]) && cl_is_active c.

Definition restore_actor (actor : option user) : bool :=
  match actor with
  | Some a => u_is_active a && bool_decide (u_role a = SUPER_ADMIN)
  | None => false
  end.

Definition run (operation_id : N) : DBM E () :=
  row ← db_get operation operation_id;
  match row with
  | None => mret tt
  | Some o =>
    if bool_decide (op_operation_type o ≠ "WORKLOAD_RESTORE") || op_terminal o then mret tt
    else
      restore ← db_scalar (λ r, bool_decide (rr_operation_id r = op_id o));
      backup ← db_get_opt backup_run (rr_backup_run_id <$> restore);
      target ← db_get_opt backup_target (br_backup_target_id <$> backup);
      wl ← db_get workload (op_workload_id o);
      c ← db_get cluster (op_cluster_id o);
      actor ← db_get user (op_requested_by_id o);
      match restore, backup ≫= br_snapshot_volume_id, backup, target, wl, c with
      | Some r, Some archive, Some backup, Some target, Some wl, Some c =>
        if negb (restore_usable backup archive target wl c)
        then _finish o restore actor OS_FAILED false (Some "RESTORE_SOURCE_UNAVAILABLE") None
        else if negb (restore_actor actor)
        then _finish o restore actor OS_FAILED false (Some "PERMISSION_REVOKED") None
        else run_job settings restore_kind (restore_call r archive wl c) o r actor
      | _, _, _, _, _, _ =>
        _finish o restore actor OS_FAILED false (Some "RESTORE_SOURCE_UNAVAILABLE") None
      end
  end.

Definition run_restore_operation (operation_id : N) : DBM E () := run operation_id.
End runner.
