(* ===== verification/JobTrace.v ===== *)
(** * What a job sends

    Recorded runs of a job of PveJobs.v: only its submission is a POST, it is sent
    after the claim was committed and the check before it passed, and nothing is
    sent for an operation that had been claimed before. *)
From Stdlib Require Import Lia.
From S2P Require Import Prelude Models Database AuditLog Operations PveApi Keeps PowerRunner PowerSettle.
From S2P Require Import IpAddr Endpoints Client ClientProps Clusters ClusterSecrets PveJobs.

#[export] Instance logged_sleep {E} `{Sleep E} : Sleep (logged E) :=
  {| env_sleep ms t := Logged (env_sleep ms (lg_env t)) (lg_events t) |}.

(** ** The submissions on record *)

Definition is_post (request : http_request) : bool := bool_decide (hr_method request = "POST").
Definition posts (rqs : list http_request) : list http_request := filter (λ rq, is_post rq = true) rqs.
Definition posted {E} (t : logged E) : list http_request := posts (requests (lg_events t)).

(** A run that extends the record, with these submissions. *)
Definition grows {E} (rqs : list http_request) (t t' : logged E) : Prop :=
  lg_events t `prefix_of` lg_events t' ∧ posted t' = posted t ++ rqs.

Section grows.
Context {E : Type}.
Implicit Types (t : logged E).

Lemma grows_same t t' : lg_events t' = lg_events t → grows [] t t'.
Proof. intros Heq. unfold grows, posted. rewrite Heq, app_nil_r. by split. Qed.

Lemma grows_trans rqs1 rqs2 t1 t2 t3 :
  grows rqs1 t1 t2 → grows rqs2 t2 t3 → grows (rqs1 ++ rqs2) t1 t3.
Proof.
  intros [Hp1 H1] [Hp2 H2]. split; [by etrans|]. by rewrite H2, H1, app_assoc.
Qed.

Lemma grows_then rqs t1 t2 t3 : grows rqs t1 t2 → grows [] t2 t3 → grows rqs t1 t3.
Proof. intros H1 H2. rewrite <-(app_nil_r rqs). by eapply grows_trans. Qed.

Lemma extends_grows `{Resolver E} self rqs t t' : extends self rqs t t' → grows (posts rqs) t t'.
Proof.
  intros (events & Hev & _ & <-). unfold grows, posted, posts, requests. rewrite Hev. split.
  - by eexists.
  - by rewrite omap_app, filter_app.
Qed.
End grows.

(** What a call of the client may raise, and what escapes its [except AppError]. *)
Definition job_exn (x : exn) : Prop :=
  match x with
  | ValueError | TypeError | OverflowError | TransportError | IntegrityError => True
  | _ => False
  end.
Definition call_exn (x : exn) : Prop :=
  match x with AppError _ _ _ _ => True | _ => job_exn x end.
Definition raises {A} (X : exn → Prop) (r : outcome A) : Prop :=
  match r with Ok _ => True | Raise x => X x end.

Lemma client_exn_call x : client_exn x → call_exn x.
Proof. by destruct x. Qed.

(** A call that submits nothing. *)
Definition quiet {E A} (m : M (logged E) A) : Prop :=
  ∀ t, wp m (λ r t', grows [] t t' ∧ raises call_exn r) t.

(** Nothing but the environment changed; and nothing was submitted. *)
Definition moved {E} (G : E → E → Prop) (w w' : world E) : Prop :=
  w_db w' = w_db w ∧ w_tx w' = w_tx w ∧ w_dup w' = w_dup w ∧ G (w_env w) (w_env w').
Definition still {E} : world (logged E) → world (logged E) → Prop := moved (grows []).

Section quiet.
Context {E : Type} `{Resolver E} `{HttpTransport E}.
Implicit Types (t : logged E) (client : ProxmoxClient).

Lemma quiet_planned {A} (m : M (logged E) A) client plan (P : A → Prop) :
  (∀ t, wp m (planned client plan P t) t) → posts (default [] plan) = [] → quiet m.
Proof.
  intros Hm Hplan t. eapply wp_mono; [apply Hm|]. intros r t' Hr.
  destruct plan as [rqs|]; simpl in *.
  - destruct Hr as (rqs' & Hext & [rest ->] & Hr). split.
    + apply extends_grows in Hext. unfold posts in *. rewrite filter_app in Hplan.
      apply app_eq_nil in Hplan as [Hplan _]. by rewrite Hplan in Hext.
    + destruct r; [done|]. by apply client_exn_call.
  - destruct Hr as [-> ->]. split; [by apply grows_same|done].
Qed.

Lemma quiet_objects client path params : quiet (get_objects client path params).
Proof.
  apply (quiet_planned _ client (Some [Client.get path params]) (λ _, True)); [|done].
  intros t. by apply wp_get_objects.
Qed.

Lemma quiet_ret {A} (a : A) : quiet (mret (M := M (logged E)) a).
Proof. intros t. apply wp_ret. split; [by apply grows_same|done]. Qed.

Lemma quiet_raise {A} x : call_exn x → quiet (raise (S := logged E) (A := A) x).
Proof. intros Hx t. apply wp_raise. split; [by apply grows_same|done]. Qed.

Lemma quiet_or_raise {A} x (o : option A) : call_exn x → quiet (or_raise (S := logged E) x o).
Proof. intros Hx. destruct o; [apply quiet_ret|by apply quiet_raise]. Qed.

Lemma quiet_raise_if b x : call_exn x → quiet (raise_if (S := logged E) b x).
Proof. intros Hx. destruct b; [by apply quiet_raise|apply quiet_ret]. Qed.

Lemma quiet_bind {A B} (m : M (logged E) A) (f : A → M (logged E) B) :
  quiet m → (∀ a, quiet (f a)) → quiet (m ≫= f).
Proof.
  intros Hm Hf t. apply wp_bind. eapply wp_mono; [apply Hm|]. intros [a|x] t' [Hg Hx].
  - eapply wp_mono; [apply Hf|]. intros r t'' [Hg' Hr]. split; [by eapply grows_then|done].
  - done.
Qed.

Lemma quiet_fmap {A B} (f : A → B) (m : M (logged E) A) : quiet m → quiet (f <$> m).
Proof. intros Hm t. apply wp_fmap. eapply wp_mono; [apply Hm|]. by intros [a|x] t'. Qed.

Lemma quiet_task_status client node upid : quiet (get_task_status client node upid).
Proof.
  apply (quiet_planned _ client (call_plan (CGetTaskStatus node upid)) (λ _, True)); [|done].
  intros t. by apply wp_get_dict.
Qed.

Lemma quiet_task_log client node upid : quiet (get_task_log client node upid).
Proof. apply quiet_bind; [by apply quiet_raise_if|]. intros _. apply quiet_objects. Qed.

Lemma quiet_backup_content client node storage vmid :
  quiet (get_backup_content client node storage vmid).
Proof. apply quiet_bind; [by apply quiet_raise_if|]. intros _. apply quiet_objects. Qed.

(** An answer or an [AppError], or another exception of the call. *)
Lemma wp_attempt {A} (G : logged E → logged E → Prop) (m : M (logged E) A)
    (Q : outcome (pve_error + A) → world (logged E) → Prop) w :
  (∀ t, wp m (λ r t', G t t' ∧ raises call_exn r) t) →
  (∀ answer w', moved G w w' → Q (Ok answer) w') →
  (∀ x w', moved G w w' → job_exn x → Q (Raise x) w') → wp (attempt m) Q w.
Proof.
  intros Hm Hok Hx. apply wp_catch_app, wp_bind, wp_on_env. eapply wp_mono; [apply Hm|].
  intros [a|x] t' [Hg Hr]; [apply wp_ret; by apply Hok|].
  destruct x; first [by apply wp_ret, Hok | by apply Hx].
Qed.
End quiet.

Lemma still_refl {E} (w : world (logged E)) : still w w.
Proof. split_and!; try done. by apply grows_same. Qed.

Lemma still_trans {E} (w1 w2 w3 : world (logged E)) : still w1 w2 → still w2 w3 → still w1 w3.
Proof.
  intros (Hd & Ht & Hp & Hg) (Hd' & Ht' & Hp' & Hg'). split_and!; try congruence.
  by eapply grows_then.
Qed.

(** The requests a submission sends: none, or the one of its plan. *)
Definition may_submit {E} (rq : http_request) (t t' : logged E) : Prop :=
  grows [] t t' ∨ grows [rq] t t'.
Definition submits {E A} (rq : http_request) (m : M (logged E) A) : Prop :=
  ∀ t, wp m (λ r t', may_submit rq t t' ∧ raises call_exn r) t.

Lemma submits_planned {E A} `{Resolver E} rq (m : M (logged E) A) client plan (P : A → Prop) :
  (∀ t, wp m (planned client plan P t) t) → (∀ rqs, plan = Some rqs → rqs = [rq]) →
  is_post rq = true → submits rq m.
Proof.
  intros Hm Hplan Hrq t. eapply wp_mono; [apply Hm|]. intros r t' Hr. destruct plan as [rqs|].
  - rewrite (Hplan rqs eq_refl) in Hr. destruct Hr as (rqs' & Hext & Hpre & Hr).
    apply extends_grows in Hext. split.
    + destruct rqs' as [|rq' rqs']; [by left|right]. apply prefix_cons_inv_1 in Hpre as Heq.
      apply prefix_cons_inv_2, prefix_nil_inv in Hpre. subst. revert Hext. unfold posts.
      by rewrite filter_cons_True.
    + destruct r; [done|]. by apply client_exn_call.
  - destruct Hr as [-> ->]. split; [left; by apply grows_same|done].
Qed.

(** ** Laws of the two kinds of job *)

(** The columns of a run that never change: its key, its operation, the target of a
    restore. *)
Class RunLaws (R : Type) `{RunRow R} := {
  run_ident : R → N * N * option (N * Z);
  run_ident_key r s : run_ident r = run_ident s → key r = key s;
  run_ident_operation r s : run_ident r = run_ident s → run_operation r = run_operation s;
  run_begun_ident now r : run_ident (run_begun now r) = run_ident r;
  run_begun_status now r : run_status (run_begun now r) = OS_RUNNING;
  run_ended_ident status now r : run_ident (run_ended status now r) = run_ident r;
  run_ended_status status now r : run_status (run_ended status now r) = status;
  run_ended_finished status now r : run_finished_at (run_ended status now r) = Some now;
  run_rows_set f d : rows (R := R) (set_rows f d) = f (rows d);
  run_rows_operations f d : rows (R := R) (set_rows (R := operation) f d) = rows d;
  run_rows_tasks f d : rows (R := R) (set_rows (R := pve_task) f d) = rows d;
  run_rows_log d log : rows (R := R) (d <| db_audit_logs := log |>) = rows d;
  run_rest_operations f d : db_operations (set_rows (R := R) f d) = db_operations d;
  run_rest_tasks f d : db_pve_tasks (set_rows (R := R) f d) = db_pve_tasks d;
  run_save d r r' : rows d !! key r' = Some r → run_ident r' = run_ident r →
    (run_status r' ∈ [OS_QUEUED; OS_RUNNING] → run_status r ∈ [OS_QUEUED; OS_RUNNING]) →
    integrity d = true → integrity (set_rows <[key r' := r']> d) = true }.

(** What the two jobs have in common: only the submission submits, and neither the
    client nor a success changes what identifies the rows. *)
Record job_laws {E R} `{RunLaws R} (call : job_call (logged E) R) (rq : http_request) : Prop := {
  jl_open w : wp (jc_open call) (λ r w', still w w' ∧ raises call_exn r) w;
  jl_ready client : quiet (jc_ready call client);
  jl_submit client : submits rq (jc_submit call client);
  jl_done client task o r w :
    wp (jc_done call client task o r)
      (λ res w', still w w' ∧
         match res with
         | Ok rows => op_ident rows.1 = op_ident o ∧ op_status rows.1 = op_status o ∧
                      run_ident rows.2 = run_ident r ∧ run_status rows.2 = run_status r
         | Raise x => job_exn x
         end) w }.

(** ** Runs *)

(** The operation is on record as claimed. *)
Definition begun (id : N) (d : db) : Prop :=
  keyed operation d ∧ ∃ o, db_operations d !! id = Some o ∧ op_status o ≠ OS_QUEUED.

Definition begun_if (P : Prop) (id : N) (d : db) : Prop :=
  keyed operation d ∧ (P → begun id d).

Section trace.
Context {E : Type} `{Runtime E} `{Resolver E} `{HttpTransport E} `{Sleep E} `{Digests}.
Context {R : Type} `{RunLaws R}.
Context (settings : Settings) (kind : job_kind R).
Implicit Types (o : operation) (r : R) (task : pve_task) (actor : option user) (P : Prop).
Implicit Types (d : db) (t : logged E).

(** The claim stays on record, and nothing more is submitted. *)
Definition unsent P (id : N) t d t' : Prop := begun_if P id d ∧ grows [] t t'.

Lemma unsent_save_op P P' id t o d e :
  op_id o = id → (P' → op_status o ≠ OS_QUEUED) →
  unsent P id t d e → unsent P' id t (set_rows <[op_id o := o]> d) e.
Proof.
  intros <- Ho [[Hk Hb] Hg]. assert (keyed operation (set_rows <[op_id o := o]> d)) as Hk'
    by exact (lookup_insert_key op_id _ o Hk).
  split; [|done]. split; [done|]. intros HP. split; [done|]. exists o.
  split; [apply lookup_insert_eq|auto].
Qed.

Lemma unsent_task P id t task d e :
  unsent P id t d e → unsent P id t (set_rows <[pt_id task := task]> d) e.
Proof. done. Qed.

Lemma unsent_run P id t r d e :
  unsent P id t d e → unsent P id t (set_rows <[key r := r]> d) e.
Proof.
  unfold unsent, begun_if, begun, keyed. simpl. by rewrite run_rest_operations.
Qed.

Lemma unsent_log P id t log d e : unsent P id t d e → unsent P id t (d <| db_audit_logs := log |>) e.
Proof. done. Qed.

Lemma unsent_env P id t d e e' : unsent P id t d e → grows [] e e' → unsent P id t d e'.
Proof. intros [Hb Hg] Hg'. split; [done|by eapply grows_then]. Qed.

Lemma unsent_lift P id t {A} (f : E → A * E) : keeps (both (unsent P id t)) (from_env (lift_env f)).
Proof. apply inv_from_env. intros d e Hu. eapply unsent_env; [exact Hu|]. by apply grows_same. Qed.

Lemma unsent_sleep P id t ms : keeps (both (unsent P id t)) (sleep_ms ms).
Proof. apply inv_from_env. intros d e Hu. eapply unsent_env; [exact Hu|]. by apply grows_same. Qed.

Lemma unsent_still P id t w w' : both (unsent P id t) w → still w w' → both (unsent P id t) w'.
Proof.
  intros [Hd Ht] (Hd' & Ht' & _ & Hg). split; [rewrite Hd'|rewrite Ht']; by eapply unsent_env.
Qed.

Lemma unsent_attempt P id t {A} (m : M (logged E) A) : quiet m → keeps (both (unsent P id t)) (attempt m).
Proof.
  intros Hm w Hw. eapply (wp_attempt (grows [])); [exact Hm|..]; intros; by eapply unsent_still.
Qed.

Lemma unsent_op P id t o :
  op_id o = id → (P → op_status o ≠ OS_QUEUED) → keeps (both (unsent P id t)) (db_save o).
Proof. intros Hid Ho. apply inv_db_save. intros d e. by eapply unsent_save_op. Qed.
End trace.

#[local] Ltac quiet_step :=
  match goal with
  | |- ∀ _, _ => intros ?
  | |- keeps _ (mbind _ (jc_done _ _ _ _ _)) => fail 1
  | |- keeps _ (mbind _ _) => apply inv_bind
  | |- keeps _ datetime_now => apply unsent_lift
  | |- keeps _ uuid4 => apply unsent_lift
  | |- keeps _ (sleep_ms _) => apply unsent_sleep
  | |- keeps _ (add_audit_event _) => apply inv_audit; intros; by apply unsent_log
  | |- keeps _ (db_save (R := pve_task) _) => apply inv_db_save; intros; by apply unsent_task
  | |- keeps _ (db_add (R := pve_task) _) => apply inv_db_add; intros; by apply unsent_task
  | |- keeps _ (db_save (R := operation) _) => apply unsent_op
  | |- keeps _ (db_save _) => apply inv_db_save; intros; by apply unsent_run
  | |- keeps _ (attempt (get_task_status _ _ _)) => apply unsent_attempt, quiet_task_status
  | |- keeps _ _ => inv_step
  end; cbv beta iota.
#[local] Ltac quiet_run := repeat quiet_step.

Section jobs.
Context {E : Type} `{Runtime E} `{Resolver E} `{HttpTransport E} `{Sleep E} `{Digests}.
Context {R : Type} `{RunLaws R}.
Context (settings : Settings) (kind : job_kind R).
Implicit Types (o : operation) (r : R) (task : pve_task) (actor : option user) (P : Prop).
Implicit Types (d : db) (t : logged E).

Lemma unsent_finish P id t o run actor status retryable code utask :
  op_id o = id → status ≠ OS_QUEUED →
  keeps (both (unsent P id t)) (finish kind o run actor status retryable code utask).
Proof. intros Hid Hst. unfold finish. quiet_run; done. Qed.

Context (call : job_call (logged E) R) (rq : http_request) (laws : job_laws call rq).

Lemma unsent_verdict P id t o r actor task client status :
  op_id o = id → keeps (both (unsent P id t)) (poll_verdict kind call o r actor task client status).
Proof.
  intros Hid. unfold poll_verdict. quiet_run; [by apply unsent_finish|].
  intros w Hw. apply wp_bind. eapply wp_mono; [by apply (jl_done _ _ laws)|].
  intros [rows|x] w' [Hs Hr]; [|by eapply unsent_still].
  apply unsent_finish; [|done|by eapply unsent_still]. by destruct Hr as [[= -> _ _ _ _] _].
Qed.

Lemma unsent_poll_loop P id t fuel deadline o r actor task client :
  op_id o = id → op_status o ≠ OS_QUEUED →
  keeps (both (unsent P id t)) (poll_loop settings kind call fuel deadline o r actor task client).
Proof.
  revert o task. induction fuel as [|fuel IH]; intros o task Hid Hst; simpl; quiet_run;
    try done; first [by apply unsent_finish | by apply unsent_verdict | by apply IH].
Qed.

Lemma unsent_poll P id t o r actor task client :
  op_id o = id → op_status o ≠ OS_QUEUED →
  keeps (both (unsent P id t)) (poll settings kind call o r actor task client).
Proof. intros Hid Hst. unfold poll. quiet_run. by apply unsent_poll_loop. Qed.

(** Everything was submitted after the check passed. *)
Definition checked_submission t t' : Prop :=
  ∃ client t1 t2, jc_ready call client t1 = (Ok true, t2) ∧
    grows [] t t1 ∧ grows [] t1 t2 ∧ grows [rq] t2 t'.

(** At most the checked submission has been sent, after the claim. *)
Definition run_sent (id : N) t (w : world (logged E)) : Prop :=
  ∃ t3, (grows [] t t3 ∨ checked_submission t t3) ∧ both (unsent True id t3) w.

Lemma unsent_sent id t w : both (unsent True id t) w → run_sent id t w.
Proof. intros Hw. exists t. split; [left; by apply grows_same|done]. Qed.

Lemma sent_keeps id t {A} (m : DBM (logged E) A) :
  (∀ t3, keeps (both (unsent True id t3)) m) → keeps (run_sent id t) m.
Proof.
  intros Hm w (t3 & Ht & Hw). eapply wp_mono; [by eapply Hm|]. intros r w' Hw'. by exists t3.
Qed.

Lemma wp_submit_traced id o r actor client t w :
  op_id o = id → op_status o ≠ OS_QUEUED → both (unsent True id t) w →
  wp (submit_job settings kind call o r actor client) (λ _, run_sent id t) w.
Proof.
  intros Hid Hst Hw. unfold submit_job. apply wp_bind, wp_on_env, wp_intro. intros res t2 Hres.
  pose proof (wp_run _ _ _ _ _ (jl_ready _ _ laws client (w_env w)) Hres) as [Hg2 _].
  set (w2 := World (w_db w) (w_tx w) (w_dup w) t2).
  assert (both (unsent True id t) w2) as Hw2 by by apply (unsent_still _ _ _ w).
  destruct res as [[|]|x]; simpl; [| |by apply unsent_sent].
  2: { eapply wp_mono; [by apply (unsent_finish True id t)|]. intros. by apply unsent_sent. }
  assert (∀ w3 w', moved (may_submit rq) w2 w3 → both (unsent True id (w_env w3)) w' →
            run_sent id t w') as Hend.
  { intros w3 w' (_ & _ & _ & Hsub) Hw'. exists (w_env w3). split; [|done].
    destruct Hw as [[_ Hg1] _], Hsub as [Hs|Hs].
    - left. by eapply grows_then, grows_then.
    - right. by exists client, (w_env w), t2. }
  assert (∀ w3, moved (may_submit rq) w2 w3 → both (unsent True id (w_env w3)) w3) as Hstart.
  { intros w3 (Hd & Ht & _). destruct Hw2 as [[Hb _] [Hb' _]].
    unfold both, unsent. rewrite Hd, Ht. split; (split; [done|by apply grows_same]). }
  apply wp_bind, (wp_attempt (may_submit rq)); [apply (jl_submit _ _ laws)|..].
  - intros answer w3 Hm. eapply wp_mono with (Q := λ _, both (unsent True id (w_env w3)));
      [|intros _ w' Hw'; by eapply Hend].
    revert w3 Hm. intros w3 Hm. generalize (Hstart w3 Hm).
    match goal with |- both ?I _ → wp ?m _ _ => assert (keeps (both I) m) as Hk end; [|apply Hk].
    quiet_run; try done; first [by apply unsent_finish; [|case_bool_decide] | by apply unsent_poll].
  - intros x w3 Hm _. apply (Hend w3); [done|by apply Hstart].
Qed.

(** A whole run: an operation claimed before submits nothing. *)
Lemma wp_run_job_traced o r actor t w :
  w_tx w = w_db w → keyed operation (w_db w) → op_active o = true →
  db_operations (w_db w) !! op_id o = Some o → w_env w = t →
  wp (run_job settings kind call o r actor)
    (λ _ w', begun_if (begun (op_id o) (w_db w)) (op_id o) (w_db w') ∧
       (grows [] t (w_env w') ∨
        op_status o = OS_QUEUED ∧ begun (op_id o) (w_db w') ∧ checked_submission t (w_env w'))) w.
Proof.
  intros Htx Hk Ha Ho <-. set (t := w_env w). set (d := w_db w).
  set (Q := λ (_ : outcome ()) w', _).
  assert (∀ w', both (unsent (begun (op_id o) d) (op_id o) t) w' → ∀ res, Q res w') as Hquiet.
  { intros w' [[Hb Hg] _] res. split; [exact Hb|by left]. }
  assert (∀ w', run_sent (op_id o) t w' → op_status o = OS_QUEUED → ∀ res, Q res w') as Hsent.
  { intros w' (t3 & Ht & [[[Hk' Hb] Hg] _]) Hq res. split; [by split; auto|].
    destruct Ht as [Ht|(client & t1 & t2 & Hr & Hg1 & Hg2 & Hg3)]; [left; by eapply grows_then|right].
    split_and!; [done|by apply Hb|]. exists client, t1, t2. split_and!; try done. by eapply grows_then. }
  assert (both (unsent (begun (op_id o) d) (op_id o) t) w) as Hw.
  { split; rewrite ?Htx; (split; [by split|by apply grows_same]). }
  unfold run_job. apply wp_bind, wp_db_scalar. intros task Htask. apply wp_bind.
  eapply wp_mono; [by apply unsent_lift|]. intros [now|x] w1 Hw1; [|by apply Hquiet].
  destruct (lease_held _ _ _ _). { apply wp_rollback, Hquiet. by destruct Hw1. }
  destruct (_ && _) eqn:Hun.
  { eapply wp_mono; [by apply unsent_finish|]. intros. by apply Hquiet. }
  set (o1 := claimed o now now).
  assert (∀ P, unsent P (op_id o) t (set_rows <[key (run_begun now r) := run_begun now r]>
            (set_rows <[op_id o1 := o1]> (w_tx w1))) (w_env w1)) as Hclaim.
  { intros P. apply unsent_run. by eapply unsent_save_op, Hw1. }
  apply wp_bind, wp_db_save, wp_bind, wp_db_save, wp_bind, wp_commit; simpl.
  { intros _. apply Hquiet. split; [apply Hw1|apply Hclaim]. }
  intros _ _. match goal with |- wp _ _ ?w0 => assert (both (unsent True (op_id o) t) w0) as Hw2
    by (split; apply Hclaim) end.
  apply wp_catch_app, wp_bind. eapply wp_mono; [apply (jl_open _ _ laws)|].
  assert (∀ w', both (unsent True (op_id o) t) w' → ∀ res, Q res w') as Hmid.
  { intros w' [[[Hk' Hb] Hg] _] res. split; [by split; auto|by left]. }
  assert (∀ error w', both (unsent True (op_id o) t) w' →
    wp (finish kind o1 (Some (run_begun now r)) actor OS_FAILED false (Some (pe_code error)) task) Q w') as Hf.
  { intros error w' Hw'. eapply wp_mono; [by apply unsent_finish|]. intros. by apply Hmid. }
  intros [client|x] w3 [Hst _]; pose proof (unsent_still _ _ _ _ _ Hw2 Hst) as Hw3.
  2: { destruct x; first [by apply Hf | by apply Hmid]. }
  destruct task as [task|].
  - eapply wp_mono; [by apply (unsent_poll True (op_id o) t)|].
    intros [u|x] w4 Hw4; [by apply Hmid|]. destruct x; first [by apply Hf | by apply Hmid].
  - assert (op_status o = OS_QUEUED) as Hq.
    { unfold op_active in Ha. rewrite andb_true_r in Hun. apply bool_decide_eq_false in Hun.
      by destruct (op_status o). }
    eapply wp_mono; [by apply (wp_submit_traced (op_id o))|].
    intros [u|x] w4 Hw4; [by apply Hsent|]. destruct x; try (by apply Hsent).
    eapply wp_mono; [apply (sent_keeps (op_id o) t); [|exact Hw4]|].
    + intros t3. by apply unsent_finish.
    + intros res w5 Hw5. by apply Hsent.
Qed.
End jobs.
