(* ===== verification/JobEnds.v ===== *)
(** * How a job ends

    A run of a job of PveJobs.v ends the operation and its run together, leaves both
    RUNNING when an exception escapes it, or leaves them alone while another worker's
    lease holds; a success is on record only with a task that stopped with OK. *)
From Stdlib Require Import Lia.
From S2P Require Import Prelude Models Database AuditLog Operations PveApi PowerRunner PowerSettle.
From S2P Require Import IpAddr Endpoints Client ClientProps Clusters ClusterSecrets PveJobs JobTrace.

(** The task of an operation that the cluster reported as stopped with OK. *)
Definition task_succeeded (id : N) (d : db) : Prop :=
  ∃ t, db_pve_tasks d !! pt_id t = Some t ∧ pt_operation_id t = id ∧
    pt_status t = "SUCCEEDED" ∧ pt_pve_exit_status t = Some "OK".

Section ends.
Context {R : Type} `{RunLaws R}.
Implicit Types (o : operation) (r : R) (task : pve_task) (d : db).

(** Both rows are on record, with one status that is not an end. *)
Record at_work o (run : option R) d : Prop := {
  aw_op : ∃ o0, db_operations d !! op_id o = Some o0 ∧ op_ident o0 = op_ident o ∧
                op_status o0 = op_status o;
  aw_active : op_active o = true;
  aw_run r : run = Some r → ∃ r0, rows d !! key r = Some r0 ∧ run_ident r0 = run_ident r ∧
                run_status r0 = op_status o;
  aw_status r : run = Some r → run_status r = op_status o }.

(** The operation has ended, and its run with it. *)
Definition job_ended o (run : option R) d : Prop :=
  ∃ o1, db_operations d !! op_id o = Some o1 ∧ op_ident o1 = op_ident o ∧ op_terminal o1 = true ∧
    is_Some (op_finished_at o1) ∧ is_Some (op_retryable o1) ∧
    (op_error_code o1 = None ↔ op_status o1 = OS_SUCCEEDED) ∧
    (op_status o1 = OS_SUCCEEDED → task_succeeded (op_id o) d) ∧
    ∀ r, run = Some r → ∃ r1, rows d !! key r = Some r1 ∧ run_ident r1 = run_ident r ∧
      run_status r1 = op_status o1 ∧ run_finished_at r1 = op_finished_at o1.

Definition task_on_record task d : Prop :=
  ∃ t0, db_pve_tasks d !! pt_id task = Some t0 ∧ task_ident t0 = task_ident task.

(** *** Saves *)

Lemma at_work_save_op o o' run d :
  at_work o run d → op_ident o' = op_ident o → op_status o' = op_status o →
  at_work o' run (set_rows <[op_id o' := o']> d).
Proof.
  intros [Ho Ha Hr Hst] Hid Heq. split.
  - exists o'. split; [apply lookup_insert_eq|done].
  - unfold op_active in *. by rewrite Heq.
  - intros r Hrun. rewrite run_rows_operations, Heq. by apply Hr.
  - rewrite Heq. exact Hst.
Qed.

Lemma at_work_same_op o o' run d :
  at_work o run d → op_ident o' = op_ident o → op_status o' = op_status o → at_work o' run d.
Proof.
  intros [(o0 & Ho & Hid0 & Hst0) Ha Hr Hst] Hid Heq. split.
  - exists o0. unfold op_ident in *. split_and!; congruence.
  - unfold op_active in *. by rewrite Heq.
  - rewrite Heq. exact Hr.
  - rewrite Heq. exact Hst.
Qed.

Lemma at_work_same_run o r r' d :
  at_work o (Some r) d → run_ident r' = run_ident r → run_status r' = run_status r →
  at_work o (Some r') d.
Proof.
  intros [Ho Ha Hr Hst] Hid Heq. split; try done.
  - intros ? [= <-]. destruct (Hr r eq_refl) as (r0 & Hr0 & Hid0 & Hst0). exists r0.
    rewrite (run_ident_key r' r Hid). split_and!; congruence.
  - intros ? [= <-]. rewrite Heq. by apply Hst.
Qed.

Lemma at_work_task o run task d :
  at_work o run d → at_work o run (set_rows <[pt_id task := task]> d).
Proof. intros [Ho Ha Hr Hst]. split; try done. intros r. rewrite run_rows_tasks. apply Hr. Qed.

Lemma integrity_at_work o o' run d :
  at_work o run d → op_ident o' = op_ident o → integrity d = true →
  integrity (set_rows <[op_id o' := o']> d) = true.
Proof.
  intros [(o0 & Ho & Hid0 & Hst0) Ha _ _] Hid Hi. split_ident.
  apply (integrity_save_operation d o0 o'); try done; try congruence.
  intros _. unfold op_active in *. by rewrite Hst0.
Qed.

Lemma integrity_on_record task task' d :
  task_on_record task d → task_ident task' = task_ident task → integrity d = true →
  integrity (set_rows <[pt_id task' := task']> d) = true.
Proof.
  intros (t0 & Ht & Hid0) Hid Hi. split_ident.
  apply (integrity_save_task d t0 task'); try done; congruence.
Qed.

Lemma on_record_save task task' d :
  task_ident task' = task_ident task → task_on_record task (set_rows <[pt_id task' := task']> d).
Proof.
  intros Hid. exists task'. split; [|done]. unfold task_ident in Hid. injection Hid as <- _ _ _ _.
  apply lookup_insert_eq.
Qed.

Lemma on_record_ident task task' d :
  task_on_record task d → task_ident task' = task_ident task → task_on_record task' d.
Proof.
  intros (t0 & Ht & Hid0) Hid. exists t0. unfold task_ident in *. split; congruence.
Qed.

(** The claim begins both. *)
Lemma at_work_begun o r now d :
  at_work o (Some r) d → integrity d = true →
  let d' := set_rows <[key (run_begun now r) := run_begun now r]>
              (set_rows <[op_id (claimed o now now) := claimed o now now]> d) in
  at_work (claimed o now now) (Some (run_begun now r)) d' ∧ integrity d' = true.
Proof.
  intros Hw Hi d'. pose proof (run_ident_key _ _ (run_begun_ident now r)) as Hkey.
  destruct (aw_run _ _ _ Hw r eq_refl) as (r0 & Hr0 & Hid0 & Hst0).
  split; [split|].
  - exists (claimed o now now). split; [|done]. unfold d'. rewrite run_rest_operations.
    apply lookup_insert_eq.
  - done.
  - intros ? [= <-]. exists (run_begun now r). split_and!; [|done|by rewrite run_begun_status].
    unfold d'. rewrite run_rows_set. apply lookup_insert_eq.
  - intros ? [= <-]. by rewrite run_begun_status.
  - apply (run_save _ r0).
    + by rewrite run_rows_operations, Hkey.
    + by rewrite run_begun_ident.
    + intros _. rewrite Hst0. pose proof (aw_active _ _ _ Hw) as Ha. unfold op_active in Ha.
      destruct (op_status o); set_solver.
    + by apply (integrity_at_work o _ (Some r)).
Qed.
End ends.

(** ** The parts of a run *)

Section parts.
Context {E : Type} `{Runtime E} `{Resolver E} `{HttpTransport E} `{Sleep E} `{Digests}.
Context {R : Type} `{RunLaws R}.
Context (settings : Settings) (kind : job_kind R).
Implicit Types (o : operation) (r : R) (task : pve_task) (actor : option user).
Implicit Types (w : world (logged E)).

(** Working copy and committed tables are sound, and both rows at work in them. *)
Record in_session o (run : option R) w : Prop := {
  is_tx : at_work o run (w_tx w); is_tx_integrity : integrity (w_tx w) = true;
  is_dup : w_dup w = false;
  is_db : at_work o run (w_db w); is_db_integrity : integrity (w_db w) = true }.

(** Ended, or an exception that [run] does not handle with both still at work. *)
Definition job_result o run (res : outcome ()) w : Prop :=
  integrity (w_db w) = true ∧
  match res with
  | Ok _ => job_ended o run (w_db w)
  | Raise x => job_exn x ∧ at_work o run (w_db w)
  end.

Lemma job_ended_ident o o' run d : op_ident o' = op_ident o → job_ended o' run d → job_ended o run d.
Proof.
  intros Hid (o1 & Ho1 & Hid1 & Hrest). exists o1.
  assert (op_id o' = op_id o) as Heq by (unfold op_ident in Hid; congruence).
  rewrite Heq in Ho1, Hrest. split_and!; try apply Hrest; [done|by rewrite Hid1].
Qed.

Lemma job_ended_run o r r' d :
  run_ident r' = run_ident r → job_ended o (Some r') d → job_ended o (Some r) d.
Proof.
  intros Hid (o1 & Ho1 & Hid1 & Ht & Hf & Hr & Hc & Hs & Hrun). exists o1. split_and!; try done.
  intros ? [= <-]. destruct (Hrun r' eq_refl) as (r1 & Hr1 & Hidr & Hst & Hfin).
  exists r1. rewrite <-(run_ident_key r' r Hid). split_and!; try done. by rewrite Hidr.
Qed.

Lemma job_result_ident o o' run res w :
  op_ident o' = op_ident o → op_status o' = op_status o → job_result o' run res w → job_result o run res w.
Proof.
  intros Hid Hst [Hi Hr]. split; [done|]. destruct res as [u|x]; [by eapply job_ended_ident|].
  destruct Hr as [Hx Hw]. split; [done|]. by eapply at_work_same_op.
Qed.

Lemma in_session_still o run w w' : in_session o run w → still w w' → in_session o run w'.
Proof. intros [] (Hd & Ht & Hp & _). split; congruence. Qed.

Lemma in_session_op o o' run w :
  in_session o run w → op_ident o' = op_ident o → op_status o' = op_status o → in_session o' run w.
Proof. intros [] Hid Hst. split; try done; by eapply at_work_same_op. Qed.

Lemma in_session_save_op o o' run w e :
  in_session o run w → op_ident o' = op_ident o → op_status o' = op_status o →
  in_session o' run (World (w_db w) (set_rows <[op_id o' := o']> (w_tx w)) (w_dup w) e).
Proof.
  intros [] Hid Hst. split; simpl; try done.
  - by eapply at_work_save_op.
  - by eapply integrity_at_work.
  - by eapply at_work_same_op.
Qed.

Lemma in_session_save_task o run task task' w e :
  in_session o run w → task_on_record task (w_tx w) → task_ident task' = task_ident task →
  in_session o run (World (w_db w) (set_rows <[pt_id task' := task']> (w_tx w)) (w_dup w) e).
Proof.
  intros [] Ht Hid. split; simpl; try done; [by apply at_work_task|by eapply integrity_on_record].
Qed.

Lemma in_session_commit o run w Q :
  in_session o run w →
  (in_session o run (World (w_tx w) (w_tx w) false (w_env w)) →
   Q (Ok tt) (World (w_tx w) (w_tx w) false (w_env w))) → wp commit Q w.
Proof. intros [] HQ. apply wp_commit_sound; try done. by apply HQ. Qed.

(** The rows that [finish] writes. *)
Lemma job_ended_rows o run status retryable code now d log :
  at_work o run d → status ∈ TERMINAL_OPERATION_STATUSES → (code = None ↔ status = OS_SUCCEEDED) →
  (status = OS_SUCCEEDED → task_succeeded (op_id o) d) → integrity d = true →
  let o' := ended_operation kind o status retryable code now in
  let d1 := set_rows <[op_id o' := o']> d in
  let d2 := match run with
            | Some r => set_rows <[key (run_ended status now r) := run_ended status now r]> d1
            | None => d1
            end in
  integrity d2 = true ∧ job_ended o run (d2 <| db_audit_logs := log |>).
Proof.
  intros Hw Hst Hcode Htask Hi o' d1 d2.
  assert (integrity d1 = true) as Hi1 by by eapply integrity_at_work.
  assert (db_operations d2 !! op_id o = Some o') as Ho'.
  { unfold d2. destruct run; [rewrite run_rest_operations|]; apply lookup_insert_eq. }
  assert (db_pve_tasks d2 = db_pve_tasks d) as Htasks.
  { unfold d2. destruct run; [by rewrite run_rest_tasks|done]. }
  split.
  - unfold d2. destruct run as [r|]; [|done].
    destruct (aw_run _ _ _ Hw r eq_refl) as (r0 & Hr0 & Hid0 & Hst0).
    apply (run_save _ r0); [|by rewrite run_ended_ident| |done].
    + unfold d1. by rewrite run_rows_operations, (run_ident_key _ _ (run_ended_ident status now r)).
    + intros _. rewrite Hst0. pose proof (aw_active _ _ _ Hw) as Ha. unfold op_active in Ha.
      destruct (op_status o); set_solver.
  - exists o'. split_and!; try done.
    + by apply bool_decide_eq_true.
    + intros Hs. unfold task_succeeded. simpl. rewrite Htasks. by apply Htask.
    + intros r ->. exists (run_ended status now r).
      rewrite run_rows_log. unfold d2. cbv iota. rewrite run_rows_set.
      rewrite <-(run_ident_key _ _ (run_ended_ident status now r)).
      split_and!; [apply lookup_insert_eq|apply run_ended_ident|apply run_ended_status|apply run_ended_finished].
Qed.

Lemma wp_finish_job o run actor status retryable code utask w :
  at_work o run (w_tx w) → integrity (w_tx w) = true → w_dup w = false →
  status ∈ TERMINAL_OPERATION_STATUSES → (code = None ↔ status = OS_SUCCEEDED) →
  (status = OS_SUCCEEDED → task_succeeded (op_id o) (w_tx w)) →
  wp (finish kind o run actor status retryable code utask) (job_result o run) w.
Proof.
  intros Hw Hi Hd Hst Hcode Htask. unfold finish. do 4 wp_step.
  pose proof (λ log, job_ended_rows o run status retryable code a (w_tx w) log Hw Hst Hcode Htask Hi) as Hend.
  assert (∀ w', w_tx w' = match run with
      | Some r => set_rows <[key (run_ended status a r) := run_ended status a r]>
          (set_rows <[op_id o := ended_operation kind o status retryable code a]> (w_tx w))
      | None => set_rows <[op_id o := ended_operation kind o status retryable code a]> (w_tx w) end →
    w_dup w' = false →
    wp (add_audit_event (jk_audit kind o run actor status code utask);; commit) (job_result o run) w') as Hfin.
  { intros w' Htx Hdup. do 2 wp_step. destruct (Hend log) as [Hi' He].
    destruct run; (apply wp_commit_sound; simpl; [done|rewrite Htx; by rewrite integrity_log|]);
      (split; simpl; rewrite Htx; [by rewrite integrity_log|exact He]). }
  apply wp_bind. destruct run as [r|]; [apply wp_db_save|apply wp_ret]; by apply Hfin.
Qed.

(** A failure or a timeout. *)
Lemma wp_finish_failed o run actor status retryable code utask w :
  in_session o run w → status ∈ [OS_FAILED; OS_TIMEOUT] →
  wp (finish kind o run actor status retryable (Some code) utask) (job_result o run) w.
Proof.
  intros [] Hst. apply wp_finish_job; try done.
  - unfold TERMINAL_OPERATION_STATUSES. set_solver.
  - split; [done|]. intros ->. set_solver.
  - intros ->. set_solver.
Qed.
(** *** Outcomes *)

(** Both rows are still to be worked on. *)
Definition job_pending o (run : option R) d : Prop :=
  ∃ o0, db_operations d !! op_id o = Some o0 ∧ op_ident o0 = op_ident o ∧ op_active o0 = true ∧
    ∀ r, run = Some r → ∃ r0, rows d !! key r = Some r0 ∧ run_ident r0 = run_ident r ∧
      run_status r0 = op_status o0.

(** How a run on an operation that has not ended may end: another worker holds the
    lease; both rows have ended; an exception left both to be worked on. *)
Inductive job_outcome o (run : option R) d : outcome () → db → Prop :=
| job_held now : lease_held settings o None now = true → job_outcome o run d (Ok tt) d
| job_settled d' : integrity d' = true → job_ended o run d' → job_outcome o run d (Ok tt) d'
| job_interrupted x d' : job_exn x → integrity d' = true → job_pending o run d' →
    job_outcome o run d (Raise x) d'.

Lemma job_result_outcome o o1 run run1 d res w :
  op_ident o1 = op_ident o → run_ident <$> run1 = run_ident <$> run →
  job_result o1 run1 res w → job_outcome o run d res (w_db w).
Proof.
  intros Hid Hrun [Hi Hr]. assert (op_id o1 = op_id o) as Hkey by by split_ident.
  destruct res as [[]|x].
  - apply job_settled; [done|]. eapply job_ended_ident; [exact Hid|].
    destruct run as [r|], run1 as [r1|]; try done. injection Hrun as Hrun. by eapply job_ended_run.
  - destruct Hr as [Hx [(o0 & Ho & Hid0 & Hst) Ha Hrow _]]. apply job_interrupted; [done..|].
    exists o0. rewrite <-Hkey. split_and!; [done|congruence|unfold op_active in *; by rewrite Hst|].
    intros r ->. destruct run1 as [r1|]; [|done]. injection Hrun as Hrun.
    destruct (Hrow r1 eq_refl) as (r0 & Hr0 & Hidr & Hs0). exists r0.
    rewrite <-(run_ident_key r1 r Hrun). split_and!; congruence.
Qed.

(** A session that just began on sound tables, with both rows as stored. *)
Record job_start o (run : option R) w : Prop := {
  js_tx : w_tx w = w_db w; js_dup : w_dup w = false; js_integrity : integrity (w_db w) = true;
  js_tasks : keyed pve_task (w_db w);
  js_op : db_operations (w_db w) !! op_id o = Some o; js_active : op_active o = true;
  js_run r : run = Some r → rows (w_db w) !! key r = Some r ∧ run_status r = op_status o }.

Lemma start_in_session o run w : job_start o run w → in_session o run w.
Proof.
  intros []. assert (at_work o run (w_db w)) as Hw.
  { split; [by exists o|done| |by intros r (_ & ?)%js_run0].
    intros r Hr. destruct (js_run0 r Hr). by exists r. }
  split; by rewrite ?js_tx0.
Qed.

(** The operation ends without a call of the cluster. *)
Lemma wp_refuse_job o run actor code utask w :
  job_start o run w →
  wp (finish kind o run actor OS_FAILED false (Some code) utask)
    (λ res w', job_outcome o run (w_db w) res (w_db w')) w.
Proof.
  intros Hs. eapply wp_mono; [apply wp_finish_failed; [by apply start_in_session|set_solver]|].
  intros res w' Hr. by eapply job_result_outcome.
Qed.

Context (call : job_call (logged E) R) (rq : http_request) (laws : job_laws call rq).

(** The task of the operation, at hand and on record. *)
Definition own_task o task w : Prop :=
  pt_operation_id task = op_id o ∧ task_on_record task (w_tx w).

Lemma raise_result o run x w : in_session o run w → job_exn x → job_result o run (Raise x) w.
Proof. intros [] Hx. by split. Qed.

Lemma wp_verdict_ends o r actor task client status w :
  in_session o (Some r) w → own_task o task w →
  wp (poll_verdict kind call o r actor task client status) (job_result o (Some r)) w.
Proof.
  intros Hs [Hown Ht]. unfold poll_verdict. do 2 wp_step. wp_step.
  { do 2 wp_step. apply wp_finish_failed; [by apply (in_session_save_task _ _ task)|set_solver]. }
  match goal with Hb : _ || _ = false |- _ =>
    apply orb_false_iff in Hb as [_ Hexit%negb_false_iff] end.
  do 2 wp_step.
  match goal with |- context [set_rows <[key ?t := ?t]> _] => set (task1 := t) in * end.
  match goal with |- wp _ _ ?w0 => set (w1 := w0) end.
  assert (in_session o (Some r) w1) as Hs1 by by apply (in_session_save_task _ _ task).
  apply wp_bind. eapply wp_mono; [apply (jl_done _ _ laws)|].
  intros [[o' r']|x] w2 [Hst Hres]; [|by apply raise_result; [eapply in_session_still|]].
  destruct Hres as (Hid & Hos & Hrid & Hrs). simpl.
  pose proof (in_session_still _ _ _ _ Hs1 Hst) as Hs2. destruct Hs2.
  eapply wp_mono; [apply wp_finish_job|]; try done.
  - eapply at_work_same_run; [by eapply at_work_same_op|done|done].
  - by repeat constructor.
  - intros _. exists task1. destruct Hst as (_ & -> & _). split_and!; [apply lookup_insert_eq| |done|].
    + replace (op_id o') with (op_id o); [done|]. by split_ident.
    + unfold task1. simpl. destruct (obj_get "exitstatus" status) as [[]|]; try done.
      simpl in *. by apply bool_decide_eq_true in Hexit as ->.
  - intros res w3 Hres. eapply job_result_ident; [done..|].
    destruct Hres as [Hi Hres]. split; [done|]. destruct res as [u|x].
    + by eapply job_ended_run.
    + destruct Hres as [Hx Hw]. split; [done|]. by eapply at_work_same_run.
Qed.

(** Each round counts an attempt, so the fuel is never exhausted. *)
Lemma wp_loop_ends fuel deadline o r actor task client w :
  in_session o (Some r) w → own_task o task w →
  pve_task_max_poll_attempts settings - pt_poll_attempts task ≤ Z.of_nat fuel →
  wp (poll_loop settings kind call fuel deadline o r actor task client) (job_result o (Some r)) w.
Proof.
  revert o task w. induction fuel as [|fuel IH]; intros o task w Hs [Hown Ht] Hf; simpl;
    do 2 wp_step; destruct (_ && _) eqn:Hb.
  { apply andb_true_iff in Hb as [_ Hb%Z.ltb_lt]. lia. }
  1, 3: do 2 wp_step; apply wp_finish_failed; [by apply (in_session_save_task _ _ task)|set_solver].
  do 2 wp_step.
  match goal with |- context [db_save ?t ≫= _] =>
    match type of t with pve_task => set (task1 := t) end end.
  match goal with |- context [db_save ?t ≫= _] =>
    match type of t with operation => set (o1 := t) end end.
  do 4 wp_step. match goal with |- wp _ _ ?w0 => set (w1 := w0) end.
  assert (in_session o1 (Some r) w1) as Hs1.
  { apply (in_session_save_op o o1 _ (World (w_db w) (set_rows <[pt_id task1 := task1]> (w_tx w)) (w_dup w) (w_env w)));
      [|done..]. by apply (in_session_save_task _ _ task). }
  assert (own_task o1 task1 w1) as Ht1 by (split; [done|]; by apply on_record_save).
  apply wp_bind, (wp_attempt (grows [])); [apply quiet_task_status|..].
  2: { intros x w2 Hst Hx. eapply (job_result_ident o o1); [done..|].
       apply raise_result; [by eapply in_session_still|done]. }
  intros answer w2 Hst. pose proof (in_session_still _ _ _ _ Hs1 Hst) as Hs2.
  assert (own_task o1 task1 w2) as Ht2 by by destruct Hst as (_ & Hw & _); unfold own_task; rewrite Hw.
  apply wp_mono with (Q := job_result o1 (Some r)); [|by intros; eapply (job_result_ident o o1)].
  assert (wp (commit;; sleep_ms (pve_task_poll_interval_ms settings);;
    poll_loop settings kind call fuel deadline o1 r actor task1 client) (job_result o1 (Some r)) w2) as Hnext.
  { apply wp_bind, (in_session_commit o1 (Some r)); [done|]. intros Hs3.
    apply wp_bind, wp_from_env. intros [] e3 _. apply IH; [by destruct Hs3|exact Ht2|simpl; lia]. }
  destruct answer as [error|status].
  - destruct (retryable_code (pe_code error)); [exact Hnext|]. do 2 wp_step.
    apply wp_finish_failed; [apply (in_session_save_task _ _ task1); [done|apply Ht2|done]|set_solver].
  - destruct (json_is _ _); [exact Hnext|]. by apply wp_verdict_ends.
Qed.

Lemma wp_poll_ends o r actor task client w :
  in_session o (Some r) w → own_task o task w →
  wp (poll settings kind call o r actor task client) (job_result o (Some r)) w.
Proof.
  intros Hs Ht. unfold poll. do 2 wp_step. apply wp_loop_ends; [by destruct Hs|done|].
  unfold poll_fuel. lia.
Qed.

(** What the body of [run] leaves: a result, or an [AppError] from before the
    submission for the handler. *)
Definition body_result o run (res : outcome ()) w : Prop :=
  match res with
  | Raise (AppError _ _ _ _) => in_session o run w
  | _ => job_result o run res w
  end.

Lemma job_body o run res w : job_result o run res w → body_result o run res w.
Proof. intros [Hi Hr]. destruct res as [u|[]]; try done. by destruct Hr. Qed.

Lemma call_body o run x w : in_session o run w → call_exn x → body_result o run (Raise x) w.
Proof. intros Hs Hx. destruct x; try done; by apply raise_result. Qed.

Lemma wp_submit_ends o r actor client w :
  in_session o (Some r) w →
  wp (submit_job settings kind call o r actor client) (body_result o (Some r)) w.
Proof.
  intros Hs. unfold submit_job. apply wp_bind, wp_on_env.
  eapply wp_mono; [apply (jl_ready _ _ laws)|]. intros res t2 [Hg Hres].
  match goal with |- context [World (w_db w) (w_tx w) (w_dup w) t2] => set (w2 := World _ _ _ t2) end.
  assert (in_session o (Some r) w2) as Hs2 by by eapply in_session_still.
  destruct res as [ready|x]; [|by apply call_body].
  apply wp_mono with (Q := job_result o (Some r)); [|intros; by apply job_body].
  destruct ready; simpl; [|apply wp_finish_failed; [done|set_solver]].
  apply wp_bind, (wp_attempt (may_submit rq)); [apply (jl_submit _ _ laws)|..]; intros answer w3 (Hd3 & Ht3 & Hp3 & _).
  all: assert (in_session o (Some r) w3) as Hs3 by (destruct Hs2; split; congruence).
  2: { intros Hx. by apply raise_result. }
  destruct answer as [error|upid].
  { apply wp_finish_failed; [done|]. case_bool_decide; set_solver. }
  do 4 wp_step. match goal with |- context [new_pve_task ?k ?c ?i ?o ?u ?s] => set (task1 := new_pve_task k c i o u s) end.
  do 6 wp_step. match goal with |- context [set_rows <[key ?o' := ?o']> (set_rows _ _)] =>
    match type of o' with operation => set (o1 := o') end end.
  match goal with |- wp _ _ ?w0 => set (w4 := w0) end.
  assert (at_work o1 (Some r) (w_tx w4)) as Hw4.
  { apply (at_work_save_op o); [apply at_work_task, Hs3|done..]. }
  apply wp_bind, wp_commit.
  { intros _. split; [apply Hs3|]. split; [done|apply Hs3]. }
  intros _ Hi4. apply wp_mono with (Q := job_result o1 (Some r)); [|by intros; eapply (job_result_ident o o1)].
  apply wp_poll_ends; [by split|]. split; [done|]. by apply on_record_save.
Qed.

(** *** A whole run *)

Lemma wp_run_job_ends o r actor w :
  job_start o (Some r) w →
  wp (run_job settings kind call o r actor)
    (λ res w', job_outcome o (Some r) (w_db w) res (w_db w')) w.
Proof.
  intros Hs. unfold run_job. apply wp_bind, wp_db_scalar. intros task Htask. do 2 wp_step. wp_step.
  { apply wp_rollback. eapply job_held. unfold lease_held in *.
    rewrite !andb_true_iff, !bool_decide_eq_true in *. destruct_and!. subst. by split_and!. }
  wp_step.
  { eapply wp_mono; [apply wp_finish_failed; [|set_solver]|].
    - apply start_in_session in Hs as []. by split.
    - intros res w' Hr. by eapply job_result_outcome. }
  set (o1 := claimed o a a). set (r1 := run_begun a r).
  destruct (start_in_session _ _ _ Hs) as [Htx Hi Hd _ _].
  destruct (at_work_begun o r a _ Htx Hi) as [Hw1 Hi1].
  do 4 wp_step. apply wp_bind, wp_commit_sound; [done|exact Hi1|]. simpl.
  match goal with |- wp _ _ ?w0 => assert (in_session o1 (Some r1) w0) as Hs1 by by split end.
  apply wp_mono with (Q := job_result o1 (Some r1)).
  2: { intros res w' Hr. eapply job_result_outcome; [| |exact Hr]; [done|]. simpl. unfold r1. by rewrite run_begun_ident. }
  assert (∀ error w', in_session o1 (Some r1) w' →
    wp (finish kind o1 (Some r1) actor OS_FAILED false (Some (pe_code error)) task) (job_result o1 (Some r1)) w') as Hf.
  { intros error w' Hw'. apply wp_finish_failed; [done|set_solver]. }
  apply wp_catch_app. eapply wp_mono with (Q := body_result o1 (Some r1)).
  2: { intros [u|x] w' Hb; [exact Hb|]. destruct x; first [by apply Hf|exact Hb]. }
  apply wp_bind. eapply wp_mono; [apply (jl_open _ _ laws)|]. intros [client|x] w3 [Hst Hx].
  2: { apply call_body; [by eapply in_session_still|done]. }
  pose proof (in_session_still _ _ _ _ Hs1 Hst) as Hs3.
  destruct task as [task|]; [|by apply wp_submit_ends].
  eapply wp_mono; [|intros; by apply job_body]. apply wp_poll_ends; [done|].
  apply first_row_Some in Htask as [Hown [i Hrow]]. apply bool_decide_eq_true in Hown.
  split; [done|]. exists task. split; [|done]. destruct Hst as (_ & -> & _). simpl.
  rewrite run_rest_tasks. simpl. rewrite (js_tx _ _ _ Hs) in Hrow. pose proof (js_tasks _ _ _ Hs _ _ Hrow) as Hk.
  rewrite (js_tx _ _ _ Hs). simpl in Hk. by rewrite Hk.
Qed.
End parts.
