(* ===== verification/BackupProps.v ===== *)
(** * Backups and restores end, and are submitted once

    The two runners are jobs of PveJobs.v: what JobTrace.v and JobEnds.v show of a
    job, at the level of the worker's tasks. *)
From Stdlib Require Import Lia.
From S2P Require Import Prelude Models Database AuditLog Operations PveApi Keeps PowerRunner PowerSettle.
From S2P Require Import IpAddr Endpoints Client ClientProps Clusters ClusterInv ClusterSecrets BackupSize.
From S2P Require Import PveJobs BackupRunner RestoreRunner JobTrace JobEnds.

(** ** The rows *)

#[export] Instance backup_run_laws : RunLaws backup_run.
Proof.
  refine {| run_ident (r : backup_run) := (br_id r, br_operation_id r, None : option (N * Z)) |};
    try done.
  - intros r s. by intros [= ? _].
  - intros r s. by intros [= _ ?].
  - intros d r r' Hr [= Hid Hop] _. integrity_rest.
    eapply (unique_onb_save uq_backup_runs_operation d _ (br_id r') r r'); try done.
    unfold uq_backup_runs_operation. by rewrite Hop.
Defined.

#[export] Instance restore_run_laws : RunLaws restore_run.
Proof.
  refine {| run_ident (r : restore_run) :=
    (rr_id r, rr_operation_id r, Some (rr_cluster_id r, rr_target_vmid r)) |}; try done.
  - intros r s. by intros [= ? _].
  - intros r s. by intros [= _ ?].
  - intros d r r' Hr [= Hid Hop Hc Hv] Hact. integrity_rest.
    + eapply (unique_onb_save uq_restore_runs_operation d _ (rr_id r') r r'); try done.
      unfold uq_restore_runs_operation. by rewrite Hop.
    + eapply (unique_onb_save uq_restore_runs_active_target d _ (rr_id r') r r'); try done.
      unfold uq_restore_runs_active_target, only. rewrite Hc, Hv. simpl in Hact.
      unfold rr_active. destruct (rr_status r'); try done; destruct (rr_status r); try done;
        exfalso; set_solver.
Defined.

(** ** The calls *)

Section calls.
Context {E : Type} `{Runtime E} `{Resolver E} `{HttpTransport E} `{CredentialSecrets E} `{Sleep E} `{Digests}.
Context (settings : Settings) (pve : PveSettings).
Implicit Types (w : world (logged E)).

(** [POST /nodes/{node}/vzdump], and the creation of a guest from an archive. *)
Definition backup_request (r : backup_run) (wl : workload) (target : backup_target) : http_request :=
  send "POST" ["nodes"; quote (wl_node wl); "vzdump"]
    (Some [("vmid", pretty (wl_vmid wl)); ("storage", bt_storage_id target);
           ("mode", br_mode r); ("compress", br_compression r)]).

Definition restore_request (r : restore_run) (archive : string) (wl : workload) : http_request :=
  let guest_type := default "" (guest_type_of (wl_kind wl)) in
  send "POST" ["nodes"; quote (rr_target_node r); guest_type]
    (Some ([("vmid", pretty (rr_target_vmid r)); ("start", "0")] ++
       (if bool_decide (guest_type = "qemu")
        then [("archive", archive); ("name", rr_target_name r); ("unique", "1")]
        else [("ostemplate", archive); ("hostname", rr_target_name r); ("restore", "1")]))).

Lemma submits_backup r wl target client :
  submits (E := E) (backup_request r wl target)
    (submit_guest_backup client (wl_node wl) (wl_vmid wl) (bt_storage_id target) (br_mode r) (br_compression r)).
Proof.
  apply (submits_planned _ _ client
    (call_plan (CSubmitGuestBackup (wl_node wl) (wl_vmid wl) (bt_storage_id target) (br_mode r)
                  (br_compression r))) (λ u, is_upid u = true)); [|unfold call_plan, accept; intros rqs Hr; by case_match; simplify_eq|done].
  intros t. unfold submit_guest_backup. simpl call_plan. apply wp_bind, wp_raise_if; intros ->; [done|].
  by apply wp_planned_accept, wp_post_task.
Qed.

Lemma submits_restore r archive wl client :
  submits (E := E) (restore_request r archive wl)
    (submit_guest_restore client (wl_kind wl) (rr_target_node r) archive (rr_target_vmid r) (rr_target_name r)).
Proof.
  apply (submits_planned _ _ client
    (call_plan (CSubmitGuestRestore (wl_kind wl) (rr_target_node r) archive (rr_target_vmid r)
                  (rr_target_name r))) (λ u, is_upid u = true)); [| |done].
  - intros t. unfold submit_guest_restore, wp, mbind, M_bind. rewrite guest_type_cases. simpl call_plan.
    destruct (guest_type_of _) as [ty|]; simpl; [|done]. by apply wp_planned_accept, wp_post_task.
  - unfold call_plan, accept, restore_request. destruct (guest_type_of _) as [ty|]; simpl; [|done].
    intros rqs Hr. by case_match; simplify_eq.
Qed.

Lemma open_still {A} (m : DBM (logged E) A) w :
  wp m (λ r w', w' = w ∧ raises call_exn r) w → wp m (λ r w', still w w' ∧ raises call_exn r) w.
Proof. intros Hm. eapply wp_mono; [exact Hm|]. intros r w' [-> Hr]. split; [apply still_refl|done]. Qed.

Lemma wp_open_backup_cluster c credential w :
  wp (open_cluster pve c credential) (λ r w', w' = w ∧ raises call_exn r) w.
Proof.
  destruct w as [d tx dup t]. unfold open_cluster, _decrypt, ProxmoxClient_init.
  apply wp_bind, wp_or_raise; [by split|]. intros secret _. apply wp_on_env.
  apply wp_bind, wp_raise_if; [by split|]. intros _. apply wp_bind, wp_or_raise; by split.
Qed.

Lemma backup_open_still wl w :
  wp (BackupRunner._open_client pve wl) (λ r w', still w w' ∧ raises call_exn r) w.
Proof.
  apply open_still. unfold BackupRunner._open_client. do 4 wp_step.
  destruct o as [c|], o0 as [credential|]; try by apply wp_raise.
  wp_step. wp_step; [done|]. apply wp_open_backup_cluster.
Qed.

Lemma restore_open_still c w :
  wp (RestoreRunner._open_client pve c) (λ r w', still w w' ∧ raises call_exn r) w.
Proof.
  apply open_still. unfold RestoreRunner._open_client. do 2 wp_step.
  apply wp_bind, wp_or_raise; [done|]. intros credential _. apply wp_open_backup_cluster.
Qed.

Lemma quiet_target_is_free r client : quiet (E := E) (_target_is_free r client).
Proof.
  apply quiet_bind; [apply quiet_objects|]. intros nodes. destruct (negb _); [apply quiet_ret|].
  apply quiet_bind; [apply quiet_objects|]. intros guests. by apply quiet_fmap, quiet_or_raise.
Qed.

(** What a success learns changes only what it learns. *)
Definition run_learnt (r : backup_run) w (res : outcome (backup_run * bool)) w' : Prop :=
  still w w' ∧
  match res with
  | Ok (r', _) => run_ident r' = run_ident r ∧ br_status r' = br_status r
  | Raise x => job_exn x
  end.

Lemma wp_snapshot_fields r wl target client w :
  wp (snapshot_fields r wl target client) (run_learnt r w) w.
Proof.
  unfold snapshot_fields. apply wp_bind, (wp_attempt (grows [])); [apply quiet_backup_content| |by split].
  intros [error|content] w1 Hst; [by apply wp_ret|].
  unfold _latest_snapshot. apply wp_bind, wp_bind, wp_or_raise; [by split|]. intros candidates _.
  apply wp_bind, wp_or_raise; [by split|]. intros timed _. apply wp_ret. cbv beta iota.
  destruct (latest_of None timed) as [snapshot|]; [|by apply wp_ret].
  apply wp_bind. destruct (as_int (obj_get "ctime" snapshot)) as [ctime|].
  - apply wp_bind, wp_or_raise; [by split|]. intros time _. apply wp_ret, wp_ret.
    split; [done|]. repeat case_match; by simplify_eq.
  - apply wp_ret, wp_ret. split; [done|]. repeat case_match; by simplify_eq.
Qed.

Lemma wp_transfer_fields r task client w : wp (transfer_fields r task client) (run_learnt r w) w.
Proof.
  unfold transfer_fields. apply wp_bind, (wp_attempt (grows [])); [apply quiet_task_log| |by split].
  intros [error|log] w1 Hst; apply wp_ret; by split.
Qed.

Lemma backup_laws r wl target : job_laws (backup_call (E := logged E) pve r wl target) (backup_request r wl target).
Proof.
  split.
  - apply backup_open_still.
  - intros client. apply quiet_ret.
  - intros client. apply submits_backup.
  - intros client task o r' w. simpl. unfold backup_done.
    apply wp_bind. eapply wp_mono; [apply wp_snapshot_fields|].
    intros [[r1 pending]|x] w1 [Hst Hr]; [|done].
    apply wp_bind. eapply wp_mono; [apply wp_transfer_fields|].
    intros [[r2 pending2]|x] w2 [Hst2 Hr2]; [|split; [by eapply still_trans|done]].
    apply wp_ret. split; [by eapply still_trans|]. destruct Hr as [Hi1 Hs1], Hr2 as [Hi2 Hs2].
    simpl in *. split_and!; [done|done|congruence|congruence].
Qed.

Lemma restore_laws r archive wl c :
  job_laws (restore_call (E := logged E) pve r archive wl c) (restore_request r archive wl).
Proof.
  split.
  - apply restore_open_still.
  - intros client. apply quiet_target_is_free.
  - intros client. apply submits_restore.
  - intros client task o r' w. apply wp_ret. split; [apply still_refl|done].
Qed.
End calls.

(** ** What the worker sees of an operation *)

(** Sound tables, the operation at work, and a run for it of the same status. *)
Record worker_sees (R : Type) `{RunRow R} (o : operation) (d : db) : Prop := {
  ws_integrity : integrity d = true;
  ws_tasks : keyed pve_task d; ws_runs : keyed R d;
  ws_op : db_operations d !! op_id o = Some o; ws_active : op_active o = true;
  ws_paired i (r : R) : rows d !! i = Some r → run_operation r = op_id o → run_status r = op_status o }.

Definition run_of (R : Type) `{RunRow R} (o : operation) (d : db) : option R :=
  first_row (λ r, bool_decide (run_operation r = op_id o)) d.

Lemma sees_start {E} {R} `{RunRow R} o d (t : logged E) :
  worker_sees R o d → job_start o (run_of R o d) (World d d false t).
Proof.
  intros []. split; try done. intros r Hr. apply first_row_Some in Hr as [Hop [i Hi]].
  apply bool_decide_eq_true in Hop. simpl. by rewrite (ws_runs0 _ _ Hi), (ws_paired0 _ _ Hi Hop).
Qed.

Lemma active_not_terminal o : op_active o = true → op_terminal o = false.
Proof.
  unfold op_active, op_terminal. intros Ha. apply bool_decide_eq_false.
  destruct (op_status o); try done; set_solver.
Qed.

(** ** What a worker's task comes to *)

(** Nothing to do; refused by [run]'s own checks; a job with one of these calls. *)
Inductive worker_case {E R} `{Runtime E, Resolver E, HttpTransport E, Sleep E, Digests} `{RunRow R}
    (settings : Settings) (kind : job_kind R) (type : string)
    (calls : operation → R → job_call (logged E) R → http_request → Prop) (id : N) (m : DBM (logged E) ())
    (w : world (logged E)) : Prop :=
| worker_idle :
    (∀ o, db_operations (w_tx w) !! id = Some o → op_operation_type o ≠ type ∨ op_terminal o = true) →
    m w = (Ok tt, w) → worker_case settings kind type calls id m w
| worker_refused o actor code :
    db_operations (w_tx w) !! id = Some o → op_terminal o = false →
    m w = finish kind o (run_of R o (w_tx w)) actor OS_FAILED false (Some code) None w →
    worker_case settings kind type calls id m w
| worker_job o r actor call rq :
    db_operations (w_tx w) !! id = Some o → op_terminal o = false →
    run_of R o (w_tx w) = Some r → calls o r call rq →
    m w = run_job settings kind call o r actor w → worker_case settings kind type calls id m w.

#[local] Ltac refused :=
  match goal with
  | Hr : run_of _ _ _ = _, Hrun : _ = _ |- _ =>
    solve [eapply worker_refused; [eassumption..|]; rewrite Hr; exact Hrun]
  end.

Section worker.
Context {E : Type} `{Runtime E} `{Resolver E} `{HttpTransport E} `{CredentialSecrets E} `{Sleep E} `{Digests}.
Context (settings : Settings) (pve : PveSettings).
Implicit Types (d : db) (t : logged E) (w : world (logged E)).

(** The rows of a backup, and the call made of them. *)
Definition backup_calls d (o : operation) (r : backup_run) (call : job_call (logged E) backup_run)
    (rq : http_request) : Prop :=
  ∃ wl target, db_workloads d !! op_workload_id o = Some wl ∧
    db_backup_targets d !! br_backup_target_id r = Some target ∧
    backup_usable wl target = true ∧ call = backup_call pve r wl target ∧
    rq = backup_request r wl target.

Lemma backup_cases id w :
  worker_case settings backup_kind "WORKLOAD_BACKUP" (backup_calls (w_tx w)) id
    (run_backup_operation settings pve id) w.
Proof.
  destruct (db_operations (w_tx w) !! id) as [o|] eqn:Ho.
  2: { apply worker_idle; [by rewrite Ho|].
       unfold run_backup_operation, BackupRunner.run, db_get, gets, mbind, M_bind. simpl. by rewrite Ho. }
  destruct (bool_decide (op_operation_type o ≠ "WORKLOAD_BACKUP") || op_terminal o) eqn:Hidle.
  { apply worker_idle.
    - rewrite Ho. intros ? [= <-]. apply orb_true_iff in Hidle as [?%bool_decide_eq_true|?]; auto.
    - unfold run_backup_operation, BackupRunner.run, db_get, gets, mbind, M_bind. simpl. by rewrite Ho, Hidle. }
  apply orb_false_iff in Hidle as Hend. destruct Hend as [_ Hend].
  assert (∃ actor, run_backup_operation settings pve id w =
    match run_of backup_run o (w_tx w), db_workloads (w_tx w) !! op_workload_id o,
      run_of backup_run o (w_tx w) ≫= λ r, db_backup_targets (w_tx w) !! br_backup_target_id r with
    | Some r, Some wl, Some target =>
        (if negb (backup_usable wl target)
        then BackupRunner._finish o (Some r) actor OS_FAILED false (Some "BACKUP_TARGET_OR_WORKLOAD_UNAVAILABLE") None
        else if negb (backup_actor actor)
        then BackupRunner._finish o (Some r) actor OS_FAILED false (Some "PERMISSION_REVOKED") None
        else run_job settings backup_kind (backup_call pve r wl target) o r actor) w
    | run, _, _ =>
        BackupRunner._finish o run actor OS_FAILED false (Some "BACKUP_TARGET_OR_WORKLOAD_UNAVAILABLE") None w
    end) as [actor Hrun].
  { exists (db_users (w_tx w) !! op_requested_by_id o).
    unfold run_backup_operation, BackupRunner.run, db_get, db_scalar, gets, mbind, M_bind, run_of. simpl.
    rewrite Ho, Hidle. simpl. destruct (first_row _ _) as [r|]; simpl; [|done].
    destruct (db_workloads _ !! _); simpl; [|done]. by destruct (db_backup_targets _ !! _). }
  destruct (run_of backup_run o (w_tx w)) as [r|] eqn:Hr; simpl in Hrun.
  2: refused.
  destruct (db_workloads (w_tx w) !! _) as [wl|] eqn:Hwl;
    [|refused].
  destruct (db_backup_targets (w_tx w) !! _) as [target|] eqn:Ht;
    [|refused].
  destruct (backup_usable wl target) eqn:Hu; simpl in Hrun;
    [|refused].
  destruct (backup_actor actor); simpl in Hrun;
    [|refused].
  eapply worker_job; [done..| |exact Hrun]. by exists wl, target.
Qed.

(** The rows of a restore, and the call made of them. *)
Definition restore_calls d (o : operation) (r : restore_run) (call : job_call (logged E) restore_run)
    (rq : http_request) : Prop :=
  ∃ backup archive target wl c, db_backup_runs d !! rr_backup_run_id r = Some backup ∧
    br_snapshot_volume_id backup = Some archive ∧
    db_backup_targets d !! br_backup_target_id backup = Some target ∧
    db_workloads d !! op_workload_id o = Some wl ∧ db_clusters d !! op_cluster_id o = Some c ∧
    restore_usable backup archive target wl c = true ∧ call = restore_call pve r archive wl c ∧
    rq = restore_request r archive wl.

Lemma restore_cases id w :
  worker_case settings restore_kind "WORKLOAD_RESTORE" (restore_calls (w_tx w)) id
    (run_restore_operation settings pve id) w.
Proof.
  destruct (db_operations (w_tx w) !! id) as [o|] eqn:Ho.
  2: { apply worker_idle; [by rewrite Ho|].
       unfold run_restore_operation, run, db_get, gets, mbind, M_bind. simpl. by rewrite Ho. }
  destruct (bool_decide (op_operation_type o ≠ "WORKLOAD_RESTORE") || op_terminal o) eqn:Hidle.
  { apply worker_idle.
    - rewrite Ho. intros ? [= <-]. apply orb_true_iff in Hidle as [?%bool_decide_eq_true|?]; auto.
    - unfold run_restore_operation, run, db_get, gets, mbind, M_bind. simpl. by rewrite Ho, Hidle. }
  apply orb_false_iff in Hidle as Hend. destruct Hend as [_ Hend].
  assert (∃ actor, run_restore_operation settings pve id w =
    let restore := run_of restore_run o (w_tx w) in
    let backup := restore ≫= λ r, db_backup_runs (w_tx w) !! rr_backup_run_id r in
    match restore, backup ≫= br_snapshot_volume_id, backup,
      backup ≫= λ b, db_backup_targets (w_tx w) !! br_backup_target_id b,
      db_workloads (w_tx w) !! op_workload_id o, db_clusters (w_tx w) !! op_cluster_id o with
    | Some r, Some archive, Some backup, Some target, Some wl, Some c =>
        (if negb (restore_usable backup archive target wl c)
        then _finish o restore actor OS_FAILED false (Some "RESTORE_SOURCE_UNAVAILABLE") None
        else if negb (restore_actor actor)
        then _finish o restore actor OS_FAILED false (Some "PERMISSION_REVOKED") None
        else run_job settings restore_kind (restore_call pve r archive wl c) o r actor) w
    | _, _, _, _, _, _ =>
        _finish o restore actor OS_FAILED false (Some "RESTORE_SOURCE_UNAVAILABLE") None w
    end) as [actor Hrun].
  { exists (db_users (w_tx w) !! op_requested_by_id o).
    unfold run_restore_operation, run, db_get, db_get_opt, db_scalar, gets, mbind, M_bind, run_of. simpl.
    rewrite Ho, Hidle. simpl. destruct (first_row _ _) as [r|]; simpl; [|done].
    unfold db_get, gets. destruct (db_backup_runs _ !! _) as [b|]; simpl; [|done].
    unfold db_get, gets. simpl. destruct (br_snapshot_volume_id b); simpl; [|done].
    destruct (db_backup_targets _ !! _); simpl; [|done]. destruct (db_workloads _ !! _); simpl; [|done].
    by destruct (db_clusters _ !! _). }
  cbv zeta in Hrun.
  destruct (run_of restore_run o (w_tx w)) as [r|] eqn:Hr; simpl in Hrun;
    [|refused].
  destruct (db_backup_runs (w_tx w) !! _) as [b|] eqn:Hb; simpl in Hrun;
    [|refused].
  destruct (br_snapshot_volume_id b) as [archive|] eqn:Ha; simpl in Hrun;
    [|refused].
  destruct (db_backup_targets (w_tx w) !! _) as [target|] eqn:Ht;
    [|refused].
  destruct (db_workloads (w_tx w) !! _) as [wl|] eqn:Hwl;
    [|refused].
  destruct (db_clusters (w_tx w) !! _) as [c|] eqn:Hc;
    [|refused].
  destruct (restore_usable b archive target wl c) eqn:Hu; simpl in Hrun;
    [|refused].
  destruct (restore_actor actor); simpl in Hrun;
    [|refused].
  eapply worker_job; [done..| |exact Hrun]. by exists b, archive, target, wl, c.
Qed.
End worker.

(** ** How they end *)

Lemma wp_same {S A} (m n : M S A) Q s : m s = n s → wp n Q s → wp m Q s.
Proof. unfold wp. by intros ->. Qed.

Section ends.
Context {E : Type} `{Runtime E} `{Resolver E} `{HttpTransport E} `{CredentialSecrets E} `{Sleep E} `{Digests}.
Context {R : Type} `{RunLaws R}.
Context (settings : Settings) (pve : PveSettings) (kind : job_kind R) (type : string).
Implicit Types (d : db) (t : logged E) (w : world (logged E)).

(** The jobs a worker may start obey the laws. *)
Definition lawful (calls : operation → R → job_call (logged E) R → http_request → Prop) : Prop :=
  ∀ o r call rq, calls o r call rq → job_laws call rq.

Lemma worker_ends calls o d t m :
  worker_sees R o d → op_operation_type o = type → lawful calls →
  worker_case settings kind type calls (op_id o) m (World d d false t) →
  wp m (λ res w', job_outcome settings o (run_of R o d) d res (w_db w')) (World d d false t).
Proof.
  intros Hs Htype Hlaws Hcase. pose proof (sees_start o d t Hs) as Hstart.
  destruct Hcase as [Hidle _|o' actor code Ho _ Hm|o' r actor call rq Ho _ Hr Hcall Hm]; simpl in *.
  - destruct (Hidle o (ws_op _ _ _ Hs)) as [?|Hend]; [done|].
    by rewrite active_not_terminal in Hend by apply Hs.
  - rewrite (ws_op _ _ _ Hs) in Ho. injection Ho as <-. eapply wp_same; [exact Hm|].
    by apply (wp_refuse_job settings kind o _ actor code None (World d d false t)).
  - rewrite (ws_op _ _ _ Hs) in Ho. injection Ho as <-. eapply wp_same; [exact Hm|].
    pose proof (Hlaws _ _ _ _ Hcall) as Hl. rewrite Hr in *.
    by apply (wp_run_job_ends settings kind call rq Hl o r actor (World d d false t)).
Qed.

(** What a worker's task leaves of a claim, and what it sends. *)
Definition worker_sends (calls : operation → R → job_call (logged E) R → http_request → Prop) (id : N) w (w' : world (logged E)) : Prop :=
  begun_if (begun id (w_db w)) id (w_db w') ∧
  (grows [] (w_env w) (w_env w') ∨
   ∃ o r call rq, db_operations (w_db w) !! id = Some o ∧ op_status o = OS_QUEUED ∧
     run_of R o (w_db w) = Some r ∧ calls o r call rq ∧
     begun id (w_db w') ∧ checked_submission call rq (w_env w) (w_env w')).

Lemma worker_traced calls id d t m :
  keyed operation d → lawful calls →
  worker_case settings kind type calls id m (World d d false t) →
  wp m (λ _, worker_sends calls id (World d d false t)) (World d d false t).
Proof.
  intros Hk Hlaws Hcase. set (w := World d d false t) in *.
  assert (both (unsent (begun id d) id t) w) as Hw
    by (split; (split; [by split|by apply grows_same])).
  destruct Hcase as [Hidle Hm|o actor code Ho Hend Hm|o r actor call rq Ho Hend Hr Hcall Hm];
    (eapply wp_same; [exact Hm|]); simpl in *.
  - split; [by split|left; by apply grows_same].
  - assert (op_id o = id) as Hid by by apply Hk.
    eapply wp_mono; [apply (unsent_finish kind (begun id d) id t); done|].
    intros res w' [[Hb Hg] _]. split; [exact Hb|by left].
  - assert (op_id o = id) as <- by by apply Hk. pose proof (Hlaws _ _ _ _ Hcall) as Hl.
    assert (op_active o = true) as Ha.
    { unfold op_active, op_terminal in *. apply bool_decide_eq_false in Hend.
      destruct (op_status o); try done; exfalso; apply Hend; by repeat constructor. }
    eapply wp_mono; [by apply (wp_run_job_traced settings kind call rq Hl o r actor t)|].
    intros res w' [Hb [Hg|(Hq & Hb' & Hc)]]; (split; [exact Hb|]); [by left|right].
    by exists o, r, call, rq.
Qed.

Lemma checked_posted (call : job_call (logged E) R) rq t t' :
  checked_submission call rq t t' → posted t' = posted t ++ [rq].
Proof.
  intros (client & t1 & t2 & _ & [_ Hg1] & [_ Hg2] & [_ Hg3]). by rewrite Hg3, Hg2, Hg1, !app_nil_r.
Qed.

(** Nothing was submitted, or one task for an operation on record as claimed. *)
Definition one_sent (id : N) d (sent : list http_request) : Prop :=
  keyed operation d ∧ (sent = [] ∨ length sent = 1%nat ∧ begun id d).

Lemma sends_one calls id d1 t1 d2 t2 sent rqs :
  one_sent id d1 sent → worker_sends calls id (World d1 d1 false t1) (World d2 d2 false t2) →
  posted t2 = posted t1 ++ rqs → one_sent id d2 (sent ++ rqs).
Proof.
  intros [Hk Hsent] [[Hk2 Hkeep] Hs] Hp. simpl in *. split; [done|].
  destruct Hs as [[_ Hg]|(o & r & call & rq & Ho & Hq & _ & _ & Hb & Hc)].
  - rewrite Hg in Hp. apply app_inv_head in Hp as <-. rewrite app_nil_r. tauto.
  - apply checked_posted in Hc. rewrite Hc in Hp. apply app_inv_head in Hp as <-. right.
    destruct Hsent as [->|[_ [_ (o' & Ho' & Hq')]]]; [by split|]. congruence.
Qed.
End ends.

Section properties.
Context {E : Type} `{Runtime E} `{Resolver E} `{HttpTransport E} `{CredentialSecrets E} `{Sleep E} `{Digests}.
Context (settings : Settings) (pve : PveSettings).
Implicit Types (d : db) (t : logged E).

Lemma backup_lawful d : lawful (backup_calls (E := E) pve d).
Proof. intros o r call rq (wl & target & _ & _ & _ & -> & ->). apply backup_laws. Qed.

Lemma restore_lawful d : lawful (restore_calls (E := E) pve d).
Proof.
  intros o r call rq (b & archive & target & wl & c & _ & _ & _ & _ & _ & _ & -> & ->).
  apply restore_laws.
Qed.

(** C8: a delivered backup leaves its operation and its run in step.  When the
    task returns, either another worker held the lease and nothing changed, or both
    rows have ended with the same status and finish time: SUCCEEDED exactly if there is
    no error code, and only with a task of the operation that the cluster reported as
    stopped with OK; the loop never runs out of polls.  When it raises, both are still
    pending, for the recovery to deliver again.  The constraints of the tables hold
    either way. *)
Theorem backup_settles o d t res d' t' :
  worker_sees backup_run o d → op_operation_type o = "WORKLOAD_BACKUP" →
  exec (run_backup_operation settings pve (op_id o)) d t = (res, d', t') →
  job_outcome settings o (run_of backup_run o d) d res d'.
Proof.
  intros Hs Htype Hrun. eapply exec_elim; [exact Hrun|].
  eapply (worker_ends settings backup_kind); [done|exact Htype|apply backup_lawful|apply backup_cases].
Qed.

(** The same of a restore. *)
Theorem restore_settles o d t res d' t' :
  worker_sees restore_run o d → op_operation_type o = "WORKLOAD_RESTORE" →
  exec (run_restore_operation settings pve (op_id o)) d t = (res, d', t') →
  job_outcome settings o (run_of restore_run o d) d res d'.
Proof.
  intros Hs Htype Hrun. eapply exec_elim; [exact Hrun|].
  eapply (worker_ends settings restore_kind); [done|exact Htype|apply restore_lawful|apply restore_cases].
Qed.

Lemma backup_sends id d t res d' t' :
  keyed operation d → exec (run_backup_operation settings pve id) d t = (res, d', t') →
  worker_sends (backup_calls pve d) id (World d d false t) (World d' d' false t').
Proof.
  intros Hk Hrun. eapply exec_wp in Hrun.
  2: { eapply (worker_traced settings backup_kind); [done|apply backup_lawful|apply (backup_cases settings pve id (World d d false t))]. }
  destruct Hrun as (w & Hw & <- & <-). exact Hw.
Qed.

Lemma restore_sends id d t res d' t' :
  keyed operation d → exec (run_restore_operation settings pve id) d t = (res, d', t') →
  worker_sends (restore_calls pve d) id (World d d false t) (World d' d' false t').
Proof.
  intros Hk Hrun. eapply exec_wp in Hrun.
  2: { eapply (worker_traced settings restore_kind); [done|apply restore_lawful|apply (restore_cases settings pve id (World d d false t))]. }
  destruct Hrun as (w & Hw & <- & <-). exact Hw.
Qed.

(** A delivered backup submits nothing, or exactly one request: the vzdump call
    that its run records, for an operation that was QUEUED, a workload and a target
    that can be used for a backup; afterwards the operation is no longer QUEUED. *)
Theorem backup_submission id d t res d' t' :
  keyed operation d →
  exec (run_backup_operation settings pve id) d t = (res, d', t') →
  posted t' = posted t ∨
  ∃ o r wl target, db_operations d !! id = Some o ∧ op_status o = OS_QUEUED ∧
    run_of backup_run o d = Some r ∧ db_workloads d !! op_workload_id o = Some wl ∧
    db_backup_targets d !! br_backup_target_id r = Some target ∧ backup_usable wl target = true ∧
    begun id d' ∧ posted t' = posted t ++ [backup_request r wl target].
Proof.
  intros Hk Hrun. destruct (backup_sends _ _ _ _ _ _ Hk Hrun) as [_ [[_ Hg]|Hsub]]; simpl in *.
  - left. by rewrite Hg, app_nil_r.
  - right. destruct Hsub as (o & r & call & rq & Ho & Hq & Hr & Hcall & Hb & Hc%checked_posted).
    destruct Hcall as (wl & target & Hwl & Ht & Hu & _ & ->). by exists o, r, wl, target.
Qed.

(** The cluster has just answered that the node is online and no guest has the
    number. *)
Definition target_free (r : restore_run) (client : ProxmoxClient) t t' : Prop :=
  ∃ nodes guests t1, get_nodes client t = (Ok nodes, t1) ∧ get_guests client t1 = (Ok guests, t') ∧
    (∃ item, item ∈ nodes ∧ node_online (rr_target_node r) item = true) ∧
    ∀ item, item ∈ guests → same_vmid (rr_target_vmid r) item = Some false.

Lemma vmid_free vmid guests :
  vmid_taken vmid guests = Some false → ∀ item, item ∈ guests → same_vmid vmid item = Some false.
Proof.
  induction guests as [|g guests IH]; simpl; intros Hv item; [by rewrite elem_of_nil|].
  rewrite elem_of_cons. destruct (same_vmid vmid g) as [[|]|] eqn:Hg; try done.
  intros [->|Hin]; [done|by apply IH].
Qed.

Lemma target_is_free r client t t' :
  _target_is_free r client t = (Ok true, t') → target_free r client t t'.
Proof.
  unfold _target_is_free, mbind, M_bind. destruct (get_nodes client t) as [[nodes|x] t1] eqn:Hn; [|done].
  destruct (existsb _ nodes) eqn:Hnode; simpl; [|done]. unfold mbind, M_bind.
  destruct (get_guests client t1) as [[guests|x] t2] eqn:Hg; [|done].
  unfold fmap, M_fmap, or_raise. destruct (vmid_taken _ guests) as [[|]|] eqn:Hv; try done.
  intros [= <-]. apply existsb_exists in Hnode as (item & Hin & Hon).
  exists nodes, guests, t1. split_and!; try done; [|by apply vmid_free].
  exists item. by rewrite list_elem_of_In.
Qed.

(** C10: a delivered restore submits nothing, or exactly the restore that its run
    records: for an operation that was QUEUED, from a backup that succeeded with its
    archive, to a target, workload and cluster that can be used, and after the cluster
    has answered, in this run and before the submission, that the node is online and
    that no guest has the VMID to restore to. *)
Theorem restore_submission id d t res d' t' :
  keyed operation d →
  exec (run_restore_operation settings pve id) d t = (res, d', t') →
  posted t' = posted t ∨
  ∃ o r backup archive target wl c client t1 t2,
    db_operations d !! id = Some o ∧ op_status o = OS_QUEUED ∧ run_of restore_run o d = Some r ∧
    db_backup_runs d !! rr_backup_run_id r = Some backup ∧ br_snapshot_volume_id backup = Some archive ∧
    db_backup_targets d !! br_backup_target_id backup = Some target ∧
    db_workloads d !! op_workload_id o = Some wl ∧ db_clusters d !! op_cluster_id o = Some c ∧
    restore_usable backup archive target wl c = true ∧ begun id d' ∧
    target_free r client t1 t2 ∧ posted t2 = posted t ∧ lg_events t2 `prefix_of` lg_events t' ∧
    posted t' = posted t ++ [restore_request r archive wl].
Proof.
  intros Hk Hrun. destruct (restore_sends _ _ _ _ _ _ Hk Hrun) as [_ [[_ Hg]|Hsub]]; simpl in *.
  - left. by rewrite Hg, app_nil_r.
  - right. destruct Hsub as (o & r & call & rq & Ho & Hq & Hr & Hcall & Hb & Hc).
    pose proof (checked_posted _ _ _ _ Hc) as Hpost.
    destruct Hcall as (b & archive & target & wl & c & ? & ? & ? & ? & ? & ? & -> & ->).
    destruct Hc as (client & t1 & t2 & Hready & [_ Hg1] & [_ Hg2] & [Hpre _]).
    exists o, r, b, archive, target, wl, c, client, t1, t2. split_and!; try done.
    + by apply target_is_free.
    + by rewrite Hg2, Hg1, !app_nil_r.
Qed.

(** *** Redelivery *)

(** Deliveries of one operation to the two tasks, with the work of others between
    them: theirs may be anything that does not put the operation back in the queue. *)
Inductive deliveries (id : N) d t : db → logged E → list http_request → Prop :=
| delivered_none : deliveries id d t d t []
| delivered_backup d1 t1 sent res d2 t2 rqs :
    deliveries id d t d1 t1 sent →
    exec (run_backup_operation settings pve id) d1 t1 = (res, d2, t2) →
    posted t2 = posted t1 ++ rqs → deliveries id d t d2 t2 (sent ++ rqs)
| delivered_restore d1 t1 sent res d2 t2 rqs :
    deliveries id d t d1 t1 sent →
    exec (run_restore_operation settings pve id) d1 t1 = (res, d2, t2) →
    posted t2 = posted t1 ++ rqs → deliveries id d t d2 t2 (sent ++ rqs)
| delivered_other d1 t1 sent d2 t2 :
    deliveries id d t d1 t1 sent → keyed operation d2 → (begun id d1 → begun id d2) →
    deliveries id d t d2 t2 sent.

(** C9: however often an operation is delivered to the workers, at most one task is
    submitted to the cluster, whatever the cluster answered, whichever deliveries raised,
    and whatever other work ran between them that does not queue the operation again. *)
Theorem submitted_once id d t d' t' sent :
  keyed operation d → deliveries id d t d' t' sent → (length sent <= 1)%nat.
Proof.
  intros Hk Hdel. cut (one_sent id d' sent); [intros [_ [-> | [-> _]]]; simpl; lia|].
  induction Hdel as [|d1 t1 sent res d2 t2 rqs Hdel IH Hrun Hp|d1 t1 sent res d2 t2 rqs Hdel IH Hrun Hp
                    |d1 t1 sent d2 t2 Hdel IH Hk2 Hb].
  - split; [done|by left].
  - eapply (sends_one (R := backup_run)); [exact IH| |exact Hp].
    eapply backup_sends; [apply IH|exact Hrun].
  - eapply (sends_one (R := restore_run)); [exact IH| |exact Hp].
    eapply restore_sends; [apply IH|exact Hrun].
  - destruct IH as [_ IH]. split; [done|]. tauto.
Qed.
End properties.
