(* ===== verification/Backups.v ===== *)
(** * The backup service

    app/services/backups.py: PBS storages of a cluster, the targets registered from
    them, requests for a backup of a workload and for a restore of a backup.  The
    listings of targets and runs are left out. *)
From stdpp Require Import sorting.
From S2P Require Import Prelude Models Database AuditLog Operations PveApi IpAddr Endpoints Client.
From S2P Require Import PowerRunner Clusters PveJobs BackupRunner RestoreRunner.

(** Celery's [send_task] for the two tasks. *)
Class BackupPublishers (E : Type) := {
  env_publish_backup : N → N → E → E; env_publish_restore : N → N → E → E }.

(** ** app/schemas/backup.py *)

Record BackupStorageCandidate := mkBackupStorageCandidate {
  bsc_cluster_id : N; bsc_cluster_name : string; bsc_storage_id : string;
  bsc_datastore : option string; bsc_namespace : option string; bsc_available : bool;
  bsc_enabled_in_pve : bool; bsc_registered_target_id : option N }.

Record BackupTargetCreate := mkBackupTargetCreate { btc_cluster_id : N; btc_storage_id : string }.

Record BackupTargetUpdate := mkBackupTargetUpdate { btu_is_enabled : bool; btu_version : Z }.

Record BackupTargetResponse := mkBackupTargetResponse {
  btr_id : N; btr_cluster_id : N; btr_cluster_name : string; btr_storage_id : string;
  btr_datastore : option string; btr_namespace : option string; btr_is_enabled : bool;
  btr_available : bool; btr_last_checked_at : option Z; btr_version : Z }.

(** [mode] and [compression] are literals, "snapshot" and "zstd". *)
Record BackupRequest := mkBackupRequest {
  bq_backup_target_id : N; bq_mode : string; bq_compression : string }.

Record BackupRunResponse := mkBackupRunResponse {
  bres_id : N; bres_operation_id : N; bres_backup_target_id : N; bres_cluster_id : N;
  bres_cluster_name : string; bres_storage_id : string; bres_workload_id : N;
  bres_workload_name : option string; bres_vmid : Z; bres_kind : string;
  bres_source_node : string; bres_organization_id : option N;
  bres_organization_name : option string; bres_mode : string; bres_compression : string;
  bres_status : OperationStatus; bres_snapshot_volume_id : option string;
  bres_snapshot_time : option Z; bres_size_bytes : option Z;
  bres_transferred_bytes : option Z; bres_error_code : option string;
  bres_error_summary : option string; bres_retryable : option bool;
  bres_pve_exit_status : option string; bres_requested_at : Z; bres_started_at : option Z;
  bres_finished_at : option Z }.

Record RestoreRequest := mkRestoreRequest {
  rq_target_node : string; rq_target_vmid : Z; rq_target_name : string }.

Record RestoreRunResponse := mkRestoreRunResponse {
  rres_id : N; rres_operation_id : N; rres_backup_run_id : N; rres_cluster_id : N;
  rres_cluster_name : string; rres_source_workload_id : N;
  rres_source_workload_name : option string; rres_kind : string;
  rres_snapshot_volume_id : string; rres_target_node : string; rres_target_vmid : Z;
  rres_target_name : string; rres_status : OperationStatus; rres_error_code : option string;
  rres_error_summary : option string; rres_retryable : option bool;
  rres_pve_exit_status : option string; rres_requested_at : Z; rres_started_at : option Z;
  rres_finished_at : option Z }.

(** ** Helpers *)

Definition COMMA : Ascii.ascii := Ascii.ascii_of_nat 44.

(** [str(item.get(key, ""))]. *)
Definition item_text `{Digests} (key : string) (item : json_object) : string :=
  py_str (default (JStr "") (obj_get key item)).

Definition _as_bool `{Digests} (value : option json) : bool :=
  match value with
  | Some (JBool true) | Some (JInt 1) => true
  | Some j => bool_decide (str_lower (py_str j) ∈ ["1"; "true"; "yes"; "on"])
  | None => false
  end.

Definition _optional_text (value : option json) : option string :=
  match value with Some (JStr s) => if str_nonempty s then Some s else None | _ => None end.

(** A PBS storage that takes backups. *)
Definition is_backup_storage `{Digests} (item : json_object) : option string :=
  match obj_get "storage" item with
  | Some (JStr storage) =>
    if json_is (obj_get "type" item) "pbs" &&
       bool_decide ("backup" ∈ map str_strip (str_split COMMA (item_text "content" item)))
    then Some storage else None
  | _ => None
  end.

(** [any(... for live in live_by_storage.get(storage, []))]. *)
Definition live_available `{Digests} (storage : string) (live_storages : list json_object) : bool :=
  existsb (λ live, json_is (obj_get "storage" live) storage &&
                   bool_decide (str_lower (item_text "status" live) = "available")) live_storages.

(** [list.sort] by storage: stable. *)
Fixpoint insert_candidate (c : BackupStorageCandidate) (l : list BackupStorageCandidate) :=
  match l with
  | [] => [c]
  | x :: l => if String.ltb (bsc_storage_id c) (bsc_storage_id x) then c :: x :: l
              else x :: insert_candidate c l
  end.
Definition sort_candidates (l : list BackupStorageCandidate) : list BackupStorageCandidate :=
  fold_left (λ l c, insert_candidate c l) l [].

Definition with_storage (storage : string) (l : list BackupStorageCandidate) : option BackupStorageCandidate :=
  head (filter (λ c, bsc_storage_id c = storage) l).

(** The candidate for one configuration, the target already registered for it. *)
Definition candidate `{Digests} (c : cluster) (targets : list backup_target)
    (live_storages : list json_object) (item : json_object) : option BackupStorageCandidate :=
  storage ← is_backup_storage item;
  let disabled := _as_bool (obj_get "disable" item) in
  Some (mkBackupStorageCandidate (cl_id c) (cl_name c) storage
    (_optional_text (obj_get "datastore" item)) (_optional_text (obj_get "namespace" item))
    (negb disabled && live_available storage live_storages) (negb disabled)
    (bt_id <$> last (filter (λ t, bt_storage_id t = storage) targets))).

Definition candidates `{Digests} (c : cluster) (targets : list backup_target)
    (configurations live_storages : list json_object) : list BackupStorageCandidate :=
  sort_candidates (omap (candidate c targets live_storages) configurations).

(** What a discovery notes of a registered target. *)
Definition observed (candidates : list BackupStorageCandidate) (checked_at : Z) (t : backup_target)
  : backup_target :=
  match with_storage (bt_storage_id t) (reverse candidates) with
  | Some c => t <| bt_last_observed_available := bsc_available c |>
                <| bt_last_checked_at := Some checked_at |>
                <| bt_datastore := bsc_datastore c |> <| bt_namespace := bsc_namespace c |>
  | None => t <| bt_last_observed_available := false |> <| bt_last_checked_at := Some checked_at |>
  end.

Definition BACKUP_CONFLICT : exn :=
  app_error 409 "OPERATION_CONFLICT" "A conflicting operation exists.".
Definition IDEMPOTENCY_KEY_REUSED : exn :=
  app_error 409 "IDEMPOTENCY_KEY_REUSED" "The idempotency key was reused.".
Definition RESTORE_VMID_IN_USE : exn :=
  app_error 409 "RESTORE_VMID_IN_USE" "The target VMID is already in use.".

Section backups.
Context {E : Type} `{Runtime E} `{Resolver E} `{HttpTransport E} `{CredentialSecrets E}.
Context `{BackupPublishers E} `{Digests}.
Context (pve : PveSettings).
Implicit Types (self : service).

(** ** Clusters *)

Definition _active_cluster (cluster_id : N) : DBM E cluster :=
  row ← db_scalar (λ c, bool_decide (cl_id c = cluster_id) && cl_is_active c);
  or_raise (app_error 404 "CLUSTER_NOT_FOUND" "The cluster was not found.") row.

Definition _open_client (c : cluster) : DBM E ProxmoxClient :=
  credential ← db_scalar (active_credential_of (cl_id c));
  credential ← or_raise
    (app_error 409 "CLUSTER_CREDENTIAL_MISSING" "The cluster has no credential.") credential;
  open_cluster pve c credential.

(** ** Targets *)

Definition targets_of (cluster_id : N) (t : backup_target) : bool :=
  bool_decide (bt_cluster_id t = cluster_id).

Definition _refresh_observed_targets (cluster_id : N) (candidates : list BackupStorageCandidate)
    (checked_at : Z) : DBM E () :=
  targets ← db_select (targets_of cluster_id);
  for_each targets (λ t, db_save (observed candidates checked_at t));;
  when (bool_decide (targets ≠ [])) commit.

Definition discover_storages self (cluster_id : N) : DBM E (list BackupStorageCandidate) :=
  require_service_role (self_principal self) [SUPER_ADMIN; OPERATOR];;
  c ← _active_cluster cluster_id;
  client ← _open_client c;
  configurations ← on_env (get_storage_configurations client);
  live_storages ← on_env (get_storages client);
  targets ← db_select (targets_of (cl_id c));
  now ← datetime_now;
  let result := candidates c targets configurations live_storages in
  _refresh_observed_targets (cl_id c) result now;;
  mret result.

Definition _target_response (t : backup_target) (c : cluster) : BackupTargetResponse := {|
  btr_id := bt_id t; btr_cluster_id := cl_id c; btr_cluster_name := cl_name c;
  btr_storage_id := bt_storage_id t; btr_datastore := bt_datastore t;
  btr_namespace := bt_namespace t; btr_is_enabled := bt_is_enabled t;
  btr_available := bt_last_observed_available t; btr_last_checked_at := bt_last_checked_at t;
  btr_version := bt_version t |}.

Definition target_audit self (action : string) (target_id : N) (after : list (string * json)) : audit_args :=
  (self_audit self action "SUCCEEDED")
    <| a_target_type := Some "backup_target" |>
    <| a_target_id := Some (JUuid target_id) |>
    <| a_after := Some after |>.

Definition create_target self (payload : BackupTargetCreate) : DBM E BackupTargetResponse :=
  require_service_role (self_principal self) [SUPER_ADMIN];;
  candidates ← discover_storages self (btc_cluster_id payload);
  c ← or_raise (app_error 404 "BACKUP_STORAGE_NOT_FOUND" "The PBS storage was not found.")
    (with_storage (btc_storage_id payload) candidates);
  raise_if (negb (bsc_enabled_in_pve c))
    (app_error 409 "BACKUP_STORAGE_DISABLED" "The PBS storage is disabled in PVE.");;
  raise_if (bool_decide (is_Some (bsc_registered_target_id c)))
    (app_error 409 "BACKUP_TARGET_EXISTS" "The backup target is already registered.");;
  now ← datetime_now;
  id ← uuid4;
  let target := {|
    bt_id := id; bt_cluster_id := btc_cluster_id payload; bt_storage_id := btc_storage_id payload;
    bt_datastore := bsc_datastore c; bt_namespace := bsc_namespace c; bt_is_enabled := true;
    bt_last_observed_available := bsc_available c; bt_last_checked_at := Some now;
    bt_created_by_id := p_user_id (self_principal self); bt_version := 1 |} in
  db_add target;;
  add_audit_event (target_audit self "BACKUP_TARGET_CREATED" id
    [("storage_id", JStr (bt_storage_id target)); ("enabled", JBool true)]);;
  or_conflict commit
    (app_error 409 "BACKUP_TARGET_EXISTS" "The backup target already exists.");;
  cluster ← db_get cluster (btc_cluster_id payload);
  cluster ← assert_some cluster;
  mret (_target_response target cluster).

Definition update_target self (target_id : N) (payload : BackupTargetUpdate) : DBM E BackupTargetResponse :=
  require_service_role (self_principal self) [SUPER_ADMIN];;
  row ← db_get backup_target target_id;
  target ← or_raise
    (app_error 404 "BACKUP_TARGET_NOT_FOUND" "The backup target was not found.") row;
  raise_if (bool_decide (bt_version target ≠ btu_version payload))
    (app_error 409 "BACKUP_TARGET_VERSION_CONFLICT" "The backup target changed.");;
  let target := target <| bt_is_enabled := btu_is_enabled payload |>
                       <| bt_version := bt_version target + 1 |> in
  db_save target;;
  add_audit_event (target_audit self "BACKUP_TARGET_UPDATED" (bt_id target)
    [("enabled", JBool (bt_is_enabled target))]);;
  commit;;
  cluster ← db_get cluster (bt_cluster_id target);
  cluster ← assert_some cluster;
  mret (_target_response target cluster).

(** ** Responses *)

(** The newest task of an operation. *)
Definition newest_task (operation_id : N) : DBM E (option pve_task) :=
  db_scalar_ordered newest_first (λ _ _, false) (λ t, bool_decide (pt_operation_id t = operation_id)).

Definition BACKUP_NOT_FOUND : exn :=
  app_error 404 "BACKUP_NOT_FOUND" "The backup run was not found.".

(** The joined rows of a run. *)
Definition run_rows (run_id : N) : DBM E (option (backup_run * operation * backup_target * cluster * workload)) :=
  run ← db_get backup_run run_id;
  o ← db_get_opt operation (br_operation_id <$> run);
  target ← db_get_opt backup_target (br_backup_target_id <$> run);
  c ← db_get_opt cluster (bt_cluster_id <$> target);
  wl ← db_get_opt workload (br_workload_id <$> run);
  mret match run, o, target, c, wl with
       | Some run, Some o, Some target, Some c, Some wl => Some (run, o, target, c, wl)
       | _, _, _, _, _ => None
       end.

Definition _run_response (run_id : N) : DBM E BackupRunResponse :=
  row ← run_rows run_id;
  row ← or_raise BACKUP_NOT_FOUND row;
  let '(run, o, target, c, wl) := row in
  organization ← db_get_opt organization (br_organization_id run);
  task ← newest_task (op_id o);
  mret {|
    bres_id := br_id run; bres_operation_id := op_id o; bres_backup_target_id := bt_id target;
    bres_cluster_id := cl_id c; bres_cluster_name := cl_name c;
    bres_storage_id := bt_storage_id target; bres_workload_id := wl_id wl;
    bres_workload_name := wl_name wl; bres_vmid := wl_vmid wl; bres_kind := wl_kind wl;
    bres_source_node := wl_node wl; bres_organization_id := br_organization_id run;
    bres_organization_name := org_name <$> organization; bres_mode := br_mode run;
    bres_compression := br_compression run; bres_status := op_status o;
    bres_snapshot_volume_id := br_snapshot_volume_id run;
    bres_snapshot_time := br_snapshot_time run; bres_size_bytes := br_size_bytes run;
    bres_transferred_bytes := br_transferred_bytes run; bres_error_code := op_error_code o;
    bres_error_summary := op_error_summary o; bres_retryable := op_retryable o;
    bres_pve_exit_status := task ≫= pt_pve_exit_status; bres_requested_at := op_requested_at o;
    bres_started_at := op_started_at o; bres_finished_at := op_finished_at o |}.

Definition get_run self (run_id : N) : DBM E BackupRunResponse :=
  require_service_role (self_principal self) [SUPER_ADMIN; OPERATOR];;
  _run_response run_id.

Definition _restore_response (restore_id : N) : DBM E RestoreRunResponse :=
  restore ← db_get restore_run restore_id;
  o ← db_get_opt operation (rr_operation_id <$> restore);
  backup ← db_get_opt backup_run (rr_backup_run_id <$> restore);
  c ← db_get_opt cluster (rr_cluster_id <$> restore);
  wl ← db_get_opt workload (rr_source_workload_id <$> restore);
  match restore, o, backup, c, wl with
  | Some restore, Some o, Some backup, Some c, Some wl =>
    task ← newest_task (op_id o);
    snapshot ← assert_some (br_snapshot_volume_id backup);
    mret {|
      rres_id := rr_id restore; rres_operation_id := op_id o; rres_backup_run_id := br_id backup;
      rres_cluster_id := cl_id c; rres_cluster_name := cl_name c;
      rres_source_workload_id := wl_id wl; rres_source_workload_name := wl_name wl;
      rres_kind := wl_kind wl; rres_snapshot_volume_id := snapshot;
      rres_target_node := rr_target_node restore; rres_target_vmid := rr_target_vmid restore;
      rres_target_name := rr_target_name restore; rres_status := op_status o;
      rres_error_code := op_error_code o; rres_error_summary := op_error_summary o;
      rres_retryable := op_retryable o; rres_pve_exit_status := task ≫= pt_pve_exit_status;
      rres_requested_at := op_requested_at o; rres_started_at := op_started_at o;
      rres_finished_at := op_finished_at o |}
  | _, _, _, _, _ => raise (app_error 404 "RESTORE_NOT_FOUND" "The restore run was not found.")
  end.

Definition get_restore self (restore_id : N) : DBM E RestoreRunResponse :=
  require_service_role (self_principal self) [SUPER_ADMIN];;
  _restore_response restore_id.

(** ** Requests *)

Definition request_fields (workload_id target_id : N) (payload : BackupRequest) : list (string * json) :=
  [("workload_id", JUuid workload_id); ("backup_target_id", JUuid target_id);
   ("mode", JStr (bq_mode payload)); ("compression", JStr (bq_compression payload))].

(** A workload that can be backed up. *)
Definition backup_source (workload_id : N) (w : workload) : bool :=
  actionable workload_id w && bool_decide (wl_kind w ∈ ["QEMU"; "LXC"]).

Definition new_backup_run (id : N) (o : operation) (target : backup_target) (wl : workload)
    (payload : BackupRequest) : backup_run := {|
  br_id := id; br_operation_id := op_id o; br_backup_target_id := bt_id target;
  br_workload_id := wl_id wl; br_organization_id := wl_organization_id wl;
  br_mode := bq_mode payload; br_compression := bq_compression payload; br_status := OS_QUEUED;
  br_snapshot_volume_id := None; br_snapshot_time := None; br_size_bytes := None;
  br_transferred_bytes := None; br_started_at := None; br_finished_at := None |}.

Definition request_backup self (workload_id : N) (payload : BackupRequest) (idempotency_key : string)
  : DBM E (BackupRunResponse * bool) :=
  require_service_role (self_principal self) [SUPER_ADMIN; OPERATOR];;
  row ← db_scalar (backup_source workload_id);
  wl ← or_raise VM_NOT_FOUND row;
  target ← db_get backup_target (bq_backup_target_id payload);
  target ← or_raise
    (app_error 404 "BACKUP_TARGET_NOT_FOUND" "The backup target was not found.")
    (t ← target; if bt_is_enabled t then Some t else None);
  raise_if (bool_decide (bt_cluster_id target ≠ wl_cluster_id wl))
    (app_error 409 "BACKUP_TARGET_CLUSTER_MISMATCH" "The backup target belongs to another cluster.");;
  let key_hash := hmac_key idempotency_key in
  let fingerprint := sha256_json (request_fields (wl_id wl) (bt_id target) payload) in
  existing ← db_scalar (op_of_key (p_user_id (self_principal self)) key_hash);
  match existing with
  | Some o =>
    raise_if (bool_decide (op_request_fingerprint o ≠ fingerprint)) IDEMPOTENCY_KEY_REUSED;;
    run ← db_scalar (λ r, bool_decide (br_operation_id r = op_id o));
    run ← or_raise IDEMPOTENCY_KEY_REUSED run;
    response ← _run_response (br_id run);
    mret (response, false)
  | None =>
    conflict ← db_scalar (op_conflicts (wl_id wl));
    raise_if (bool_decide (is_Some conflict))
      (app_error 409 "OPERATION_CONFLICT" "Another workload operation is running.");;
    operation_id ← uuid4;
    celery_task_id ← uuid4;
    requested_at ← datetime_now;
    let o := new_operation self operation_id celery_task_id "WORKLOAD_BACKUP" "backup" wl
      key_hash fingerprint
      [("backup_target_id", JUuid (bt_id target)); ("storage_id", JStr (bt_storage_id target));
       ("mode", JStr (bq_mode payload)); ("compression", JStr (bq_compression payload));
       ("workload_kind", JStr (wl_kind wl))] requested_at in
    run_id ← uuid4;
    let run := new_backup_run run_id o target wl payload in
    db_add o;;
    or_conflict flush BACKUP_CONFLICT;;
    db_add run;;
    add_audit_event ((self_audit self "WORKLOAD_BACKUP" "ATTEMPTED")
      <| a_organization_id := wl_organization_id wl |>
      <| a_workload_id := Some (wl_id wl) |>
      <| a_operation_id := Some operation_id |>
      <| a_target_type := Some "workload" |>
      <| a_target_id := Some (JUuid (wl_id wl)) |>
      <| a_details := Some [("storage_id", JStr (bt_storage_id target));
                            ("mode", JStr (bq_mode payload))] |>);;
    or_conflict commit BACKUP_CONFLICT;;
    from_env (λ e, (tt, env_publish_backup operation_id celery_task_id e));;
    response ← _run_response run_id;
    mret (response, true)
  end.

Definition restore_fields (run_id : N) (payload : RestoreRequest) : list (string * json) :=
  [("backup_run_id", JUuid run_id); ("target_node", JStr (rq_target_node payload));
   ("target_vmid", JInt (rq_target_vmid payload)); ("target_name", JStr (rq_target_name payload))].

(** A workload of the inventory that has the number. *)
Definition occupies (cluster_id : N) (vmid : Z) (w : workload) : bool :=
  bool_decide (wl_cluster_id w = cluster_id) && bool_decide (wl_vmid w = vmid) && wl_is_present w.

(** The node is online, and no guest of the cluster has the number. *)
Definition check_target (c : cluster) (payload : RestoreRequest) : DBM E () :=
  client ← _open_client c;
  nodes ← on_env (get_nodes client);
  raise_if (negb (existsb (node_online (rq_target_node payload)) nodes))
    (app_error 409 "RESTORE_NODE_UNAVAILABLE" "The target node is unavailable.");;
  guests ← on_env (get_guests client);
  taken ← or_raise TypeError (vmid_taken (rq_target_vmid payload) guests);
  raise_if taken RESTORE_VMID_IN_USE.

Definition new_restore_run (id : N) (o : operation) (backup : backup_run) (c : cluster)
    (wl : workload) (payload : RestoreRequest) : restore_run := {|
  rr_id := id; rr_operation_id := op_id o; rr_backup_run_id := br_id backup; rr_cluster_id := cl_id c;
  rr_source_workload_id := wl_id wl; rr_target_node := rq_target_node payload;
  rr_target_vmid := rq_target_vmid payload; rr_target_name := rq_target_name payload;
  rr_status := OS_QUEUED; rr_started_at := None; rr_finished_at := None |}.

(** The operation of a restore has no organization, and the cluster of the target. *)
Definition restore_operation self (id task_id : N) (backup : backup_run) (snapshot : string)
    (target : backup_target) (c : cluster) (wl : workload) (payload : RestoreRequest)
    (key_hash fingerprint : N) (requested_at : Z) : operation :=
  (new_operation self id task_id "WORKLOAD_RESTORE" "restore" wl key_hash fingerprint
    [("backup_run_id", JUuid (br_id backup)); ("snapshot_volume_id", JStr snapshot);
     ("storage_id", JStr (bt_storage_id target)); ("workload_kind", JStr (wl_kind wl));
     ("target_node", JStr (rq_target_node payload)); ("target_vmid", JInt (rq_target_vmid payload));
     ("target_name", JStr (rq_target_name payload))] requested_at)
    <| op_organization_id := None |> <| op_cluster_id := cl_id c |>.

(** The snapshot of a backup that completed. *)
Definition restorable (backup : backup_run) (o : operation) : option string :=
  match op_status o, br_snapshot_volume_id backup with
  | OS_SUCCEEDED, Some snapshot => if str_nonempty snapshot then Some snapshot else None
  | _, _ => None
  end.

Definition request_restore self (run_id : N) (payload : RestoreRequest) (idempotency_key : string)
  : DBM E (RestoreRunResponse * bool) :=
  require_service_role (self_principal self) [SUPER_ADMIN];;
  row ← run_rows run_id;
  row ← or_raise BACKUP_NOT_FOUND
    (r ← row; let '(_, _, _, c, _) := r in if cl_is_active c then Some r else None);
  let '(backup, backup_op, target, c, wl) := row in
  snapshot ← or_raise
    (app_error 409 "BACKUP_NOT_RESTORABLE"
       "Only a completed backup with a snapshot can be restored.") (restorable backup backup_op);
  raise_if (negb (bt_is_enabled target))
    (app_error 409 "BACKUP_TARGET_DISABLED" "The backup target is disabled.");;
  let key_hash := hmac_key idempotency_key in
  let fingerprint := sha256_json (restore_fields (br_id backup) payload) in
  existing ← db_scalar (op_of_key (p_user_id (self_principal self)) key_hash);
  match existing with
  | Some o =>
    raise_if (bool_decide (op_request_fingerprint o ≠ fingerprint)) IDEMPOTENCY_KEY_REUSED;;
    restore ← db_scalar (λ r, bool_decide (rr_operation_id r = op_id o));
    restore ← or_raise IDEMPOTENCY_KEY_REUSED restore;
    response ← _restore_response (rr_id restore);
    mret (response, false)
  | None =>
    local_collision ← db_scalar (occupies (cl_id c) (rq_target_vmid payload));
    raise_if (bool_decide (is_Some local_collision)) RESTORE_VMID_IN_USE;;
    check_target c payload;;
    operation_id ← uuid4;
    celery_task_id ← uuid4;
    requested_at ← datetime_now;
    let o := restore_operation self operation_id celery_task_id backup snapshot target c wl payload
      key_hash fingerprint requested_at in
    restore_id ← uuid4;
    let restore := new_restore_run restore_id o backup c wl payload in
    db_add o;;
    or_conflict flush
      (app_error 409 "RESTORE_SOURCE_CONFLICT"
         "Another operation is running for the source workload.");;
    db_add restore;;
    add_audit_event ((self_audit self "WORKLOAD_RESTORE" "ATTEMPTED")
      <| a_workload_id := Some (wl_id wl) |>
      <| a_operation_id := Some operation_id |>
      <| a_target_type := Some "backup_run" |>
      <| a_target_id := Some (JUuid (br_id backup)) |>
      <| a_details := Some [("target_node", JStr (rq_target_node payload));
                            ("target_vmid", JInt (rq_target_vmid payload));
                            ("target_name", JStr (rq_target_name payload))] |>);;
    or_conflict commit
      (app_error 409 "RESTORE_CONFLICT" "A conflicting restore is running.");;
    from_env (λ e, (tt, env_publish_restore operation_id celery_task_id e));;
    response ← _restore_response restore_id;
    mret (response, true)
  end.

(** *** The calls of the service *)

Inductive backup_service_call :=
| CallBackup (workload_id : N) (payload : BackupRequest) (idempotency_key : string)
| CallRestore (run_id : N) (payload : RestoreRequest) (idempotency_key : string).

(** The number of the run in the answer, and whether it is new. *)
Definition backup_service_run self (c : backup_service_call) : DBM E (N * bool) :=
  match c with
  | CallBackup id payload key =>
    '(response, new) ← request_backup self id payload key; mret (bres_id response, new)
  | CallRestore id payload key =>
    '(response, new) ← request_restore self id payload key; mret (rres_id response, new)
  end.
End backups.
