(* ===== verification/BackupRequests.v ===== *)
(** * Requests for backups and restores

    What a request of Backups.v leaves: exactly one QUEUED operation with its run,
    ready for the worker of BackupProps.v, or the database as it was. *)
From stdpp Require Import sorting.
From Stdlib Require Import Lia.
From S2P Require Import Prelude Models Database AuditLog Operations PveApi Keeps PowerRunner PowerSettle.
From S2P Require Import IpAddr Endpoints Client ClientProps Clusters ClusterInv ClusterSecrets.
From S2P Require Import PveJobs BackupRunner RestoreRunner JobTrace JobEnds BackupProps Backups.

(** ** Recording *)

(** A run is one of the operation's only. *)
Class OneRun (R : Type) `{RunLaws R} := {
  one_run d i j (r s : R) : integrity d = true → rows d !! i = Some r → rows d !! j = Some s →
    run_operation r = run_operation s → i = j }.

#[export] Instance backup_one_run : OneRun backup_run.
Proof.
  split. intros d i j r s Hi Hr Hs Heq.
  eapply (integrity_unique uq_backup_runs_operation d); [by simpl; tauto|done|exact Hr|exact Hs|..].
  all: unfold uq_backup_runs_operation; simpl in Heq; by rewrite ?Heq.
Qed.

#[export] Instance restore_one_run : OneRun restore_run.
Proof.
  split. intros d i j r s Hi Hr Hs Heq.
  eapply (integrity_unique uq_restore_runs_operation d); [by simpl; tauto|done|exact Hr|exact Hs|..].
  all: unfold uq_restore_runs_operation; simpl in Heq; by rewrite ?Heq.
Qed.

(** The tables are indexed by the keys of their rows, and every target has its
    cluster. *)
Record linked (d : db) : Prop := {
  lk_tasks : keyed pve_task d; lk_clusters : keyed cluster d; lk_workloads : keyed workload d;
  lk_targets : keyed backup_target d; lk_backups : keyed backup_run d; lk_restores : keyed restore_run d;
  lk_cluster i t : db_backup_targets d !! i = Some t → is_Some (db_clusters d !! bt_cluster_id t) }.

(** One new operation and its run. *)
Record recorded {R} `{RunLaws R} (o : operation) (run : R) (d d' : db) : Prop := {
  rec_change : ∃ log, d' = (set_rows <[key run := run]> (set_rows <[op_id o := o]> d)) <| db_audit_logs := log |>;
  rec_operation : db_operations d !! op_id o = None; rec_run : rows d !! key run = None;
  rec_integrity : integrity d' = true }.

Section recorded.
Context {R : Type} `{OneRun R}.
Implicit Types (o : operation) (run : R).

Lemma recorded_operation o run d d' : recorded o run d d' → db_operations d' !! op_id o = Some o.
Proof.
  intros [[log ->] _ _ _]. simpl. rewrite run_rest_operations. apply lookup_insert_eq.
Qed.

Lemma recorded_run o run d d' : recorded o run d d' → rows d' !! key run = Some run.
Proof. intros [[log ->] _ _ _]. rewrite run_rows_log, run_rows_set. apply lookup_insert_eq. Qed.

Lemma recorded_found o run d d' :
  recorded o run d d' → run_operation run = op_id o → run_of R o d' = Some run.
Proof.
  intros Hrec Hop. pose proof (recorded_run _ _ _ _ Hrec) as Hrun.
  eapply first_row_unique; [exact Hrun|by apply bool_decide_eq_true|].
  intros j s Hj Hs%bool_decide_eq_true.
  assert (j = key run) as -> by (eapply one_run; [apply Hrec|exact Hj|exact Hrun|congruence]).
  congruence.
Qed.

Lemma keyed_recorded o run d d' : recorded o run d d' → keyed R d → keyed R d'.
Proof.
  intros [[log ->] _ _ _] Hk. unfold keyed. rewrite run_rows_log, run_rows_set, run_rows_operations.
  by apply lookup_insert_key.
Qed.

(** The worker finds what it needs. *)
Lemma recorded_sees o run d d' :
  recorded o run d d' → keyed R d → keyed pve_task d →
  op_status o = OS_QUEUED → run_operation run = op_id o → run_status run = OS_QUEUED →
  worker_sees R o d'.
Proof.
  intros Hrec Hk Ht Hq Hop Hst. split.
  - apply Hrec.
  - destruct Hrec as [[log ->] _ _ _]. unfold keyed. simpl. by rewrite run_rest_tasks.
  - by eapply keyed_recorded.
  - by eapply recorded_operation.
  - unfold op_active. by rewrite Hq.
  - intros i r Hi Hr. pose proof (recorded_run _ _ _ _ Hrec) as Hrun.
    assert (i = key run) as -> by (eapply one_run; [apply Hrec|exact Hi|exact Hrun|congruence]).
    assert (r = run) as -> by congruence. by rewrite Hst.
Qed.

(** The end of both requests. *)
Lemma wp_record_run {E A} `{Runtime E} o run audit e1 e2 (f : E → () * E) (k : DBM E A) d Q w :
  w_tx w = d → w_db w = d → w_dup w = false →
  Q (Raise e1) (World d d false (w_env w)) → Q (Raise e2) (World d d false (w_env w)) →
  (∀ d' e', recorded o run d d' → wp k Q (World d' d' false e')) →
  wp (db_add o;; or_conflict flush e1;; db_add run;; add_audit_event audit;; or_conflict commit e2;;
      from_env f;; k) Q w.
Proof.
  intros Htx Hdb Hd He1 He2 Hk. apply wp_bind, wp_db_add. intros b Hb.
  apply wp_bind, wp_or_conflict, wp_flush; simpl; [by rewrite Hdb|]. intros Hdup Hi.
  apply wp_bind, wp_db_add. intros b2 Hb2. apply wp_bind, wp_add_audit_event. intros log. simpl.
  apply wp_bind, wp_or_conflict, wp_commit; simpl; [by rewrite Hdb|]. intros Hdup2 Hi2.
  apply wp_bind, wp_from_env. intros [] e' _. apply Hk. rewrite Htx in *. simpl in *. subst b b2.
  rewrite Hd in Hdup. apply orb_false_iff in Hdup2 as [_ Hdup2]. simpl in *.
  apply bool_decide_eq_false, eq_None_not_Some in Hdup, Hdup2. split; try done.
  - by eexists.
  - pose proof (run_rows_operations (R := R) <[op_id o := o]> (w_tx w)) as Hrows. simpl in Hrows.
    rewrite Htx in Hrows. by rewrite Hrows in Hdup2.
Qed.
End recorded.

(** ** What an accepted request found and left *)

Section requests.
Context {E : Type} `{Runtime E} `{Resolver E} `{HttpTransport E} `{CredentialSecrets E}.
Context `{BackupPublishers E} `{Digests}.
Context (pve : PveSettings).
Implicit Types (self : service) (d : db) (w : world E) (key : string).

Definition caller self : N := p_user_id (self_principal self).

Record accepted_backup self (workload_id : N) (payload : BackupRequest) key d
    (wl : workload) (target : backup_target) (o : operation) (run : backup_run) d' : Prop := {
  acb_role : p_role (self_principal self) ∈ [SUPER_ADMIN; OPERATOR];
  acb_workload : first_row (backup_source workload_id) d = Some wl;
  acb_target : db_backup_targets d !! bq_backup_target_id payload = Some target;
  acb_enabled : bt_is_enabled target = true;
  acb_cluster : bt_cluster_id target = wl_cluster_id wl;
  acb_free i o' : db_operations d !! i = Some o' → op_workload_id o' = wl_id wl → op_active o' = false;
  acb_recorded : recorded o run d d';
  acb_run : run = new_backup_run (br_id run) o target wl payload;
  acb_operation : op_operation_type o = "WORKLOAD_BACKUP" ∧ op_status o = OS_QUEUED ∧
    op_workload_id o = wl_id wl ∧ op_cluster_id o = wl_cluster_id wl;
  acb_key : op_of_key (caller self) (hmac_key key) o = true ∧
    op_request_fingerprint o = sha256_json (request_fields (wl_id wl) (bt_id target) payload) }.

(** The backup completed with a snapshot, its target is enabled, its cluster active,
    and nothing of that cluster in the inventory has the number. *)
Record accepted_restore self (run_id : N) (payload : RestoreRequest) key d
    (backup : backup_run) (snapshot : string) (target : backup_target) (c : cluster) (wl : workload)
    (o : operation) (run : restore_run) d' : Prop := {
  acr_role : p_role (self_principal self) = SUPER_ADMIN;
  acr_backup : db_backup_runs d !! run_id = Some backup;
  acr_done : ∃ o0, db_operations d !! br_operation_id backup = Some o0 ∧ restorable backup o0 = Some snapshot;
  acr_target : db_backup_targets d !! br_backup_target_id backup = Some target;
  acr_enabled : bt_is_enabled target = true;
  acr_cluster : db_clusters d !! bt_cluster_id target = Some c; acr_active : cl_is_active c = true;
  acr_workload : db_workloads d !! br_workload_id backup = Some wl;
  acr_free i wl' : db_workloads d !! i = Some wl' → wl_cluster_id wl' = cl_id c →
    wl_vmid wl' = rq_target_vmid payload → wl_is_present wl' = false;
  acr_recorded : recorded o run d d';
  acr_run : run = new_restore_run (rr_id run) o backup c wl payload;
  acr_operation : op_operation_type o = "WORKLOAD_RESTORE" ∧ op_status o = OS_QUEUED ∧
    op_workload_id o = wl_id wl ∧ op_cluster_id o = cl_id c;
  acr_key : op_of_key (caller self) (hmac_key key) o = true ∧
    op_request_fingerprint o = sha256_json (restore_fields (br_id backup) payload) }.

(** *** Responses *)

Lemma wp_db_get_opt R `{Table R} id Q w :
  (∀ row, id ≫= (λ i, rows (w_tx w) !! i) = row → Q (Ok row) w) → wp (db_get_opt R id) Q w.
Proof. intros HQ. destruct id; by apply HQ. Qed.

Lemma wp_run_rows run o target c wl Q w :
  db_backup_runs (w_tx w) !! br_id run = Some run →
  db_operations (w_tx w) !! br_operation_id run = Some o →
  db_backup_targets (w_tx w) !! br_backup_target_id run = Some target →
  db_clusters (w_tx w) !! bt_cluster_id target = Some c →
  db_workloads (w_tx w) !! br_workload_id run = Some wl →
  Q (Ok (Some (run, o, target, c, wl))) w → wp (run_rows (br_id run)) Q w.
Proof.
  intros Hr Ho Ht Hc Hwl HQ. unfold run_rows. apply wp_bind, wp_db_get. intros r' Hr'.
  apply wp_bind, wp_db_get_opt. intros o' Ho'. apply wp_bind, wp_db_get_opt. intros t' Ht'.
  apply wp_bind, wp_db_get_opt. intros c' Hc'. apply wp_bind, wp_db_get_opt. intros wl' Hwl'.
  apply wp_ret. simpl in *. rewrite Hr in Hr'. subst r'. simpl in *. rewrite Ht in Ht'. subst t'. simpl in *.
  rewrite Ho in Ho'. rewrite Hc in Hc'. rewrite Hwl in Hwl'. by subst.
Qed.

Lemma wp_run_response run o target c wl Q w :
  db_backup_runs (w_tx w) !! br_id run = Some run →
  db_operations (w_tx w) !! br_operation_id run = Some o →
  db_backup_targets (w_tx w) !! br_backup_target_id run = Some target →
  db_clusters (w_tx w) !! bt_cluster_id target = Some c →
  db_workloads (w_tx w) !! br_workload_id run = Some wl →
  (∀ resp, bres_id resp = br_id run → Q (Ok resp) w) → wp (_run_response (br_id run)) Q w.
Proof.
  intros Hr Ho Ht Hc Hwl HQ. unfold _run_response. apply wp_bind. eapply wp_run_rows; [done..|].
  apply wp_bind, wp_ret, wp_bind. cbv beta iota.
  assert (∀ n, wp (db_get_opt organization n) (λ r w', (∃ x, r = Ok x) ∧ w' = w) w) as Horg.
  { intros [n|]; split; eauto. }
  eapply wp_mono; [apply Horg|]. intros r w' [[org ->] ->]. apply wp_bind, wp_gets, wp_ret. by apply HQ.
Qed.

Lemma wp_restore_response run o backup snapshot c wl Q w :
  db_restore_runs (w_tx w) !! rr_id run = Some run →
  db_operations (w_tx w) !! rr_operation_id run = Some o →
  db_backup_runs (w_tx w) !! rr_backup_run_id run = Some backup →
  br_snapshot_volume_id backup = Some snapshot →
  db_clusters (w_tx w) !! rr_cluster_id run = Some c →
  db_workloads (w_tx w) !! rr_source_workload_id run = Some wl →
  (∀ resp, rres_id resp = rr_id run → Q (Ok resp) w) → wp (_restore_response (rr_id run)) Q w.
Proof.
  intros Hr Ho Hb Hs Hc Hwl HQ. unfold _restore_response, wp, db_get, db_get_opt, gets, mbind, M_bind. simpl.
  rewrite Hr. simpl. unfold db_get, gets. simpl. rewrite Ho, Hb, Hc, Hwl. simpl.
  unfold mbind, M_bind, newest_task, db_scalar_ordered, gets. rewrite Hs. simpl. by apply HQ.
Qed.

(** A response only reads. *)
Lemma run_response_reads id w0 : keeps (E := E) (λ w, w = w0) (_run_response id).
Proof. unfold _run_response, run_rows, newest_task, db_get_opt. inv_run. Qed.

Lemma restore_response_reads id w0 : keeps (E := E) (λ w, w = w0) (_restore_response id).
Proof. unfold _restore_response, newest_task, db_get_opt. inv_run. Qed.

Lemma wp_reads {A} (m : DBM E A) Q w :
  keeps (λ w', w' = w) m → (∀ r, Q r w) → wp m Q w.
Proof. intros Hm HQ. eapply wp_mono; [by apply Hm|]. by intros r w' ->. Qed.

(** *** Requests *)

(** The outcome of a request: something new, something known, or a refusal; only
    the first changes the tables. *)
Definition request_outcome (made : N → db → Prop) d (r : outcome (N * bool)) w : Prop :=
  match r with
  | Ok (id, true) => made id (w_db w)
  | _ => w_db w = d
  end.

Definition backup_made self workload_id payload key d (id : N) d' : Prop :=
  ∃ wl target o run, accepted_backup self workload_id payload key d wl target o run d' ∧ br_id run = id.

Lemma wp_request_backup self workload_id payload key d e :
  linked d →
  wp ('(response, new) ← request_backup self workload_id payload key; mret (bres_id response, new))
    (request_outcome (backup_made self workload_id payload key d) d) (World d d false e).
Proof.
  intros Hl. apply wp_bind. unfold request_backup.
  apply wp_bind, wp_raise_if; [done|]. intros Hrole%bool_decide_eq_false%dec_stable.
  apply wp_bind, wp_db_scalar. intros row Hrow. apply wp_bind, wp_or_raise; [done|]. intros wl ->.
  apply wp_bind, wp_db_get. intros target Ht. apply wp_bind, wp_or_raise; [done|]. intros t Hen.
  apply wp_bind, wp_raise_if; [done|]. intros Hc%bool_decide_eq_false%dec_stable.
  apply wp_bind, wp_db_scalar. intros existing Hex. destruct existing as [o|].
  { apply wp_bind, wp_raise_if; [done|]. intros _. apply wp_bind, wp_db_scalar. intros run Hrun.
    apply wp_bind, wp_or_raise; [done|]. intros run' _. apply wp_bind, wp_reads; [apply run_response_reads|].
    intros [resp|x]; done. }
  apply wp_bind, wp_db_scalar. intros conflict Hconf. apply wp_bind, wp_raise_if; [done|].
  intros Hnone%bool_decide_eq_false. apply eq_None_not_Some in Hnone. subst conflict.
  apply wp_bind, wp_from_env. intros id e1 _. apply wp_bind, wp_from_env. intros task_id e2 _.
  apply wp_bind, wp_from_env. intros requested_at e3 _. apply wp_bind, wp_from_env. intros run_id e4 _.
  match goal with |- context [db_add ?x ≫= _] => match type of x with operation => set (o := x) end end.
  set (run := new_backup_run run_id o t wl payload).
  apply (wp_record_run o run) with (d := d); [done..|]. intros d' e' Hrec.
  destruct target as [t'|]; simpl in Hen; [|done]. destruct (bt_is_enabled t') eqn:Hena; [|done].
  injection Hen as ->.
  pose proof (lk_targets _ Hl _ _ Ht) as Hkt. simpl in Hkt. pose proof (recorded_run _ _ _ _ Hrec) as Hrr.
  pose proof (recorded_operation _ _ _ _ Hrec) as Hro.
  apply first_row_Some in Hrow as Hrow'. destruct Hrow' as [_ [i Hwl]].
  pose proof (lk_workloads _ Hl _ _ Hwl) as Hkw. simpl in Hkw.
  destruct (lk_cluster _ Hl _ _ Ht) as [c Hclu].
  destruct (rec_change _ _ _ _ Hrec) as [log Hd'].
  assert (db_backup_targets d' = db_backup_targets d ∧ db_clusters d' = db_clusters d ∧
          db_workloads d' = db_workloads d) as (Hts & Hcs & Hwls) by by rewrite Hd'.
  apply wp_bind. change run_id with (br_id run).
  eapply (wp_run_response run o t c wl); simpl; rewrite ?Hts, ?Hcs, ?Hwls, ?Hkt, ?Hkw; try done.
  intros resp Hid. apply wp_ret, wp_ret. exists wl, t, o, run. split; [|by rewrite Hid].
  split; try done.
  - by apply op_conflicts_free.
  - split; [|done]. unfold op_of_key. simpl. by rewrite !bool_decide_true.
Qed.

Definition restore_made self run_id payload key d (id : N) d' : Prop :=
  ∃ backup snapshot target c wl o run,
    accepted_restore self run_id payload key d backup snapshot target c wl o run d' ∧ rr_id run = id.

(** The checks of the cluster leave the tables alone. *)
Lemma wp_check_target c payload Q w :
  (∀ x e', Q (Raise x) (World (w_db w) (w_tx w) (w_dup w) e')) →
  (∀ e', Q (Ok tt) (World (w_db w) (w_tx w) (w_dup w) e')) → wp (check_target pve c payload) Q w.
Proof.
  intros Hx Hok. destruct w as [db tx dup e]. simpl in *. unfold check_target, Backups._open_client, open_cluster, _decrypt.
  apply wp_bind, wp_bind, wp_db_scalar. intros k _. apply wp_bind, wp_or_raise; [done|]. intros credential _.
  apply wp_bind, wp_or_raise; [done|]. intros secret _. apply wp_on_env, wp_intro. simpl.
  intros [client|x] e1 _; [|done]. apply wp_bind, wp_on_env, wp_intro. simpl. intros [nodes|x] e2 _; [|done].
  apply wp_bind, wp_raise_if; [done|]. intros _. apply wp_bind, wp_on_env, wp_intro. simpl.
  intros [guests|x] e3 _; [|done]. apply wp_bind, wp_or_raise; [done|]. intros taken _. apply wp_raise_if; [done|].
  intros _. apply Hok.
Qed.

(** The joined rows, as they are stored. *)
Lemma wp_run_rows_any id Q w :
  (∀ row, match row with
          | None => True
          | Some (run, o, target, c, wl) =>
            db_backup_runs (w_tx w) !! id = Some run ∧
            db_operations (w_tx w) !! br_operation_id run = Some o ∧
            db_backup_targets (w_tx w) !! br_backup_target_id run = Some target ∧
            db_clusters (w_tx w) !! bt_cluster_id target = Some c ∧
            db_workloads (w_tx w) !! br_workload_id run = Some wl
          end → Q (Ok row) w) →
  wp (run_rows id) Q w.
Proof.
  intros HQ. unfold run_rows. apply wp_bind, wp_db_get. intros run Hr.
  apply wp_bind, wp_db_get_opt. intros o Ho. apply wp_bind, wp_db_get_opt. intros target Ht.
  apply wp_bind, wp_db_get_opt. intros c Hc. apply wp_bind, wp_db_get_opt. intros wl Hwl.
  apply wp_ret, HQ. destruct run as [run|], o as [o|], target as [target|], c as [c|], wl as [wl|]; try done.
Qed.

Lemma wp_request_restore self run_id payload key d e :
  linked d →
  wp ('(response, new) ← request_restore pve self run_id payload key; mret (rres_id response, new))
    (request_outcome (restore_made self run_id payload key d) d) (World d d false e).
Proof.
  intros Hl. apply wp_bind. unfold request_restore.
  apply wp_bind, wp_raise_if; [done|]. intros Hrole%bool_decide_eq_false%dec_stable%list_elem_of_singleton.
  apply wp_bind, wp_run_rows_any. intros row Hrow. apply wp_bind, wp_or_raise; [done|].
  intros [[[[backup o0] t] c] wl] Hrow'. cbv beta iota.
  assert (row = Some (backup, o0, t, c, wl) ∧ cl_is_active c = true) as [-> Hact].
  { destruct row as [[[[[b' o'] t'] c'] wl']|]; simpl in Hrow'; [|done]. by case_match; simplify_eq. }
  destruct Hrow as (Hb & Ho0 & Ht & Hc & Hwl). simpl in *.
  apply wp_bind, wp_or_raise; [done|]. intros snapshot Hsnap. apply wp_bind, wp_raise_if; [done|].
  intros Hen%negb_false_iff. apply wp_bind, wp_db_scalar. intros existing Hex. destruct existing as [o|].
  { apply wp_bind, wp_raise_if; [done|]. intros _. apply wp_bind, wp_db_scalar. intros run Hrun.
    apply wp_bind, wp_or_raise; [done|]. intros run' _. apply wp_bind, wp_reads; [apply restore_response_reads|].
    intros [resp|x]; done. }
  apply wp_bind, wp_db_scalar. intros collision Hcol. apply wp_bind, wp_raise_if; [done|].
  intros Hnone%bool_decide_eq_false. apply eq_None_not_Some in Hnone. subst collision.
  apply wp_bind, wp_check_target; [done|]. intros e0. simpl.
  apply wp_bind, wp_from_env. intros id e1 _. apply wp_bind, wp_from_env. intros task_id e2 _.
  apply wp_bind, wp_from_env. intros requested_at e3 _. apply wp_bind, wp_from_env. intros restore_id e4 _.
  match goal with |- context [db_add ?x ≫= _] => match type of x with operation => set (o := x) end end.
  set (run := new_restore_run restore_id o backup c wl payload).
  apply (wp_record_run o run) with (d := d); [done..|]. intros d' e' Hrec.
  pose proof (lk_backups _ Hl _ _ Hb) as Hkb. pose proof (lk_clusters _ Hl _ _ Hc) as Hkc.
  pose proof (lk_workloads _ Hl _ _ Hwl) as Hkw. simpl in Hkb, Hkc, Hkw.
  pose proof (recorded_run _ _ _ _ Hrec) as Hrr. pose proof (recorded_operation _ _ _ _ Hrec) as Hro.
  destruct (rec_change _ _ _ _ Hrec) as [log Hd'].
  assert (db_backup_runs d' = db_backup_runs d ∧ db_clusters d' = db_clusters d ∧
          db_workloads d' = db_workloads d) as (Hbs & Hcs & Hwls) by by rewrite Hd'.
  apply wp_bind. change restore_id with (rr_id run).
  eapply (wp_restore_response run o backup snapshot c wl); simpl; rewrite ?Hbs, ?Hcs, ?Hwls, ?Hkb, ?Hkc, ?Hkw; try done.
  - unfold restorable in Hsnap. repeat case_match; congruence.
  - intros resp Hid. apply wp_ret, wp_ret. exists backup, snapshot, t, c, wl, o, run. split; [|by rewrite Hid].
    split; try done.
    + by exists o0.
    + intros i wl' Hi Hcl Hv. pose proof (first_row_None _ _ Hnone _ _ Hi) as Hocc. unfold occupies in Hocc.
      rewrite Hcl, Hv, !bool_decide_true in Hocc by done. exact Hocc.
    + split; [|done]. unfold op_of_key. simpl. by rewrite !bool_decide_true.
Qed.

(** *** Repetition *)

(** The operation an idempotency key names. *)
Lemma key_found self key o d i :
  integrity d = true → db_operations d !! i = Some o → op_of_key (caller self) (hmac_key key) o = true →
  first_row (op_of_key (caller self) (hmac_key key)) d = Some o.
Proof.
  intros Hi Ho Hk. eapply first_row_unique; [exact Ho|done|]. intros j s Hj Hs.
  unfold op_of_key in *. rewrite andb_true_iff, !bool_decide_eq_true in *. destruct_and!.
  assert (j = i) as ->; [|simpl in *; congruence].
  eapply (integrity_unique uq_operations_idempotency d); [by simpl; tauto|done..|].
  unfold uq_operations_idempotency. congruence.
Qed.

Definition replays (id : N) (r : outcome (N * bool)) (w w' : world E) : Prop :=
  r = Ok (id, false) ∧ w_db w' = w_db w.

Lemma wp_repeat_backup self workload_id payload key d wl target o run d' e :
  linked d → accepted_backup self workload_id payload key d wl target o run d' →
  wp ('(response, new) ← request_backup self workload_id payload key; mret (bres_id response, new))
    (λ r, replays (br_id run) r (World d' d' false e)) (World d' d' false e).
Proof.
  intros Hl [Hrole Hwl Ht Hen Hc _ Hrec Hrun _ [Hk Hfp]].
  pose proof (recorded_run _ _ _ _ Hrec) as Hrr. pose proof (recorded_operation _ _ _ _ Hrec) as Hro.
  pose proof (rec_integrity _ _ _ _ Hrec) as Hi.
  assert (run_operation run = op_id o) as Hop by by rewrite Hrun.
  pose proof (recorded_found _ _ _ _ Hrec Hop) as Hfound.
  destruct (rec_change _ _ _ _ Hrec) as [log Hd'].
  assert (db_backup_targets d' = db_backup_targets d ∧ db_clusters d' = db_clusters d ∧
          db_workloads d' = db_workloads d) as (Hts & Hcs & Hwls) by by rewrite Hd'.
  assert (first_row (backup_source workload_id) d' = Some wl) as Hwl' by by rewrite Hd'.
  apply first_row_Some in Hwl as [_ [i Hwl]]. pose proof (lk_workloads _ Hl _ _ Hwl) as Hkw.
  pose proof (lk_targets _ Hl _ _ Ht) as Hkt. destruct (lk_cluster _ Hl _ _ Ht) as [c Hclu]. simpl in *.
  apply wp_bind. unfold request_backup.
  apply wp_bind, wp_raise_if; [by intros Hb%bool_decide_eq_true|]. intros _.
  apply wp_bind, wp_db_scalar. intros row Hrow. simpl in Hrow. rewrite Hwl' in Hrow. subst row.
  apply wp_bind, wp_ret, wp_bind, wp_db_get. intros t' Ht'. simpl in Ht'. rewrite Hts, Ht in Ht'. subst t'.
  simpl. rewrite Hen. apply wp_bind, wp_ret, wp_bind, wp_raise_if; [by intros Hb%bool_decide_eq_true|]. intros _.
  apply wp_bind, wp_db_scalar. intros ex Hex. pose proof (key_found self key o d' (op_id o) Hi Hro Hk) as Hkf.
  unfold caller in Hkf. simpl in Hex. rewrite Hkf in Hex. subst ex.
  apply wp_bind, wp_raise_if; [by intros Hb%bool_decide_eq_true|]. intros _.
  apply wp_bind, wp_db_scalar. intros run' Hr'. unfold run_of in Hfound. simpl in Hr', Hfound.
  rewrite Hfound in Hr'. subst run'. apply wp_bind, wp_ret, wp_bind. rewrite Hrun in Hop, Hrr |- *.
  eapply (wp_run_response _ o target c wl); simpl; rewrite ?Hts, ?Hcs, ?Hwls, ?Hkt, ?Hkw; try done.
  intros resp Hid. apply wp_ret, wp_ret. simpl in *. by rewrite Hid.
Qed.

Lemma wp_repeat_restore self run_id payload key d backup snapshot target c wl o run d' e :
  linked d → accepted_restore self run_id payload key d backup snapshot target c wl o run d' →
  wp ('(response, new) ← request_restore pve self run_id payload key; mret (rres_id response, new))
    (λ r, replays (rr_id run) r (World d' d' false e)) (World d' d' false e).
Proof.
  intros Hl [Hrole Hb (o0 & Ho0 & Hsnap) Ht Hen Hc Hact Hwl _ Hrec Hrun _ [Hk Hfp]].
  pose proof (recorded_run _ _ _ _ Hrec) as Hrr. pose proof (recorded_operation _ _ _ _ Hrec) as Hro.
  pose proof (rec_integrity _ _ _ _ Hrec) as Hi.
  assert (run_operation run = op_id o) as Hop by by rewrite Hrun.
  pose proof (recorded_found _ _ _ _ Hrec Hop) as Hfound.
  destruct (rec_change _ _ _ _ Hrec) as [log Hd'].
  assert (db_backup_targets d' = db_backup_targets d ∧ db_clusters d' = db_clusters d ∧
    db_workloads d' = db_workloads d ∧ db_backup_runs d' = db_backup_runs d) as (Hts & Hcs & Hwls & Hbs)
    by by rewrite Hd'.
  assert (db_operations d' !! br_operation_id backup = Some o0) as Ho0'.
  { rewrite Hd'. simpl. rewrite lookup_insert_ne; [done|]. intros Heq. rewrite <-Heq in Ho0.
    by rewrite (rec_operation _ _ _ _ Hrec) in Ho0. }
  pose proof (lk_backups _ Hl _ _ Hb) as Hkb. pose proof (lk_clusters _ Hl _ _ Hc) as Hkc.
  pose proof (lk_workloads _ Hl _ _ Hwl) as Hkw. simpl in *. subst run_id.
  apply wp_bind. unfold request_restore.
  apply wp_bind, wp_raise_if; [by rewrite Hrole|]. intros _.
  apply wp_bind. eapply (wp_run_rows backup o0 target c wl); simpl; rewrite ?Hts, ?Hcs, ?Hwls, ?Hbs; try done.
  simpl. rewrite Hact. apply wp_bind, wp_ret, wp_bind. rewrite Hsnap. apply wp_ret. rewrite Hen.
  apply wp_bind, wp_ret, wp_bind, wp_db_scalar. intros ex Hex.
  pose proof (key_found self key o d' (op_id o) Hi Hro Hk) as Hkf.
  unfold caller in Hkf. simpl in Hex. rewrite Hkf in Hex. subst ex.
  apply wp_bind, wp_raise_if; [by intros Hr%bool_decide_eq_true|]. intros _.
  apply wp_bind, wp_db_scalar. intros run' Hr'. unfold run_of in Hfound. simpl in Hr', Hfound.
  rewrite Hfound in Hr'. subst run'. apply wp_bind, wp_ret, wp_bind. rewrite Hrun in Hop, Hrr |- *.
  eapply (wp_restore_response _ o backup snapshot c wl); simpl;
    rewrite ?Hts, ?Hcs, ?Hwls, ?Hbs, ?Hkc, ?Hkw; try done.
  - unfold restorable in Hsnap. repeat case_match; congruence.
  - intros resp Hid. apply wp_ret, wp_ret. simpl in *. by rewrite Hid.
Qed.

(** *** The service *)

Definition call_made self (c : backup_service_call) d (id : N) d' : Prop :=
  match c with
  | CallBackup workload_id payload key => backup_made self workload_id payload key d id d'
  | CallRestore run_id payload key => restore_made self run_id payload key d id d'
  end.

Lemma wp_backup_service self c d e :
  linked d → wp (backup_service_run pve self c) (request_outcome (call_made self c d) d) (World d d false e).
Proof. intros Hl. destruct c; [by apply wp_request_backup|by apply wp_request_restore]. Qed.

(** What the answer of an accepted request means. *)
Definition request_accepted self (c : backup_service_call) d (id : N) d' : Prop :=
  match c with
  | CallBackup workload_id payload key =>
    ∃ wl target o run, br_id run = id ∧ accepted_backup self workload_id payload key d wl target o run d' ∧
      backup_usable wl target = true ∧ worker_sees backup_run o d' ∧ run_of backup_run o d' = Some run
  | CallRestore run_id payload key =>
    ∃ backup snapshot target c wl o run, rr_id run = id ∧
      accepted_restore self run_id payload key d backup snapshot target c wl o run d' ∧
      worker_sees restore_run o d' ∧ run_of restore_run o d' = Some run
  end.

(** An accepted backup request came from an administrator or operator, for a
    present workload with no operation QUEUED or RUNNING, to an enabled target of its
    cluster; an accepted restore request came from a super administrator, from a backup
    that succeeded with a snapshot, on an active cluster whose inventory has nothing
    with the VMID.  Either recorded exactly one QUEUED operation with one run for it:
    the run of the response, which is the one the worker finds and can work on. *)
Theorem accepted_backup_request self c d e id d' e' :
  linked d → exec (backup_service_run pve self c) d e = (Ok (id, true), d', e') →
  request_accepted self c d id d'.
Proof.
  intros Hl Hrun. eapply exec_wp in Hrun; [|by apply wp_backup_service].
  destruct Hrun as (w & Hmade & <- & _). simpl in Hmade. destruct c; simpl in *.
  - destruct Hmade as (wl & target & o & run & Ha & Hid). exists wl, target, o, run.
    pose proof (acb_run _ _ _ _ _ _ _ _ _ _ Ha) as Hr. pose proof (acb_operation _ _ _ _ _ _ _ _ _ _ Ha) as Ho.
    split_and!; try done.
    + destruct Ha as [_ Hwl _ Hen Hc _ _ _ _ _]. apply first_row_Some in Hwl as [Hsrc _].
      unfold backup_source, actionable, backup_usable in *. rewrite Hen, Hc.
      rewrite !andb_true_iff, !bool_decide_eq_true in *. by destruct_and!.
    + eapply (recorded_sees o run); [apply Ha|apply Hl|apply Hl|apply Ho|by rewrite Hr|by rewrite Hr].
    + eapply recorded_found; [apply Ha|by rewrite Hr].
  - destruct Hmade as (b & s & t & c & wl & o & run & Ha & Hid). exists b, s, t, c, wl, o, run.
    pose proof (acr_run _ _ _ _ _ _ _ _ _ _ _ _ _ Ha) as Hr.
    pose proof (acr_operation _ _ _ _ _ _ _ _ _ _ _ _ _ Ha) as Ho.
    split_and!; try done.
    + eapply (recorded_sees o run); [apply Ha|apply Hl|apply Hl|apply Ho|by rewrite Hr|by rewrite Hr].
    + eapply recorded_found; [apply Ha|by rewrite Hr].
Qed.

(** A backup or restore request that is not accepted, whether refused or a
    repetition, changes nothing; and an accepted request that is repeated with its key
    is answered with the same run, as not new, and changes nothing. *)
Theorem backup_request_repeats self c d e r d' e' :
  linked d → exec (backup_service_run pve self c) d e = (r, d', e') →
  ((∀ id, r ≠ Ok (id, true)) → d' = d) ∧
  (∀ id e2 r2 d2 e2', r = Ok (id, true) →
     exec (backup_service_run pve self c) d' e2 = (r2, d2, e2') → r2 = Ok (id, false) ∧ d2 = d').
Proof.
  intros Hl Hrun. eapply exec_wp in Hrun; [|by apply wp_backup_service].
  destruct Hrun as (w & Hout & <- & _). split.
  - intros Hr. destruct r as [[id []]|x]; simpl in Hout; try done. by destruct (Hr id).
  - intros id e2 r2 d2 e2' -> Hrun. simpl in Hout.
    assert (wp (backup_service_run pve self c) (λ r, replays id r (World (w_db w) (w_db w) false e2))
      (World (w_db w) (w_db w) false e2)) as Hwp.
    { destruct c; simpl in Hout.
      - destruct Hout as (wl & target & o & run & Ha & <-). by eapply wp_repeat_backup.
      - destruct Hout as (b & s & t & c & wl & o & run & Ha & <-). by eapply wp_repeat_restore. }
    eapply exec_wp in Hrun; [|exact Hwp]. by destruct Hrun as (w2 & [-> Hw2] & <- & _).
Qed.
End requests.
