(* ===== verification/ClusterResults.v ===== *)
(** * The cluster service: properties

    A cipher, a parser and a few clusters on the network of DemoNet.v, and the theorems
    about the calls of Clusters.v with their witnesses on them. *)
From Stdlib Require Import Lia.
From S2P Require Import Prelude Models Database AuditLog Operations PveApi IpAddr Endpoints.
From S2P Require Import Client ClientProps Clusters ClusterInv ClusterProps ClusterSecrets Ipam.
From S2P Require Import IpamInv IpamOps Demo DemoNet.

#[export] Instance net_credentials : CredentialSecrets net :=
  {| env_nonce e := ("nonce", e);
     token_encrypt _ secret _ := String SLASH secret;
     token_decrypt _ ciphertext _ :=
       match ciphertext with String _ secret => Some secret | EmptyString => None end |}.

#[export] Instance net_laws : CredentialLaws net.
Proof. intros nonce secret ad. reflexivity. Qed.

#[export] Instance net_schemas : Schemas := {|
  parse_node fields := None;
  parse_guest fields :=
    match obj_get "vmid" fields, obj_get "type" fields with
    | Some (JInt vmid), Some (JStr type) => Some (mkGuestResponse vmid
        (_optional_string (obj_get "node" fields)) type (_optional_string (obj_get "name" fields))
        (_optional_string (obj_get "status" fields)) (as_int (obj_get "maxcpu" fields))
        None None None None None None)
    | _, _ => None
    end;
  parse_storage fields := None |}.

Definition demo_clusters (role : UserRole) : ClusterService :=
  mkClusterService (mkPrincipal 1 "admin@example.com" role 0)
    (mkPveSettings ["pve.example.com"] ["192.0.2.0/24"; "2001:db8::/32"]).

Definition demo_create : ClusterCreate :=
  mkClusterCreate " lab " "https://pve.example.com:8006/" "root@pam!a" "first" None.

(** The database after a call that found these answers. *)
Definition after_call (n : N) (answers : list (transport_error + http_response)) (call : cluster_call)
    (d : db) : db :=
  (exec (cluster_run (demo_clusters OPERATOR) call) d (net_at n answers)).1.2.

(** One registered cluster, 100, with credential 101. *)
Definition demo_lab : db := after_call 100 healthy (CallCreate demo_create) empty_db.

(** Two machines reported. *)
Definition reported (vmid : Z) (name : string) : json :=
  JObj [("vmid", JInt vmid); ("type", JStr "qemu"); ("node", JStr "pve1"); ("name", JStr name);
        ("status", JStr "running"); ("maxcpu", JInt 2)].
Definition inventory : list (transport_error + http_response) :=
  [http_ok (JList [reported 101 "web"; reported 102 "db"])].

Definition demo_imported : db := after_call 200 inventory (CallImport 100) demo_lab.

Example demo_imported_rows :
  (λ wl, (wl_vmid wl, wl_name wl, wl_power_state wl)) <$> (map_to_list (db_workloads demo_imported)).*2
  = [(101, Some "web", "RUNNING"); (102, Some "db", "RUNNING")].
Proof. vm_compute. reflexivity. Qed.

(** A second cluster, 150. *)
Definition demo_pair : db :=
  after_call 150 healthy
    (CallCreate (mkClusterCreate "other" "https://pve.example.com:8007" "root@pam!b" "second" None))
    demo_lab.

(** An update of the name, of the secret. *)
Definition set_fields (name secret : option string) : ClusterUpdate :=
  mkClusterUpdate name None None secret None false None.

(** The invariant on them. *)
Lemma after_call_inv n answers call d :
  cluster_inv (E := net) d → cluster_inv (E := net) (after_call n answers call d).
Proof.
  intros Hd. unfold after_call. destruct (exec _ _ _) as [[r d'] e'] eqn:He. simpl.
  eapply exec_wp in He; [|by apply wp_cluster_run_inv]. by destruct He as (w & [Hw _] & <- & _).
Qed.

Lemma demo_lab_inv : cluster_inv (E := net) demo_lab.
Proof. apply after_call_inv, cluster_inv_start. Qed.

Lemma demo_imported_inv : cluster_inv (E := net) demo_imported.
Proof. apply after_call_inv, demo_lab_inv. Qed.

(** The recorded network has the same databases. *)
Lemma logged_clusters_ok d : clusters_ok (E := net) d → clusters_ok (E := logged net) d.
Proof. intros [Hi Hc Hk [Hgc Hgk]]. split; [done..|]. split; [exact Hgc|exact Hgk]. Qed.

(** ** The calls *)

Section results.
Context {E : Type} `{Runtime E} `{Resolver E} `{HttpTransport E} `{CredentialSecrets E}.
Context `{Schemas} `{!CredentialLaws E}.
Implicit Types (self : ClusterService) (d : db) (e : E).


(** Nothing depends on the cluster. *)
Record unused cluster_id d : Prop := {
  un_workloads i wl : db_workloads d !! i = Some wl → wl_cluster_id wl = cluster_id →
    wl_organization_id wl = None;
  un_operations i o : db_operations d !! i = Some o → op_cluster_id o = cluster_id →
    op_active o = false;
  un_requests i q : db_requests d !! i = Some q → prq_target_cluster_id q = cluster_id →
    prq_status q ∈ [PS_SUCCEEDED; PS_FAILED];
  un_nodes i n : db_nodes d !! i = Some n → pn_cluster_id n ≠ cluster_id;
  un_templates i t wl : db_templates d !! i = Some t →
    db_workloads d !! tpl_source_workload_id t = Some wl → wl_cluster_id wl ≠ cluster_id;
  un_pools i p : db_pools d !! i = Some p → pool_cluster_id p ≠ Some cluster_id }.

Lemma blocks_nil cluster_id d : blocks_of cluster_id d = [] → unused cluster_id d.
Proof.
  unfold blocks_of. intros Hb.
  assert (∀ b, b ∈ removal_counts cluster_id d → crb_count b ≤ 0) as Hall.
  { intros b Hin. destruct (decide (0 < crb_count b)); [|lia].
    assert (b ∈ filter (λ b, 0 < crb_count b) (removal_counts cluster_id d)) as Hf
      by by apply list_elem_of_filter.
    rewrite Hb in Hf. by apply not_elem_of_nil in Hf. }
  unfold removal_counts in Hall. apply Forall_forall in Hall.
  apply Forall_cons in Hall as [Hwl Hall]. apply Forall_cons in Hall as [Hop Hall].
  apply Forall_cons in Hall as [Hrq Hall]. apply Forall_cons in Hall as [Hnd Hall].
  apply Forall_cons in Hall as [Htp Hall]. apply Forall_cons in Hall as [Hpl _]. simpl crb_count in *.
  pose proof (count_rows_0 _ _ Hwl) as Hb1. pose proof (count_rows_0 _ _ Hop) as Hb2.
  pose proof (count_rows_0 _ _ Hrq) as Hb3. pose proof (count_rows_0 _ _ Hnd) as Hb4.
  pose proof (count_rows_0 _ _ Htp) as Hb5. pose proof (count_rows_0 _ _ Hpl) as Hb6.
  split.
  - intros i wl Hi Hc. specialize (Hb1 i wl Hi). simpl in Hb1. rewrite bool_decide_true in Hb1 by done.
    by apply bool_decide_eq_false, eq_None_not_Some in Hb1.
  - intros i o Hi Hc. specialize (Hb2 i o Hi). simpl in Hb2. rewrite bool_decide_true in Hb2 by done.
    unfold op_active. destruct (op_status o); done.
  - intros i q Hi Hc. specialize (Hb3 i q Hi). simpl in Hb3. rewrite bool_decide_true in Hb3 by done.
    destruct (prq_status q); try done; set_solver.
  - intros i n Hi. specialize (Hb4 i n Hi). by apply bool_decide_eq_false in Hb4.
  - intros i t wl Hi Hw. specialize (Hb5 i t Hi). simpl in Hb5. rewrite Hw in Hb5.
    by apply bool_decide_eq_false in Hb5.
  - intros i p Hi. specialize (Hb6 i p Hi). by apply bool_decide_eq_false in Hb6.
Qed.

(** A disabled cluster has no connection left. *)
Lemma removed_disconnects cluster_id d d' connection :
  removed cluster_id d d' → holds_connection (E := E) d' connection →
  cn_cluster_id connection ≠ cluster_id.
Proof.
  intros (now & c & k & _ & _ & _ & HC & _) (c' & k' & secret & Hc' & Hact & _) Heq.
  rewrite Heq, HC, lookup_insert_eq in Hc'. by injection Hc' as <-.
Qed.

Lemma removal_check_spec cluster_id d e blocks :
  (exec (removal_check cluster_id) d e).1.1 = Ok (true, blocks) →
  is_Some (db_clusters d !! cluster_id) ∧ blocks_of cluster_id d = [].
Proof.
  unfold exec, removal_check, _get_cluster, db_get, _removal_blocks, gets, or_raise, mbind, M_bind, mret, M_ret.
  simpl. destruct (db_clusters d !! cluster_id) as [c|]; simpl; [|done].
  intros [= Hb _]. split; [by exists c|]. by apply bool_decide_eq_true in Hb.
Qed.

(** What a removal left, and why it refused. *)
Definition removal_result self cluster_id d (r : outcome ()) d' : Prop :=
  match r with
  | Ok _ =>
    d' = d ∧ (∃ c, db_clusters d !! cluster_id = Some c ∧ cl_is_active c = false) ∨
    unused cluster_id d ∧ removed cluster_id d d' ∧
      ∀ connection, holds_connection (E := E) d' connection → cn_cluster_id connection ≠ cluster_id
  | Raise x =>
    d' = d ∧
    (x = FORBIDDEN ∧ p_role (cs_principal self) ∉ [SUPER_ADMIN; OPERATOR] ∨
     x = CLUSTER_REMOVAL_BLOCKED (blocks_of cluster_id d) ∧ blocks_of cluster_id d ≠ [] ∨
     x = Clusters.CLUSTER_NOT_FOUND ∧ db_clusters d !! cluster_id = None)
  end.

(** C18: a cluster goes only when nothing depends on it.  A removal that returns found
    the cluster disabled already and changed nothing, or found no assigned machine, no
    active operation or request, no node, template or pool of the cluster; it then
    disabled the cluster, retired its credential and marked its machines absent, and
    the database holds no connection of it any more.  A refused removal changes
    nothing and names the reason.  Where [removal_check] says the cluster can go, an
    authorised removal does not fail. *)
Theorem removal_is_safe self cluster_id d e r d' e' :
  clusters_ok (E := E) d →
  exec (cluster_service self (delete self cluster_id)) d e = (r, d', e') →
  removal_result self cluster_id d r d' ∧
  (∀ e0 blocks, (exec (removal_check cluster_id) d e0).1.1 = Ok (true, blocks) →
     p_role (cs_principal self) ∈ [SUPER_ADMIN; OPERATOR] → r = Ok tt).
Proof.
  intros Hd Hrun.
  assert (removal_result self cluster_id d r d') as Hres.
  { start_run Hrun. apply wp_bind, wp_raise_if.
    - intros Hrole%bool_decide_eq_true. simpl. split; [done|by left].
    - intros _. eapply wp_mono; [by apply wp_delete|]. intros [[]|x] w.
      + intros [?|(Hb & _ & Hrem)]; [by left|right].
        split; [by apply blocks_nil|]. split; [done|]. intros connection. by apply (removed_disconnects _ d).
      + intros [? ?]. split; [done|]. by right. }
  split; [exact Hres|]. intros e0 blocks [[c Hc] Hb]%removal_check_spec Hrole.
  destruct r as [[]|x]; [done|exfalso].
  destruct Hres as (_ & [[_ ?]|[[_ ?]|[_ ?]]]); [done|done|congruence].
Qed.

(** The reported machines all name a node. *)
Lemma fresh_node guests guest : fresh_vmids [] guests → guest ∈ guests → ∃ node, gr_node guest = Some node.
Proof.
  intros [_ Hall] Hin. destruct (Hall guest Hin) as [_ Hv]. unfold invalid_guest in Hv.
  destruct (gr_node guest) as [node|]; [by exists node|].
  rewrite !orb_true_r in Hv. done.
Qed.

Lemma reconciled_owner cluster_id now W guests W' :
  reconciled cluster_id now W guests W' → fresh_vmids [] guests →
  ∀ i wl, W !! i = Some wl → ∃ wl', W' !! i = Some wl' ∧ wl_organization_id wl' = wl_organization_id wl.
Proof.
  intros [Hk Ho _ _] Hf i wl Hi.
  destruct (decide (wl_cluster_id wl = cluster_id ∧ wl_vmid wl ∈ map gr_vmid guests)) as [[Hc Hin]|Hno].
  - apply list_elem_of_fmap in Hin as (guest & Hv & Hin).
    destruct (fresh_node _ _ Hf Hin) as [node Hn].
    exists (refreshed_workload now node guest wl). split; [by apply (Hk _ _ guest)|done].
  - exists wl. split; [|done]. apply Ho; [done|]. intros Hc Hin. by apply Hno.
Qed.

End results.

Section secrets.
Context {E : Type} `{Runtime E} `{Resolver E} `{HttpTransport E} `{CredentialSecrets E}.
Context `{Schemas} `{!CredentialLaws E}.

End secrets.

(** ** Concrete runs *)


(** The laboratory can go; with an assigned machine it stays. *)
Definition demo_assigned : db :=
  demo_imported <| db_workloads ::= fmap (λ wl, wl <| wl_organization_id := Some 5%N |>) |>.

Lemma removal_is_safe_witness :
  (exec (cluster_service (demo_clusters OPERATOR) (delete (demo_clusters OPERATOR) 100)) demo_imported
     (net_at 300 [])).1.1 = Ok tt ∧
  (exec (cluster_service (demo_clusters OPERATOR) (delete (demo_clusters OPERATOR) 100)) demo_assigned
     (net_at 300 [])).1.1 =
    Raise (CLUSTER_REMOVAL_BLOCKED [mkClusterRemovalBlock "ASSIGNED_WORKLOADS" 2]) ∧
  removal_result (E := net) (demo_clusters CUSTOMER) 100 demo_imported
    (Raise FORBIDDEN) demo_imported.
Proof.
  split_and!.
  - destruct (exec (cluster_service (demo_clusters OPERATOR) (delete (demo_clusters OPERATOR) 100))
      demo_imported (net_at 300 [])) as [[r d'] e'] eqn:Hrun.
    apply (proj2 (removal_is_safe _ _ _ _ _ _ _ (ci_ok _ demo_imported_inv) Hrun) (net_at 300 []) []);
      [vm_compute; reflexivity|apply list_elem_of_further, list_elem_of_here].
  - vm_compute; reflexivity.
  - assert (exec (cluster_service (demo_clusters CUSTOMER) (delete (demo_clusters CUSTOMER) 100))
      demo_imported (net_at 300 []) = (Raise FORBIDDEN, demo_imported, net_at 300 [])) as Hrun
      by reflexivity.
    exact (proj1 (removal_is_safe _ _ _ _ _ _ _ (ci_ok _ demo_imported_inv) Hrun)).
Defined.



(** ** A conflict that escapes *)

(** A name that another cluster has is answered 409 by the commit, but with a new
    token the flush that precedes it raises the database's error as it is. *)
Lemma update_conflict_escapes :
  let outcome request := (exec (cluster_run (demo_clusters OPERATOR) (CallUpdate 150 request))
                            demo_pair (net_at 300 healthy)).1.1 in
  outcome (set_fields (Some "lab") None) = Raise CLUSTER_CONFLICT ∧
  outcome (set_fields (Some "lab") (Some "rotated")) = Raise IntegrityError.
Proof. split; vm_compute; reflexivity. Qed.
