(* ===== verification/BackupResults.v ===== *)
(** * Backups and restores: the theorems on a concrete cluster

    A backup of a machine of ClusterResults.v and its restore, requested and carried out
    on the network of DemoNet.v, and the theorems of BackupProps.v and BackupRequests.v
    applied to these runs. *)
From S2P Require Import Prelude Models Database AuditLog Operations PveApi PowerRunner IpAddr.
From S2P Require Import Endpoints Client ClientProps Clusters ClusterInv ClusterSecrets PveJobs.
From S2P Require Import BackupRunner RestoreRunner JobTrace JobEnds BackupProps Backups.
From S2P Require Import BackupRequests Ipam IpamInv IpamOps Demo DemoPower DemoNet ClusterResults.

#[export] Instance net_sleep : Sleep net :=
  {| env_sleep ms e := Net (Demo (dm_clock (nt_demo e) + ms * 1000) (dm_next (nt_demo e))) (nt_answers e) |}.

#[export] Instance net_backup_publishers : BackupPublishers net :=
  {| env_publish_backup _ _ e := e; env_publish_restore _ _ e := e |}.

#[export] Instance logged_backup_publishers {E} `{BackupPublishers E} : BackupPublishers (logged E) :=
  {| env_publish_backup i j := λ t, Logged (env_publish_backup i j (lg_env t)) (lg_events t);
     env_publish_restore i j := λ t, Logged (env_publish_restore i j (lg_env t)) (lg_events t) |}.

Definition demo_pve : PveSettings := mkPveSettings ["pve.example.com"] ["192.0.2.0/24"; "2001:db8::/32"].

(** The administrator who asks. *)
Definition demo_requester : user :=
  User 1 "admin@example.com" "Admin" SUPER_ADMIN "hash" true 0 None None None None 1.

Definition demo_recorded (n : N) (answers : list (transport_error + http_response)) : logged net :=
  Logged (net_at n answers) [].

(** The database after a call on it. *)
Definition after_backup {A} (n : N) (answers : list (transport_error + http_response))
    (m : DBM (logged net) A) (d : db) : db := (exec m d (demo_recorded n answers)).1.2.

(** One storage of the cluster takes backups. *)
Definition storage_answers : list (transport_error + http_response) :=
  [http_ok (JList [JObj [("storage", JStr "local"); ("type", JStr "dir"); ("content", JStr "iso,backup")];
                   JObj [("storage", JStr "pbs1"); ("type", JStr "pbs"); ("content", JStr "images, backup");
                         ("datastore", JStr "ds1")]]);
   http_ok (JList [JObj [("storage", JStr "pbs1"); ("status", JStr "available"); ("node", JStr "pve1")]])].

Definition demo_targeted : db :=
  after_backup 300 storage_answers (create_target demo_pve demo_admin (mkBackupTargetCreate 100 "pbs1"))
    (demo_imported <| db_users := {[1%N := demo_requester]} |>).


(** Machine 200 is to be backed up: operation 400, run 402. *)
Definition demo_backup_call : backup_service_call :=
  CallBackup 200 (mkBackupRequest 300 "snapshot" "zstd") "key-1".
Definition demo_asked : db :=
  after_backup 400 [] (backup_service_run demo_pve demo_admin demo_backup_call) demo_targeted.

(** The cluster takes the task, reports it running and then stopped, and lists what
    it wrote. *)
Definition backup_answers : list (transport_error + http_response) :=
  [http_ok (JStr "UPID:pve1:1");
   http_ok (JObj [("status", JStr "running")]);
   http_ok (JObj [("status", JStr "stopped"); ("exitstatus", JStr "OK")]);
   http_ok (JList [JObj [("volid", JStr "pbs1:backup/vm/101/1"); ("vmid", JInt 101); ("ctime", JInt 1000);
                         ("size", JInt 2048)]]);
   http_ok (JList [JObj [("n", JInt 1); ("t", JStr "INFO: transferred 1.50 GiB in 10 seconds")]])].

Definition demo_backup_run (n : N) (answers : list (transport_error + http_response)) (d : db) :=
  exec (run_backup_operation demo_settings demo_pve 400) d (demo_recorded n answers).
Definition demo_backed_up : db := (demo_backup_run 500 backup_answers demo_asked).1.2.

(** Its snapshot is to be restored as machine 900: operation 600, run 602. *)
Definition demo_restore_call : backup_service_call :=
  CallRestore 402 (mkRestoreRequest "pve1" 900 "web-copy") "key-2".
Definition free_answers : list (transport_error + http_response) :=
  [http_ok (JList [JObj [("node", JStr "pve1"); ("status", JStr "online")]]);
   http_ok (JList [JObj [("vmid", JInt 101)]])].
Definition demo_restore_asked : db :=
  after_backup 600 free_answers (backup_service_run demo_pve demo_admin demo_restore_call) demo_backed_up.

Definition restore_answers : list (transport_error + http_response) :=
  free_answers ++ [http_ok (JStr "UPID:pve1:2");
                   http_ok (JObj [("status", JStr "stopped"); ("exitstatus", JStr "OK")])].
Definition demo_restore_run (n : N) (answers : list (transport_error + http_response)) (d : db) :=
  exec (run_restore_operation demo_settings demo_pve 600) d (demo_recorded n answers).
Definition demo_restored : db := (demo_restore_run 700 restore_answers demo_restore_asked).1.2.

Example demo_backup_ends :
  ((λ r, (br_status r, br_size_bytes r, br_transferred_bytes r)) <$> db_backup_runs demo_backed_up !! 402%N,
   (λ r, rr_status r) <$> db_restore_runs demo_restored !! 602%N) =
  (Some (OS_SUCCEEDED, Some 2048, Some 1610612736), Some OS_SUCCEEDED).
Proof. vm_compute. reflexivity. Qed.

(** ** What the theorems ask of them, checked by evaluation *)

Definition demo_operation (id : N) (d : db) : operation :=
  default (new_operation demo_admin 0 0 "" "" (default (demo_workload 0) None) 0 0 [] 0)
    (db_operations d !! id).

Definition seesb (R : Type) `{RunRow R} (o : operation) (d : db) : bool :=
  integrity d && bool_decide (keyed pve_task d) && bool_decide (keyed R d) &&
  op_active o &&
  bool_decide (map_Forall (λ _ (r : R), run_operation r = op_id o → run_status r = op_status o) (rows d)).

Lemma seesb_sees R `{RunRow R} o d :
  db_operations d !! op_id o = Some o → seesb R o d = true → worker_sees R o d.
Proof.
  unfold seesb. rewrite !andb_true_iff, !bool_decide_eq_true. intros Ho ((((? & ?) & ?) & ?) & Hp).
  by split.
Qed.

Definition linkedb (d : db) : bool :=
  bool_decide (keyed pve_task d) && bool_decide (keyed cluster d) && bool_decide (keyed workload d) &&
  bool_decide (keyed backup_target d) && bool_decide (keyed backup_run d) && bool_decide (keyed restore_run d) &&
  bool_decide (map_Forall (λ _ t, is_Some (db_clusters d !! bt_cluster_id t)) (db_backup_targets d)).

Lemma linkedb_linked d : linkedb d = true → linked d.
Proof.
  unfold linkedb. rewrite !andb_true_iff, !bool_decide_eq_true.
  intros ((((((? & ?) & ?) & ?) & ?) & ?) & Hc). by split.
Qed.

(** ** Witnesses *)

Definition demo_backup_op : operation := demo_operation 400 demo_asked.
Definition demo_restore_op : operation := demo_operation 600 demo_restore_asked.

Lemma demo_backup_sees : worker_sees backup_run demo_backup_op demo_asked.
Proof. apply seesb_sees; vm_compute; reflexivity. Qed.

Lemma demo_restore_sees : worker_sees restore_run demo_restore_op demo_restore_asked.
Proof. apply seesb_sees; vm_compute; reflexivity. Qed.

Lemma backup_settles_witness :
  (demo_backup_run 500 backup_answers demo_asked).1.1 = Ok tt ∧
  job_outcome demo_settings demo_backup_op (run_of backup_run demo_backup_op demo_asked) demo_asked
    (Ok tt) demo_backed_up ∧
  op_status <$> db_operations demo_backed_up !! 400%N = Some OS_SUCCEEDED.
Proof.
  assert ((demo_backup_run 500 backup_answers demo_asked).1.1 = Ok tt) as Hr by (vm_compute; reflexivity).
  split_and!; [exact Hr| |vm_compute; reflexivity].
  eapply (backup_settles demo_settings demo_pve demo_backup_op demo_asked).
  - exact demo_backup_sees.
  - vm_compute. reflexivity.
  - exact (exec_outcome _ _ _ _ Hr).
Defined.

Lemma restore_settles_witness :
  (demo_restore_run 700 restore_answers demo_restore_asked).1.1 = Ok tt ∧
  job_outcome demo_settings demo_restore_op (run_of restore_run demo_restore_op demo_restore_asked)
    demo_restore_asked (Ok tt) demo_restored ∧
  op_status <$> db_operations demo_restored !! 600%N = Some OS_SUCCEEDED.
Proof.
  assert ((demo_restore_run 700 restore_answers demo_restore_asked).1.1 = Ok tt) as Hr by (vm_compute; reflexivity).
  split_and!; [exact Hr| |vm_compute; reflexivity].
  eapply (restore_settles demo_settings demo_pve demo_restore_op demo_restore_asked).
  - exact demo_restore_sees.
  - vm_compute. reflexivity.
  - exact (exec_outcome _ _ _ _ Hr).
Defined.

Lemma demo_asked_keyed : keyed operation demo_asked.
Proof. apply (bool_decide_eq_true (keyed operation _)). vm_compute. reflexivity. Qed.

Lemma demo_restore_keyed : keyed operation demo_restore_asked.
Proof. apply (bool_decide_eq_true (keyed operation _)). vm_compute. reflexivity. Qed.

Definition backup_post : http_request :=
  mkHttpRequest "POST" "/api2/json/nodes/pve1/vzdump" None
    (Some [("vmid", "101"); ("storage", "pbs1"); ("mode", "snapshot"); ("compress", "zstd")]).

Lemma backup_submission_witness :
  posted (demo_backup_run 500 backup_answers demo_asked).2 = [backup_post] ∧
  ∃ o r wl target, db_operations demo_asked !! 400%N = Some o ∧ op_status o = OS_QUEUED ∧
    run_of backup_run o demo_asked = Some r ∧ db_workloads demo_asked !! op_workload_id o = Some wl ∧
    db_backup_targets demo_asked !! br_backup_target_id r = Some target ∧
    backup_usable wl target = true ∧ backup_post = backup_request r wl target.
Proof.
  assert (posted (demo_backup_run 500 backup_answers demo_asked).2 = [backup_post]) as Hp
    by (vm_compute; reflexivity).
  split; [exact Hp|].
  destruct (backup_submission demo_settings demo_pve 400 demo_asked (demo_recorded 500 backup_answers)
    _ _ _ demo_asked_keyed (exec_outcome _ _ _ _ eq_refl)) as [Heq|(o & r & wl & target & H1 & H2 & H3 & H4 & H5 & H6 & _ & H8)].
  - exfalso. change (posted (demo_backup_run 500 backup_answers demo_asked).2 = []) in Heq.
    rewrite Hp in Heq. discriminate Heq.
  - change (posted (demo_backup_run 500 backup_answers demo_asked).2 = [backup_request r wl target]) in H8.
    rewrite Hp in H8. apply (f_equal hd_error), (inj Some) in H8. exists o, r, wl, target. split_and!; assumption.
Defined.

Definition restore_post : http_request :=
  mkHttpRequest "POST" "/api2/json/nodes/pve1/qemu" None
    (Some [("vmid", "900"); ("start", "0"); ("archive", "pbs1:backup/vm/101/1"); ("name", "web-copy");
           ("unique", "1")]).

Lemma restore_submission_witness :
  posted (demo_restore_run 700 restore_answers demo_restore_asked).2 = [restore_post] ∧
  ∃ r archive wl client t1 t2, restore_post = restore_request r archive wl ∧
    target_free (E := net) r client t1 t2 ∧ posted t2 = [].
Proof.
  assert (posted (demo_restore_run 700 restore_answers demo_restore_asked).2 = [restore_post]) as Hp
    by (vm_compute; reflexivity).
  split; [exact Hp|].
  destruct (restore_submission demo_settings demo_pve 600 demo_restore_asked (demo_recorded 700 restore_answers)
    _ _ _ demo_restore_keyed (exec_outcome _ _ _ _ eq_refl))
    as [Heq|(o & r & b & archive & target & wl & c & client & t1 & t2 & _ & _ & _ & _ & _ & _ & _ & _ & _ & _ & Hfree & Ht2 & _ & Hpost)].
  - exfalso. change (posted (demo_restore_run 700 restore_answers demo_restore_asked).2 = []) in Heq.
    rewrite Hp in Heq. discriminate Heq.
  - change (posted (demo_restore_run 700 restore_answers demo_restore_asked).2 = [restore_request r archive wl]) in Hpost.
    rewrite Hp in Hpost. apply (f_equal hd_error), (inj Some) in Hpost. exists r, archive, wl, client, t1, t2.
    split_and!; assumption.
Defined.

(** The connection breaks after the submission; the next delivery, past the lease,
    gives the operation up instead of submitting again. *)
Definition broken_run := demo_backup_run 500 [inl OtherTransportError] demo_asked.
Definition given_up_run := demo_backup_run 900 backup_answers broken_run.1.2.

Lemma demo_delivered :
  deliveries demo_settings demo_pve 400 demo_asked (demo_recorded 500 [inl OtherTransportError])
    given_up_run.1.2 given_up_run.2 (([] ++ [backup_post]) ++ []).
Proof.
  eapply delivered_backup with (t1 := demo_recorded 900 backup_answers); [|apply (exec_outcome _ _ _ _ eq_refl)|].
  2: { vm_compute. reflexivity. }
  eapply (delivered_other _ _ _ _ _ broken_run.1.2 broken_run.2).
  - eapply delivered_backup; [apply delivered_none|apply (exec_outcome _ _ _ _ eq_refl)|].
    vm_compute. reflexivity.
  - apply (bool_decide_eq_true (keyed operation _)). vm_compute. reflexivity.
  - intros Hb. exact Hb.
Qed.

Lemma submitted_once_witness :
  broken_run.1.1 = Raise TransportError ∧
  (λ o, (op_status o, op_error_code o)) <$> db_operations given_up_run.1.2 !! 400%N =
    Some (OS_FAILED, Some "BACKUP_SUBMISSION_STATE_UNKNOWN") ∧
  (length (([] ++ [backup_post]) ++ []) <= 1)%nat.
Proof.
  split; [vm_compute; reflexivity|]. split; [vm_compute; reflexivity|].
  exact (submitted_once demo_settings demo_pve 400 _ _ _ _ _ demo_asked_keyed demo_delivered).
Defined.

(** ** Requests *)

Lemma demo_targeted_linked : linked demo_targeted.
Proof. apply linkedb_linked. vm_compute. reflexivity. Qed.

Lemma demo_backed_up_linked : linked demo_backed_up.
Proof. apply linkedb_linked. vm_compute. reflexivity. Qed.

Definition ask_backup := exec (backup_service_run demo_pve demo_admin demo_backup_call) demo_targeted
  (demo_recorded 400 []).
Definition ask_restore := exec (backup_service_run demo_pve demo_admin demo_restore_call) demo_backed_up
  (demo_recorded 600 free_answers).

Lemma accepted_backup_request_witness :
  ask_backup.1.1 = Ok (402%N, true) ∧ request_accepted demo_admin demo_backup_call demo_targeted 402 demo_asked ∧
  ask_restore.1.1 = Ok (602%N, true) ∧
  request_accepted demo_admin demo_restore_call demo_backed_up 602 demo_restore_asked.
Proof.
  assert (ask_backup.1.1 = Ok (402%N, true)) as Hb by (vm_compute; reflexivity).
  assert (ask_restore.1.1 = Ok (602%N, true)) as Hr by (vm_compute; reflexivity).
  split_and!; [exact Hb| |exact Hr|].
  - exact (accepted_backup_request demo_pve demo_admin demo_backup_call _ _ _ _ _ demo_targeted_linked
      (exec_outcome _ _ _ _ Hb)).
  - exact (accepted_backup_request demo_pve demo_admin demo_restore_call _ _ _ _ _ demo_backed_up_linked
      (exec_outcome _ _ _ _ Hr)).
Defined.

(** Asked again, and asked again with another key while the first is queued. *)
Lemma backup_request_repeats_witness :
  (exec (backup_service_run demo_pve demo_admin demo_backup_call) demo_asked (demo_recorded 450 [])).1 =
    (Ok (402%N, false), demo_asked) ∧
  (let again := exec (backup_service_run demo_pve demo_admin
     (CallBackup 200 (mkBackupRequest 300 "snapshot" "zstd") "key-3")) demo_asked (demo_recorded 450 []) in
   again.1.1 = Raise (app_error 409 "OPERATION_CONFLICT" "Another workload operation is running.") ∧
   again.1.2 = demo_asked).
Proof.
  assert (ask_backup.1.1 = Ok (402%N, true)) as Hb by (vm_compute; reflexivity).
  split.
  - destruct (exec (backup_service_run demo_pve demo_admin demo_backup_call) demo_asked (demo_recorded 450 []))
      as [[r2 d2] e2] eqn:Hrun.
    destruct (proj2 (backup_request_repeats demo_pve demo_admin demo_backup_call _ _ _ _ _ demo_targeted_linked
      (exec_outcome _ _ _ _ Hb)) _ _ _ _ _ eq_refl Hrun) as [Hr Hd].
    simpl. rewrite Hr, Hd. reflexivity.
  - intros again. assert (again.1.1 = Raise (app_error 409 "OPERATION_CONFLICT"
      "Another workload operation is running.")) as Hr by (vm_compute; reflexivity).
    split; [exact Hr|].
    assert (linked demo_asked) as Hl by (apply linkedb_linked; vm_compute; reflexivity).
    apply (proj1 (backup_request_repeats demo_pve demo_admin _ _ _ _ _ _ Hl (exec_outcome _ _ _ _ Hr))).
    intros id. discriminate.
Defined.
