(* ===== verification/Redis.v ===== *)
(** * Redis

    What the services ask of the Redis server: commands that the server executes one
    at a time, and scripts of commands that it executes as one.  The server is a
    parameter; [RedisLaws] states the documented behaviour of the commands. *)
From S2P Require Import Prelude Client.

(** The commands, from state to state of the server; an error reply raises [RedisError]. *)
Class RedisCommands (S : Type) := {
  redis_get : string → M S (option string);
  redis_hget : string → string → M S (option string);
  redis_hgetall : string → M S (list (string * string));
  redis_hset : string → list (string * string) → M S Z;
  redis_incr : string → M S Z;
  redis_expire : string → Z → M S bool;
  (** [SET key value EX ttl NX] *)
  redis_set_nx : string → string → Z → M S bool;
  redis_setex : string → Z → string → M S ();
  redis_del : string → M S Z;
  redis_scan : string → M S (list string);
  redis_llen : string → M S Z }.

(** A connection: the server executes a command or script, or [RedisError] says that
    it could not be reached or its answer was lost. *)
Class Redis (E : Type) := {
  redis_server : Type;
  redis_commands :: RedisCommands redis_server;
  redis_run : ∀ A, M redis_server A → M E A }.
Arguments redis_run {E _ A} m.

(** ** Laws *)

(** The types of value that the services store. *)
Inductive redis_value := RString (s : string) | RHash (fields : gmap string string).

Section laws.
Context (S : Type) `{RedisCommands S} (view : S → gmap string redis_value).

(** What the commands do to the keys. *)
Class CommandLaws : Prop := {
  law_get k s : ∀ v, view s !! k = Some (RString v) → redis_get k s = (Ok (Some v), s);
  law_get_none k s : view s !! k = None → redis_get k s = (Ok None, s);
  law_get_type k s : ∀ h, view s !! k = Some (RHash h) → redis_get k s = (Raise RedisError, s);
  law_hget k f s : ∀ h, view s !! k = Some (RHash h) → redis_hget k f s = (Ok (h !! f), s);
  law_hget_none k f s : view s !! k = None → redis_hget k f s = (Ok None, s);
  law_hget_type k f s : ∀ v, view s !! k = Some (RString v) → redis_hget k f s = (Raise RedisError, s);
  law_hgetall k s : ∀ h, view s !! k = Some (RHash h) →
    ∃ l, redis_hgetall k s = (Ok l, s) ∧ NoDup l.*1 ∧ list_to_map l = h;
  law_hset k l s : ∀ old, view s !! k = RHash <$> old → NoDup l.*1 →
    ∃ n s', redis_hset k l s = (Ok n, s') ∧
      view s' = <[k := RHash (list_to_map l ∪ default ∅ old)]> (view s);
  law_hset_type k l s : ∀ v, view s !! k = Some (RString v) → redis_hset k l s = (Raise RedisError, s);
  law_incr k s : view s !! k = None →
    ∃ s', redis_incr k s = (Ok 1, s') ∧ view s' = <[k := RString "1"]> (view s);
  law_incr_some k s : ∀ n, view s !! k = Some (RString (pretty n)) →
    ∃ s', redis_incr k s = (Ok (n + 1), s') ∧ view s' = <[k := RString (pretty (n + 1))]> (view s);
  law_expire k ttl s : 0 < ttl → ∃ b s', redis_expire k ttl s = (Ok b, s') ∧ view s' = view s;
  law_set_nx k v ttl s : 0 < ttl → view s !! k = None →
    ∃ s', redis_set_nx k v ttl s = (Ok true, s') ∧ view s' = <[k := RString v]> (view s);
  law_set_nx_some k v ttl s : 0 < ttl → is_Some (view s !! k) → redis_set_nx k v ttl s = (Ok false, s);
  law_del k s : ∃ n s', redis_del k s = (Ok n, s') ∧ view s' = delete k (view s) }.
End laws.
Arguments law_get {S _ view _}.
Arguments law_get_none {S _ view _}.
Arguments law_get_type {S _ view _}.
Arguments law_hget {S _ view _}.
Arguments law_hget_none {S _ view _}.
Arguments law_hget_type {S _ view _}.
Arguments law_hgetall {S _ view _}.
Arguments law_hset {S _ view _}.
Arguments law_hset_type {S _ view _}.
Arguments law_incr {S _ view _}.
Arguments law_incr_some {S _ view _}.
Arguments law_expire {S _ view _}.
Arguments law_set_nx {S _ view _}.
Arguments law_set_nx_some {S _ view _}.
Arguments law_del {S _ view _}.

(** [redis_now e] is the server as the next command will find it, without the keys that
    have expired by then; a key disappears at its expiry only, and expires for good. *)
Class RedisLaws (E : Type) `{Redis E} := {
  redis_view : redis_server → gmap string redis_value;
  redis_now : E → redis_server;
  redis_command_laws :: CommandLaws redis_server redis_view;
  law_run A (m : M redis_server A) e :
    let '(r, s) := m (redis_now e) in
    let '(r', e') := redis_run m e in
    (r' = r ∧ redis_view (redis_now e') ⊆ redis_view s) ∨
    (r' = Raise RedisError ∧
       (redis_view (redis_now e') ⊆ redis_view (redis_now e) ∨ redis_view (redis_now e') ⊆ redis_view s)) }.
