(* ===== verification/Listings.v ===== *)
(** * Listings

    The queries of the services that only read: list_users, list_organizations and
    list_members of services/accounts.py, list_pools and list_addresses of ipam.py,
    list_targets and list_runs of backups.py, list_clusters and get of clusters.py, with
    the search of organizations by PostgreSQL's ILIKE. *)
From stdpp Require Import sorting.
From Stdlib Require Import Lia.
From S2P Require Import Prelude Models Database AuditLog IpAddr Ipam Endpoints Client UuidText.
From S2P Require Import Operations Accounts Provisioning Clusters Backups.

(** The columns [created_at], which the database fills when it inserts a row. *)
Class CreatedAt := {
  user_created_at : N → Z; organization_created_at : N → Z; cluster_created_at : N → Z;
  credential_created_at : N → Z; backup_run_created_at : N → Z; audit_created_at : N → Z }.

(** ** ILIKE *)

Definition UNDERSCORE : Ascii.ascii := Ascii.ascii_of_nat 95.
Definition BACKSLASH : Ascii.ascii := Ascii.ascii_of_nat 92.

(** [s LIKE pattern ESCAPE '\']: [%] is any text, [_] any character, and a backslash takes
    the next character for itself. *)
Fixpoint like (pattern : list Ascii.ascii) : list Ascii.ascii → bool :=
  match pattern with
  | [] => λ s, match s with [] => true | _ => false end
  | c :: pattern' =>
    if decide (c = PERCENT) then
      fix any s := like pattern' s || match s with [] => false | _ :: s' => any s' end
    else if decide (c = BACKSLASH) then
      match pattern' with
      | [] => λ _, false
      | d :: pattern'' =>
        λ s, match s with x :: s' => bool_decide (x = d) && like pattern'' s' | [] => false end
      end
    else λ s, match s with
              | x :: s' => (bool_decide (c = UNDERSCORE) || bool_decide (x = c)) && like pattern' s'
              | [] => false
              end
  end.

Definition ilike (s pattern : string) : bool :=
  like (chars (str_lower pattern)) (chars (str_lower s)).

(** [s.replace(c, text)] for a character [c]. *)
Fixpoint replace_char (c : Ascii.ascii) (text s : string) : string :=
  match s with
  | EmptyString => ""
  | String a r => if decide (a = c) then text +:+ replace_char c text r
                  else String a (replace_char c text r)
  end.

Definition escaped_query (normalized_query : string) : string :=
  replace_char UNDERSCORE (String BACKSLASH (String UNDERSCORE ""))
    (replace_char PERCENT (String BACKSLASH (String PERCENT ""))
       (replace_char BACKSLASH (String BACKSLASH (String BACKSLASH "")) normalized_query)).

(** ** app/services/accounts.py *)

Inductive OrganizationStatus := STATUS_ACTIVE | STATUS_INACTIVE | STATUS_ALL.
Inductive OrganizationSort := SORT_NEWEST | SORT_OLDEST | SORT_NAME.

Record OrganizationMemberDetailResponse := mkOrganizationMemberDetailResponse {
  omd_id : N; omd_organization_id : N; omd_user_id : N; omd_email : string;
  omd_display_name : string; omd_role : UserRole; omd_is_active : bool }.

Definition member_response (m : organization_member) (u : user) : OrganizationMemberDetailResponse :=
  mkOrganizationMemberDetailResponse (om_id m) (om_organization_id m) (om_user_id m)
    (u_email u) (u_display_name u) (u_role u) (u_is_active u).

(** [order_by(User.display_name, User.email)]. *)
Definition member_le (a b : organization_member * user) : Prop :=
  (u_display_name a.2 ≠ u_display_name b.2 ∧
   String.leb (u_display_name a.2) (u_display_name b.2) = true) ∨
  (u_display_name a.2 = u_display_name b.2 ∧ String.leb (u_email a.2) (u_email b.2) = true).
#[export] Instance member_le_dec : RelDecision member_le.
Proof. intros a b. unfold member_le. apply _. Defined.

(** [order_by(Organization.name)] of the joined memberships. *)
Definition named_le (a b : N * string) : Prop := String.leb a.2 b.2 = true.
#[export] Instance named_le_dec : RelDecision named_le.
Proof. intros a b. unfold named_le. apply _. Defined.

(** [select(OrganizationMember.user_id, Organization.name).join(...)]. *)
Definition membership_rows (d : db) : list (N * string) :=
  merge_sort named_le (omap (λ m, o ← db_organizations d !! om_organization_id m;
                                  Some (om_user_id m, org_name o))
                         (select_rows (λ _ : organization_member, true) d)).

(** [setdefault(user_id, []).append(organization_name)]. *)
Definition append_name (names : gmap N (list string)) (row : N * string) : gmap N (list string) :=
  <[row.1 := default [] (names !! row.1) ++ [row.2]]> names.

(** The condition that [status] and [q] put on an organization. *)
Definition organization_matches (status : OrganizationStatus) (q : option string)
    (o : organization) : bool :=
  let normalized_query := match q with
                          | Some q => if str_nonempty q then str_strip q else "" | None => "" end in
  let pattern := "%" +:+ escaped_query normalized_query +:+ "%" in
  match status with
  | STATUS_ACTIVE => org_is_active o | STATUS_INACTIVE => negb (org_is_active o) | STATUS_ALL => true
  end &&
  (negb (str_nonempty normalized_query) ||
   ilike (org_name o) pattern || ilike (str_uuid (org_id o)) pattern).

Section listings.
Context {E : Type} `{Runtime E} `{CreatedAt}.
Implicit Types (self : service).

(** [order_by(... created_at ..., id)]. *)
Definition organization_le (sort : OrganizationSort) (a b : organization) : Prop :=
  let created o := organization_created_at (org_id o) in
  match sort with
  | SORT_NAME => org_name a ≠ org_name b ∧ String.leb (org_name a) (org_name b) = true ∨
                 org_name a = org_name b ∧ (org_id a ≤ org_id b)%N
  | SORT_OLDEST => created a < created b ∨ created a = created b ∧ (org_id a ≤ org_id b)%N
  | SORT_NEWEST => created b < created a ∨ created a = created b ∧ (org_id a ≤ org_id b)%N
  end.
#[export] Instance organization_le_dec sort : RelDecision (organization_le sort).
Proof. intros a b. unfold organization_le. destruct sort; apply _. Defined.

Definition newest_user (a b : user) : Prop := user_created_at (u_id b) ≤ user_created_at (u_id a).
#[export] Instance newest_user_dec : RelDecision newest_user.
Proof. intros a b. unfold newest_user. apply _. Defined.

Definition list_users self : DBM E (list (UserResponse * list string)) :=
  require_service_role (self_principal self) [SUPER_ADMIN; OPERATOR];;
  users ← db_select (λ u : user, bool_decide (u_deleted_at u = None));
  memberships ← gets (λ w, membership_rows (w_tx w));
  let organization_names_by_user := fold_left append_name memberships ∅ in
  mret (map (λ u, (user_response u, default [] (organization_names_by_user !! u_id u)))
          (merge_sort newest_user users)).

(** [LIMIT] and [OFFSET]. *)
Definition page {A} (limit : option Z) (offset : Z) (l : list A) : list A :=
  let l := drop (Z.to_nat offset) l in
  match limit with Some n => take (Z.to_nat n) l | None => l end.

Definition list_organizations self (q : option string) (status : OrganizationStatus)
    (sort : OrganizationSort) (limit : option Z) (offset : Z) : DBM E (list organization * Z) :=
  require_service_role (self_principal self) [SUPER_ADMIN; OPERATOR];;
  total ← db_count (organization_matches status q);
  organizations ← db_select (organization_matches status q);
  mret (page limit offset (merge_sort (organization_le sort) organizations), total).

Definition list_members self (organization_id : N) : DBM E (list OrganizationMemberDetailResponse) :=
  require_service_role (self_principal self) [SUPER_ADMIN; OPERATOR];;
  _get_organization organization_id true;;
  rows ← gets (λ w, omap (λ m, u ← db_users (w_tx w) !! om_user_id m; Some (m, u))
    (select_rows (λ m, bool_decide (om_organization_id m = organization_id)) (w_tx w)));
  mret (map (λ row, member_response row.1 row.2) (merge_sort member_le rows)).

(** ** app/services/ipam.py *)

(** [order_by(IpPool.name, IpPool.id)]. *)
Definition pool_le (a b : ip_pool) : Prop :=
  (pool_name a ≠ pool_name b ∧ String.leb (pool_name a) (pool_name b) = true) ∨
  (pool_name a = pool_name b ∧ (pool_id a ≤ pool_id b)%N).
#[export] Instance pool_le_dec : RelDecision pool_le.
Proof. intros a b. unfold pool_le. apply _. Defined.

Definition list_pools : DBM E (list IpPoolResponse) :=
  pools ← db_select pool_is_active;
  map_each _pool_response (merge_sort pool_le pools).

(** An address with the workload of each of its live allocations: the outer join. *)
Definition address_rows (d : db) (a : ip_address) : list (ip_address * option N) :=
  match select_rows (λ l, bool_decide (alloc_ip_address_id l = addr_id a) &&
      bool_decide (alloc_status l ∈ [AL_RESERVED; AL_ASSIGNED; AL_QUARANTINED])) d with
  | [] => [(a, None)]
  | allocations => map (λ l, (a, alloc_workload_id l)) allocations
  end.

Definition list_addresses (id : N) : DBM E (list IpAddressResponse) :=
  get_pool id;;
  rows ← gets (λ w, concat (map (address_rows (w_tx w))
    (merge_sort addr_le (select_rows (λ a, bool_decide (addr_pool_id a = id)) (w_tx w)))));
  mret (map (λ row, _address_response row.1 row.2) rows).

(** ** app/services/backups.py *)

(** [order_by(Cluster.name, BackupTarget.storage_id)]. *)
Definition target_le (a b : backup_target * cluster) : Prop :=
  (cl_name a.2 ≠ cl_name b.2 ∧ String.leb (cl_name a.2) (cl_name b.2) = true) ∨
  (cl_name a.2 = cl_name b.2 ∧ String.leb (bt_storage_id a.1) (bt_storage_id b.1) = true).
#[export] Instance target_le_dec : RelDecision target_le.
Proof. intros a b. unfold target_le. apply _. Defined.

Definition list_targets self : DBM E (list BackupTargetResponse) :=
  require_service_role (self_principal self) [SUPER_ADMIN; OPERATOR];;
  rows ← gets (λ w, omap (λ t, c ← db_clusters (w_tx w) !! bt_cluster_id t;
                               if cl_is_active c then Some (t, c) else None)
    (select_rows (λ _ : backup_target, true) (w_tx w)));
  mret (map (λ row, _target_response row.1 row.2) (merge_sort target_le rows)).

Definition newest_run (a b : backup_run) : Prop :=
  backup_run_created_at (br_id b) ≤ backup_run_created_at (br_id a).
#[export] Instance newest_run_dec : RelDecision newest_run.
Proof. intros a b. unfold newest_run. apply _. Defined.

(** [None] is a filter that the caller did not give. *)
Definition filtered {A} `{EqDecision A} (expected : option A) (a : A) : bool :=
  match expected with Some e => bool_decide (a = e) | None => true end.

Definition run_matches (cluster_id workload_id : option N) (status : option OperationStatus)
    (d : db) (r : backup_run) : bool :=
  match db_operations d !! br_operation_id r with
  | Some o => filtered cluster_id (op_cluster_id o) && filtered workload_id (br_workload_id r) &&
              filtered status (op_status o)
  | None => false
  end.

Definition list_runs self (cluster_id workload_id : option N) (status : option OperationStatus)
    (limit : Z) : DBM E (list BackupRunResponse) :=
  require_service_role (self_principal self) [SUPER_ADMIN; OPERATOR];;
  runs ← gets (λ w, select_rows (run_matches cluster_id workload_id status (w_tx w)) (w_tx w));
  map_each _run_response (map br_id (page (Some limit) 0 (merge_sort newest_run runs))).

(** ** app/services/clusters.py *)

(** [max(credentials, key=lambda item: item.created_at)]. *)
Definition newest_credential (first : cluster_credential) (rest : list cluster_credential)
  : cluster_credential :=
  fold_left (λ best item,
    if credential_created_at (cc_id best) <? credential_created_at (cc_id item) then item else best)
    rest first.

Definition _display_credential (c : cluster) : DBM E cluster_credential :=
  credentials ← db_select (λ x, bool_decide (cc_cluster_id x = cl_id c));
  match List.find cc_is_active credentials, credentials with
  | Some active, _ => mret active
  | None, first :: rest => mret (newest_credential first rest)
  | None, [] => raise (app_error 409 "CLUSTER_CREDENTIAL_MISSING"
                         "The Proxmox cluster has no credential metadata.")
  end.

Definition displayed (c : cluster) : DBM E ClusterResponse :=
  credential ← _display_credential c;
  mret (_to_response c credential).

Definition newest_cluster (a b : cluster) : Prop :=
  cluster_created_at (cl_id b) ≤ cluster_created_at (cl_id a).
#[export] Instance newest_cluster_dec : RelDecision newest_cluster.
Proof. intros a b. unfold newest_cluster. apply _. Defined.

Definition list_clusters : DBM E (list ClusterResponse) :=
  clusters ← db_select cl_is_active;
  map_each displayed (merge_sort newest_cluster clusters).

Definition get_cluster (cluster_id : N) : DBM E ClusterResponse :=
  c ← _get_cluster cluster_id;
  displayed c.
End listings.

(** ** What a listing shows

    The search of organizations is a search for the literal text, whatever wildcards it
    contains, and the pages of a listing put together are the listing. *)

(** ** Searching *)

(** Character by character, what a literal text becomes in a pattern. *)
Definition escaped_char (a : Ascii.ascii) : list Ascii.ascii :=
  if decide (a = BACKSLASH ∨ a = PERCENT ∨ a = UNDERSCORE) then [BACKSLASH; a] else [a].

Lemma chars_app s t : chars (s +:+ t) = chars s ++ chars t.
Proof. induction s as [|a s IH]; [done|]. exact (f_equal (cons a) IH). Qed.

Lemma chars_lower s : chars (str_lower s) = map ascii_lower (chars s).
Proof. induction s as [|a s IH]; [done|]. exact (f_equal (cons (ascii_lower a)) IH). Qed.

Lemma chars_replace c text s :
  chars (replace_char c text s) = concat (map (λ a, if decide (a = c) then chars text else [a]) (chars s)).
Proof.
  induction s as [|a s IH]; [done|]. simpl. case_decide.
  - by rewrite chars_app, IH.
  - exact (f_equal (cons a) IH).
Qed.

Lemma concat_map_concat {A B C} (f : B → list C) (g : A → list B) (l : list A) :
  concat (map f (concat (map g l))) = concat (map (λ a, concat (map f (g a))) l).
Proof. induction l as [|a l IH]; [done|]. simpl. by rewrite map_app, concat_app, IH. Qed.

Lemma chars_escaped q : chars (escaped_query q) = concat (map escaped_char (chars q)).
Proof.
  unfold escaped_query. rewrite !chars_replace, !concat_map_concat. f_equal. apply map_ext.
  intros a. unfold escaped_char. destruct a as [[] [] [] [] [] [] [] []]; vm_compute; reflexivity.
Qed.

Lemma lower_escaped a : map ascii_lower (escaped_char a) = escaped_char (ascii_lower a).
Proof.
  destruct a as [[] [] [] [] [] [] [] []]; vm_compute; reflexivity.
Qed.

(** A literal text followed by [%] matches what begins with it. *)
Lemma like_literal (q s : list Ascii.ascii) :
  like (concat (map escaped_char q) ++ [PERCENT]) s = bool_decide (q `prefix_of` s).
Proof.
  revert s. induction q as [|a q IH]; intros s.
  - transitivity true; [by induction s as [|x s IH]; [|simpl in *; rewrite IH]|].
    symmetry. apply bool_decide_eq_true_2, prefix_nil.
  - assert (∀ x s, bool_decide (x = a) && bool_decide (q `prefix_of` s) =
                   bool_decide (a :: q `prefix_of` x :: s)) as Hcons.
    { intros x s'. rewrite <-bool_decide_and. apply bool_decide_ext. split.
      - intros [-> Hp]. by apply prefix_cons.
      - intros Hp. split; [by apply prefix_cons_inv_1 in Hp|by apply prefix_cons_inv_2 in Hp]. }
    cbn [map concat]. unfold escaped_char at 1. case_decide as Ha.
    + cbn [app like]. rewrite decide_False, decide_True by (vm_compute; congruence || done).
      destruct s as [|x s]; [symmetry; apply bool_decide_eq_false_2; by intros ?%prefix_nil_inv|].
      by rewrite IH, Hcons.
    + cbn [app like]. rewrite !decide_False by naive_solver.
      destruct s as [|x s]; [symmetry; apply bool_decide_eq_false_2; by intros ?%prefix_nil_inv|].
      by rewrite IH, bool_decide_eq_false_2, orb_false_l, Hcons by naive_solver.
Qed.

Lemma prefix_chars needle hay : String.prefix needle hay = bool_decide (chars needle `prefix_of` chars hay).
Proof.
  revert hay. induction needle as [|a needle IH]; intros hay.
  - rewrite bool_decide_eq_true_2 by apply prefix_nil. by destruct hay.
  - destruct hay as [|b hay]; [symmetry; apply bool_decide_eq_false_2; by intros ?%prefix_nil_inv|].
    cbn [String.prefix]. destruct (Ascii.ascii_dec a b) as [->|Hne].
    + rewrite IH. apply bool_decide_ext. split; [apply prefix_cons|apply prefix_cons_inv_2].
    + symmetry. apply bool_decide_eq_false_2. by intros ?%prefix_cons_inv_1.
Qed.

Lemma like_any p s :
  like (PERCENT :: p) s = like p s || match s with [] => false | _ :: s' => like (PERCENT :: p) s' end.
Proof. by destruct s. Qed.

Lemma like_contains (q s : string) :
  like (PERCENT :: concat (map escaped_char (chars q)) ++ [PERCENT]) (chars s) = str_contains q s.
Proof.
  induction s as [|a s IH]; rewrite like_any, like_literal, <-prefix_chars; [done|].
  cbn [str_contains]. f_equal. exact IH.
Qed.

(** C28: the search for organizations looks for the text itself, in any case: a percent
    sign, an underscore or a backslash in it has no other meaning. *)
Theorem search_literal q s :
  ilike s ("%" +:+ escaped_query q +:+ "%") = str_contains (str_lower q) (str_lower s).
Proof.
  unfold ilike. rewrite <-like_contains, !chars_lower, !chars_app, !map_app, chars_escaped, concat_map.
  do 2 f_equal. rewrite !map_map. f_equal. f_equal. apply map_ext. intros a. apply lower_escaped.
Qed.

(** ** Pages *)

Lemma string_leb_total s t : String.leb s t = true ∨ String.leb t s = true.
Proof. apply String.leb_total. Qed.

Section pages.
Context {E : Type} `{Runtime E} `{CreatedAt}.
Implicit Types (self : service) (d : db) (e : E).

#[export] Instance organization_le_total sort : Total (organization_le sort).
Proof.
  intros a b. unfold organization_le. destruct sort; cbv beta zeta iota; [lia..|].
  destruct (decide (org_name a = org_name b)) as [Heq|Hne].
  { destruct (N.le_ge_cases (org_id a) (org_id b)); [left|right]; right; by split. }
  destruct (string_leb_total (org_name a) (org_name b)); [left|right]; left; split; congruence.
Qed.

(** The pages of [n] rows, one after the other. *)
Lemma pages_concat {A} (l : list A) n k :
  0 < n → concat (map (λ i, page (Some n) (n * i) l) (seqZ 0 (Z.of_nat k))) = take (Z.to_nat n * k) l.
Proof.
  intros Hn. induction k as [|k IH].
  { by rewrite Nat.mul_0_r. }
  rewrite seqZ_S, map_app, concat_app, IH. simpl.
  rewrite app_nil_r. unfold page. rewrite Z.add_0_l, Z2Nat.inj_mul, Nat2Z.id by lia.
  rewrite take_take_drop. f_equal. lia.
Qed.

(** An administrator or operator who walks the pages of the organizations, [n] at a
    time, gets exactly the rows that match, once each and in the order asked for, with the
    same total on every page; nothing changes.  Others get nothing. *)
Theorem organization_pages self q status sort n d e :
  0 < n →
  let got k := exec (list_organizations self q status sort (Some n) (n * k)) d e in
  if bool_decide (p_role (self_principal self) ∈ [SUPER_ADMIN; OPERATOR]) then
    ∃ all, all ≡ₚ select_rows (organization_matches status q) d ∧ Sorted (organization_le sort) all ∧
      (∀ k, got k = (Ok (page (Some n) (n * k) all, Z.of_nat (length all)), d, e)) ∧
      ∀ k, (length all ≤ Z.to_nat n * k)%nat →
        concat (map (λ i, page (Some n) (n * i) all) (seqZ 0 (Z.of_nat k))) = all
  else ∀ k, got k = (Raise FORBIDDEN, d, e).
Proof.
  intros Hn got. unfold got, list_organizations, require_service_role.
  case_bool_decide as Hrole.
  - exists (merge_sort (organization_le sort) (select_rows (organization_matches status q) d)).
    split_and!; [apply merge_sort_Permutation|by apply (Sorted_merge_sort _)| |].
    + intros k. rewrite bool_decide_eq_false_2 by (intros ?; done).
      by rewrite (Permutation_length (merge_sort_Permutation (organization_le sort) _)).
    + intros k Hk. rewrite pages_concat by done. by apply take_ge.
  - intros k. by rewrite bool_decide_eq_true_2.
Qed.
End pages.
