(* ===== verification/Observability.v ===== *)
(** * Observability

    services/observability.py: the audit trail, the state of the workers, queues,
    clusters and address pools with its alerts, and the figures for Prometheus; the
    heartbeat of worker.py. *)
From stdpp Require Import sorting.
From S2P Require Import Prelude Models Database AuditLog IpAddr FreeOffset Ipam Endpoints Client.
From S2P Require Import UuidText Operations Clusters Redis Listings.

(** The settings of core/config.py it reads. *)
Record ObservabilitySettings := mkObservabilitySettings {
  worker_heartbeat_ttl_seconds : Z; queue_backlog_alert_threshold : Z;
  ip_pool_low_available_threshold : Z; provisioning_failure_alert_count : Z;
  provisioning_failure_window_minutes : Z }.

(** ** app/schemas/observability.py *)

Record AuditLogResponse := mkAuditLogResponse {
  alr_id : N; alr_item : audit_log; alr_created_at : Z; alr_actor_display_name : option string;
  alr_actor_email : option string; alr_workload_name : option string;
  alr_workload_vmid : option Z; alr_workload_kind : option string;
  alr_workload_node : option string; alr_workload_cluster_name : option string }.

Record AuditLogListResponse := mkAuditLogListResponse {
  all_items : list AuditLogResponse; all_total : Z; all_limit : Z; all_offset : Z }.

Record WorkerStatus := mkWorkerStatus {
  ws_available : bool; ws_alive : bool; ws_workers : list string; ws_stale_after_seconds : Z }.

Record QueueStatus := mkQueueStatus {
  qs_available : bool; qs_total : Z; qs_queues : list (string * Z); qs_backlog_threshold : Z }.

Record WorkloadInventoryStatus := mkWorkloadInventoryStatus {
  wis_total : Z; wis_assigned : Z; wis_unassigned : Z }.

Record DirectoryCountStatus := mkDirectoryCountStatus { dcs_total : Z; dcs_active : Z }.

Record DirectoryInventoryStatus := mkDirectoryInventoryStatus {
  dis_organizations : DirectoryCountStatus; dis_users : DirectoryCountStatus }.

Record ClusterConnectionStatus := mkClusterConnectionStatus {
  ccs_cluster_id : N; ccs_name : string; ccs_enabled : bool; ccs_connected : bool;
  ccs_last_connected_at : option Z; ccs_error_code : option string }.

Record OperationalAlert := mkOperationalAlert {
  oa_code : string; oa_severity : string; oa_resource_type : string; oa_resource_id : option string;
  oa_message : string; oa_value : option Z; oa_threshold : option Z }.

Record OperationsStatusResponse := mkOperationsStatusResponse {
  osr_status : string; osr_worker : WorkerStatus; osr_queue : QueueStatus;
  osr_workloads : WorkloadInventoryStatus; osr_directory : DirectoryInventoryStatus;
  osr_clusters : list ClusterConnectionStatus; osr_alerts : list OperationalAlert }.

(** ** The address count *)

(** One iteration of the loop that merges; the accumulator is [merged], last first. *)
Definition merge_blocked (first last : Z) (merged : list (Z * Z)) (r : Z * Z) : list (Z * Z) :=
  let low := Z.max first r.1 in
  let high := Z.min last r.2 in
  if high <? low then merged
  else
    match merged with
    | (last_low, last_high) :: rest =>
      if low <=? last_high + 1 then (last_low, Z.max last_high high) :: rest
      else (low, high) :: merged
    | [] => [(low, high)]
    end.

Definition blocked_count (merged : list (Z * Z)) : Z :=
  foldr (λ r n, r.2 - r.1 + 1 + n) 0 merged.

(** The list [blocked]. *)
Definition blocked_of (network : ip_net) (gateway : option ip_addr)
    (exclusions : list (ip_addr * ip_addr)) (unavailable : list ip_addr) : list (Z * Z) :=
  let first := ip_int (network_address network) in
  let last := ip_int (broadcast_address network) in
  [(first, first)] ++
  (if decide (net_version network = 4) then [(last, last)] else []) ++
  match gateway with Some g => [(ip_int g, ip_int g)] | None => [] end ++
  map (λ r, (ip_int r.1, ip_int r.2)) exclusions ++
  map (λ a, (ip_int a, ip_int a)) unavailable.

(** The arguments are the columns of INET type, which the source writes as text and
    parses again. *)
Definition _available_address_count (network : ip_net) (gateway : option ip_addr)
    (exclusions : list (ip_addr * ip_addr)) (unavailable : list ip_addr) : Z :=
  let first := ip_int (network_address network) in
  let last := ip_int (broadcast_address network) in
  let merged := foldl (merge_blocked first last) []
                  (merge_sort range_le (blocked_of network gateway exclusions unavailable)) in
  Z.max 0 (num_addresses network - blocked_count merged).

Definition pool_count (d : db) (pool : ip_pool) : N * string * Z :=
  (pool_id pool, pool_name pool,
   _available_address_count (pool_cidr pool) (pool_gateway pool)
     (map (λ x, (ex_start_address x, ex_end_address x))
        (select_rows (λ x, bool_decide (ex_pool_id x = pool_id pool)) d))
     (map addr_address
        (select_rows (λ a, addr_in_pool (pool_id pool) a && negb (addr_in_state AVAILABLE a)) d))).

(** [order_by(IpPool.name)]. *)
Definition pool_name_le (a b : ip_pool) : Prop := String.leb (pool_name a) (pool_name b) = true.
#[export] Instance pool_name_le_dec : RelDecision pool_name_le.
Proof. intros a b. unfold pool_name_le. apply _. Defined.

(** [order_by(Cluster.name)]. *)
Definition cluster_name_le (a b : cluster) : Prop := String.leb (cl_name a) (cl_name b) = true.
#[export] Instance cluster_name_le_dec : RelDecision cluster_name_le.
Proof. intros a b. unfold cluster_name_le. apply _. Defined.

Definition cluster_status (c : cluster) : ClusterConnectionStatus :=
  mkClusterConnectionStatus (cl_id c) (cl_name c) (cl_is_active c)
    (cl_is_active c && bool_decide (cl_last_connection_error_code c = None) &&
     bool_decide (cl_last_connected_at c ≠ None))
    (cl_last_connected_at c) (cl_last_connection_error_code c).

(** A machine that the inventory counts: joined with an active cluster. *)
Definition counted_workload (d : db) (wl : workload) : bool :=
  match db_clusters d !! wl_cluster_id wl with Some c => cl_is_active c | None => false end &&
  wl_is_present wl && negb (wl_is_template wl).

(** [sorted] of strings. *)
Definition text_le (a b : string) : Prop := String.leb a b = true.
#[export] Instance text_le_dec : RelDecision text_le.
Proof. intros a b. unfold text_le. apply _. Defined.

(** ** Prometheus text *)

Definition QUOTE : Ascii.ascii := Ascii.ascii_of_nat 34.
Definition NEWLINE : Ascii.ascii := Ascii.ascii_of_nat 10.

Definition one (a : Ascii.ascii) : string := String a "".

(** The value of a label: backslashes, quotes and newlines are escaped. *)
Definition label_value (name : string) : string :=
  replace_char NEWLINE (String BACKSLASH "n")
    (replace_char QUOTE (String BACKSLASH (one QUOTE))
       (replace_char BACKSLASH (String BACKSLASH (one BACKSLASH)) name)).

(** [f'{key}="{value}"']. *)
Definition label (key value : string) : string := key +:+ "=" +:+ one QUOTE +:+ value +:+ one QUOTE.

(** [f'{metric}{{{labels}}} {value}']. *)
Definition sample (metric labels : string) (value : Z) : string :=
  metric +:+ "{" +:+ labels +:+ "} " +:+ pretty value.

Definition header (metric help : string) : list string :=
  ["# HELP " +:+ metric +:+ " " +:+ help; "# TYPE " +:+ metric +:+ " gauge"].

Definition cluster_sample (c : ClusterConnectionStatus) : string :=
  sample "pvemaster_cluster_connection_up"
    (label "cluster_id" (str_uuid (ccs_cluster_id c)) +:+ "," +:+
     label "name" (label_value (ccs_name c)))
    (if ccs_connected c then 1 else 0).

(** [sorted(queues.items())]. *)
Definition queue_le (a b : string * Z) : Prop :=
  (a.1 ≠ b.1 ∧ String.leb a.1 b.1 = true) ∨ (a.1 = b.1 ∧ a.2 ≤ b.2).
#[export] Instance queue_le_dec : RelDecision queue_le.
Proof. intros a b. unfold queue_le. apply _. Defined.

(** ** The service *)

Section observability.
Context {E : Type} `{Runtime E} `{Redis E} `{CreatedAt}.
Context (settings : ObservabilitySettings).

(** The identifier that the database gave to the n-th audit row, and the order in which
    it returns the groups of a [GROUP BY]. *)
Context (audit_id : nat → N) (group_order : list (string * Z) → list (string * Z)).

(** [_require]. *)
Definition _require (principal : option Principal) (roles : list UserRole) : DBM E Principal :=
  match principal with
  | None => raise RuntimeError
  | Some p => require_service_role p roles;; mret p
  end.

(** *** Audit trail *)

(** [if expected: filters.append(column == expected)]; the empty string is no filter. *)
Definition text_filter (expected : option string) (value : string) : bool :=
  match expected with
  | Some s => if str_nonempty s then bool_decide (value = s) else true
  | None => true
  end.

Definition id_filter (expected value : option N) : bool :=
  match expected with Some i => bool_decide (value = Some i) | None => true end.

Definition audit_matches (action : option string) (actor_user_id organization_id : option N)
    (result : option string) (item : audit_log) : bool :=
  text_filter action (al_action item) && id_filter actor_user_id (al_actor_user_id item) &&
  id_filter organization_id (al_organization_id item) && text_filter result (al_result item).

(** The rows of [AuditLog] with their identifiers and times. *)
Definition audit_rows (d : db) : list (N * audit_log) :=
  imap (λ i item, (audit_id i, item)) (db_audit_logs d).

(** [order_by(created_at.desc(), id.desc())]. *)
Definition audit_newer (a b : N * audit_log) : Prop :=
  audit_created_at b.1 < audit_created_at a.1 ∨
  audit_created_at a.1 = audit_created_at b.1 ∧ (b.1 ≤ a.1)%N.
#[export] Instance audit_newer_dec : RelDecision audit_newer.
Proof. intros a b. unfold audit_newer. apply _. Defined.

(** The outer joins of [_audit_statement]. *)
Definition _audit_response (d : db) (row : N * audit_log) : AuditLogResponse :=
  let actor := al_actor_user_id row.2 ≫= λ i, db_users d !! i in
  let wl := al_workload_id row.2 ≫= λ i, db_workloads d !! i in
  mkAuditLogResponse row.1 row.2 (audit_created_at row.1) (u_display_name <$> actor)
    (u_email <$> actor) (wl ≫= wl_name) (wl_vmid <$> wl) (wl_kind <$> wl) (wl_node <$> wl)
    (cl_name <$> (wl ≫= λ wl, db_clusters d !! wl_cluster_id wl)).

Definition audit_access (p : Principal) (action : string) : audit_args :=
  (audit_event action "SUCCEEDED" None)
    <| a_actor_user_id := Some (p_user_id p) |> <| a_actor_role := Some (p_role p) |>
    <| a_target_type := Some "audit_log" |>.

Definition text_or_null (s : option string) : json := json_of_opt JStr s.
Definition id_or_null (i : option N) : json := json_of_opt JUuid i.

Definition audit_logs (principal : option Principal) (action : option string)
    (actor_user_id organization_id : option N) (result : option string) (limit offset : Z)
  : DBM E AuditLogListResponse :=
  p ← _require principal [SUPER_ADMIN];
  rows ← gets (λ w, filter (λ row, audit_matches action actor_user_id organization_id result row.2 = true)
                      (audit_rows (w_tx w)));
  items ← gets (λ w, map (_audit_response (w_tx w))
                       (page (Some limit) offset (merge_sort audit_newer rows)));
  add_audit_event ((audit_access p "AUDIT_LOG_SEARCH")
    <| a_after := Some [
         ("filters", JObj [("action", text_or_null action);
                           ("actor_user_id", id_or_null actor_user_id);
                           ("organization_id", id_or_null organization_id);
                           ("result", text_or_null result)]);
         ("returned", JInt (Z.of_nat (length items)))] |>);;
  commit;;
  mret (mkAuditLogListResponse items (Z.of_nat (length rows)) limit offset).

Definition audit_log_view (principal : option Principal) (id : N) : DBM E AuditLogResponse :=
  p ← _require principal [SUPER_ADMIN];
  row ← gets (λ w, head (filter (λ row, row.1 = id) (audit_rows (w_tx w))));
  row ← or_raise (app_error 404 "AUDIT_LOG_NOT_FOUND" "The audit log was not found.") row;
  response ← gets (λ w, _audit_response (w_tx w) row);
  add_audit_event ((audit_access p "AUDIT_LOG_VIEW") <| a_target_id := Some (JUuid row.1) |>);;
  commit;;
  mret response.

(** *** State *)

Definition HEARTBEAT : string := "pvemaster:worker:heartbeat:".

Definition _worker_status : DBM E WorkerStatus :=
  let stale := worker_heartbeat_ttl_seconds settings in
  on_env (try_except
    (keys ← redis_run (redis_scan (HEARTBEAT +:+ "*"));
     let workers := map (after_last COLON) keys in
     mret (mkWorkerStatus true (bool_decide (workers ≠ []))
             (merge_sort text_le workers) stale))
    (λ _, mret (mkWorkerStatus false false [] stale))).

Definition _queue_status : DBM E QueueStatus :=
  let threshold := queue_backlog_alert_threshold settings in
  on_env (try_except
    (operations ← redis_run (redis_llen "operations");
     celery ← redis_run (redis_llen "celery");
     mret (mkQueueStatus true (operations + celery)
             [("operations", operations); ("celery", celery)] threshold))
    (λ _, mret (mkQueueStatus false 0 [] threshold))).

Definition _cluster_statuses : DBM E (list ClusterConnectionStatus) :=
  clusters ← db_select cl_is_active;
  mret (map cluster_status (merge_sort cluster_name_le clusters)).

Definition _workload_inventory : DBM E WorkloadInventoryStatus :=
  total ← gets (λ w, count_rows (counted_workload (w_tx w)) (w_tx w));
  assigned ← gets (λ w, count_rows (λ wl, counted_workload (w_tx w) wl &&
                                          bool_decide (wl_organization_id wl ≠ None)) (w_tx w));
  mret (mkWorkloadInventoryStatus total assigned (Z.max 0 (total - assigned))).

Definition _directory_inventory : DBM E DirectoryInventoryStatus :=
  user_total ← db_count (λ u, bool_decide (u_deleted_at u = None));
  active_users ← db_count (λ u, bool_decide (u_deleted_at u = None) && u_is_active u);
  organization_total ← db_count (λ _ : organization, true);
  active_organizations ← db_count org_is_active;
  mret (mkDirectoryInventoryStatus (mkDirectoryCountStatus organization_total active_organizations)
          (mkDirectoryCountStatus user_total active_users)).

Definition _ip_pool_counts : DBM E (list (N * string * Z)) :=
  gets (λ w, map (pool_count (w_tx w))
    (merge_sort pool_name_le (select_rows pool_is_active (w_tx w)))).

Definition plain_alert (code severity resource_type message : string) : OperationalAlert :=
  mkOperationalAlert code severity resource_type None message None None.

(** The alerts about Redis, workers, queues and clusters. *)
Definition system_alerts (worker : WorkerStatus) (queue : QueueStatus)
    (clusters : list ClusterConnectionStatus) : list OperationalAlert :=
  (if negb (ws_available worker) || negb (qs_available queue)
   then [plain_alert "REDIS_UNAVAILABLE" "critical" "redis"
           "Worker and queue state could not be read from Redis."] else []) ++
  (if negb (ws_alive worker)
   then [plain_alert "WORKER_DOWN" "critical" "worker"
           "No current worker heartbeat was found."] else []) ++
  (if qs_backlog_threshold queue <=? qs_total queue
   then [mkOperationalAlert "JOB_QUEUE_BACKLOG" "warning" "queue" None
           "The job queue backlog threshold was reached."
           (Some (qs_total queue)) (Some (qs_backlog_threshold queue))] else []) ++
  map (λ c, mkOperationalAlert "CLUSTER_CONNECTION_FAILED" "critical" "cluster"
              (Some (str_uuid (ccs_cluster_id c))) "The Proxmox cluster is not connected." None None)
    (filter (λ c, ccs_enabled c && negb (ccs_connected c) = true) clusters).

(** A request that failed at [cutoff] or later. *)
Definition failed_since (cutoff : Z) (q : provisioning_request) : bool :=
  bool_decide (prq_status q ∈ [PS_FAILED; PS_MANUAL_REVIEW]) &&
  match prq_finished_at q with Some t => cutoff <=? t | None => false end.

Definition failure_alerts (failures : Z) : list OperationalAlert :=
  if provisioning_failure_alert_count settings <=? failures
  then [mkOperationalAlert "PROVISIONING_REPEATED_FAILURE" "critical" "provisioning" None
          "Provisioning failures exceeded the configured window threshold."
          (Some failures) (Some (provisioning_failure_alert_count settings))]
  else [].

Definition pool_alerts (pools : list (N * string * Z)) : list OperationalAlert :=
  map (λ p, mkOperationalAlert "IP_POOL_LOW" "warning" "ip_pool" (Some (str_uuid p.1.1))
              ("IP pool " +:+ p.1.2 +:+ " has low availability.")
              (Some p.2) (Some (ip_pool_low_available_threshold settings)))
    (filter (λ p, p.2 ≤ ip_pool_low_available_threshold settings) pools).

Definition _alerts (worker : WorkerStatus) (queue : QueueStatus)
    (clusters : list ClusterConnectionStatus) : DBM E (list OperationalAlert) :=
  now ← datetime_now;
  failures ← db_count (failed_since (now - seconds (60 * provisioning_failure_window_minutes settings)));
  pools ← _ip_pool_counts;
  mret (system_alerts worker queue clusters ++ failure_alerts failures ++ pool_alerts pools).

Definition status (principal : option Principal) : DBM E OperationsStatusResponse :=
  _require principal [SUPER_ADMIN; OPERATOR];;
  worker ← _worker_status;
  queue ← _queue_status;
  workloads ← _workload_inventory;
  directory ← _directory_inventory;
  clusters ← _cluster_statuses;
  alerts ← _alerts worker queue clusters;
  mret (mkOperationsStatusResponse (if decide (alerts = []) then "ok" else "degraded")
          worker queue workloads directory clusters alerts).

(** *** Prometheus *)

(** [select(Operation.status, func.count()).group_by(Operation.status)]. *)
Definition operation_counts (d : db) : list (string * Z) :=
  group_order (omap (λ s,
    let n := count_rows (λ o, bool_decide (op_status o = s)) d in
    if n =? 0 then None else Some (OperationStatus_value s, n))
    [OS_QUEUED; OS_RUNNING; OS_SUCCEEDED; OS_FAILED; OS_TIMEOUT]).

Definition metrics_text (worker : WorkerStatus) (queue : QueueStatus)
    (clusters : list ClusterConnectionStatus) (operations : list (string * Z))
    (pools : list (N * string * Z)) : list string :=
  header "pvemaster_worker_up" "Whether at least one Celery worker heartbeat is current." ++
  ["pvemaster_worker_up " +:+ pretty (if ws_alive worker then 1 else 0)] ++
  header "pvemaster_job_queue_length" "Number of jobs waiting in a Celery queue." ++
  map (λ q, sample "pvemaster_job_queue_length" (label "queue" q.1) q.2)
    (merge_sort queue_le (qs_queues queue)) ++
  header "pvemaster_cluster_connection_up" "Last known Proxmox connection state." ++
  map cluster_sample clusters ++
  header "pvemaster_operations" "Number of operation records by status." ++
  map (λ o, sample "pvemaster_operations" (label "status" o.1) o.2) operations ++
  header "pvemaster_ip_pool_available" "Number of available addresses in an IP pool." ++
  map (λ p, sample "pvemaster_ip_pool_available" (label "pool_id" (str_uuid p.1.1)) p.2) pools.

Definition prometheus_metrics : DBM E string :=
  worker ← _worker_status;
  queue ← _queue_status;
  clusters ← _cluster_statuses;
  operations ← gets (λ w, operation_counts (w_tx w));
  pools ← _ip_pool_counts;
  mret (String.concat (one NEWLINE) (metrics_text worker queue clusters operations pools) +:+ one NEWLINE).

(** ** app/worker.py *)

Definition _record_worker_heartbeat (hostname : string) : M E () :=
  redis_run (redis_setex (HEARTBEAT +:+ hostname) (worker_heartbeat_ttl_seconds settings) "alive").

(** Also what a starting worker does before it recovers operations. *)
Definition record_worker_heartbeat (hostname : string) : M E () :=
  try_except (_record_worker_heartbeat hostname) (λ _, mret tt).
End observability.
