(* ===== verification/ObservabilityProps.v ===== *)
(** * What the state report says

    The number of available addresses of a pool is the number of its addresses that the
    IPAM service would still give out, and the label of a cluster in the Prometheus text
    can be read back, whatever its name. *)
From Stdlib Require Import Lia.
From stdpp Require Import sorting.
From S2P Require Import Prelude Models Database AuditLog IpAddr FreeOffset Ipam IpamInv IpamOps.
From S2P Require Import Endpoints Client BackupSize UuidText Operations Clusters Redis Listings.
From S2P Require Import Observability.

(** ** Merging, against the merging of FreeOffset.v *)

Definition shift (first : Z) (r : Z * Z) : Z * Z := (r.1 - first, r.2 - first).

Section merge.
Context (first last : Z) (Hfl : first ≤ last).
Implicit Types (acc l : list (Z * Z)) (r : Z * Z).

Local Abbreviation size := (last - first + 1).

Lemma merge_blocked_empty acc r : r.2 < r.1 → merge_blocked first last acc r = acc.
Proof using Hfl. intros Hr. unfold merge_blocked. by rewrite (proj2 (Z.ltb_lt _ _)) by lia. Qed.

Lemma merge_blocked_shift acc r :
  r.1 ≤ r.2 → map (shift first) (merge_blocked first last acc r) =
              merge_range size (map (shift first) acc) (shift first r).
Proof using Hfl.
  destruct r as [low high]. simpl. intros Hr. unfold merge_blocked, merge_range, shift. simpl.
  destruct (Z.ltb_spec (Z.min last high) (Z.max first low)), (Z.ltb_spec (high - first) 0),
    (Z.leb_spec size (low - first)); simpl; try lia; try done.
  destruct acc as [|[ll lh] rest]; simpl; [f_equal; f_equal; lia|].
  destruct (Z.leb_spec (Z.max first low) (lh + 1)), (Z.leb_spec (Z.max 0 (low - first)) (lh - first + 1));
    simpl; try lia; f_equal; f_equal; lia.
Qed.

Lemma merge_fold_shift acc l :
  map (shift first) (foldl (merge_blocked first last) acc l) =
  foldl (merge_range size) (map (shift first) acc) (map (shift first) (filter (λ r, r.1 ≤ r.2) l)).
Proof using Hfl.
  revert acc. induction l as [|r l IH]; intros acc; [done|]. simpl. rewrite IH, filter_cons.
  case_decide; simpl; [by rewrite merge_blocked_shift|]. by rewrite merge_blocked_empty by lia.
Qed.

Lemma sorted_shift l :
  StronglySorted range_le l → StronglySorted range_le (map (shift first) (filter (λ r, r.1 ≤ r.2) l)).
Proof using.
  induction 1 as [|r l Hs IH Hall]; [constructor|]. rewrite filter_cons. case_decide; [|done].
  simpl. constructor; [done|]. apply Forall_map. rewrite Forall_forall in *.
  intros s [_ Hin]%list_elem_of_filter. specialize (Hall s Hin). unfold range_le, shift in *. simpl. lia.
Qed.

(** What the merged ranges cover, and that they are apart. *)
Lemma merged_spec l :
  let merged := foldl (merge_blocked first last) [] (merge_sort range_le l) in
  separated size (map (shift first) merged) ∧
  ∀ x, covered (map (shift first) merged) x ↔ 0 ≤ x < size ∧ covered l (first + x).
Proof using Hfl.
  intros merged. pose proof (λ x, merge_fold_spec size
    (map (shift first) (filter (λ r, r.1 ≤ r.2) (merge_sort range_le l))) [] x) as Hspec.
  rewrite <-(merge_fold_shift []) in Hspec. fold merged in Hspec.
  assert (∀ x, separated size (map (shift first) merged) ∧ (covered (map (shift first) merged) x ↔
    (0 ≤ x < size ∧ covered (map (shift first) (filter (λ r, r.1 ≤ r.2) (merge_sort range_le l))) x)
    ∨ covered [] x)) as Hm.
  { intros x. apply Hspec; [lia|by apply sorted_shift, (StronglySorted_merge_sort _)| |done|by constructor].
    apply Forall_map, Forall_forall. intros r [? _]%list_elem_of_filter. unfold shift. simpl. lia. }
  split; [apply (Hm 0)|]. intros x. destruct (Hm x) as [_ ->].
  rewrite <-(covered_perm (merge_sort range_le l) l) by apply merge_sort_Permutation.
  pose proof (covered_nil x). unfold covered. split.
  - intros [(? & r' & (r & -> & Hr)%list_elem_of_fmap & Hin)|?]; [|done].
    apply list_elem_of_filter in Hr as [_ Hr]. split; [done|]. exists r. split; [done|]. unfold shift in Hin. simpl in Hin. lia.
  - intros (? & r & Hr & Hin). left. split; [done|]. exists (shift first r). unfold shift. simpl.
    split; [|lia]. apply list_elem_of_fmap. exists r. split; [done|]. apply list_elem_of_filter. split; [lia|done].
Qed.
End merge.

(** ** Counting *)

(** The offsets that ranges cover, range by range. *)
Definition offsets_of (acc : list (Z * Z)) : list Z :=
  concat (map (λ r, seqZ r.1 (r.2 - r.1 + 1)) acc).

Lemma elem_of_offsets acc x : x ∈ offsets_of acc ↔ covered acc x.
Proof.
  unfold offsets_of. induction acc as [|r acc IH]; simpl.
  { split; [by intros ?%not_elem_of_nil|by intros ?%covered_nil]. }
  rewrite elem_of_app, IH, elem_of_seqZ, covered_cons. intuition lia.
Qed.

Lemma separated_offsets size acc :
  separated size acc →
  NoDup (offsets_of acc) ∧ Z.of_nat (length (offsets_of acc)) = blocked_count acc.
Proof.
  unfold offsets_of. induction acc as [|r acc IH]; simpl; [by repeat constructor|].
  intros (Hr & _ & Hlow & [Hnd Hlen]%IH). rewrite length_app, length_seqZ. split; [|lia].
  apply NoDup_app. split_and!; [apply NoDup_seqZ| |done].
  intros x Hx%elem_of_seqZ (s & Hs & Hin)%elem_of_offsets. rewrite Forall_forall in Hlow.
  specialize (Hlow s Hs). lia.
Qed.

Lemma count_separated size acc (P : Z → Prop) `{!∀ x, Decision (P x)} :
  separated size acc → (∀ x, covered acc x ↔ 0 ≤ x < size ∧ P x) →
  Z.of_nat (length (filter P (seqZ 0 size))) = blocked_count acc.
Proof.
  intros [Hnd <-]%separated_offsets HP. f_equal. apply Permutation_length, NoDup_Permutation.
  - apply NoDup_filter, NoDup_seqZ.
  - done.
  - intros x. rewrite list_elem_of_filter, elem_of_seqZ, elem_of_offsets, HP. intuition lia.
Qed.

Lemma blocked_count_shift first acc : blocked_count (map (shift first) acc) = blocked_count acc.
Proof. induction acc as [|r acc IH]; [done|]. simpl. rewrite IH. lia. Qed.

Lemma length_filter_not (P Q : Z → Prop) `{!∀ x, Decision (P x), !∀ x, Decision (Q x)} l :
  (∀ x, x ∈ l → Q x ↔ ¬ P x) → (length (filter P l) + length (filter Q l) = length l)%nat.
Proof.
  induction l as [|x l IH]; intros HQ; [done|]. rewrite !filter_cons.
  assert (Q x ↔ ¬ P x) as Hx by (apply HQ; by left). destruct (decide (P x)), (decide (Q x));
    simpl; rewrite <-(IH (λ y Hy, HQ y (list_elem_of_further _ _ _ Hy))); try lia; tauto.
Qed.

Lemma length_filter_map {A B} (P : B → Prop) `{!∀ x, Decision (P x)} (f : A → B) l :
  length (filter P (map f l)) = length (filter (λ x, P (f x)) l).
Proof. induction l as [|x l IH]; [done|]. simpl. rewrite !filter_cons. case_decide; simpl; by rewrite IH. Qed.

Lemma length_filter_0 {A} (P : A → Prop) `{!∀ x, Decision (P x)} l :
  length (filter P l) = 0%nat ↔ ∀ x, x ∈ l → ¬ P x.
Proof.
  rewrite length_zero_iff_nil. split.
  - intros Hnil x Hx HP. apply (not_elem_of_nil x). rewrite <-Hnil. by apply list_elem_of_filter.
  - intros Hno. destruct (filter P l) as [|x k] eqn:Hf; [done|].
    assert (x ∈ filter P l) as [HP Hx]%list_elem_of_filter by (rewrite Hf; by left). by destruct (Hno x).
Qed.

(** The figure is the number of offsets that no blocked range covers. *)
Lemma available_count_naive network gateway exclusions unavailable :
  net_wf network →
  _available_address_count network gateway exclusions unavailable =
  Z.of_nat (length (filter (λ o, ¬ in_ranges (blocked_of network gateway exclusions unavailable)
                                     (net_address network + o) = true)
                      (seqZ 0 (num_addresses network)))).
Proof.
  intros Hn. unfold _available_address_count. cbv zeta.
  set (first := ip_int (network_address network)). set (last := ip_int (broadcast_address network)).
  set (blocked := blocked_of network gateway exclusions unavailable).
  assert (num_addresses network = last - first + 1) as Hsize by done.
  assert (0 < num_addresses network) as Hpos by (rewrite num_addresses_spec by done; by apply block_size_pos).
  destruct (merged_spec first last ltac:(lia) blocked) as [Hsep Hcov].
  rewrite <-(blocked_count_shift first).
  rewrite <-(count_separated _ _ (λ o, in_ranges blocked (net_address network + o) = true) Hsep).
  2: { intros x. by rewrite Hcov, in_ranges_covered. }
  rewrite <-Hsize.
  pose proof (length_filter_not (λ o, in_ranges blocked (net_address network + o) = true)
    (λ o, ¬ in_ranges blocked (net_address network + o) = true) (seqZ 0 (num_addresses network))
    (λ _ _, iff_refl _)) as Hlen. rewrite length_seqZ in Hlen. lia.
Qed.

(** ** Against the IPAM service *)

(** What the IPAM service still gives out: an address that is not reserved by the network,
    not excluded, and has no row or an available one. *)
Definition assignable (d : db) (pool : ip_pool) (a : ip_addr) : bool :=
  negb (special pool (pool_cidr pool) a) &&
  negb (existsb (λ x, (ip_int (ex_start_address x) <=? ip_int a) && (ip_int a <=? ip_int (ex_end_address x)))
          (select_rows (λ x, bool_decide (ex_pool_id x = pool_id pool)) d)) &&
  negb (existsb (λ b, bool_decide (addr_address b = a))
          (select_rows (λ b, addr_in_pool (pool_id pool) b && negb (addr_in_state AVAILABLE b)) d)).

(** Every address of a network. *)
Definition network_addresses (n : ip_net) : list ip_addr :=
  map (λ o, IpAddr (net_version n) (net_address n + o)) (seqZ 0 (num_addresses n)).

Lemma covered_app l k x : covered (l ++ k) x ↔ covered l x ∨ covered k x.
Proof. unfold covered. setoid_rewrite elem_of_app. naive_solver. Qed.

Section pool.
Context (d : db) (Hgood : ipam_good d) (i : N) (pool : ip_pool) (Hpool : db_pools d !! i = Some pool).

Local Abbreviation net := (pool_cidr pool).
Local Abbreviation at_offset o := (IpAddr (net_version net) (net_address net + o)).

Lemma pool_net_wf : net_wf net.
Proof using All. destruct Hgood as [_ Hinv]. apply (ii_pool _ _ _ _ Hinv _ _ Hpool). Qed.

Lemma same_version_eq a o :
  ip_version a = net_version net → a = at_offset o ↔ ip_int a = net_address net + o.
Proof. intros Hv. destruct a as [v x]. simpl in *. subst v. split; [by intros [=]|by intros ->]. Qed.

Lemma contained_version a : net_contains net a = true → ip_version a = net_version net.
Proof. unfold net_contains. rewrite andb_true_iff, bool_decide_eq_true. intuition. Qed.

Lemma row_version b j :
  db_addresses d !! j = Some b → addr_pool_id b = pool_id pool → ip_version (addr_address b) = net_version net.
Proof using All.
  intros Hb Hp. destruct Hgood as [_ Hinv]. destruct (ii_addr _ _ _ _ Hinv _ _ Hb) as (p & Hpp & Hok).
  rewrite Hp, (ii_key_pool _ _ _ _ Hinv _ _ Hpool), Hpool in Hpp. injection Hpp as <-.
  apply contained_version, Hok.
Qed.

Lemma special_offset o :
  special pool net (at_offset o) = true ↔
  covered ([(net_address net, net_address net)] ++
           (if decide (net_version net = 4)
            then [(ip_int (broadcast_address net), ip_int (broadcast_address net))] else []) ++
           match pool_gateway pool with Some g => [(ip_int g, ip_int g)] | None => [] end)
    (net_address net + o).
Proof using All.
  unfold special. rewrite !orb_true_iff, andb_true_iff, !bool_decide_eq_true. unfold covered.
  setoid_rewrite elem_of_app. setoid_rewrite elem_of_app. setoid_rewrite list_elem_of_singleton. split.
  - intros [[Heq|[Hv Heq]]|Hg].
    + exists (net_address net, net_address net). split; [by left|]. injection Heq as Heq. simpl. lia.
    + eexists. split; [right; left; rewrite decide_True by done; by apply list_elem_of_singleton|].
      rewrite <-Heq. simpl. lia.
    + destruct (pool_gateway pool) as [g|]; [|done]. apply bool_decide_eq_true in Hg.
      exists (ip_int g, ip_int g). split; [right; right; by apply list_elem_of_singleton|]. rewrite <-Hg. simpl. lia.
  - intros (r & [->|[Hr|Hr]] & Hin).
    + left. left. symmetry. apply same_version_eq; [done|]. simpl in *. lia.
    + case_decide; [|by apply not_elem_of_nil in Hr]. apply list_elem_of_singleton in Hr as ->.
      left. right. split; [done|]. symmetry. apply same_version_eq; [done|]. simpl in *. lia.
    + right. destruct (pool_gateway pool) as [g|] eqn:Hg; [|by apply not_elem_of_nil in Hr].
      apply list_elem_of_singleton in Hr as ->. apply bool_decide_eq_true. symmetry. apply same_version_eq.
      * destruct Hgood as [_ Hinv]. apply contained_version, (ii_pool _ _ _ _ Hinv _ _ Hpool), Hg.
      * simpl in *. lia.
Qed.

Lemma excluded_offset o :
  covered (map (λ r, (ip_int r.1, ip_int r.2)) (map (λ x, (ex_start_address x, ex_end_address x))
    (select_rows (λ x, bool_decide (ex_pool_id x = pool_id pool)) d))) (net_address net + o) ↔
  existsb (λ x, (ip_int (ex_start_address x) <=? ip_int (at_offset o)) &&
                (ip_int (at_offset o) <=? ip_int (ex_end_address x)))
    (select_rows (λ x, bool_decide (ex_pool_id x = pool_id pool)) d) = true.
Proof.
  rewrite existsb_exists. unfold covered. rewrite map_map. split.
  - intros (r & (x & -> & Hx)%list_elem_of_fmap & Hin). exists x. rewrite <-list_elem_of_In. simpl in *. split; [done|lia].
  - intros (x & Hx & Hin). rewrite <-list_elem_of_In in Hx. eexists. split; [apply list_elem_of_fmap; by exists x|]. simpl in *. lia.
Qed.

Lemma taken_offset o :
  covered (map (λ a, (ip_int a, ip_int a)) (map addr_address
    (select_rows (λ a, addr_in_pool (pool_id pool) a && negb (addr_in_state AVAILABLE a)) d)))
    (net_address net + o) ↔
  existsb (λ b, bool_decide (addr_address b = at_offset o))
    (select_rows (λ b, addr_in_pool (pool_id pool) b && negb (addr_in_state AVAILABLE b)) d) = true.
Proof using All.
  rewrite existsb_exists. unfold covered. rewrite map_map. setoid_rewrite bool_decide_eq_true. split.
  - intros (r & (b & -> & Hb)%list_elem_of_fmap & Hin). exists b. rewrite <-list_elem_of_In. split; [done|].
    apply elem_of_select in Hb as [[Hp%bool_decide_eq_true _]%andb_true_iff [j Hj]].
    apply same_version_eq; [by eapply row_version|]. simpl in Hin. lia.
  - intros (b & Hb & Heq). rewrite <-list_elem_of_In in Hb.
    eexists. split; [apply list_elem_of_fmap; by exists b|]. rewrite Heq. simpl. lia.
Qed.

Lemma assignable_offset o :
  in_ranges (blocked_of net (pool_gateway pool)
    (map (λ x, (ex_start_address x, ex_end_address x))
       (select_rows (λ x, bool_decide (ex_pool_id x = pool_id pool)) d))
    (map addr_address
       (select_rows (λ a, addr_in_pool (pool_id pool) a && negb (addr_in_state AVAILABLE a)) d)))
    (net_address net + o) = negb (assignable d pool (at_offset o)).
Proof using All.
  apply eq_true_iff_eq. rewrite in_ranges_covered. unfold blocked_of, assignable. cbv zeta.
  rewrite !negb_andb, !negb_involutive, !orb_true_iff, special_offset, <-excluded_offset, <-taken_offset.
  rewrite !covered_app. tauto.
Qed.

Lemma network_addresses_spec n a :
  net_wf n → a ∈ network_addresses n ↔ addr_wf a ∧ net_contains n a = true.
Proof.
  intros Hn. unfold network_addresses. rewrite list_elem_of_fmap. setoid_rewrite elem_of_seqZ. split.
  - intros (o & -> & Ho). apply net_offset_contains; [done|lia].
  - intros [Hwf [Hv Hin]%net_contains_spec]; [|done..]. exists (ip_int a - net_address n).
    rewrite num_addresses_spec by done. split; [|lia]. destruct a as [v x]. simpl in *. f_equal; [done|lia].
Qed.

Lemma unassignable a :
  assignable d pool a = false ↔
  special pool net a = true ∨
  (∃ j x, db_exclusions d !! j = Some x ∧ ex_pool_id x = pool_id pool ∧
     ip_int (ex_start_address x) ≤ ip_int a ≤ ip_int (ex_end_address x)) ∨
  (∃ j b, db_addresses d !! j = Some b ∧ addr_pool_id b = pool_id pool ∧ addr_address b = a ∧
     addr_state b ≠ AVAILABLE).
Proof.
  unfold assignable. rewrite !andb_false_iff, !negb_false_iff, !existsb_exists. unfold addr_in_pool, addr_in_state.
  setoid_rewrite <-list_elem_of_In. setoid_rewrite elem_of_select. setoid_rewrite andb_true_iff.
  setoid_rewrite negb_true_iff. setoid_rewrite bool_decide_eq_true. setoid_rewrite bool_decide_eq_false.
  setoid_rewrite Z.leb_le. rewrite Logic.or_assoc. simpl. naive_solver.
Qed.

Lemma exhausted_unassignable (E : Type) `{Runtime E} (e : E) :
  (∀ j, env_locked e j = false) →
  exhausted d e pool ↔ ∀ a, addr_wf a → net_contains net a = true → assignable d pool a = false.
Proof.
  intros Hlock. unfold exhausted. setoid_rewrite unassignable. setoid_rewrite Hlock. naive_solver.
Qed.

(** C26: the number of available addresses that the report, the alerts and the metrics
    give for a pool is the number of its addresses that the IPAM service would still give
    out, and it is zero exactly when an automatic allocation finds the pool exhausted. *)
Theorem pool_count_exact :
  (pool_count d pool).2 =
    Z.of_nat (length (filter (λ a, assignable d pool a = true) (network_addresses net))) ∧
  ∀ (E : Type) `{Runtime E} (e : E),
    (∀ j, env_locked e j = false) → ((pool_count d pool).2 = 0 ↔ exhausted d e pool).
Proof using All.
  pose proof pool_net_wf as Hn.
  assert ((pool_count d pool).2 =
    Z.of_nat (length (filter (λ a, assignable d pool a = true) (network_addresses net)))) as Hcount.
  { unfold pool_count, network_addresses. simpl. rewrite available_count_naive by done.
    rewrite length_filter_map. do 2 f_equal. apply list_filter_iff. intros o.
    rewrite assignable_offset. by destruct (assignable _ _ _). }
  split; [done|]. rewrite Hcount. intros E HE e Hlock.
  rewrite (Nat2Z.inj_iff _ 0), length_filter_0. rewrite (exhausted_unassignable E e Hlock). split.
  - intros Hno a Hwf Hin. apply not_true_is_false, Hno, network_addresses_spec; done.
  - intros Hno a [Hwf Hin]%network_addresses_spec; [|done]. by rewrite Hno.
Qed.
End pool.

(** ** Labels *)

(** The value of a label as Prometheus reads it: up to the closing quote, on one line,
    with [\\], [\quote] and [\n] for the characters that are escaped. *)
Fixpoint read_label (s : string) : option (string * string) :=
  match s with
  | EmptyString => None
  | String a r =>
    if decide (a = QUOTE) then Some ("", r)
    else if decide (a = NEWLINE) then None
    else if decide (a = BACKSLASH) then
      match r with
      | EmptyString => None
      | String b r' =>
        '(v, rest) ← read_label r';
        Some (String (if decide (b = Ascii.ascii_of_nat 110) then NEWLINE else b) v, rest)
      end
    else '(v, rest) ← read_label r; Some (String a v, rest)
  end.

(** What one character becomes. *)
Definition escaped_label_char (a : Ascii.ascii) : string :=
  if decide (a = BACKSLASH) then String BACKSLASH (one BACKSLASH)
  else if decide (a = QUOTE) then String BACKSLASH (one QUOTE)
  else if decide (a = NEWLINE) then String BACKSLASH "n" else one a.

Lemma replace_char_app c text s t :
  replace_char c text (s +:+ t) = replace_char c text s +:+ replace_char c text t.
Proof.
  induction s as [|a s IH]; [done|]. simpl. case_decide; rewrite IH.
  - by rewrite string_app_assoc.
  - done.
Qed.

Lemma label_value_cons a s : label_value (String a s) = escaped_label_char a +:+ label_value s.
Proof.
  change (String a s) with (one a +:+ s). unfold label_value. rewrite !replace_char_app. f_equal.
  destruct a as [[] [] [] [] [] [] [] []]; vm_compute; reflexivity.
Qed.

Lemma read_escaped a t v rest :
  read_label t = Some (v, rest) → read_label (escaped_label_char a +:+ t) = Some (String a v, rest).
Proof.
  intros Ht. unfold escaped_label_char. repeat case_decide; subst; simpl;
    change ("" +:+ t) with t; rewrite ?Ht; try done.
  by rewrite !decide_False.
Qed.

(** The name of a cluster, whatever characters it contains, is read back from its
    label: it cannot end the label or the line, and nothing after it is taken for it. *)
Theorem label_round_trip name rest :
  read_label (label_value name +:+ one QUOTE +:+ rest) = Some (name, rest).
Proof.
  induction name as [|a name IH]; [done|].
  rewrite label_value_cons, string_app_assoc. by apply read_escaped.
Qed.

(** ** The audit trail and the state report *)

Section reports.
Context {E : Type} `{Runtime E} `{Redis E} `{CreatedAt}.
Context (settings : ObservabilitySettings) (audit_id : nat → N).
Implicit Types (principal : option Principal) (d : db) (e : E).

(** Who may read, and what reading writes: an event of the action and the reader. *)
Definition read_recorded (action : string) principal d d' : Prop :=
  ∃ p item, principal = Some p ∧ p_role p = SUPER_ADMIN ∧
    d' = d <| db_audit_logs := db_audit_logs d ++ [item] |> ∧
    al_action item = action ∧ al_result item = "SUCCEEDED" ∧ al_actor_user_id item = Some (p_user_id p).

Lemma wp_audit_access p action f (Q : outcome () → world E → Prop) w :
  (∀ a, a_action (f a) = a_action a ∧ a_outcome (f a) = a_outcome a ∧ a_actor_user_id (f a) = a_actor_user_id a) →
  (∀ item, al_action item = action → al_result item = "SUCCEEDED" →
     al_actor_user_id item = Some (p_user_id p) →
     Q (Ok tt) (World (w_db w) ((w_tx w) <| db_audit_logs := db_audit_logs (w_tx w) ++ [item] |>)
                  (w_dup w) (w_env w))) →
  wp (add_audit_event (f (audit_access p action))) Q w.
Proof.
  intros Hf HQ. destruct (Hf (audit_access p action)) as (Ha & Ho & Hu).
  unfold add_audit_event. apply wp_bind, wp_gets, wp_modify. apply HQ; simpl; by rewrite ?Ha, ?Ho, ?Hu.
Qed.

Lemma wp_require principal roles (Q : outcome Principal → world E → Prop) w :
  (principal = None → Q (Raise RuntimeError) w) →
  (∀ p, principal = Some p → p_role p ∉ roles → Q (Raise FORBIDDEN) w) →
  (∀ p, principal = Some p → p_role p ∈ roles → Q (Ok p) w) →
  wp (_require principal roles) Q w.
Proof.
  intros Hn Hf Hok. unfold _require. destruct principal as [p|]; [|apply wp_raise; auto].
  apply wp_bind. unfold require_service_role. apply wp_raise_if; rewrite ?bool_decide_eq_true, ?bool_decide_eq_false;
    intros Hr; [by eapply Hf|apply wp_ret]. apply Hok; [done|]. by apply dec_stable in Hr.
Qed.

Lemma length_audit_rows d (P : audit_log → bool) :
  length (filter (λ row : N * audit_log, P row.2 = true) (audit_rows audit_id d)) =
  length (filter (λ item, P item = true) (db_audit_logs d)).
Proof.
  unfold audit_rows. generalize audit_id as f. induction (db_audit_logs d) as [|item l IH]; intros f; [done|].
  rewrite imap_cons, !filter_cons. simpl. case_decide; simpl; [f_equal|]; apply (IH (f ∘ S)).
Qed.

(** Nobody reads the audit trail unseen: a search or a look at one event answers only
    a super administrator, and then has written exactly one event that names the reader;
    otherwise nothing changes. *)
Theorem audit_access_recorded principal action actor_user_id organization_id result limit offset id d e :
  integrity d = true →
  (∀ r d' e',
     exec (audit_logs audit_id principal action actor_user_id organization_id result limit offset) d e
       = (r, d', e') →
     match r with
     | Ok response => read_recorded "AUDIT_LOG_SEARCH" principal d d' ∧
         all_total response = Z.of_nat (length (filter (λ item,
           audit_matches action actor_user_id organization_id result item = true) (db_audit_logs d)))
     | Raise _ => d' = d
     end) ∧
  (∀ r d' e', exec (audit_log_view audit_id principal id) d e = (r, d', e') →
     match r with
     | Ok response => read_recorded "AUDIT_LOG_VIEW" principal d d' ∧ alr_id response = id
     | Raise _ => d' = d
     end).
Proof.
  intros Hi. split; intros r d' e' Hrun; start_run Hrun.
  - unfold audit_logs. apply wp_bind, wp_require; [done..|]. intros p -> Hp.
    apply wp_bind, wp_gets, wp_bind, wp_gets, wp_bind.
    apply (wp_audit_access p "AUDIT_LOG_SEARCH" (λ a, a <| a_after := _ |>)); [by intros [] |].
    intros item Ha Ho Hu. apply wp_bind, wp_commit_sound; [done|cbn [w_tx]; by rewrite integrity_log|].
    apply wp_ret. split; [|cbn; f_equal; apply length_audit_rows].
    exists p, item. apply list_elem_of_singleton in Hp. by split_and!.
  - unfold audit_log_view. apply wp_bind, wp_require; [done..|]. intros p -> Hp.
    apply wp_bind, wp_gets, wp_bind, wp_or_raise; [done|]. intros row Hrow.
    apply wp_bind, wp_gets, wp_bind.
    apply (wp_audit_access p "AUDIT_LOG_VIEW" (λ a, a <| a_target_id := _ |>)); [by intros [] |].
    intros item Ha Ho Hu. apply wp_bind, wp_commit_sound; [done|cbn [w_tx]; by rewrite integrity_log|].
    apply wp_ret. split; [exists p, item; apply list_elem_of_singleton in Hp; by split_and!|].
    apply head_Some_elem_of, list_elem_of_filter in Hrow as [Hid _]. exact Hid.
Qed.

Lemma filter_nil_iff {A} (P : A → Prop) `{!∀ x, Decision (P x)} l :
  filter P l = [] ↔ ∀ x, x ∈ l → ¬ P x.
Proof. by rewrite <-length_zero_iff_nil, length_filter_0. Qed.

Lemma map_nil_iff {A B} (f : A → B) l : map f l = [] ↔ l = [].
Proof. by destruct l. Qed.

Lemma if_nil {A} (b : bool) (x : A) : (if b then [x] else []) = [] ↔ b = false.
Proof. by destruct b. Qed.

Lemma system_alerts_nil worker queue clusters :
  system_alerts worker queue clusters = [] ↔
  (ws_available worker = true ∧ qs_available queue = true) ∧ ws_alive worker = true ∧
  qs_total queue < qs_backlog_threshold queue ∧
  ∀ c, c ∈ clusters → ccs_enabled c = true → ccs_connected c = true.
Proof.
  unfold system_alerts. rewrite !app_nil, !if_nil, map_nil_iff, filter_nil_iff.
  rewrite orb_false_iff, !negb_false_iff, Z.leb_gt. setoid_rewrite andb_true_iff.
  setoid_rewrite negb_true_iff. repeat apply and_iff_compat_l. split.
  - intros Hc c Hin He. apply not_false_is_true. intros Hn. by apply (Hc c).
  - intros Hc c Hin [He Hn]. by rewrite (Hc c Hin He) in Hn.
Qed.

Lemma failure_alerts_nil n :
  failure_alerts settings n = [] ↔ n < provisioning_failure_alert_count settings.
Proof. unfold failure_alerts. by rewrite if_nil, Z.leb_gt. Qed.

Lemma pool_alerts_nil pools :
  pool_alerts settings pools = [] ↔ ∀ p, p ∈ pools → ip_pool_low_available_threshold settings < p.2.
Proof. unfold pool_alerts. rewrite map_nil_iff, filter_nil_iff. by setoid_rewrite Z.nle_gt. Qed.

Lemma status_text (alerts : list OperationalAlert) :
  (if decide (alerts = []) then "ok" else "degraded") = "ok" ↔ alerts = [].
Proof. by case_decide. Qed.

Lemma clusters_connected d :
  (∀ c, c ∈ map cluster_status (merge_sort cluster_name_le (select_rows cl_is_active d)) →
     ccs_enabled c = true → ccs_connected c = true) ↔
  ∀ i c, db_clusters d !! i = Some c → cl_is_active c = true →
    cl_last_connection_error_code c = None ∧ cl_last_connected_at c ≠ None.
Proof.
  setoid_rewrite list_elem_of_fmap. setoid_rewrite merge_sort_Permutation. setoid_rewrite elem_of_select. split.
  - intros Hc i c Hi Ha. specialize (Hc (cluster_status c)). simpl in Hc. rewrite Ha in Hc.
    apply andb_true_iff in Hc as [?%bool_decide_eq_true ?%bool_decide_eq_true]; eauto.
  - intros Hc _ (c & -> & Ha & i & Hi) _. destruct (Hc i c Hi Ha) as [He Ht]. simpl.
    by rewrite Ha, !bool_decide_eq_true_2.
Qed.

Lemma pools_above d threshold :
  (∀ p, p ∈ map (pool_count d) (merge_sort pool_name_le (select_rows pool_is_active d)) → threshold < p.2) ↔
  ∀ i pool, db_pools d !! i = Some pool → pool_is_active pool = true → threshold < (pool_count d pool).2.
Proof.
  setoid_rewrite list_elem_of_fmap. setoid_rewrite merge_sort_Permutation. setoid_rewrite elem_of_select. split.
  - intros Hc i pool Hi Ha. apply Hc. eauto.
  - intros Hc _ (pool & -> & Ha & i & Hi). by eapply Hc.
Qed.

(** The answers about workers and queues come, whatever Redis does. *)
Lemma worker_answers (w : world E) : ∃ worker e',
  _worker_status settings w = (Ok worker, World (w_db w) (w_tx w) (w_dup w) e').
Proof.
  unfold _worker_status, on_env, try_except, mbind, M_bind. destruct (redis_run _ _) as [[keys|x] e1]; simpl; eauto.
Qed.

Lemma queue_answers (w : world E) : ∃ queue e',
  _queue_status settings w = (Ok queue, World (w_db w) (w_tx w) (w_dup w) e').
Proof.
  unfold _queue_status, on_env, try_except, mbind, M_bind. destruct (redis_run _ _) as [[n|x] e1]; simpl; [|eauto].
  destruct (redis_run _ _) as [[m|x] e2]; simpl; eauto.
Qed.

End reports.
