(* ===== verification/Maintenance.v ===== *)
(** * What an operator runs

    cli/create_admin.py, the first administrator, and tasks/maintenance.py, the purge of
    old audit events. *)
From Stdlib Require Import Lia.
From S2P Require Import Prelude Models Database AuditLog Operations Client Auth Accounts Listings Observability.

(** ** cli/create_admin.py *)

Section admin.
Context {E : Type} `{Runtime E} `{Passwords E}.

Definition create_admin (email display_name password : string) : DBM E () :=
  existing ← db_scalar (λ u : user, bool_decide (u_email u = email));
  raise_if (bool_decide (existing ≠ None)) ValueError;;
  password_hash ← hash_password password;
  id ← uuid4;
  db_add (User id email display_name SUPER_ADMIN password_hash true 0 None None None None 1);;
  or_conflict commit ValueError.

(** What [parser.error] prints before it ends the process, or what is printed at the end. *)
Definition main (email display_name password confirmation : string) : DBM E (string + string) :=
  email ← or_raise ValueError (normalize_email email);
  if str_len password <? 12 then mret (inl "password must contain at least 12 characters")
  else if bool_decide (password ≠ confirmation) then mret (inl "passwords do not match")
  else
    try_except
      (create_admin email (str_strip display_name) password;;
       mret (inr ("Created SUPER_ADMIN account for " +:+ email +:+ ".")))
      (λ x, match x with
            | ValueError => mret (inl "A user with this email already exists.")
            | x => raise x
            end).
End admin.

(** ** tasks/maintenance.py *)

Section purge.
Context {E : Type} `{Runtime E} `{CreatedAt}.
Context (audit_id : nat → N).

Definition expired (cutoff : Z) (row : N * audit_log) : bool := audit_created_at row.1 <? cutoff.

(** The trigger of the table lets the rows go, because the transaction sets
    [app.audit_retention]. *)
Definition _purge_expired_audit_logs (audit_retention_days : Z) : DBM E Z :=
  now ← datetime_now;
  let cutoff := now - seconds (audit_retention_days * 86400) in
  rows ← gets (λ w, audit_rows audit_id (w_tx w));
  modify (λ w, w <| w_tx ::= λ d, d <| db_audit_logs := map snd (filter (λ row, expired cutoff row = false) rows) |> |>);;
  commit;;
  mret (Z.of_nat (length (filter (λ row, expired cutoff row = true) rows))).
End purge.

(** ** What they leave *)

Section results.
Context {E : Type} `{Runtime E} `{Passwords E} `{CreatedAt}.
Implicit Types (d : db) (e : E).

Lemma purge_rows cutoff (rows : list (N * audit_log)) :
  sublist (map snd (filter (λ row, expired cutoff row = false) rows)) (map snd rows) ∧
  (length (filter (λ row, expired cutoff row = false) rows) +
   length (filter (λ row, expired cutoff row = true) rows) = length rows)%nat.
Proof.
  induction rows as [|row rows [IHs IHl]]; [done|]. rewrite !filter_cons. simpl.
  destruct (expired cutoff row); simpl; (split; [|lia]); by constructor.
Qed.

(** The command line creates one active super administrator of the address, or nothing;
    an address that any account has is refused. *)
Theorem administrator_created email name password confirmation d e r d' e' :
  exec (main email name password confirmation) d e = (r, d', e') →
  match r with
  | Ok (inr _) => 12 ≤ str_len password ∧ password = confirmation ∧
      ∃ normalized id hash, normalize_email email = Some normalized ∧
        (∀ i u, db_users d !! i = Some u → u_email u ≠ normalized) ∧ db_users d !! id = None ∧
        d' = d <| db_users ::= <[id := User id normalized (str_strip name) SUPER_ADMIN hash true 0 None None None None 1]> |>
  | _ => d' = d
  end.
Proof.
  intros Hrun. start_run Hrun. unfold main. apply wp_bind, wp_or_raise; [done|]. intros normalized Hn.
  destruct (Z.ltb_spec (str_len password) 12) as [|Hlen]; [by apply wp_ret|].
  destruct (decide (password = confirmation)) as [Hsame|Hsame];
    [rewrite bool_decide_eq_false_2 by auto|rewrite bool_decide_eq_true_2 by done; by apply wp_ret].
  apply wp_try, wp_bind. unfold create_admin. apply wp_bind, wp_db_scalar. intros existing Hex.
  apply wp_bind, wp_raise_if; [by intros _; apply wp_ret|]. intros Hnone%bool_decide_eq_false%dec_stable. rewrite Hnone in Hex.
  apply wp_bind, wp_from_env. intros hash e1 _. apply wp_bind, wp_from_env. intros id e2 _.
  apply wp_bind, wp_db_add. simpl. intros b Hb. apply wp_or_conflict, wp_commit; simpl.
  { intros _. by apply wp_ret. }
  intros Hdup _. apply wp_ret. subst b. split; [done|]. split; [done|]. exists normalized, id, hash. split_and!; try done.
  - intros i u Hu. pose proof (first_row_None _ _ Hex i u Hu) as Hne. by apply bool_decide_eq_false in Hne.
  - apply bool_decide_eq_false in Hdup. by apply eq_None_not_Some.
Qed.

(** The purge deletes the audit events that are older than the retention, in number what
    it answers, and touches nothing else. *)
Theorem purge_exact audit_id days d e r d' e' :
  integrity d = true → exec (_purge_expired_audit_logs audit_id days) d e = (r, d', e') →
  ∃ kept, d' = d <| db_audit_logs := kept |> ∧ sublist kept (db_audit_logs d) ∧
    r = Ok (Z.of_nat (length (db_audit_logs d)) - Z.of_nat (length kept)) ∧
    ∀ item, item ∈ kept ↔ ∃ i, db_audit_logs d !! i = Some item ∧
      (env_now e).1 - seconds (days * 86400) ≤ audit_created_at (audit_id i).
Proof.
  intros Hi Hrun. start_run Hrun. unfold _purge_expired_audit_logs. apply wp_bind, wp_from_env. simpl. intros now e1 Hnow.
  rewrite Hnow. apply wp_bind, wp_gets. simpl. apply wp_bind, wp_modify. simpl. set (cutoff := now - _).
  apply wp_bind, wp_commit; simpl; rewrite integrity_log; [by rewrite Hi|]. intros _ _. apply wp_ret.
  eexists. split; [reflexivity|]. destruct (purge_rows cutoff (audit_rows audit_id d)) as [Hsub Hlen].
  assert (map snd (audit_rows audit_id d) = db_audit_logs d) as Hrows.
  { unfold audit_rows. generalize audit_id as f. induction (db_audit_logs d) as [|item l IH]; intros f; [done|].
    rewrite imap_cons. simpl. f_equal. apply (IH (f ∘ S)). }
  rewrite Hrows in Hsub. split; [done|]. split.
  - rewrite length_map. f_equal. rewrite <-Hrows, length_map. lia.
  - intros item. rewrite list_elem_of_fmap. unfold audit_rows. setoid_rewrite list_elem_of_filter.
    setoid_rewrite elem_of_lookup_imap. unfold expired. setoid_rewrite Z.ltb_ge. split.
    + intros ([id x] & -> & Hage & i & y & [= -> ->] & Hi'). eauto.
    + intros (i & Hitem & Hage). exists (audit_id i, item). split; [done|]. eauto.
Qed.
End results.
