(* ===== verification/Http.v ===== *)
(** * A request and its answer

    core/middleware.py, core/errors.py and the dependencies of app/dependencies.py as
    main.py puts them together: the identifier of a request, the authenticated
    principal, and how an exception becomes an answer. *)
From S2P Require Import Prelude Models Database AuditLog IpAddr IpText Endpoints Client UuidText.
From S2P Require Import Operations Auth.
From Stdlib Require Import Lia.

(** ** The framework *)

(** The context variables of a request: [request_id_context], [source_ip_context] and
    [user_agent_context], which [add_audit_event] reads through [Runtime]. *)
Class ContextVars (E : Type) := {
  set_request_id_context : option string → E → E;
  set_source_ip_context : option string → E → E;
  set_user_agent_context : option string → E → E }.

(** The validation of a parameter by FastAPI: the errors of [min_length] and [max_length],
    of [ge] and of [le], and of [pattern] where the text does not match. *)
Class FieldValidation := {
  length_errors : list string → option Z → option Z → string → list validation_error;
  ge_errors : list string → Z → Z → list validation_error;
  le_errors : list string → Z → Z → list validation_error;
  pattern_errors : list string → bool → list validation_error }.

(** What the server reads from the connection. *)
Record http_scope := mkScope {
  sc_x_request_id : option string; sc_authorization : option string;
  sc_user_agent : option string; sc_client : option string }.

(** The [Request] an endpoint gets: [request.state.request_id], the header
    [Authorization] and [request.client.host]. *)
Record http_request := mkRequest {
  rq_request_id : string; rq_authorization : option string; rq_client : option string }.

(** ** Answers *)

(** core/errors.py. *)
Record ErrorDetail := mkErrorDetail {
  ed_code : string; ed_message : string; ed_details : list (string * json); ed_request_id : string }.

Inductive content (A : Type) :=
| Body (a : A)
| NoContent
| ErrorResponse (error : ErrorDetail).
Arguments Body {A} a.
Arguments NoContent {A}.
Arguments ErrorResponse {A} error.

Record response (A : Type) := mkResponse {
  rs_status : Z; rs_headers : list (string * string); rs_content : content A }.
Arguments mkResponse {A} _ _ _.
Arguments rs_status {A} _.
Arguments rs_headers {A} _.
Arguments rs_content {A} _.

Definition app_error_handler {A} (request : http_request) (status_code : Z) (code message : string)
    (details : list (string * json)) : response A :=
  mkResponse status_code []
    (ErrorResponse (mkErrorDetail code message details (rq_request_id request))).

Definition safe_error (error : validation_error) : json :=
  JObj [("location", JList (map JStr (ve_location error)));
        ("type", JStr (ve_type error)); ("message", JStr (ve_message error))].

Definition request_validation_error_handler {A} (request : http_request)
    (errors : list validation_error) : response A :=
  mkResponse 422 []
    (ErrorResponse (mkErrorDetail "VALIDATION_ERROR" "The request could not be validated."
       [("errors", JList (map safe_error errors))] (rq_request_id request))).

(** [f"/api/v1/jobs/{id}"] and the like. *)
Definition location_of (prefix : string) (id : N) : string * string :=
  ("Location", prefix +:+ str_uuid id).
Definition RETRY_AFTER : string * string := ("Retry-After", "2").
Definition NO_STORE : string * string := ("Cache-Control", "no-store").

(** ** core/middleware.py *)

(** [[A-Za-z0-9._:-]]. *)
Definition request_id_char (a : Ascii.ascii) : bool :=
  let n := code_of a in
  ((48 <=? n) && (n <=? 57) || (65 <=? n) && (n <=? 90) || (97 <=? n) && (n <=? 122))%nat ||
  bool_decide (n ∈ [46; 95; 58; 45]%nat).

(** [REQUEST_ID_PATTERN.fullmatch(supplied)]. *)
Definition REQUEST_ID_PATTERN (s : string) : bool :=
  str_all request_id_char s && (1 <=? String.length s)%nat && (String.length s <=? 128)%nat.

Section http.
Context {E : Type} `{Runtime E} `{ContextVars E} `{Jwt} `{FieldValidation}.
Context (auth : AuthSettings).
Implicit Types (request : http_request).

Definition new_request_id (scope : http_scope) : DBM E string :=
  let supplied := default "" (sc_x_request_id scope) in
  if REQUEST_ID_PATTERN supplied then mret supplied
  else id ← uuid4; mret (str_uuid id).

(** [RequestIdMiddleware.__call__] around what the application does with the request. *)
Definition RequestIdMiddleware {A} (scope : http_scope)
    (app : http_request → DBM E (response A)) : DBM E (response A) :=
  request_id ← new_request_id scope;
  request_id_before ← gets (λ w, env_request_id (w_env w));
  source_before ← gets (λ w, env_source_ip (w_env w));
  agent_before ← gets (λ w, env_user_agent (w_env w));
  modify (λ w, w <| w_env ::= λ e, set_user_agent_context (sc_user_agent scope)
    (set_source_ip_context (sc_client scope) (set_request_id_context (Some request_id) e)) |>);;
  answer ← try_finally (app (mkRequest request_id (sc_authorization scope) (sc_client scope)))
    (modify (λ w, w <| w_env ::= λ e, set_request_id_context request_id_before
      (set_source_ip_context source_before (set_user_agent_context agent_before e)) |>));
  mret (mkResponse (rs_status answer) (rs_headers answer ++ [("X-Request-ID", request_id)])
          (rs_content answer)).

(** ** main.py: the handlers of exceptions run inside the middleware *)

(** [app.add_exception_handler]: the other exceptions are not handled and reach the server,
    which answers [500]. *)
Definition exception_handlers {A} (endpoint : http_request → DBM E (response A)) request
  : DBM E (response A) :=
  try_except (endpoint request) (λ x,
    match x with
    | AppError status code message details =>
      mret (app_error_handler request status code message details)
    | RequestValidationError errors => mret (request_validation_error_handler request errors)
    | _ => raise x
    end).

Definition serve {A} (endpoint : http_request → DBM E (response A)) (scope : http_scope)
  : DBM E (response A) :=
  RequestIdMiddleware scope (exception_handlers endpoint).

(** ** Dependencies and parameters of an endpoint *)

(** A parameter [principal: PrincipalDependency]: it is resolved before the other
    parameters are validated. *)
Definition PrincipalDependency {A} request (handler : Principal → DBM E A) : DBM E A :=
  principal ← get_current_principal auth (rq_authorization request);
  handler principal.

Definition validated (errors : list validation_error) : DBM E () :=
  raise_if (negb (bool_decide (length errors = 0%nat))) (RequestValidationError errors).

(** [Header(alias="Idempotency-Key", min_length=8, max_length=255)]. *)
Definition IdempotencyKey (key : string) : list validation_error :=
  length_errors ["header"; "Idempotency-Key"] (Some 8) (Some 255) key.

(** [version: int = Query(ge=1)]. *)
Definition version_query (version : Z) : list validation_error :=
  ge_errors ["query"; "version"] 1 version.

(** [request.client.host if request.client is not None else "unknown"]. *)
Definition _source request : string := default "unknown" (rq_client request).

(** The decorator's [status_code], with the headers the endpoint sets. *)
Definition reply {A} (status : Z) (headers : A → list (string * string)) (method : DBM E A)
  : DBM E (response A) :=
  a ← method; mret (mkResponse status (headers a) (Body a)).

Definition ok {A} : DBM E A → DBM E (response A) := reply 200 (λ _, []).
Definition created {A} : DBM E A → DBM E (response A) := reply 201 (λ _, []).

(** [return Response(status_code=status.HTTP_204_NO_CONTENT)]. *)
Definition no_content (method : DBM E ()) : DBM E (response ()) :=
  method;; mret (mkResponse 204 [] NoContent).
End http.
