(* ===== verification/Console.v ===== *)
(** * Console sessions

    app/services/console.py, app/schemas/console.py, the websocket of app/api/console.py
    and [open_console_websocket] of app/proxmox/client.py: one-time grants in Redis that
    let a browser open the console of a machine it may use.  [_relay], which copies
    frames both ways until one side closes, and the sockets are parameters. *)
From S2P Require Import Prelude Models Database AuditLog Operations PveApi IpAddr Endpoints.
From S2P Require Import Client Clusters Accounts Customer UuidText Redis.

(** ** Libraries *)

(** [secrets.token_urlsafe(n)], and the hexadecimal SHA-256 digest of a string. *)
Class ConsoleSecrets (E : Type) := {
  env_token_urlsafe : Z → E → string * E;
  sha256_hex : string → string }.

(** What [websockets.connect] is called with. *)
Record websocket_request := mkWebsocketRequest {
  wr_uri : string; wr_authorization : string; wr_origin : string; wr_subprotocols : list string }.

(** The two sockets: Starlette's to the browser, that of the websockets library to the
    cluster, and [_relay] between them. *)
Class ConsoleSockets (E : Type) := {
  upstream : Type;
  ws_connect : ProxmoxClient → websocket_request → M E upstream;
  ws_send : upstream → string → M E ();
  ws_close : upstream → M E ();
  browser_accept : string → M E ();
  browser_close : Z → string → M E ();
  browser_relay : upstream → Z → M E () }.

(** ** app/proxmox/client.py: the websocket of the console *)

(** [urllib.parse.quote_plus(s)]. *)
Definition SPACE : Ascii.ascii := Ascii.ascii_of_nat 32.
Fixpoint quote_plus (s : string) : string :=
  match s with
  | EmptyString => ""
  | String a r => (if bool_decide (a = SPACE) then "+" else quote (String a "")) +:+ quote_plus r
  end.

(** [urlsplit(url).path]. *)
Definition url_path (url : string) : string :=
  let rest := (split_scheme (str_filter (λ a, negb (removed_byte a)) (lstrip_c0 url))).2 in
  let after_netloc :=
    match rest with
    | String a (String b r) =>
      if bool_decide (a = SLASH) && bool_decide (b = SLASH)
      then (str_span (λ a, bool_decide (code_of a ∈ [47; 63; 35]%nat)) r).2 else rest
    | _ => rest
    end in
  (str_span (λ a, bool_decide (code_of a ∈ [63; 35]%nat)) after_netloc).1.

Definition websocket_path (base_path : string) (proxy : ConsoleProxyTicket) : string :=
  base_path +:+ "/api2/json/nodes/" +:+ quote (cpt_node proxy) +:+ "/" +:+ cpt_kind proxy +:+ "/" +:+
  pretty (cpt_vmid proxy) +:+ "/vncwebsocket".

(** The call of [connect]; [validate] has refused a URL without a host, so [urlunsplit]
    writes both parts of the URI. *)
Definition console_request (self : ProxmoxClient) (base : split_result) (proxy : ConsoleProxyTicket)
  : websocket_request := {|
  wr_uri := (if bool_decide (us_scheme base = "https") then "wss" else "ws") +:+ "://" +:+
    us_netloc base +:+ websocket_path (str_rstrip_char SLASH (url_path (_api_base_url self))) proxy +:+
    "?port=" +:+ quote_plus (pretty (cpt_port proxy)) +:+ "&vncticket=" +:+ quote_plus (cpt_ticket proxy);
  wr_authorization := _authorization self;
  wr_origin := us_scheme base +:+ "://" +:+ us_netloc base;
  wr_subprotocols := ["binary"] |}.

Definition open_console_websocket {E} `{Resolver E} `{ConsoleSockets E} (self : ProxmoxClient)
    (proxy : ConsoleProxyTicket) : M E upstream :=
  validate (_endpoint_policy self) (_api_base_url self);;
  base ← or_raise ValueError (urlsplit (_api_base_url self));
  ws_connect self (console_request self base proxy).

(** ** Data *)

(** The settings it reads. *)
Record ConsoleSettings := mkConsoleSettings {
  console_session_ttl_seconds : Z; console_max_duration_seconds : Z;
  console_sessions_per_minute : Z; cors_origins : list string }.

Record ConsoleSessionResponse := mkConsoleSessionResponse {
  csr_session_id : N; csr_websocket_path : string; csr_protocol_token : string;
  csr_console_type : string; csr_rfb_password : option string; csr_expires_in : Z }.

Record ConsoleGrant := mkConsoleGrant {
  cg_session_id : N; cg_user_id : N; cg_session_epoch : Z; cg_role : UserRole; cg_workload_id : N;
  cg_pve_kind : string; cg_pve_user : option string; cg_pve_port : Z; cg_pve_ticket : string }.

Record ConsoleConnection := mkConsoleConnection {
  cx_workload : workload; cx_client : ProxmoxClient; cx_proxy : ConsoleProxyTicket }.

(** [UserRole(text)]. *)
Definition UserRole_of_value (text : string) : option UserRole :=
  List.find (λ r, bool_decide (UserRole_value r = text)) [SUPER_ADMIN; OPERATOR; CUSTOMER].

Definition _session_key (session_id : N) : string := "console:session:" +:+ str_uuid session_id.
Definition rate_key (user_id : N) : string := "console:rate:" +:+ str_uuid user_id.
Definition _console_slot_key (grant : ConsoleGrant) : string :=
  "console:live:" +:+ str_uuid (cg_user_id grant) +:+ ":" +:+ str_uuid (cg_workload_id grant).

(** The [mapping] of the grant that [create] stores. *)
Definition grant_fields (token_hash : string) (principal : Principal) (workload_id : N)
    (proxy : ConsoleProxyTicket) : list (string * string) := [
  ("token_hash", token_hash);
  ("user_id", str_uuid (p_user_id principal));
  ("session_epoch", pretty (p_session_epoch principal));
  ("role", UserRole_value (p_role principal));
  ("workload_id", str_uuid workload_id);
  ("pve_kind", cpt_kind proxy);
  ("pve_user", str_or (cpt_user proxy) "");
  ("pve_port", pretty (cpt_port proxy));
  ("pve_ticket", cpt_ticket proxy)].

(** The last of the pairs with the key, as in the [payload] dictionary. *)
Fixpoint payload_get (key : string) (values : list (string * string)) : option string :=
  match values with
  | [] => None
  | (k, v) :: rest =>
    match payload_get key rest with
    | Some w => Some w
    | None => if bool_decide (k = key) then Some v else None
    end
  end.

(** [ConsoleGrant(...)], [None] for the [KeyError] or [ValueError] of a field. *)
Definition grant_of (session_id : N) (values : list (string * string)) : option ConsoleGrant :=
  user_id ← payload_get "user_id" values ≫= uuid_of_text;
  session_epoch ← payload_get "session_epoch" values ≫= py_int;
  role ← payload_get "role" values ≫= UserRole_of_value;
  workload_id ← payload_get "workload_id" values ≫= uuid_of_text;
  pve_kind ← payload_get "pve_kind" values;
  pve_port ← payload_get "pve_port" values ≫= py_int;
  pve_ticket ← payload_get "pve_ticket" values;
  Some (mkConsoleGrant session_id user_id session_epoch role workload_id pve_kind
    (match payload_get "pve_user" values with
     | Some s => if str_nonempty s then Some s else None | None => None end)
    pve_port pve_ticket).

(** ** The Lua scripts *)

Section scripts.
Context {S : Type} `{RedisCommands S}.

Definition _CONSUME_SCRIPT (key hash : string) : M S (list (string * string)) :=
  expected ← redis_hget key "token_hash";
  match expected with
  | None => mret []
  | Some expected =>
    if bool_decide (expected ≠ hash) then mret []
    else
      values ← redis_hgetall key;
      redis_del key;;
      mret values
  end.

Definition _RELEASE_SCRIPT (key value : string) : M S Z :=
  stored ← redis_get key;
  if bool_decide (stored = Some value) then redis_del key else mret 0.
End scripts.

(** [try: m except RedisError: h]. *)
Definition catch_redis {S A} (m h : M S A) : M S A :=
  try_except m (λ x, match x with RedisError => h | _ => raise x end).

Definition SESSION_UNAVAILABLE : exn :=
  app_error 503 "CONSOLE_SESSION_UNAVAILABLE" "A console session could not be created.".
Definition CLUSTER_UNAVAILABLE : exn :=
  app_error 503 "CONSOLE_CLUSTER_UNAVAILABLE" "The Proxmox cluster is not available for console access.".
Definition CONSOLE_RATE_LIMITED : exn :=
  app_error 429 "CONSOLE_RATE_LIMITED" "Too many console sessions were requested.".

(** The condition of [authorized_console_workload] on a machine; there is no role but the
    three, so its last branch, which refuses others, is never taken. *)
Definition console_workload (principal : Principal) (workload_id : N) (d : db) (wl : workload) : bool :=
  bool_decide (wl_id wl = workload_id) && bool_decide (wl_kind wl ∈ ["QEMU"; "LXC"]) &&
  wl_is_present wl && negb (wl_is_template wl) &&
  match p_role principal with
  | CUSTOMER =>
    bool_decide (is_Some (wl_organization_id wl)) &&
    membership (p_user_id principal) (wl_organization_id wl) d &&
    active_organization (wl_organization_id wl) d
  | _ => true
  end.

(** The item of the header that carries the token. *)
Definition TOKEN_PREFIX : string := "pvemaster.console.".

Definition COMMA : Ascii.ascii := Ascii.ascii_of_nat 44.

Definition token_item (value : string) : option string :=
  if String.prefix TOKEN_PREFIX value && (str_len TOKEN_PREFIX <? str_len value)
  then Some (str_drop (String.length TOKEN_PREFIX) value) else None.

Definition protocol_token_from_header (header : option string) : option string :=
  match header with
  | None => None
  | Some header =>
    if str_nonempty header then head (omap token_item (map str_strip (str_split COMMA header))) else None
  end.

(** [try: return await m except AppError: return None]. *)
Definition attempt_app {S A} (m : M S A) : M S (option A) :=
  catch_app (Some <$> m) (λ _, mret None).

(** ** The service *)

Section console.
Context {E : Type} `{Runtime E} `{Resolver E} `{HttpTransport E} `{CredentialSecrets E}.
Context `{Redis E} `{ConsoleSecrets E}.
Context (settings : ConsoleSettings) (pve : PveSettings).
Implicit Types (self : service) (principal : Principal) (grant : ConsoleGrant) (wl : workload).

Definition authorized_console_workload principal (workload_id : N) : DBM E workload :=
  row ← gets (λ w, first_row (console_workload principal workload_id (w_tx w)) (w_tx w));
  or_raise
    (app_error 404 (if bool_decide (p_role principal = CUSTOMER) then "VM_NOT_FOUND" else "WORKLOAD_NOT_FOUND")
       "The workload was not found.") row.

(** [None] where the cluster is unknown or disabled or has no active credential, or its
    credential does not decrypt. *)
Definition build_console_client wl : DBM E (option ProxmoxClient) :=
  c ← db_scalar (λ c, bool_decide (cl_id c = wl_cluster_id wl) && cl_is_active c);
  credential ← db_scalar (active_credential_of (wl_cluster_id wl));
  match c, credential with
  | Some c, Some credential =>
    match decrypt (mkEncryptedCredential (cc_secret_ciphertext credential) (cc_secret_nonce credential)
                     (cc_key_version credential)) (cl_id c) (cc_id credential) with
    | None => mret None
    | Some token_secret =>
      client ← on_env (ProxmoxClient_init (pve_allowed_hosts pve) (pve_allowed_networks pve)
        (cl_api_base_url c) (cc_token_identifier credential) token_secret (cl_ca_bundle_pem c));
      mret (Some client)
    end
  | _, _ => mret None
  end.

Definition rate_count (user_id : N) : M E Z :=
  catch_redis
    (count ← redis_run (redis_incr (rate_key user_id));
     when (bool_decide (count = 1)) (redis_run (redis_expire (rate_key user_id) 60);; mret tt);;
     mret count)
    (raise SESSION_UNAVAILABLE).

Definition _check_rate_limit self : DBM E () :=
  count ← on_env (rate_count (p_user_id (self_principal self)));
  raise_if (console_sessions_per_minute settings <? count) CONSOLE_RATE_LIMITED.

(** Store the grant, with its time to live. *)
Definition store_grant (session_id : N) (fields : list (string * string)) : M E () :=
  catch_redis
    (_ ← redis_run (redis_hset (_session_key session_id) fields);
     _ ← redis_run (redis_expire (_session_key session_id) (console_session_ttl_seconds settings));
     mret tt)
    (raise SESSION_UNAVAILABLE).

Definition console_audit self wl : audit_args :=
  (self_audit self "CONSOLE_SESSION_CREATED" "SUCCEEDED")
    <| a_organization_id := wl_organization_id wl |>
    <| a_workload_id := Some (wl_id wl) |>
    <| a_target_type := Some "workload" |>
    <| a_target_id := Some (JUuid (wl_id wl)) |>
    <| a_details := Some [("console_kind", JStr (wl_kind wl))] |>.

Definition session_response (session_id : N) (protocol_token : string) wl (proxy : ConsoleProxyTicket)
  : ConsoleSessionResponse := {|
  csr_session_id := session_id;
  csr_websocket_path := "/api/v1/console/ws/" +:+ str_uuid session_id;
  csr_protocol_token := protocol_token;
  csr_console_type := if bool_decide (wl_kind wl = "QEMU") then "NOVNC" else "TERMINAL";
  csr_rfb_password := if bool_decide (wl_kind wl = "QEMU") then Some (cpt_ticket proxy) else None;
  csr_expires_in := console_session_ttl_seconds settings |}.

Definition create self (workload_id : N) : DBM E ConsoleSessionResponse :=
  wl ← authorized_console_workload (self_principal self) workload_id;
  raise_if (bool_decide (str_upper (wl_power_state wl) ≠ "RUNNING"))
    (app_error 409 "CONSOLE_REQUIRES_RUNNING_GUEST"
       "The guest must be running before opening its console.");;
  _check_rate_limit self;;
  client ← build_console_client wl;
  client ← or_raise CLUSTER_UNAVAILABLE client;
  proxy ← on_env (create_console_proxy client (wl_kind wl) (wl_node wl) (wl_vmid wl));
  session_id ← uuid4;
  protocol_token ← from_env (env_token_urlsafe 32);
  on_env (store_grant session_id
    (grant_fields (sha256_hex protocol_token) (self_principal self) (wl_id wl) proxy));;
  add_audit_event (console_audit self wl);;
  commit;;
  mret (session_response session_id protocol_token wl proxy).

Definition consume_console_grant (session_id : N) (protocol_token : string) : M E (option ConsoleGrant) :=
  catch_redis
    (values ← redis_run (_CONSUME_SCRIPT (_session_key session_id) (sha256_hex protocol_token));
     mret (match values with [] => None | _ => grant_of session_id values end))
    (mret None).

Definition acquire_console_slot grant (ttl : Z) : M E bool :=
  catch_redis
    (redis_run (redis_set_nx (_console_slot_key grant) (str_uuid (cg_session_id grant)) ttl))
    (mret false).

Definition release_console_slot grant : M E () :=
  catch_redis
    (_ ← redis_run (_RELEASE_SCRIPT (_console_slot_key grant) (str_uuid (cg_session_id grant)));
     mret tt)
    (mret tt).

Definition proxy_of grant wl : ConsoleProxyTicket :=
  mkConsoleProxyTicket (cg_pve_kind grant) (wl_node wl) (wl_vmid wl) (cg_pve_port grant)
    (cg_pve_ticket grant) (cg_pve_user grant).

Definition load_console_connection grant : DBM E (option ConsoleConnection) :=
  row ← db_get user (cg_user_id grant);
  match row with
  | None => mret None
  | Some u =>
    if negb (u_is_active u) || bool_decide (u_session_epoch u ≠ cg_session_epoch grant) ||
       bool_decide (u_role u ≠ cg_role grant)
    then mret None
    else
      let principal := mkPrincipal (u_id u) (u_email u) (u_role u) (u_session_epoch u) in
      found ← attempt_app (authorized_console_workload principal (cg_workload_id grant));
      match found with
      | None => mret None
      | Some wl =>
        if bool_decide (str_upper (wl_power_state wl) ≠ "RUNNING") then mret None
        else if bool_decide (cg_pve_kind grant ≠ if bool_decide (wl_kind wl = "QEMU") then "qemu" else "lxc")
        then mret None
        else if bool_decide (cg_pve_kind grant = "lxc") && bool_decide (cg_pve_user grant = None)
        then mret None
        else
          client ← build_console_client wl;
          mret (client ← client; Some (mkConsoleConnection wl client (proxy_of grant wl)))
      end
  end.
End console.

(** ** app/api/console.py: the websocket *)

(** [None] for [ValueError]. *)
Definition terminal_proxy_auth_frame (proxy : ConsoleProxyTicket) : option (option string) :=
  if bool_decide (cpt_kind proxy ≠ "lxc") then Some None
  else user ← cpt_user proxy;
       Some (Some (user +:+ ":" +:+ cpt_ticket proxy +:+ String (Ascii.ascii_of_nat 10) "")).

(** How a computation ended, as a value. *)
Definition reify {S A} (m : M S A) : M S (outcome A) := λ s, (Ok (m s).1, (m s).2).

(** [with suppress(Exception): m], and [with suppress(RuntimeError): m]. *)
Definition suppress {S} (m : M S ()) : M S () := λ s, (Ok tt, (m s).2).
Definition suppress_runtime {S} (m : M S ()) : M S () :=
  try_except m (λ x, match x with RuntimeError => mret tt | _ => raise x end).

Section websocket.
Context {E : Type} `{Runtime E} `{Resolver E} `{HttpTransport E} `{CredentialSecrets E}.
Context `{Redis E} `{ConsoleSecrets E} `{ConsoleSockets E}.
Context (settings : ConsoleSettings) (pve : PveSettings).

(** The [try] block past the look-up: the locals [accepted] and [upstream] when it ends,
    and how it ends. *)
Definition serve_console (connection : ConsoleConnection) : M E (bool * option upstream * outcome ()) :=
  accepted ← reify (browser_accept "binary");
  match accepted with
  | Raise x => mret (false, None, Raise x)
  | Ok _ =>
    opened ← reify (open_console_websocket (cx_client connection) (cx_proxy connection));
    match opened with
    | Raise x => mret (true, None, Raise x)
    | Ok up =>
      ended ← reify (
        terminal_auth ← or_raise ValueError (terminal_proxy_auth_frame (cx_proxy connection));
        match terminal_auth with Some frame => ws_send up frame | None => mret tt end;;
        browser_relay up (console_max_duration_seconds settings));
      mret (true, Some up, ended)
    end
  end.

Definition console_session (grant : ConsoleGrant) : DBM E (bool * option upstream * outcome ()) :=
  connection ← reify (load_console_connection pve grant);
  match connection with
  | Raise x => mret (false, None, Raise x)
  | Ok None =>
    closed ← on_env (reify (browser_close 4404 ""));
    mret (false, None, closed)
  | Ok (Some connection) => on_env (serve_console connection)
  end.

(** The [except] clauses. *)
Definition console_ended (accepted : bool) (ended : outcome ()) : M E () :=
  match ended with
  | Ok _ | Raise ConnectionClosed => mret tt
  | Raise TimeoutError =>
    when accepted (suppress_runtime (browser_close 1000 "Console session expired"))
  | Raise _ => when accepted (suppress_runtime (browser_close 1011 "Console connection failed"))
  end.

Definition serve_grant (grant : ConsoleGrant) : DBM E () :=
  '(accepted, up, ended) ← console_session grant;
  on_env (try_finally (console_ended accepted ended)
    (match up with Some u => suppress (ws_close u) | None => mret tt end;;
     release_console_slot grant)).

(** The headers [Origin] and [Sec-WebSocket-Protocol] of the handshake. *)
Definition console_websocket (session_id : N) (origin protocols : option string) : DBM E () :=
  let allowed_origins := map (str_rstrip_char SLASH) (cors_origins settings) in
  let requested_protocols := map str_strip (str_split COMMA (default "" protocols)) in
  match protocol_token_from_header protocols with
  | Some protocol_token =>
    if bool_decide (str_rstrip_char SLASH (default "" origin) ∉ allowed_origins) ||
       bool_decide ("binary" ∉ requested_protocols)
    then on_env (browser_close 4403 "")
    else
      grant ← on_env (consume_console_grant session_id protocol_token);
      match grant with
      | None => on_env (browser_close 4401 "")
      | Some grant =>
        acquired ← on_env (acquire_console_slot grant (console_max_duration_seconds settings));
        if negb acquired then on_env (browser_close 4429 "") else serve_grant grant
      end
  | None => on_env (browser_close 4403 "")
  end.
End websocket.
