(* ===== verification/Overview.v ===== *)
(** * The resources of the clusters

    resource_overview and node_metrics of services/clusters.py: the figures that every
    cluster reports, fetched concurrently, and the time series of a node.  Floating-point
    numbers and the event loop are parameters. *)
From stdpp Require Import sorting.
From S2P Require Import Prelude Models Database AuditLog Operations PveApi IpAddr Endpoints Client.
From S2P Require Import Clusters Provisioning Console Observability.

(** ** Floating-point numbers *)

Class Floats := {
  float : Type;
  (** [float(z)], [None] for [OverflowError] *)
  float_of_integer : Z → option float;
  (** [float(text)], [None] for [ValueError] *)
  float_of_text : string → option float;
  isfinite : float → bool;
  (** [max(0.0, x)] *)
  max_zero : float → float;
  (** [int(x)] of a finite number *)
  int_of_float : float → Z;
  at_least_zero : float → bool;
  (** the column [cpu] of a [NodeResponse] *)
  node_cpu : json_object → option float }.

Class FloatLaws `{Floats} : Prop := {
  max_zero_positive x : at_least_zero (max_zero x) = true;
  int_positive x : isfinite x = true → at_least_zero x = true → 0 ≤ int_of_float x;
  max_zero_finite x : isfinite x = true → isfinite (max_zero x) = true }.

(** ** Coroutines *)

(** [asyncio.gather] runs its coroutines side by side; they take turns at their calls.  The
    model runs one after the other, in the order in which the event loop completes them. *)
Class EventLoop (E : Type) := { completion_order : nat → E → list nat * E }.

Class EventLoopLaws (E : Type) `{EventLoop E} : Prop :=
  completion_order_permutation n e : (completion_order n e).1 ≡ₚ seq 0 n.

Section gather.
Context {E A : Type} `{EventLoop E}.
Implicit Types (tasks : list (M E A)).

(** What became of the tasks, by their position, run in this order. *)
Fixpoint run_in_order tasks (order : list nat) (e : E) : gmap nat (outcome A) * E :=
  match order with
  | [] => (∅, e)
  | i :: order =>
    match tasks !! i with
    | Some task =>
      let '(r, e) := task e in
      let '(results, e) := run_in_order tasks order e in
      (<[i := r]> results, e)
    | None => run_in_order tasks order e
    end
  end.

(** [gather] with [return_exceptions=True]. *)
Definition gather_settled tasks : M E (list (outcome A)) := λ e,
  let '(order, e) := completion_order (length tasks) e in
  let '(results, e) := run_in_order tasks order e in
  (Ok (omap (λ i, results !! i) (seq 0 (length tasks))), e).

Definition returned (r : outcome A) : option A := match r with Ok a => Some a | Raise _ => None end.
Definition raised (r : outcome A) : option exn := match r with Raise x => Some x | Ok _ => None end.

(** [gather]: the exception that came first is raised. *)
Definition gather tasks : M E (list A) := λ e,
  let '(order, e) := completion_order (length tasks) e in
  let '(results, e) := run_in_order tasks order e in
  match head (omap (λ i, results !! i ≫= raised) order) with
  | Some x => (Raise x, e)
  | None => (Ok (omap (λ i, results !! i ≫= returned) (seq 0 (length tasks))), e)
  end.
End gather.

(** ** app/schemas/cluster.py *)

Section overview.
Context `{Floats}.

Record NodeResourceOverview := mkNodeResourceOverview {
  nro_node : string; nro_status : option string; nro_cpu : option float; nro_maxcpu : option Z;
  nro_memory_used_bytes : option Z; nro_memory_total_bytes : option Z;
  nro_disk_used_bytes : option Z; nro_disk_total_bytes : option Z;
  nro_load_average : list float; nro_uptime_seconds : option Z }.

Record ClusterResourceOverview := mkClusterResourceOverview {
  cro_cluster_id : N; cro_name : string; cro_connected : bool; cro_observed_at : Z;
  cro_error_code : option string; cro_node_count : Z; cro_guest_count : Z;
  cro_running_guest_count : Z; cro_qemu_count : Z; cro_lxc_count : Z; cro_storage_count : Z;
  cro_storage_used_bytes : Z; cro_storage_total_bytes : Z; cro_vm_storage_count : Z;
  cro_vm_storage_used_bytes : Z; cro_vm_storage_total_bytes : Z;
  cro_nodes : list NodeResourceOverview }.

Inductive NodeMetricRange := RANGE_HOUR | RANGE_SIX_HOURS | RANGE_DAY | RANGE_WEEK.

Record NodeMetricPoint := mkNodeMetricPoint {
  nmp_time : Z; nmp_cpu_usage : option float; nmp_server_load : option float;
  nmp_memory_used_bytes : option Z; nmp_memory_total_bytes : option Z;
  nmp_network_receive_bps : option float; nmp_network_transmit_bps : option float;
  nmp_cpu_pressure_some : option float; nmp_io_pressure_some : option float;
  nmp_io_pressure_full : option float; nmp_memory_pressure_some : option float;
  nmp_memory_pressure_full : option float }.

Record NodeMetricSeriesResponse := mkNodeMetricSeriesResponse {
  nms_cluster_id : N; nms_node : string; nms_range : NodeMetricRange; nms_observed_at : Z;
  nms_items : list NodeMetricPoint }.

(** [Field(ge=0)] of an optional integer. *)
Definition ge_zero (z : option Z) : bool := match z with Some z => 0 <=? z | None => true end.

(** What pydantic accepts; it raises [ValidationError], a [ValueError], for other values. *)
Definition node_overview_valid (n : NodeResourceOverview) : bool :=
  match nro_cpu n with Some x => at_least_zero x | None => true end &&
  forallb ge_zero [nro_maxcpu n; nro_memory_used_bytes n; nro_memory_total_bytes n;
                   nro_disk_used_bytes n; nro_disk_total_bytes n; nro_uptime_seconds n].

Definition cluster_overview_valid (o : ClusterResourceOverview) : bool :=
  forallb (Z.leb 0) [cro_storage_used_bytes o; cro_storage_total_bytes o;
                     cro_vm_storage_used_bytes o; cro_vm_storage_total_bytes o].

(** ** Figures *)

Definition _stores_guest_disks (content : option string) : bool :=
  match content with
  | Some s => str_nonempty s &&
      existsb (λ item, bool_decide (str_lower (str_strip item) ∈ ["images"; "rootdir"])) (str_split COMMA s)
  | None => false
  end.

(** The key under which a storage counts once. *)
Definition storage_key (storage : StorageResponse) : string * option string :=
  (sr_storage storage, if default 0 (sr_shared storage) =? 0 then sr_node storage else None).

Definition keep_storage (allowed_storage_ids : option (list string))
    (unique_storages : gmap (string * option string) StorageResponse) (storage : StorageResponse)
  : gmap (string * option string) StorageResponse :=
  match allowed_storage_ids with
  | Some ids => if decide (sr_storage storage ∈ ids)
                then <[storage_key storage := storage]> unique_storages else unique_storages
  | None => <[storage_key storage := storage]> unique_storages
  end.

Definition unique_storages (storages : list StorageResponse) (allowed_storage_ids : option (list string))
  : list StorageResponse :=
  (map_to_list (foldl (keep_storage allowed_storage_ids) ∅ storages)).*2.

Definition _storage_capacity (storages : list StorageResponse) (allowed_storage_ids : option (list string))
  : Z * Z * Z :=
  let items := unique_storages storages allowed_storage_ids in
  (Z.of_nat (length items), foldr Z.add 0 (map (λ s, default 0 (sr_used s)) items),
   foldr Z.add 0 (map (λ s, default 0 (sr_total s)) items)).

(** [OverflowError] is not among the exceptions that the source catches. *)
Definition _number {S} (value : option json) : M S (option float) :=
  parsed ← match value with
           | Some (JInt z) => x ← or_raise OverflowError (float_of_integer z); mret (Some x)
           | Some (JStr s) => mret (float_of_text s)
           | _ => mret None
           end;
  mret (x ← parsed; if isfinite x then Some (max_zero x) else None).

Definition _integer {S} (value : option json) (fallback : option Z) : M S (option Z) :=
  parsed ← _number value;
  mret (match parsed with Some x => Some (int_of_float x) | None => fallback end).

(** [[value for item in items if (value := f(item)) is not None]]. *)
Fixpoint map_some {S A B} (f : A → M S (option B)) (l : list A) : M S (list B) :=
  match l with
  | [] => mret []
  | a :: l =>
    b ← f a; rest ← map_some f l;
    mret (match b with Some b => b :: rest | None => rest end)
  end.

(** [value if isinstance(value, dict) else {}]. *)
Definition dict_or_empty (value : option json) : json_object :=
  match value with Some (JObj fields) => fields | _ => [] end.

Definition _node_resource_overview {S} (node : NodeResponse) (node_cpu : option float)
    (status : json_object) : M S NodeResourceOverview :=
  let memory := dict_or_empty (obj_get "memory" status) in
  let rootfs := dict_or_empty (obj_get "rootfs" status) in
  cpu ← _number (obj_get "cpu" status);
  parsed_load ← match obj_get "loadavg" status with
                | Some (JList load_average) => map_some (λ item, _number (Some item)) (take 3 load_average)
                | _ => mret []
                end;
  memory_used ← _integer (obj_get "used" memory) (nr_mem node);
  memory_total ← _integer (obj_get "total" memory) (nr_maxmem node);
  disk_used ← _integer (obj_get "used" rootfs) (nr_disk node);
  disk_total ← _integer (obj_get "total" rootfs) (nr_maxdisk node);
  uptime ← _integer (obj_get "uptime" status) (nr_uptime node);
  let overview := mkNodeResourceOverview (nr_node node) (nr_status node)
    (match cpu with Some x => Some x | None => node_cpu end) (nr_maxcpu node)
    memory_used memory_total disk_used disk_total parsed_load uptime in
  raise_if (negb (node_overview_valid overview)) ValueError;;
  mret overview.

(** [item.get(key, item.get(alias))]. *)
Definition get_or (key alias : string) (item : json_object) : option json :=
  match obj_get key item with Some value => Some value | None => obj_get alias item end.

Definition _node_metric_point {S} (item : json_object) : M S (option NodeMetricPoint) :=
  timestamp ← _integer (obj_get "time" item) None;
  match timestamp with
  | None => mret None
  | Some time =>
    if time <=? 0 then mret None else
    cpu ← _number (obj_get "cpu" item);
    load ← _number (obj_get "loadavg" item);
    memory_used ← _integer (get_or "memused" "mem" item) None;
    memory_total ← _integer (get_or "memtotal" "maxmem" item) None;
    netin ← _number (obj_get "netin" item);
    netout ← _number (obj_get "netout" item);
    cpusome ← _number (obj_get "pressurecpusome" item);
    iosome ← _number (obj_get "pressureiosome" item);
    iofull ← _number (obj_get "pressureiofull" item);
    memorysome ← _number (obj_get "pressurememorysome" item);
    memoryfull ← _number (obj_get "pressurememoryfull" item);
    mret (Some (mkNodeMetricPoint time cpu load memory_used memory_total netin netout cpusome
                  iosome iofull memorysome memoryfull))
  end.

Definition _failed_resource_overview (cluster_id : N) (name : string) (observed_at : Z)
    (error_code : string) : ClusterResourceOverview :=
  mkClusterResourceOverview cluster_id name false observed_at (Some error_code)
    0 0 0 0 0 0 0 0 0 0 0 [].

Definition count_guests (p : GuestResponse → bool) (guests : list GuestResponse) : Z :=
  Z.of_nat (length (filter (λ g, p g = true) guests)).

(** ** The service *)

Context {E : Type} `{Runtime E} `{Resolver E} `{HttpTransport E} `{CredentialSecrets E}.
Context `{Schemas} `{EventLoop E}.
Implicit Types (self : ClusterService).

(** [_validate_items] inside a coroutine. *)
Definition validated_items {T} (model_validate : json_object → option T) (items : list json_object)
  : M E (list T) :=
  or_raise invalid_item (mapM model_validate items).

Definition parse_node_cpu (item : json_object) : option (NodeResponse * option float) :=
  node ← parse_node item; Some (node, node_cpu item).

(** A status that could not be read is an empty one. *)
Definition status_or_empty (r : outcome json_object) : json_object :=
  match r with Ok status => status | Raise _ => [] end.

Fixpoint node_overviews (nodes : list (NodeResponse * option float)) (statuses : list (outcome json_object))
  : M E (list NodeResourceOverview) :=
  match nodes, statuses with
  | node :: nodes, status :: statuses =>
    overview ← _node_resource_overview node.1 node.2 (status_or_empty status);
    rest ← node_overviews nodes statuses;
    mret (overview :: rest)
  | [], [] => mret []
  | _, _ => raise ValueError
  end.

(** [datetime.now(UTC)] inside a coroutine. *)
Definition now_of_loop : M E Z := λ e, (Ok (env_now e).1, (env_now e).2).

Definition overview_of (cluster_id : N) (name : string) (observed_at : Z) (guests : list GuestResponse)
    (storages storage_configs : list StorageResponse) (nodes : list NodeResourceOverview)
  : ClusterResourceOverview :=
  let vm_storage_ids := map sr_storage (filter (λ s, _stores_guest_disks (sr_content s) = true) storage_configs) in
  let '(storage_count, storage_used, storage_total) := _storage_capacity storages None in
  let '(vm_storage_count, vm_storage_used, vm_storage_total) :=
    _storage_capacity storages (Some vm_storage_ids) in
  mkClusterResourceOverview cluster_id name true observed_at None (Z.of_nat (length nodes))
    (Z.of_nat (length guests))
    (count_guests (λ g, bool_decide (str_lower (default "" (gr_status g)) = "running")) guests)
    (count_guests (λ g, bool_decide (str_lower (gr_type g) = "qemu")) guests)
    (count_guests (λ g, bool_decide (str_lower (gr_type g) = "lxc")) guests)
    storage_count storage_used storage_total vm_storage_count vm_storage_used vm_storage_total nodes.

Definition _fetch_resource_overview self (cluster_id : N) (name : string) (connection : ClusterConnection)
  : M E ClusterResourceOverview :=
  client ← _client self connection;
  raw ← gather [get_nodes client; get_guests client; get_storages client;
                get_storage_configurations client];
  let raw i := default [] (raw !! i) in
  nodes ← validated_items parse_node_cpu (raw 0%nat);
  guests ← validated_items parse_guest (raw 1%nat);
  storages ← validated_items (parse_storage ∘ normalize_cluster_resource_capacity) (raw 2%nat);
  storage_configs ← validated_items (parse_storage ∘ normalize_cluster_resource_capacity) (raw 3%nat);
  node_statuses ← gather_settled (map (λ n, get_node_status client (nr_node n.1)) nodes);
  node_overviews ← node_overviews nodes node_statuses;
  observed_at ← now_of_loop;
  let overview := overview_of cluster_id name observed_at guests storages storage_configs node_overviews in
  raise_if (negb (cluster_overview_valid overview)) ValueError;;
  mret overview.

(** The connection of a cluster, or the code of why it has none. *)
Definition cluster_snapshot (c : cluster) : DBM E (string + ClusterConnection) :=
  catch_app
    (credential ← _active_credential c;
     token_secret ← _decrypt (cl_id c) credential;
     mret (inr (mkClusterConnection (cl_id c) (cc_id credential) (cl_api_base_url c) (cl_ca_bundle_pem c)
                  (cc_token_identifier credential) token_secret)))
    (λ exc, mret (inl (pe_code exc))).

(** [overview_by_id] with the result of one fetch. *)
Definition store_fetched (observed_at : Z) (overview_by_id : gmap N ClusterResourceOverview)
    (row : cluster * ClusterConnection * outcome ClusterResourceOverview)
  : DBM E (gmap N ClusterResourceOverview) :=
  let '(c, _, item) := row in
  match item with
  | Ok overview => mret (<[cl_id c := overview]> overview_by_id)
  | Raise (AppError _ code _ _) =>
    mret (<[cl_id c := _failed_resource_overview (cl_id c) (cl_name c) observed_at code]> overview_by_id)
  | Raise x => raise x
  end.

Fixpoint store_all (observed_at : Z) (overview_by_id : gmap N ClusterResourceOverview)
    (rows : list (cluster * ClusterConnection * outcome ClusterResourceOverview))
  : DBM E (gmap N ClusterResourceOverview) :=
  match rows with
  | [] => mret overview_by_id
  | row :: rows =>
    overview_by_id ← store_fetched observed_at overview_by_id row;
    store_all observed_at overview_by_id rows
  end.

(** The snapshots in order, and the overviews of the clusters that have none. *)
Definition connections (rows : list (cluster * (string + ClusterConnection))) : list (cluster * ClusterConnection) :=
  omap (λ row, match row.2 with inr connection => Some (row.1, connection) | inl _ => None end) rows.

Definition unconnected (observed_at : Z) (rows : list (cluster * (string + ClusterConnection)))
  : gmap N ClusterResourceOverview :=
  foldl (λ m row, match row.2 with
    | inl code => <[cl_id row.1 := _failed_resource_overview (cl_id row.1) (cl_name row.1) observed_at code]> m
    | inr _ => m
    end) ∅ rows.

(** [None if item.connected else item.error_code]. *)
Definition connection_code (item : ClusterResourceOverview) : option string :=
  if cro_connected item then None else cro_error_code item.

Definition record_overview (overview_by_id : gmap N ClusterResourceOverview) (c : cluster) : DBM E () :=
  item ← or_raise KeyError (overview_by_id !! cl_id c);
  _record_connection_result (cl_id c) (connection_code item).

Definition resource_overview self : DBM E (list ClusterResourceOverview) :=
  rows ← db_select cl_is_active;
  let clusters := merge_sort cluster_name_le rows in
  observed_at ← datetime_now;
  snapshots ← map_each (λ c, snapshot ← cluster_snapshot c; mret (c, snapshot)) clusters;
  rollback;;
  fetched ← on_env (gather_settled
    (map (λ row, _fetch_resource_overview self (cl_id row.1) (cl_name row.1) row.2) (connections snapshots)));
  overview_by_id ← store_all observed_at (unconnected observed_at snapshots)
                     (zip (connections snapshots) fetched);
  map_each (record_overview overview_by_id) clusters;;
  map_each (λ c, or_raise KeyError (overview_by_id !! cl_id c)) clusters.

(** *** The time series of a node *)

Definition timeframe_of (metric_range : NodeMetricRange) : string * Z :=
  match metric_range with
  | RANGE_HOUR => ("hour", seconds 3600)
  | RANGE_SIX_HOURS => ("day", seconds (6 * 3600))
  | RANGE_DAY => ("day", seconds 86400)
  | RANGE_WEEK => ("week", seconds (7 * 86400))
  end.

Definition earlier_point (a b : NodeMetricPoint) : Prop := nmp_time a ≤ nmp_time b.
#[export] Instance earlier_point_dec : RelDecision earlier_point.
Proof. intros a b. unfold earlier_point. apply _. Defined.

Definition node_metrics self (cluster_id : N) (node : string) (metric_range : NodeMetricRange)
  : DBM E NodeMetricSeriesResponse :=
  let '(timeframe, duration) := timeframe_of metric_range in
  connection ← _connection_snapshot cluster_id;
  raw ← with_client self connection (λ client, get_node_rrd_data client node timeframe);
  now ← datetime_now;
  let cutoff := Z.quot (now - duration) 1000000 in
  points ← map_some _node_metric_point raw;
  observed_at ← datetime_now;
  mret (mkNodeMetricSeriesResponse cluster_id node metric_range observed_at
          (merge_sort earlier_point (filter (λ p, cutoff ≤ nmp_time p) points))).
End overview.
