(* ===== verification/OverviewProps.v ===== *)
(** * The resources of the clusters: properties

    The overview has one entry for each active cluster, whatever the others answer, and
    the database keeps what it says of each connection; a shared storage counts once; the
    time series of a node is sorted and inside its window. *)
From Stdlib Require Import Lia.
From stdpp Require Import sorting.
From S2P Require Import Prelude Models Database AuditLog Operations PveApi IpAddr Endpoints Client.
From S2P Require Import Clusters ClusterInv ClusterProps Provisioning Console Observability Overview.

(** ** Coroutines *)

Section gather.
Context {E A : Type} `{EventLoopLaws E}.
Implicit Types (tasks : list (M E A)) (order : list nat) (e : E).

(** A result is that of the task at its place. *)
Definition result_of (task : M E A) (r : outcome A) : Prop := ∃ e1 e2, task e1 = (r, e2).

Lemma run_in_order_spec tasks order e :
  (∀ i r, (run_in_order tasks order e).1 !! i = Some r → ∃ task, tasks !! i = Some task ∧ result_of task r) ∧
  ∀ i, i ∈ order → is_Some (tasks !! i) → is_Some ((run_in_order tasks order e).1 !! i).
Proof.
  revert e. induction order as [|j order IH]; intros e; simpl.
  { split; [by intros|]. by intros i ?%not_elem_of_nil. }
  destruct (tasks !! j) as [task|] eqn:Hj.
  - destruct (task e) as [r e1] eqn:Hr. destruct (IH e1) as [Hres Hdom].
    destruct (run_in_order tasks order e1) as [results e2]. simpl in *. split.
    + intros i r' [[<- <-]|[_ Hi]]%lookup_insert_Some; [|by apply Hres]. exists task. split; [done|]. by exists e, e1.
    + intros i Hi Hs. destruct (decide (j = i)) as [<-|Hne]; [rewrite lookup_insert_eq; eauto|].
      rewrite lookup_insert_ne by done. apply Hdom; [|done]. by apply elem_of_cons in Hi as [->|Hi].
  - destruct (IH e) as [Hres Hdom]. split; [done|]. intros i [->|Hi]%elem_of_cons Hs; [|by apply Hdom].
    destruct Hs as [x Hx]. by pose proof (eq_trans (eq_sym Hj) Hx).
Qed.

Lemma omap_seq_Forall2 {B} (P : M E A → B → Prop) (f : nat → option B) tasks k :
  (∀ i task, tasks !! i = Some task → ∃ b, f (k + i)%nat = Some b ∧ P task b) →
  Forall2 P tasks (omap f (seq k (length tasks))).
Proof.
  revert k. induction tasks as [|task tasks IH]; intros k Hf; simpl; [done|].
  destruct (Hf 0%nat task eq_refl) as (b & Hb & HP). rewrite Nat.add_0_r in Hb. rewrite Hb.
  constructor; [done|]. apply IH. intros i task' Hi. destruct (Hf (S i) task' Hi) as (b' & Hb' & HP').
  exists b'. split; [|done]. rewrite <-Hb'. f_equal. lia.
Qed.

(** [gather] with exceptions as results always returns, a result for each task. *)
Lemma gather_settled_spec tasks e :
  ∃ results e', gather_settled tasks e = (Ok results, e') ∧ Forall2 result_of tasks results.
Proof.
  unfold gather_settled. pose proof (completion_order_permutation (length tasks) e) as Hp.
  destruct (completion_order (length tasks) e) as [order e1]. simpl in Hp.
  destruct (run_in_order_spec tasks order e1) as [Hres Hdom].
  destruct (run_in_order tasks order e1) as [results e2]. simpl in *.
  do 2 eexists. split; [reflexivity|]. apply omap_seq_Forall2. intros i task Hi. simpl.
  destruct (Hdom i) as [r Hr]; [|by rewrite Hi|].
  { rewrite Hp. apply elem_of_seq. apply lookup_lt_Some in Hi. lia. }
  exists r. split; [done|]. destruct (Hres i r Hr) as (task' & Ht & ?). by simplify_eq.
Qed.
End gather.

(** ** Storages *)

Section figures.
Context `{Floats}.

(** The storage as node [n] reports it. *)
Definition reported_by (s : StorageResponse) (n : option string) : StorageResponse :=
  mkStorageResponse (sr_storage s) n (sr_type s) (Clusters.sr_status s) (sr_total s) (sr_used s) (sr_avail s)
    (sr_shared s) (sr_content s).

(** A shared storage that every node reports counts once. *)
Theorem shared_storage_once (s : StorageResponse) (n : option string) (nodes : list (option string)) :
  default 0 (sr_shared s) ≠ 0 →
  _storage_capacity (map (reported_by s) (n :: nodes)) None
    = (1, default 0 (sr_used s), default 0 (sr_total s)).
Proof.
  intros Hs. apply Z.eqb_neq in Hs. unfold _storage_capacity, unique_storages.
  assert (∀ n0, storage_key (reported_by s n0) = (sr_storage s, None)) as Hkey.
  { intros n0. unfold storage_key. simpl. by rewrite Hs. }
  assert (∀ m n0, foldl (keep_storage None) {[ (sr_storage s, None) := reported_by s n0 ]}
            (map (reported_by s) m) =
          {[ (sr_storage s, None) := reported_by s (foldl (λ _ n, n) n0 m) ]}) as Hfold.
  { intros m. induction m as [|n1 m IH]; intros n0; [done|]. simpl. rewrite Hkey, insert_singleton_eq. apply IH. }
  simpl. rewrite Hkey, insert_empty, Hfold, map_to_list_singleton. simpl. f_equal; [f_equal|]; lia.
Qed.
End figures.

(** ** The overview *)

Section overview.
Context {E : Type} `{Runtime E} `{Resolver E} `{HttpTransport E} `{CredentialSecrets E}.
Context `{Schemas} `{Floats} `{!EventLoop E} `{!EventLoopLaws E}.
Implicit Types (self : ClusterService) (d : db) (e : E) (c : cluster) (o : ClusterResourceOverview).

Lemma wp_any_bind {S A B} (m : M S A) (f : A → M S B) (Q : outcome B → S → Prop) s :
  (∀ x s', Q (Raise x) s') → (∀ a s', wp (f a) Q s') → wp (m ≫= f) Q s.
Proof. intros Hx Hf. apply wp_bind, wp_intro. intros [a|x] s' _; [apply Hf|apply Hx]. Qed.

(** What was fetched is about the cluster that was asked for. *)
Lemma fetched_overview self id name connection e :
  wp (_fetch_resource_overview self id name connection)
    (λ r _, ∀ o, r = Ok o → cro_connected o = true ∧ cro_error_code o = None ∧ cro_cluster_id o = id ∧ cro_name o = name) e.
Proof.
  unfold _fetch_resource_overview, overview_of. repeat (apply wp_any_bind; [done|intros ? ?]).
  apply wp_ret. by intros o [= <-].
Qed.

Lemma wp_map_each {A B} (f : A → DBM E B) (R : A → B → Prop) (Q : outcome (list B) → world E → Prop) l w :
  (∀ a, a ∈ l → wp (f a) (λ r w', w' = w ∧ ∃ b, r = Ok b ∧ R a b) w) →
  (∀ bs, Forall2 R l bs → Q (Ok bs) w) → wp (map_each f l) Q w.
Proof.
  revert Q. induction l as [|a l IH]; intros Q Hf HQ; simpl.
  { by apply wp_ret, HQ. }
  apply wp_bind. eapply wp_mono; [apply Hf, list_elem_of_here|]. intros r w' [-> (b & -> & Hb)].
  apply wp_bind, IH; [intros a' Ha'; by apply Hf, list_elem_of_further|].
  intros bs Hbs. apply wp_ret, HQ. by constructor.
Qed.

(** An entry of the overview: fetched over the connection that the database holds, or the
    code of an error. *)
Definition entry self d (i : N) o : Prop :=
  ∃ c, db_clusters d !! i = Some c ∧ cl_is_active c = true ∧ cro_cluster_id o = i ∧ cro_name o = cl_name c ∧
    if cro_connected o
    then cro_error_code o = None ∧ ∃ connection, holds_connection d connection ∧ cn_cluster_id connection = i ∧
         result_of (_fetch_resource_overview self i (cl_name c) connection) (Ok o)
    else ∃ observed_at code, o = _failed_resource_overview i (cl_name c) observed_at code.

Lemma wp_cluster_snapshot c d e :
  clusters_ok d → db_clusters d !! cl_id c = Some c → cl_is_active c = true →
  wp (cluster_snapshot c) (λ r w, w = World d d false e ∧ ∃ s, r = Ok s ∧
    ∀ connection, s = inr connection → holds_connection d connection ∧ cn_cluster_id connection = cl_id c)
    (World d d false e).
Proof.
  intros [_ _ Kk _] Hc Hact. unfold cluster_snapshot. apply wp_catch_app, wp_bind, wp_active_credential; [done|..].
  { intros _. apply wp_ret. split; [done|]. by eexists. }
  simpl. intros k Hk. apply wp_bind, wp_or_raise.
  { intros _. apply wp_ret. split; [done|]. by eexists. }
  intros secret Hs. apply wp_ret. split; [done|]. eexists. split; [reflexivity|].
  intros connection [= <-]. split; [|done]. by exists c, k, secret.
Qed.

(** A row of the fetch: an active cluster, its connection and what became of the fetch. *)
Definition fetch_row self d (row : cluster * ClusterConnection * outcome ClusterResourceOverview) : Prop :=
  let '(c, connection, r) := row in
  db_clusters d !! cl_id c = Some c ∧ cl_is_active c = true ∧ holds_connection d connection ∧
  cn_cluster_id connection = cl_id c ∧
  result_of (_fetch_resource_overview self (cl_id c) (cl_name c) connection) r.

Definition is_app_error (x : exn) : bool := match x with AppError _ _ _ _ => true | _ => false end.

Definition entries self d (m : gmap N ClusterResourceOverview) : Prop := ∀ i o, m !! i = Some o → entry self d i o.

Lemma entries_insert self d m i o : entries self d m → entry self d i o → entries self d (<[i := o]> m).
Proof. intros Hm Ho i' o' [[<- <-]|[_ Hi]]%lookup_insert_Some; [done|by apply Hm]. Qed.

Lemma failed_entry self d c t code :
  db_clusters d !! cl_id c = Some c → cl_is_active c = true →
  entry self d (cl_id c) (_failed_resource_overview (cl_id c) (cl_name c) t code).
Proof. intros Hc Hact. exists c. split_and!; try done. by exists t, code. Qed.

Lemma fetched_entry self d c connection o :
  fetch_row self d (c, connection, Ok o) → entry self d (cl_id c) o.
Proof.
  intros (Hc & Hact & Hconn & Hid & e1 & e2 & Hrun).
  pose proof (fetched_overview self (cl_id c) (cl_name c) connection e1) as Ho. unfold wp in Ho. rewrite Hrun in Ho.
  destruct (Ho o eq_refl) as (Hyes & Hno & Hi & Hn). exists c. rewrite Hyes. split_and!; try done.
  exists connection. split_and!; try done. by exists e1, e2.
Qed.

Lemma is_Some_insert {A} (m : gmap N A) i j a : is_Some (m !! j) → is_Some (<[i := a]> m !! j).
Proof. destruct (decide (i = j)) as [->|Hne]; [rewrite lookup_insert_eq; eauto|by rewrite lookup_insert_ne]. Qed.

Lemma store_all_spec self d t rows m (w : world E) :
  entries self d m → Forall (fetch_row self d) rows →
  (∃ m', store_all t m rows w = (Ok m', w) ∧ entries self d m' ∧
     (∀ i, is_Some (m !! i) → is_Some (m' !! i)) ∧ ∀ row, row ∈ rows → is_Some (m' !! cl_id row.1.1)) ∨
  ∃ x, store_all t m rows w = (Raise x, w) ∧ is_app_error x = false.
Proof.
  intros Hm Hrows. revert m Hm. induction Hrows as [|[[c connection] r] rows Hrow _ IH]; intros m Hm; simpl.
  { left. exists m. split_and!; try done. by intros row ?%not_elem_of_nil. }
  assert (∀ o, entry self d (cl_id c) o →
    (∃ m', store_all t (<[cl_id c := o]> m) rows w = (Ok m', w) ∧ entries self d m' ∧
       (∀ i, is_Some (m !! i) → is_Some (m' !! i)) ∧
       ∀ row, row ∈ (c, connection, r) :: rows → is_Some (m' !! cl_id row.1.1)) ∨
    ∃ x, store_all t (<[cl_id c := o]> m) rows w = (Raise x, w) ∧ is_app_error x = false) as Hstore.
  { intros o Ho. destruct (IH _ (entries_insert _ _ _ _ _ Hm Ho)) as [(m' & Hrun & Hm' & Hdom & Hin)|Hx]; [left|by right].
    exists m'. split_and!; try done; [intros i Hi; by apply Hdom, is_Some_insert|].
    intros row [->|Hr]%elem_of_cons; [|by apply Hin]. apply Hdom. rewrite lookup_insert_eq. eauto. }
  destruct r as [o|x]; [by apply Hstore, (fetched_entry self d c connection)|].
  destruct Hrow as (Hc & Hact & _). destruct x; try (right; by eexists). by apply Hstore, failed_entry.
Qed.

Lemma unconnected_spec self d t (rows : list (cluster * (string + ClusterConnection))) :
  (∀ row, row ∈ rows → db_clusters d !! cl_id row.1 = Some row.1 ∧ cl_is_active row.1 = true) →
  entries self d (unconnected t rows) ∧
  ∀ c code, (c, inl code) ∈ rows → is_Some (unconnected t rows !! cl_id c).
Proof.
  intros Hrows. unfold unconnected. set (f := λ _ _, _).
  assert (∀ m, entries self d m → entries self d (foldl f m rows) ∧
    (∀ i, is_Some (m !! i) → is_Some (foldl f m rows !! i)) ∧
    ∀ c code, (c, inl code) ∈ rows → is_Some (foldl f m rows !! cl_id c)) as Hfold.
  { induction rows as [|[c s] rows IH]; intros m Hm; simpl.
    { split_and!; try done. by intros c code ?%not_elem_of_nil. }
    destruct (Hrows (c, s) (list_elem_of_here _ _)) as [Hc Hact]. simpl in Hc, Hact.
    assert (entries self d (f m (c, s))) as Hm1.
    { destruct s; simpl; [|done]. by apply entries_insert, failed_entry. }
    destruct (IH (λ row Hr, Hrows row (list_elem_of_further _ _ _ Hr)) _ Hm1) as (He & Hdom & Hin). split_and!; [done| |].
    - intros i Hi. apply Hdom. destruct s; simpl; [by apply is_Some_insert|done].
    - intros c' code [[= -> <-]|Hr]%elem_of_cons; [|by eapply Hin]. apply Hdom. unfold f; simpl. rewrite lookup_insert_eq. eauto. }
  destruct (Hfold ∅) as (He & _ & Hin); [by intros i o|]. by split.
Qed.

(** *** What is recorded *)

(** The row of a cluster after its connection was recorded with this code. *)
Definition recorded_row (code : option string) (c c' : cluster) : Prop :=
  ∃ t, c' = c <| cl_last_connection_error_code := code |> <| cl_last_connected_at := t |> ∧
    match code with None => t ≠ None | Some _ => t = cl_last_connected_at c end.

Lemma integrity_use_credential d j k t :
  db_credentials d !! j = Some k → integrity d = true →
  integrity (d <| db_credentials ::= <[j := k <| cc_last_used_at := t |>]> |>) = true.
Proof.
  intros Hk. integrity_rest.
  by eapply (unique_onb_save uq_cluster_credentials_active_cluster d _ j k).
Qed.

Lemma wp_record_known code c Q d e :
  clusters_ok d → db_clusters d !! cl_id c = Some c → cl_is_active c = true →
  (∀ d' e' c', clusters_ok d' → observed d d' → recorded_row code c c' →
     db_clusters d' = <[cl_id c := c']> (db_clusters d) → Q (Ok tt) (World d' d' false e')) →
  wp (_record_connection_result (cl_id c) code) Q (World d d false e).
Proof.
  intros [Hi Kc Kk Hg] Hc Hact Hok.
  apply wp_bind, wp_get_cluster; [simpl; congruence|]. simpl. intros c0 Hc0. simplify_eq.
  destruct code as [code|].
  - apply wp_bind, wp_db_save, wp_commit; simpl.
    { intros Hbad%negb_true_iff. exfalso. apply not_true_iff_false in Hbad. apply Hbad.
      by eapply integrity_save_cluster. }
    intros _ Hint. eapply Hok; [|done| |done].
    + split; [exact Hint|exact (lookup_insert_key cl_id _ _ Kc)|exact Kk|]. by eapply good_save_cluster.
    + exists (cl_last_connected_at c). split; [by destruct c|done].
  - apply wp_bind, wp_bind, wp_from_env. intros now e1 _. apply wp_bind, wp_db_save, wp_bind.
    apply wp_active_credential; [exact Kk| |].
    { simpl. intros Hnone. destruct (gd_cluster _ _ Hg _ _ Hc Hact) as (j & k & [Hj Hk]).
      pose proof (first_row_None (active_credential_of (cl_id c)) _ Hnone j k Hj). congruence. }
    simpl. intros k Hk. apply wp_bind, wp_from_env. intros now' e2 _. apply wp_db_save, wp_commit; simpl.
    { intros Hbad%negb_true_iff. exfalso. apply not_true_iff_false in Hbad. apply Hbad.
      apply (integrity_use_credential (d <| db_clusters ::= _ |>)); [apply Hk|]. by eapply integrity_save_cluster. }
    intros _ Hint. eapply Hok; [|done| |done].
    + split; [exact Hint|exact (lookup_insert_key cl_id _ _ Kc)|exact (lookup_insert_key cc_id _ _ Kk)|].
      eapply good_save_credential; [by eapply good_save_cluster|apply Hk|by destruct k].
    + by exists (Some now).
Qed.

Lemma recorded_row_id code c c' : recorded_row code c c' → cl_id c' = cl_id c ∧ cl_is_active c' = cl_is_active c.
Proof. intros (t & -> & _). done. Qed.

(** The connection of each of the clusters is recorded, and nothing else. *)
Lemma wp_record_overviews m cs Q d e :
  clusters_ok d → NoDup (cl_id <$> cs) →
  (∀ c, c ∈ cs → db_clusters d !! cl_id c = Some c ∧ cl_is_active c = true ∧ is_Some (m !! cl_id c)) →
  (∀ us d' e', clusters_ok d' → observed d d' →
     (∀ i, i ∉ cl_id <$> cs → db_clusters d' !! i = db_clusters d !! i) →
     (∀ c o, c ∈ cs → m !! cl_id c = Some o →
        ∃ c', db_clusters d' !! cl_id c = Some c' ∧ recorded_row (connection_code o) c c') →
     Q (Ok us) (World d' d' false e')) →
  wp (map_each (record_overview m) cs) Q (World d d false e).
Proof.
  revert d e Q. induction cs as [|c cs IH]; intros d e Q Hd Hnd Hcs HQ; simpl.
  { apply wp_ret, HQ; try done. by intros c o ?%not_elem_of_nil. }
  apply NoDup_cons in Hnd as [Hni Hnd].
  destruct (Hcs c (list_elem_of_here _ _)) as (Hc & Hact & [o Ho]).
  apply wp_bind. unfold record_overview at 1. apply wp_bind. rewrite Ho. apply wp_ret.
  apply (wp_record_known _ c); try done. intros d1 e1 c1 Hd1 Hobs1 Hc1 Hset.
  assert (∀ i, i ≠ cl_id c → db_clusters d1 !! i = db_clusters d !! i) as Hother.
  { intros i Hi. rewrite Hset. by rewrite lookup_insert_ne. }
  apply wp_bind, IH; [done|done| |].
  { intros c' Hc'. destruct (Hcs c' (list_elem_of_further _ _ _ Hc')) as (? & ? & ?). split; [|done].
    rewrite Hother; [done|]. intros Heq. apply Hni. rewrite <-Heq. by apply list_elem_of_fmap_2. }
  intros us d' e' Hd' Hobs' Hsame Hrec. apply wp_ret, HQ; [done|unfold observed in *; congruence| |].
  - intros i [Hne Hi]%not_elem_of_cons. rewrite Hsame by done. by apply Hother.
  - intros c' o' [->|Hc']%elem_of_cons Ho'; [|by apply Hrec]. simplify_eq. exists c1.
    rewrite Hsame, Hset by done. by rewrite lookup_insert_eq.
Qed.

(** *** The overview and the state report *)

(** The entry of a cluster, and what the state report of Observability.v now says of it. *)
Definition reported self d d' o : Prop :=
  entry self d (cro_cluster_id o) o ∧ ∃ c', db_clusters d' !! cro_cluster_id o = Some c' ∧
    ccs_connected (cluster_status c') = cro_connected o ∧ ccs_error_code (cluster_status c') = cro_error_code o.

Lemma recorded_status self d i o c c' :
  entry self d i o → db_clusters d !! i = Some c → recorded_row (connection_code o) c c' →
  ccs_connected (cluster_status c') = cro_connected o ∧ ccs_error_code (cluster_status c') = cro_error_code o.
Proof.
  intros (c0 & Hc0 & Hact & _ & _ & Hentry) Hc (t & -> & Ht). simplify_eq. unfold connection_code in *. simpl.
  rewrite Hact. destruct (cro_connected o) eqn:Hconn.
  - destruct Hentry as [Hcode _]. simpl. split; [|done]. by apply bool_decide_eq_true.
  - destruct Hentry as (t' & code & ->). done.
Qed.

Lemma active_rows d :
  keyed cluster d →
  NoDup (cl_id <$> merge_sort cluster_name_le (select_rows cl_is_active d)) ∧
  ∀ c, c ∈ merge_sort cluster_name_le (select_rows cl_is_active d) →
    db_clusters d !! cl_id c = Some c ∧ cl_is_active c = true.
Proof.
  intros Hk.
  assert (∀ c, c ∈ select_rows cl_is_active d → db_clusters d !! cl_id c = Some c ∧ cl_is_active c = true) as Hin.
  { intros c [Hact [i Hi]]%elem_of_select. split; [|done]. pose proof (Hk _ _ Hi) as Hid. simpl in *. by subst i. }
  split; [|intros c Hc; apply Hin; by rewrite merge_sort_Permutation in Hc].
  rewrite merge_sort_Permutation. apply NoDup_fmap_2_strong.
  - intros c1 c2 Hm1 Hm2 Heq. destruct (Hin _ Hm1) as [Hc1 _], (Hin _ Hm2) as [Hc2 _]. congruence.
  - apply NoDup_filter. apply (NoDup_fmap_1 cl_id). rewrite <-list_fmap_compose.
    rewrite (list_fmap_ext _ fst); [apply NoDup_fst_map_to_list|].
    intros k [i c] Hi. apply list_elem_of_lookup_2, elem_of_map_to_list in Hi. exact (Hk _ _ Hi).
Qed.

(** What [cluster_snapshot] finds of a cluster. *)
Definition snapshot_of d c (row : cluster * (string + ClusterConnection)) : Prop :=
  row.1 = c ∧ ∀ connection, row.2 = inr connection →
    holds_connection d connection ∧ cn_cluster_id connection = cl_id c.

Definition fetch_of self (row : cluster * ClusterConnection) : M E ClusterResourceOverview :=
  _fetch_resource_overview self (cl_id row.1) (cl_name row.1) row.2.

Section snapshots.
Context self d (cs : list cluster) (snapshots : list (cluster * (string + ClusterConnection))).
Context (Hin : ∀ c, c ∈ cs → db_clusters d !! cl_id c = Some c ∧ cl_is_active c = true).
Context (Hsnap : Forall2 (snapshot_of d) cs snapshots).

Lemma snapshot_rows row : row ∈ snapshots → row.1 ∈ cs ∧ snapshot_of d row.1 row.
Proof using Hsnap.
  intros [j Hj]%list_elem_of_lookup. destruct (Forall2_lookup_r _ _ _ _ _ Hsnap Hj) as (c & Hc & Hs).
  pose proof Hs as [<- _]. split; [by eapply list_elem_of_lookup_2|done].
Qed.

Lemma fetch_rows fetched :
  Forall2 result_of (fetch_of self <$> connections snapshots) fetched →
  Forall (fetch_row self d) (zip (connections snapshots) fetched) ∧
  ∀ c connection, (c, inr connection) ∈ snapshots → ∃ x, (c, connection, x) ∈ zip (connections snapshots) fetched.
Proof using All.
  rewrite Forall2_fmap_l. intros Hfetched. split.
  - apply Forall_forall. intros [[c connection] x] [j Hj]%list_elem_of_lookup. apply lookup_zip_Some in Hj as [Hj Hx].
    pose proof (Forall2_lookup_lr _ _ _ _ _ _ Hfetched Hj Hx) as Hres.
    apply list_elem_of_lookup_2 in Hj. apply list_elem_of_omap in Hj as ([c0 s] & Hs & Heq).
    destruct s as [|connection0]; [done|]. injection Heq as -> ->.
    destruct (snapshot_rows _ Hs) as [Hc [_ Hconn]]. by destruct (Hin _ Hc), (Hconn _ eq_refl).
  - intros c connection Hs.
    assert ((c, connection) ∈ connections snapshots) as [k Hk]%list_elem_of_lookup.
    { apply list_elem_of_omap. by exists (c, inr connection). }
    destruct (Forall2_lookup_l _ _ _ _ _ Hfetched Hk) as (x & Hx & _). exists x.
    eapply list_elem_of_lookup_2. apply lookup_zip_Some. eauto.
Qed.

(** Every cluster has its entry once the results are stored, or a fetch ended in an
    exception that is not an application error. *)
Lemma stored_overviews t fetched (w : world E) :
  Forall2 result_of (fetch_of self <$> connections snapshots) fetched →
  (∃ m, store_all t (unconnected t snapshots) (zip (connections snapshots) fetched) w = (Ok m, w) ∧
     entries self d m ∧ ∀ c, c ∈ cs → is_Some (m !! cl_id c)) ∨
  ∃ x, store_all t (unconnected t snapshots) (zip (connections snapshots) fetched) w = (Raise x, w) ∧
     is_app_error x = false.
Proof using All.
  intros [Hzip Hfull]%fetch_rows.
  destruct (unconnected_spec self d t snapshots) as [Hun Hundom]; [intros row Hr; by apply Hin, snapshot_rows|].
  destruct (store_all_spec self d t _ _ w Hun Hzip) as [(m & Hstore & Hm & Hdom & Hzdom)|Hx]; [left|by right].
  exists m. split_and!; [done..|]. intros c [j Hj]%list_elem_of_lookup.
  destruct (Forall2_lookup_l _ _ _ _ _ Hsnap Hj) as ([c' s] & Hs & Heq & _).
  simpl in Heq. subst c'. apply list_elem_of_lookup_2 in Hs. destruct s as [code|connection].
  - by eapply Hdom, Hundom.
  - destruct (Hfull _ _ Hs) as [x Hx]. by apply Hzdom in Hx.
Qed.
End snapshots.

(** The overview has one entry for each active cluster, in the order of their names,
    whatever the other clusters answer: what the cluster answered over its stored
    connection, or the code of its error.  Afterwards the state report says the same of
    each connection; disabled clusters and machines are untouched.  It changes nothing
    where it fails, which no error of a cluster makes it do. *)
Theorem overview_reports self d e r d' e' :
  clusters_ok d → exec (cluster_service self (resource_overview self)) d e = (r, d', e') →
  match r with
  | Ok items =>
      cro_cluster_id <$> items = cl_id <$> merge_sort cluster_name_le (select_rows cl_is_active d) ∧
      Forall (reported self d d') items ∧ clusters_ok d' ∧ db_workloads d' = db_workloads d ∧
      ∀ i c, db_clusters d !! i = Some c → cl_is_active c = false → db_clusters d' !! i = Some c
  | Raise x => d' = d ∧ (x = FORBIDDEN ∨ is_app_error x = false)
  end.
Proof.
  intros Hd Hrun. destruct (active_rows d (co_clusters _ Hd)) as [Hnd Hin]. start_run Hrun.
  unfold cluster_service. apply wp_bind. unfold require_service_role. apply wp_raise_if; [by auto|]. intros _.
  unfold resource_overview. apply wp_bind, wp_db_select. set (cs := merge_sort _ _) in *.
  apply wp_bind, wp_from_env. intros t e1 _. apply wp_bind, (wp_map_each _ (snapshot_of d)).
  { intros c Hc. destruct (Hin c Hc). apply wp_bind. eapply wp_mono; [by apply wp_cluster_snapshot|].
    intros r0 w [-> (s & -> & Hs)]. apply wp_ret. split; [done|]. by eexists. }
  intros snapshots Hsnap. apply wp_bind, wp_rollback, wp_bind, wp_on_env. cbn [w_db w_tx w_dup w_env].
  destruct (gather_settled_spec (fetch_of self <$> connections snapshots) e1) as (fetched & e2 & Hg & Hfetched).
  unfold wp at 1. change (map _ (connections snapshots)) with (fetch_of self <$> connections snapshots).
  rewrite Hg. cbn [fst snd]. apply wp_bind.
  destruct (stored_overviews self d cs snapshots Hin Hsnap t fetched (World d d false e2) Hfetched)
    as [(m & Hstore & Hm & Hall)|(x & Hstore & Hx)]; unfold wp at 1; rewrite Hstore; cbn [fst snd]; [|by split; [|right]].
  apply wp_bind, wp_record_overviews; [done|done|intros c Hc; destruct (Hin c Hc); auto|].
  intros us d1 e3 Hd1 Hobs Hother Hrec. apply (wp_map_each _ (λ c o, m !! cl_id c = Some o)).
  { intros c Hc. destruct (Hall c Hc) as [o Ho]. rewrite Ho. apply wp_ret. eauto. }
  intros items Hitems. simpl. split_and!; [| |done|done|].
  - symmetry. clear -Hitems Hm. induction Hitems as [|c o cs items Ho _ IH]; [done|]. simpl. f_equal; [|done].
    destruct (Hm _ _ Ho) as (? & ? & ? & ? & _). done.
  - apply Forall_forall. intros o [j Hj]%list_elem_of_lookup.
    destruct (Forall2_lookup_r _ _ _ _ _ Hitems Hj) as (c & Hc & Ho). apply list_elem_of_lookup_2 in Hc.
    pose proof (Hm _ _ Ho) as Hentry. pose proof Hentry as (? & ? & ? & Hid & _).
    destruct (Hrec c o Hc Ho) as (c' & Hc' & Hrow). unfold reported. rewrite Hid.
    split; [done|]. exists c'. split; [done|]. eapply recorded_status; [done| |done]. by apply Hin.
  - intros i c Hc Hact. rewrite Hother; [done|]. intros (c0 & -> & Hc0)%list_elem_of_fmap.
    destruct (Hin _ Hc0). congruence.
Qed.

(** ** The time series of a node *)

Lemma map_some_all {S A B} (f : A → M S (option B)) (P : B → Prop) (Q : outcome (list B) → S → Prop) l s :
  (∀ a s, wp (f a) (λ r s', s' = s ∧ ∀ b, r = Ok (Some b) → P b) s) →
  (∀ x, Q (Raise x) s) → (∀ bs, Forall P bs → Q (Ok bs) s) → wp (map_some f l) Q s.
Proof.
  intros Hf Hx. revert Q Hx. induction l as [|a l IH]; intros Q Hx HQ; simpl; [by apply wp_ret, HQ|].
  apply wp_bind. eapply wp_mono; [apply Hf|]. intros [b|x] s' [-> Hb]; [|apply Hx].
  apply wp_bind, IH; [apply Hx|]. intros bs Hbs. apply wp_ret, HQ.
  destruct b as [b|]; [|done]. constructor; [by apply Hb|done].
Qed.

Context `{!FloatLaws}.

Lemma wp_number {S} (value : option json) (Q : outcome (option float) → S → Prop) s :
  (∀ x, Q (Raise x) s) →
  (∀ x, match x with Some x => isfinite x = true ∧ at_least_zero x = true | None => True end → Q (Ok x) s) →
  wp (_number value) Q s.
Proof.
  intros Hx HQ. unfold _number. apply wp_bind.
  assert (∀ x, wp (mret (y ← x; if isfinite y then Some (max_zero y) else None)) Q s) as Hret.
  { intros x. apply wp_ret, HQ. destruct x as [x|]; simpl; [|done]. destruct (isfinite x) eqn:Hfin; [|done].
    split; [by apply max_zero_finite|apply max_zero_positive]. }
  destruct value as [[| | | | | |]|]; try (apply wp_ret, Hret).
  apply wp_bind, wp_or_raise; [done|]. intros x _. apply wp_ret, Hret.
Qed.

Lemma wp_integer {S} (value : option json) (Q : outcome (option Z) → S → Prop) s :
  (∀ x, Q (Raise x) s) → (∀ z, ge_zero z = true → Q (Ok z) s) → wp (_integer value None) Q s.
Proof.
  intros Hx HQ. unfold _integer. apply wp_bind, wp_number; [done|]. intros x Hfin. apply wp_ret, HQ.
  destruct x as [x|]; [|done]. destruct Hfin. by apply Z.leb_le, int_positive.
Qed.

(** What [NodeMetricPoint] promises of its figures. *)
Definition point_valid (p : NodeMetricPoint) : Prop :=
  0 < nmp_time p ∧ ge_zero (nmp_memory_used_bytes p) = true ∧ ge_zero (nmp_memory_total_bytes p) = true.

Lemma point_of_item {S} (item : json_object) (s : S) :
  wp (_node_metric_point item) (λ r s', s' = s ∧ ∀ p, r = Ok (Some p) → point_valid p) s.
Proof.
  unfold _node_metric_point. apply wp_bind, wp_integer; [done|]. intros time _.
  destruct time as [time|]; [|by apply wp_ret]. destruct (Z.leb_spec time 0) as [|Htime]; [by apply wp_ret|].
  do 2 (apply wp_bind, wp_number; [done|intros ? _]).
  apply wp_bind, wp_integer; [done|]. intros used Hused. apply wp_bind, wp_integer; [done|]. intros total Htotal.
  do 7 (apply wp_bind, wp_number; [done|intros ? _]). apply wp_ret. split; [done|]. by intros p [= <-].
Qed.

(** The time series of a node is in order and within the window that was asked for, its
    figures are valid, and reading it changes nothing. *)
Theorem metrics_window self id node metric_range d e r d' e' :
  clusters_ok d → exec (node_metrics self id node metric_range) d e = (r, d', e') →
  d' = d ∧ ∀ series, r = Ok series → Sorted earlier_point (nms_items series) ∧
    ∃ now, ∀ p, p ∈ nms_items series →
      point_valid p ∧ Z.quot (now - (timeframe_of metric_range).2) 1000000 ≤ nmp_time p.
Proof.
  intros Hd Hrun. start_run Hrun. unfold node_metrics. destruct (timeframe_of metric_range) as [timeframe duration].
  apply wp_bind, wp_connection_snapshot; [done|done|]. intros connection _ _.
  apply wp_bind, wp_with_client. intros [raw|x] e1 _; [|done]. apply wp_bind, wp_from_env. intros now e2 _.
  apply wp_bind. eapply (map_some_all _ point_valid); [by intros; apply point_of_item|done|]. intros points Hpoints.
  apply wp_bind, wp_from_env. intros observed e3 _. apply wp_ret. split; [done|]. intros series [= <-]. simpl. split.
  - assert (Total earlier_point) by (intros a b; unfold earlier_point; lia). by apply (Sorted_merge_sort _).
  - exists now. intros p Hp. rewrite merge_sort_Permutation in Hp. apply list_elem_of_filter in Hp as [Hcut Hp].
    split; [by eapply Forall_forall|done].
Qed.
End overview.
