(* ===== verification/Routers.v ===== *)
(** * The endpoints

    api/: a definition per endpoint, with its dependencies, its parameters and its
    answer; health.py. *)
From S2P Require Import Prelude Models Database AuditLog Operations Auth Accounts Listings.
From S2P Require Import IpAddr Ipam ProvApi Provisioning Endpoints Client Clusters Workloads.
From S2P Require Import Backups Customer Redis Console Observability Overview Http.

(** ** The endpoints of accounts and sessions

    api/auth.py and api/accounts.py. *)

Section accounts_api.
Context {E : Type} `{Runtime E} `{Passwords E} `{Jwt} `{Digests} `{FieldValidation} `{CreatedAt}.
Context (auth : AuthSettings).
Implicit Types (request : http_request).

Local Abbreviation principal_of := (PrincipalDependency auth).

(** *** api/auth.py *)

Definition login request (payload : LoginRequest) : DBM E (response TokenResponse) :=
  ok (Auth.login auth payload (_source request) (rq_request_id request)).

Definition refresh request (refresh_token : N) : DBM E (response TokenResponse) :=
  ok (Auth.refresh auth refresh_token (rq_request_id request)).

Definition logout request (refresh_token : N) : DBM E (response ()) :=
  no_content (Auth.logout refresh_token (rq_request_id request)).

(** [AccountService(...)] is given no source address. *)
Definition _account_service request (principal : Principal) : service :=
  Service principal (rq_request_id request) "".

Definition me request : DBM E (response UserResponse) :=
  principal_of request (λ principal, ok (Accounts.me (_account_service request principal))).

Definition change_password request (payload : ChangePasswordRequest) : DBM E (response ()) :=
  principal_of request (λ principal,
    no_content (Accounts.change_password (_account_service request principal) payload)).

(** *** api/accounts.py *)

Definition create_user request (payload : UserCreate) : DBM E (response UserResponse) :=
  principal_of request (λ principal,
    created (Accounts.create_user (_account_service request principal) payload)).

Definition list_users request : DBM E (response (list (UserResponse * list string))) :=
  principal_of request (λ principal, ok (Listings.list_users (_account_service request principal))).

Definition update_user request (user_id : N) (payload : UserUpdate) : DBM E (response UserResponse) :=
  principal_of request (λ principal,
    ok (Accounts.update_user (_account_service request principal) user_id payload)).

Definition delete_user request (user_id : N) (version : Z) : DBM E (response ()) :=
  principal_of request (λ principal,
    validated (version_query version);;
    no_content (Accounts.delete_user (_account_service request principal) user_id version)).

Definition reset_user_password request (user_id : N) (new_password : string) : DBM E (response ()) :=
  principal_of request (λ principal,
    no_content (Accounts.reset_password (_account_service request principal) user_id new_password)).

Definition create_organization request (name : string) : DBM E (response organization) :=
  principal_of request (λ principal,
    created (Accounts.create_organization (_account_service request principal) name)).

(** The query parameters [q], [limit] and [offset]. *)
Definition organization_query (q : option string) (limit : option Z) (offset : Z) : list validation_error :=
  match q with Some q => length_errors ["query"; "q"] (Some 1) (Some 160) q | None => [] end ++
  match limit with
  | Some n => ge_errors ["query"; "limit"] 1 n ++ le_errors ["query"; "limit"] 50 n | None => [] end ++
  ge_errors ["query"; "offset"] 0 offset.

Definition list_organizations request (q : option string) (status : OrganizationStatus)
    (sort : OrganizationSort) (limit : option Z) (offset : Z)
  : DBM E (response (list organization * Z * option Z * Z)) :=
  principal_of request (λ principal,
    validated (organization_query q limit offset);;
    ok ('(items, total) ← Listings.list_organizations (_account_service request principal)
                            q status sort limit offset;
        mret (items, total, limit, offset))).

Definition update_organization request (organization_id : N) (payload : OrganizationUpdate)
  : DBM E (response organization) :=
  principal_of request (λ principal,
    ok (Accounts.update_organization (_account_service request principal) organization_id payload)).

Definition delete_organization request (organization_id : N) (version : Z) : DBM E (response ()) :=
  principal_of request (λ principal,
    validated (version_query version);;
    no_content (Accounts.delete_organization (_account_service request principal) organization_id version)).

Definition add_organization_member request (organization_id user_id : N)
  : DBM E (response organization_member) :=
  principal_of request (λ principal,
    created (Accounts.add_member (_account_service request principal) organization_id user_id)).

Definition list_organization_members request (organization_id : N)
  : DBM E (response (list OrganizationMemberDetailResponse)) :=
  principal_of request (λ principal,
    ok (Listings.list_members (_account_service request principal) organization_id)).

Definition remove_organization_member request (organization_id user_id : N) : DBM E (response ()) :=
  principal_of request (λ principal,
    no_content (Accounts.remove_member (_account_service request principal) organization_id user_id)).
End accounts_api.

(** ** The endpoints of addresses and provisioning

    api/ipam.py and api/provisioning.py. *)

Section ipam_api.
Context {E : Type} `{Runtime E} `{Jwt} `{FieldValidation}.
Context (auth : AuthSettings).
Implicit Types (request : http_request).

Local Abbreviation principal_of := (PrincipalDependency auth).

(** [IpamService(...)]: its constructor checks the role. *)
Definition _ipam_service {A} request (principal : Principal) (method : service → DBM E A) : DBM E A :=
  let self := Service principal (rq_request_id request) (_source request) in
  ipam_service self (method self).

Definition create_ip_pool request (payload : IpPoolCreate) : DBM E (response IpPoolResponse) :=
  principal_of request (λ principal,
    created (_ipam_service request principal (λ self, create_pool self payload))).

Definition list_ip_pools request : DBM E (response (list IpPoolResponse)) :=
  principal_of request (λ principal, ok (_ipam_service request principal (λ _, list_pools))).

Definition get_ip_pool request (pool_id : N) : DBM E (response IpPoolResponse) :=
  principal_of request (λ principal, ok (_ipam_service request principal (λ _, get_pool pool_id))).

Definition update_ip_pool request (pool_id : N) (payload : IpPoolUpdate) : DBM E (response IpPoolResponse) :=
  principal_of request (λ principal,
    ok (_ipam_service request principal (λ self, update_pool self pool_id payload))).

Definition delete_ip_pool request (pool_id : N) (version : Z) : DBM E (response ()) :=
  principal_of request (λ principal,
    validated (version_query version);;
    no_content (_ipam_service request principal (λ self, delete_pool self pool_id version))).

Definition list_ip_addresses request (pool_id : N) : DBM E (response (list IpAddressResponse)) :=
  principal_of request (λ principal, ok (_ipam_service request principal (λ _, list_addresses pool_id))).

Definition reserve_ip_address request (pool_id : N) (address : ip_addr) (reason : string)
  : DBM E (response IpAddressResponse) :=
  principal_of request (λ principal,
    created (_ipam_service request principal (λ self, reserve_address self pool_id address reason))).

Definition allocate_ip_address request (pool_id workload_id : N) (address : option ip_addr)
  : DBM E (response IpAllocationResponse) :=
  principal_of request (λ principal,
    created (_ipam_service request principal (λ self, allocate self pool_id workload_id address))).

Definition release_ip_allocation request (allocation_id : N) (reason : string)
  : DBM E (response IpAllocationResponse) :=
  principal_of request (λ principal,
    ok (_ipam_service request principal (λ self, release self allocation_id reason))).

Definition approve_ip_release request (address_id : N) : DBM E (response IpAddressResponse) :=
  principal_of request (λ principal,
    ok (_ipam_service request principal (λ self, approve_release self address_id))).
End ipam_api.

Section provisioning_api.
Context {E : Type} `{Runtime E} `{Jwt} `{FieldValidation} `{Digests} `{ProvisioningSecrets E}.
Context (auth : AuthSettings) (provisioning_publisher : Publisher E).
Implicit Types (request : http_request).
#[local] Existing Instance provisioning_publisher.

Local Abbreviation principal_of := (PrincipalDependency auth).

(** [ProvisioningService(...)]: its constructor checks the role. *)
Definition _provisioning_service {A} request (principal : Principal) (method : service → DBM E A)
  : DBM E A :=
  let self := Service principal (rq_request_id request) (_source request) in
  provisioning_service self (method self).

Definition create_product request (payload : ProductCreate) : DBM E (response product) :=
  principal_of request (λ principal,
    created (_provisioning_service request principal (λ self, Provisioning.create_product self payload))).

Definition list_products request : DBM E (response (list product)) :=
  principal_of request (λ principal,
    ok (_provisioning_service request principal (λ _, Provisioning.list_products))).

Definition update_product request (product_id : N) (payload : ProductUpdate) : DBM E (response product) :=
  principal_of request (λ principal,
    ok (_provisioning_service request principal (λ self, Provisioning.update_product self product_id payload))).

Definition delete_product request (product_id : N) : DBM E (response ()) :=
  principal_of request (λ principal,
    no_content (_provisioning_service request principal (λ self, Provisioning.delete_product self product_id))).

Definition create_template request (payload : TemplateCreate) : DBM E (response template) :=
  principal_of request (λ principal,
    created (_provisioning_service request principal (λ self, Provisioning.create_template self payload))).

Definition list_templates request : DBM E (response (list template)) :=
  principal_of request (λ principal,
    ok (_provisioning_service request principal (λ _, Provisioning.list_templates))).

Definition update_template request (template_id : N) (payload : TemplateUpdate)
  : DBM E (response template) :=
  principal_of request (λ principal,
    ok (_provisioning_service request principal (λ self, Provisioning.update_template self template_id payload))).

Definition delete_template request (template_id : N) : DBM E (response ()) :=
  principal_of request (λ principal,
    no_content (_provisioning_service request principal (λ self, Provisioning.delete_template self template_id))).

Definition upsert_provisioning_node request (payload : ProvisioningNodeUpsert)
  : DBM E (response provisioning_node) :=
  principal_of request (λ principal,
    ok (_provisioning_service request principal (λ _, upsert_node payload))).

Definition list_provisioning_nodes request : DBM E (response (list provisioning_node)) :=
  principal_of request (λ principal, ok (_provisioning_service request principal (λ _, list_nodes))).

Definition create_provisioning_request request (payload : ProvisioningRequestCreate)
    (idempotency_key : string) : DBM E (response ProvisioningRequestResponse) :=
  principal_of request (λ principal,
    validated (IdempotencyKey idempotency_key);;
    reply 202 (λ item, [location_of "/api/v1/admin/provision-requests/" (rr_id item); RETRY_AFTER; NO_STORE])
      (fst <$> _provisioning_service request principal
                 (λ self, create_request self payload idempotency_key))).

Definition list_provisioning_requests request : DBM E (response (list ProvisioningRequestResponse)) :=
  principal_of request (λ principal, ok (_provisioning_service request principal (λ _, list_requests))).

Definition get_provisioning_request request (request_id : N)
  : DBM E (response ProvisioningRequestResponse) :=
  principal_of request (λ principal,
    reply 200 (λ _, [NO_STORE]) (_provisioning_service request principal (λ _, get_request request_id))).
End provisioning_api.

(** ** The endpoints of clusters, machines and backups

    api/clusters.py, api/workloads.py and api/backups.py. *)

Section clusters_api.
Context {E : Type} `{Runtime E} `{Jwt} `{Resolver E} `{HttpTransport E} `{CredentialSecrets E}.
Context `{Schemas} `{CreatedAt} `{FieldValidation} `{Floats} `{EventLoop E}.
Context (auth : AuthSettings) (pve : PveSettings).
Implicit Types (request : http_request).

(** [get_cluster_service]: a dependency on the principal; the constructor checks the role. *)
Definition get_cluster_service {A} request (method : ClusterService → DBM E A) : DBM E A :=
  PrincipalDependency auth request (λ principal,
    let self := mkClusterService principal pve in
    cluster_service self (method self)).

Definition create_cluster request (payload : ClusterCreate) : DBM E (response ClusterResponse) :=
  get_cluster_service request (λ self, created (Clusters.create self payload)).

Definition list_clusters request : DBM E (response (list ClusterResponse)) :=
  get_cluster_service request (λ _, ok Listings.list_clusters).

Definition cluster_resource_overview request : DBM E (response (list ClusterResourceOverview)) :=
  get_cluster_service request (λ self, ok (resource_overview self)).

Definition get_cluster request (cluster_id : N) : DBM E (response ClusterResponse) :=
  get_cluster_service request (λ _, ok (Listings.get_cluster cluster_id)).

Definition update_cluster request (cluster_id : N) (payload : ClusterUpdate) : DBM E (response ClusterResponse) :=
  get_cluster_service request (λ self, ok (Clusters.update self cluster_id payload)).

Definition delete_cluster request (cluster_id : N) : DBM E (response ()) :=
  get_cluster_service request (λ self, no_content (Clusters.delete self cluster_id)).

Definition get_cluster_removal_check request (cluster_id : N)
  : DBM E (response (bool * list ClusterRemovalBlock)) :=
  get_cluster_service request (λ _, ok (removal_check cluster_id)).

Definition test_cluster request (cluster_id : N) : DBM E (response ConnectionTestResponse) :=
  get_cluster_service request (λ self, ok (Clusters.test_connection self cluster_id)).

Definition list_nodes request (cluster_id : N) : DBM E (response (list NodeResponse)) :=
  get_cluster_service request (λ self, ok (nodes self cluster_id)).

(** [^[A-Za-z0-9][A-Za-z0-9._-]*$]. *)
Definition node_name (node : string) : bool :=
  match node with
  | String a rest => request_id_char a && bool_decide (code_of a ∉ [46; 95; 58; 45]%nat) &&
                     str_all (λ b, request_id_char b && bool_decide (code_of b ≠ 58%nat)) rest
  | EmptyString => false
  end.

Definition NodePath (node : string) : list validation_error :=
  length_errors ["path"; "node"] (Some 1) (Some 255) node ++ pattern_errors ["path"; "node"] (node_name node).

Definition get_node_metrics request (cluster_id : N) (node : string) (range : NodeMetricRange)
  : DBM E (response NodeMetricSeriesResponse) :=
  get_cluster_service request (λ self,
    validated (NodePath node);;
    ok (node_metrics self cluster_id node range)).

Definition list_guests request (cluster_id : N) : DBM E (response (list GuestResponse)) :=
  get_cluster_service request (λ self, ok (guests self cluster_id)).

Definition list_storages request (cluster_id : N) : DBM E (response (list StorageResponse)) :=
  get_cluster_service request (λ self, ok (storages self cluster_id)).

Definition import_workloads request (cluster_id : N) : DBM E (response WorkloadImportResponse) :=
  get_cluster_service request (λ self, ok (Clusters.import_workloads self cluster_id)).
End clusters_api.

(** *** api/workloads.py *)

Section workloads_api.
Context {E : Type} `{Runtime E} `{Jwt} `{FieldValidation}.
Context (auth : AuthSettings).
Implicit Types (request : http_request).

(** [WorkloadService(...)]: no source address; its constructor checks the role. *)
Definition _workload_service {A} request (principal : Principal) (method : service → DBM E A) : DBM E A :=
  let self := Service principal (rq_request_id request) "" in
  workload_service self (method self).

Definition list_workloads request (organization_id cluster_id : option N)
  : DBM E (response (list WorkloadResponse)) :=
  PrincipalDependency auth request (λ principal,
    ok (_workload_service request principal (λ _, Workloads.list_workloads organization_id cluster_id))).

Definition get_workload request (workload_id : N) : DBM E (response WorkloadResponse) :=
  PrincipalDependency auth request (λ principal,
    ok (_workload_service request principal (λ _, Workloads.get_workload workload_id))).

Definition assign_workload request (workload_id organization_id : N)
  : DBM E (response WorkloadAssignmentResponse) :=
  PrincipalDependency auth request (λ principal,
    ok (_workload_service request principal (λ self, assign self workload_id organization_id))).

Definition unassign_workload request (workload_id : N) (reason : option string) : DBM E (response ()) :=
  PrincipalDependency auth request (λ principal,
    validated match reason with
              | Some s => length_errors ["query"; "reason"] None (Some 500) s | None => [] end;;
    no_content (_workload_service request principal (λ self, unassign self workload_id reason))).

Definition list_workload_assignments request (workload_id : N)
  : DBM E (response (list WorkloadAssignmentResponse)) :=
  PrincipalDependency auth request (λ principal,
    ok (_workload_service request principal (λ _, assignment_history workload_id))).
End workloads_api.

(** *** api/backups.py *)

Section backups_api.
Context {E : Type} `{Runtime E} `{Jwt} `{FieldValidation} `{Digests} `{Resolver E} `{HttpTransport E}.
Context `{CredentialSecrets E} `{BackupPublishers E} `{CreatedAt}.
Context (auth : AuthSettings) (pve : PveSettings).
Implicit Types (request : http_request).

Definition _backup_service request (principal : Principal) : service :=
  Service principal (rq_request_id request) (_source request).

Definition discover_backup_storages request (cluster_id : N)
  : DBM E (response (list BackupStorageCandidate)) :=
  PrincipalDependency auth request (λ principal,
    ok (discover_storages pve (_backup_service request principal) cluster_id)).

Definition list_backup_targets request : DBM E (response (list BackupTargetResponse)) :=
  PrincipalDependency auth request (λ principal, ok (list_targets (_backup_service request principal))).

Definition create_backup_target request (payload : BackupTargetCreate) : DBM E (response BackupTargetResponse) :=
  PrincipalDependency auth request (λ principal,
    created (create_target pve (_backup_service request principal) payload)).

Definition update_backup_target request (target_id : N) (payload : BackupTargetUpdate)
  : DBM E (response BackupTargetResponse) :=
  PrincipalDependency auth request (λ principal,
    ok (update_target (_backup_service request principal) target_id payload)).

Definition request_workload_backup request (workload_id : N) (payload : BackupRequest)
    (idempotency_key : string) : DBM E (response BackupRunResponse) :=
  PrincipalDependency auth request (λ principal,
    validated (IdempotencyKey idempotency_key);;
    reply 202 (λ run, [location_of "/api/v1/admin/backups/" (bres_id run); RETRY_AFTER; NO_STORE])
      (fst <$> request_backup (_backup_service request principal) workload_id payload idempotency_key)).

Definition list_backups request (cluster_id workload_id : option N)
    (backup_status : option OperationStatus) (limit : Z) : DBM E (response (list BackupRunResponse)) :=
  PrincipalDependency auth request (λ principal,
    validated (ge_errors ["query"; "limit"] 1 limit ++ le_errors ["query"; "limit"] 500 limit);;
    ok (list_runs (_backup_service request principal) cluster_id workload_id backup_status limit)).

Definition get_backup request (run_id : N) : DBM E (response BackupRunResponse) :=
  PrincipalDependency auth request (λ principal,
    reply 200 (λ _, [NO_STORE]) (get_run (_backup_service request principal) run_id)).

Definition request_backup_restore request (run_id : N) (payload : RestoreRequest)
    (idempotency_key : string) : DBM E (response RestoreRunResponse) :=
  PrincipalDependency auth request (λ principal,
    validated (IdempotencyKey idempotency_key);;
    reply 202 (λ restore, [location_of "/api/v1/admin/restores/" (rres_id restore); RETRY_AFTER; NO_STORE])
      (fst <$> request_restore pve (_backup_service request principal) run_id payload idempotency_key)).

Definition get_restore request (restore_id : N) : DBM E (response RestoreRunResponse) :=
  PrincipalDependency auth request (λ principal,
    reply 200 (λ _, [NO_STORE]) (Backups.get_restore (_backup_service request principal) restore_id)).
End backups_api.

(** ** The endpoints of jobs, consoles and reports

    api/operations.py, api/customer.py, api/console.py (its two requests) and
    api/observability.py. *)

Section operations_api.
Context {E : Type} `{Runtime E} `{Jwt} `{FieldValidation} `{Digests}.
Context (auth : AuthSettings) (operation_publisher : Publisher E).
Implicit Types (request : http_request).
#[local] Existing Instance operation_publisher.

Local Abbreviation principal_of := (PrincipalDependency auth).

(** [_service] of api/operations.py and api/customer.py. *)
Definition _service request (principal : Principal) : service :=
  Service principal (rq_request_id request) (_source request).

(** *** api/operations.py *)

Definition _request_action request (workload_id : N) (action : PowerAction)
    (reason : option string) (idempotency_key : string) : DBM E (response JobResponse) :=
  principal_of request (λ principal,
    validated (IdempotencyKey idempotency_key);;
    reply 202 (λ job, [location_of "/api/v1/jobs/" (jr_id job); RETRY_AFTER; NO_STORE])
      (fst <$> Operations.request_power_action (_service request principal)
                 workload_id action idempotency_key reason)).

Definition request_workload_power_action request (workload_id : N) (action : PowerAction) :=
  _request_action request workload_id action.
Definition start_vm request (vm_id : N) := _request_action request vm_id START.
Definition shutdown_vm request (vm_id : N) := _request_action request vm_id SHUTDOWN.
Definition stop_vm request (vm_id : N) := _request_action request vm_id STOP.
Definition reboot_vm request (vm_id : N) := _request_action request vm_id REBOOT.
Definition reset_vm request (vm_id : N) := _request_action request vm_id RESET.

Definition get_job request (job_id : N) : DBM E (response JobResponse) :=
  principal_of request (λ principal,
    reply 200 (λ _, [NO_STORE]) (Operations.get_job (_service request principal) job_id)).

Definition update_vm_spec request (vm_id : N) (payload : VmSpecUpdateRequest) (idempotency_key : string)
  : DBM E (response JobResponse) :=
  principal_of request (λ principal,
    validated (IdempotencyKey idempotency_key);;
    reply 202 (λ job, [location_of "/api/v1/jobs/" (jr_id job)])
      (fst <$> request_admin_action (_service request principal) vm_id UPDATE_SPEC
                 idempotency_key (inl payload))).

Definition delete_vm request (vm_id : N) (payload : VmDeleteRequest) (idempotency_key : string)
  : DBM E (response JobResponse) :=
  principal_of request (λ principal,
    validated (IdempotencyKey idempotency_key);;
    reply 202 (λ job, [location_of "/api/v1/jobs/" (jr_id job)])
      (fst <$> request_admin_action (_service request principal) vm_id DELETE
                 idempotency_key (inr payload))).

(** *** api/customer.py *)

(** [CustomerPortalService(...)]: its constructor checks the role. *)
Definition _customer_service {A} request (principal : Principal) (method : service → DBM E A) : DBM E A :=
  customer_service (_service request principal) (method (_service request principal)).

Definition list_customer_vms request : DBM E (response (list CustomerVmSummary)) :=
  principal_of request (λ principal, ok (_customer_service request principal list_vms)).

Definition get_customer_vm request (vm_id : N) : DBM E (response CustomerVmDetailResponse) :=
  principal_of request (λ principal, ok (_customer_service request principal (λ self, get_vm self vm_id))).

Definition _power_action request (vm_id : N) (action : PowerAction) (reason : option string)
    (confirm_forced : bool) (idempotency_key : string) : DBM E (response CustomerJobResponse) :=
  principal_of request (λ principal,
    validated (IdempotencyKey idempotency_key);;
    reply 202 (λ job, [location_of "/api/v1/customer/jobs/" (cj_id job); RETRY_AFTER; NO_STORE])
      (_customer_service request principal (λ self,
         Customer.request_power_action self vm_id action idempotency_key reason confirm_forced))).

Definition start_customer_vm request (vm_id : N) := _power_action request vm_id START.
Definition shutdown_customer_vm request (vm_id : N) := _power_action request vm_id SHUTDOWN.
Definition reboot_customer_vm request (vm_id : N) := _power_action request vm_id REBOOT.
Definition stop_customer_vm request (vm_id : N) := _power_action request vm_id STOP.

Definition get_customer_job request (job_id : N) : DBM E (response CustomerJobResponse) :=
  principal_of request (λ principal,
    reply 200 (λ _, [NO_STORE])
      (_customer_service request principal (λ self, Customer.get_job self job_id))).
End operations_api.

(** *** api/console.py *)

Section console_api.
Context {E : Type} `{Runtime E} `{Jwt} `{Resolver E} `{HttpTransport E} `{CredentialSecrets E}.
Context `{Redis E} `{ConsoleSecrets E}.
Context (auth : AuthSettings) (console : ConsoleSettings) (pve : PveSettings).
Implicit Types (request : http_request).

Definition console_session_of (roles : list UserRole) request (workload_id : N)
  : DBM E (response ConsoleSessionResponse) :=
  PrincipalDependency auth request (λ principal,
    require_service_role principal roles;;
    reply 200 (λ _, [NO_STORE]) (Console.create console pve (_service request principal) workload_id)).

Definition create_console_session := console_session_of [SUPER_ADMIN; OPERATOR].
Definition create_customer_console_session := console_session_of [CUSTOMER].
End console_api.

(** *** api/observability.py *)

Section observability_api.
Context {E : Type} `{Runtime E} `{Jwt} `{FieldValidation} `{Redis E} `{CreatedAt}.
Context (auth : AuthSettings) (settings : ObservabilitySettings).
Context (audit_id : nat → N) (group_order : list (string * Z) → list (string * Z)).
Implicit Types (request : http_request).

(** No principal: the scraper does not log in. *)
Definition metrics request : DBM E (response string) :=
  reply 200 (λ _, [("Content-Type", "text/plain; version=0.0.4; charset=utf-8")])
    (prometheus_metrics settings group_order).

Definition operations_status request : DBM E (response OperationsStatusResponse) :=
  PrincipalDependency auth request (λ principal, ok (status settings (Some principal))).

(** The query parameters of the search. *)
Definition audit_query (action result : option string) (limit offset : Z) : list validation_error :=
  match action with Some s => length_errors ["query"; "action"] None (Some 80) s | None => [] end ++
  match result with Some s => length_errors ["query"; "result"] None (Some 20) s | None => [] end ++
  ge_errors ["query"; "limit"] 1 limit ++ le_errors ["query"; "limit"] 500 limit ++
  ge_errors ["query"; "offset"] 0 offset.

Definition list_audit_logs request (action : option string) (actor_user_id organization_id : option N)
    (result : option string) (limit offset : Z) : DBM E (response AuditLogListResponse) :=
  PrincipalDependency auth request (λ principal,
    validated (audit_query action result limit offset);;
    ok (audit_logs audit_id (Some principal) action actor_user_id organization_id result limit offset)).

Definition get_audit_log request (id : N) : DBM E (response AuditLogResponse) :=
  PrincipalDependency auth request (λ principal, ok (audit_log_view audit_id (Some principal) id)).
End observability_api.

(** *** api/health.py and health.py *)

(** Whether [SELECT 1] succeeds on the database; [PING]. *)
Class Probes (E : Type) := { env_select_1 : E → bool * E; env_ping : M E bool }.

Record Readiness := mkReadiness { rd_database : bool; rd_redis : bool }.
Definition rd_ready (r : Readiness) : bool := rd_database r && rd_redis r.

Section health_api.
Context {E : Type} `{Probes E}.

Definition database_is_ready : M E bool := λ e,
  (Ok (env_select_1 e).1, (env_select_1 e).2).

Definition redis_is_ready : M E bool := try_except env_ping (λ _, mret false).

Definition check_readiness : M E Readiness :=
  database ← database_is_ready; redis ← redis_is_ready; mret (mkReadiness database redis).

Definition health (request : http_request) : DBM E (response string) := ok (mret "ok").

Definition unavailable (readiness : Readiness) : list string :=
  (if rd_database readiness then [] else ["database"]) ++ (if rd_redis readiness then [] else ["redis"]).

Definition DEPENDENCY_UNAVAILABLE (readiness : Readiness) : exn :=
  AppError 503 "DEPENDENCY_UNAVAILABLE" "A required service is unavailable."
    [("services", JList (map JStr (unavailable readiness)))].

Definition ready (request : http_request) : DBM E (response (string * list (string * string))) :=
  readiness ← on_env check_readiness;
  raise_if (negb (rd_ready readiness)) (DEPENDENCY_UNAVAILABLE readiness);;
  ok (mret ("ready", [("database", "ready"); ("redis", "ready")])).
End health_api.
