(* ===== verification/Api.v ===== *)
(** * The HTTP interface

    main.py: every endpoint of the modelled routers as one type of requests, indexed by the
    answer, and what serves them.  The roles that an endpoint is for are those of the guard
    in its service. *)
From S2P Require Import Prelude Models Database AuditLog IpAddr Ipam Operations Auth Endpoints Client.
From S2P Require Import Accounts ProvApi Provisioning Clusters Workloads Customer Backups Redis Console.
From S2P Require Import Listings Observability Overview Http Routers.

Section endpoints.
Context `{Floats}.

Inductive endpoint : Type → Type :=
(* api/auth.py *)
| Login (payload : LoginRequest) : endpoint TokenResponse
| Refresh (refresh_token : N) : endpoint TokenResponse
| Logout (refresh_token : N) : endpoint ()
| Me : endpoint UserResponse
| ChangePassword (payload : ChangePasswordRequest) : endpoint ()
(* api/accounts.py *)
| CreateUser (payload : UserCreate) : endpoint UserResponse
| ListUsers : endpoint (list (UserResponse * list string))
| UpdateUser (user_id : N) (payload : UserUpdate) : endpoint UserResponse
| DeleteUser (user_id : N) (version : Z) : endpoint ()
| ResetUserPassword (user_id : N) (new_password : string) : endpoint ()
| CreateOrganization (name : string) : endpoint organization
| ListOrganizations (q : option string) (status : OrganizationStatus) (sort : OrganizationSort)
    (limit : option Z) (offset : Z) : endpoint (list organization * Z * option Z * Z)
| UpdateOrganization (id : N) (payload : OrganizationUpdate) : endpoint organization
| DeleteOrganization (id : N) (version : Z) : endpoint ()
| AddOrganizationMember (id user_id : N) : endpoint organization_member
| ListOrganizationMembers (id : N) : endpoint (list OrganizationMemberDetailResponse)
| RemoveOrganizationMember (id user_id : N) : endpoint ()
(* api/clusters.py *)
| CreateCluster (payload : ClusterCreate) : endpoint ClusterResponse
| ListClusters : endpoint (list ClusterResponse)
| ResourceOverview : endpoint (list ClusterResourceOverview)
| GetCluster (id : N) : endpoint ClusterResponse
| UpdateCluster (id : N) (payload : ClusterUpdate) : endpoint ClusterResponse
| DeleteCluster (id : N) : endpoint ()
| GetRemovalCheck (id : N) : endpoint (bool * list ClusterRemovalBlock)
| TestCluster (id : N) : endpoint ConnectionTestResponse
| ListNodes (id : N) : endpoint (list NodeResponse)
| NodeMetrics (id : N) (node : string) (range : NodeMetricRange) : endpoint NodeMetricSeriesResponse
| ListGuests (id : N) : endpoint (list GuestResponse)
| ListStorages (id : N) : endpoint (list StorageResponse)
| ImportWorkloads (id : N) : endpoint WorkloadImportResponse
(* api/workloads.py *)
| ListWorkloads (organization_id cluster_id : option N) : endpoint (list WorkloadResponse)
| GetWorkload (id : N) : endpoint WorkloadResponse
| AssignWorkload (id organization_id : N) : endpoint WorkloadAssignmentResponse
| UnassignWorkload (id : N) (reason : option string) : endpoint ()
| ListWorkloadAssignments (id : N) : endpoint (list WorkloadAssignmentResponse)
(* api/operations.py *)
| PowerActionRequest (id : N) (action : PowerAction) (reason : option string) (key : string)
  : endpoint JobResponse
| GetJob (id : N) : endpoint JobResponse
| UpdateVmSpec (id : N) (payload : VmSpecUpdateRequest) (key : string) : endpoint JobResponse
| DeleteVm (id : N) (payload : VmDeleteRequest) (key : string) : endpoint JobResponse
(* api/customer.py *)
| ListCustomerVms : endpoint (list CustomerVmSummary)
| GetCustomerVm (id : N) : endpoint CustomerVmDetailResponse
| CustomerPowerAction (id : N) (action : PowerAction) (reason : option string) (confirm_forced : bool)
    (key : string) : endpoint CustomerJobResponse
| GetCustomerJob (id : N) : endpoint CustomerJobResponse
(* api/console.py *)
| CreateConsoleSession (workload_id : N) : endpoint ConsoleSessionResponse
| CreateCustomerConsoleSession (workload_id : N) : endpoint ConsoleSessionResponse
(* api/ipam.py *)
| CreateIpPool (payload : IpPoolCreate) : endpoint IpPoolResponse
| ListIpPools : endpoint (list IpPoolResponse)
| GetIpPool (id : N) : endpoint IpPoolResponse
| UpdateIpPool (id : N) (payload : IpPoolUpdate) : endpoint IpPoolResponse
| DeleteIpPool (id : N) (version : Z) : endpoint ()
| ListIpAddresses (id : N) : endpoint (list IpAddressResponse)
| ReserveIpAddress (id : N) (address : ip_addr) (reason : string) : endpoint IpAddressResponse
| AllocateIpAddress (id workload_id : N) (address : option ip_addr) : endpoint IpAllocationResponse
| ReleaseIpAllocation (id : N) (reason : string) : endpoint IpAllocationResponse
| ApproveIpRelease (id : N) : endpoint IpAddressResponse
(* api/provisioning.py *)
| CreateProduct (payload : ProductCreate) : endpoint product
| ListProducts : endpoint (list product)
| UpdateProduct (id : N) (payload : ProductUpdate) : endpoint product
| DeleteProduct (id : N) : endpoint ()
| CreateTemplate (payload : TemplateCreate) : endpoint template
| ListTemplates : endpoint (list template)
| UpdateTemplate (id : N) (payload : TemplateUpdate) : endpoint template
| DeleteTemplate (id : N) : endpoint ()
| UpsertProvisioningNode (payload : ProvisioningNodeUpsert) : endpoint provisioning_node
| ListProvisioningNodes : endpoint (list provisioning_node)
| CreateProvisioningRequest (payload : ProvisioningRequestCreate) (key : string)
  : endpoint ProvisioningRequestResponse
| ListProvisioningRequests : endpoint (list ProvisioningRequestResponse)
| GetProvisioningRequest (id : N) : endpoint ProvisioningRequestResponse
(* api/backups.py *)
| DiscoverBackupStorages (id : N) : endpoint (list BackupStorageCandidate)
| ListBackupTargets : endpoint (list BackupTargetResponse)
| CreateBackupTarget (payload : BackupTargetCreate) : endpoint BackupTargetResponse
| UpdateBackupTarget (id : N) (payload : BackupTargetUpdate) : endpoint BackupTargetResponse
| RequestWorkloadBackup (id : N) (payload : BackupRequest) (key : string) : endpoint BackupRunResponse
| ListBackups (cluster_id workload_id : option N) (status : option OperationStatus) (limit : Z)
  : endpoint (list BackupRunResponse)
| GetBackup (id : N) : endpoint BackupRunResponse
| RequestBackupRestore (id : N) (payload : RestoreRequest) (key : string) : endpoint RestoreRunResponse
| GetRestore (id : N) : endpoint RestoreRunResponse
(* api/observability.py *)
| Metrics : endpoint string
| OperationsStatus : endpoint OperationsStatusResponse
| ListAuditLogs (action : option string) (actor_user_id organization_id : option N)
    (result : option string) (limit offset : Z) : endpoint AuditLogListResponse
| GetAuditLog (id : N) : endpoint AuditLogResponse
(* api/health.py *)
| Health : endpoint string
| Ready : endpoint (string * list (string * string)).

(** Who an endpoint is for; [None] where nobody has to be logged in. *)
Inductive audience := Anyone | LoggedIn | Staff | Administrators | Customers.

Definition roles_of (who : audience) : list UserRole :=
  match who with
  | Anyone | LoggedIn => [SUPER_ADMIN; OPERATOR; CUSTOMER]
  | Staff => [SUPER_ADMIN; OPERATOR]
  | Administrators => [SUPER_ADMIN]
  | Customers => [CUSTOMER]
  end.

Definition audience_of {A} (c : endpoint A) : audience :=
  match c with
  | Login _ | Refresh _ | Logout _ | Metrics | Health | Ready => Anyone
  | Me | ChangePassword _ => LoggedIn
  | ListUsers | ListOrganizations _ _ _ _ _ | ListOrganizationMembers _
  | CreateCluster _ | ListClusters | ResourceOverview | NodeMetrics _ _ _ | GetCluster _ | UpdateCluster _ _ | DeleteCluster _
  | GetRemovalCheck _ | TestCluster _ | ListNodes _ | ListGuests _ | ListStorages _ | ImportWorkloads _
  | ListWorkloads _ _ | GetWorkload _ | AssignWorkload _ _ | UnassignWorkload _ _
  | ListWorkloadAssignments _ | PowerActionRequest _ _ _ _ | GetJob _ | CreateConsoleSession _
  | DiscoverBackupStorages _ | ListBackupTargets | RequestWorkloadBackup _ _ _
  | ListBackups _ _ _ _ | GetBackup _ | OperationsStatus => Staff
  | ListCustomerVms | GetCustomerVm _ | CustomerPowerAction _ _ _ _ _ | GetCustomerJob _
  | CreateCustomerConsoleSession _ => Customers
  | _ => Administrators
  end.
End endpoints.

(** The settings of the application. *)
Record Settings := mkSettings {
  st_auth : AuthSettings; st_pve : PveSettings; st_console : ConsoleSettings;
  st_observability : ObservabilitySettings }.

(** [app.state]: the publishers of the power and the provisioning queue; and what the
    database adds (Observability.v). *)
Record AppState (E : Type) := mkAppState {
  operation_publisher : Publisher E; provisioning_publisher : Publisher E;
  as_audit_id : nat → N; as_group_order : list (string * Z) → list (string * Z) }.
Arguments operation_publisher {E} _.
Arguments provisioning_publisher {E} _.
Arguments as_audit_id {E} _.
Arguments as_group_order {E} _.

Section api.
Context {E : Type} `{Runtime E} `{ContextVars E} `{Passwords E} `{Jwt} `{Digests} `{FieldValidation}.
Context `{ProvisioningSecrets E} `{Resolver E} `{HttpTransport E} `{CredentialSecrets E} `{Schemas}.
Context `{BackupPublishers E} `{Redis E} `{ConsoleSecrets E} `{CreatedAt}.
Context `{Floats} `{EventLoop E} `{Probes E}.
Context (settings : Settings) (state : AppState E).
Implicit Types (request : http_request).

Local Abbreviation auth := (st_auth settings).
Local Abbreviation pve := (st_pve settings).
Local Abbreviation power := (operation_publisher state).
Local Abbreviation reports := (st_observability settings).

Definition run_endpoint {A} (c : endpoint A) request : DBM E (response A) :=
  match c with
  | Login payload => login auth request payload
  | Refresh token => refresh auth request token
  | Logout token => logout request token
  | Me => me auth request
  | ChangePassword payload => change_password auth request payload
  | CreateUser payload => create_user auth request payload
  | ListUsers => list_users auth request
  | UpdateUser id payload => update_user auth request id payload
  | DeleteUser id version => delete_user auth request id version
  | ResetUserPassword id password => reset_user_password auth request id password
  | CreateOrganization name => create_organization auth request name
  | ListOrganizations q st sort limit offset => list_organizations auth request q st sort limit offset
  | UpdateOrganization id payload => update_organization auth request id payload
  | DeleteOrganization id version => delete_organization auth request id version
  | AddOrganizationMember id user_id => add_organization_member auth request id user_id
  | ListOrganizationMembers id => list_organization_members auth request id
  | RemoveOrganizationMember id user_id => remove_organization_member auth request id user_id
  | CreateCluster payload => create_cluster auth pve request payload
  | ListClusters => list_clusters auth pve request
  | ResourceOverview => cluster_resource_overview auth pve request
  | NodeMetrics id node range => get_node_metrics auth pve request id node range
  | GetCluster id => get_cluster auth pve request id
  | UpdateCluster id payload => update_cluster auth pve request id payload
  | DeleteCluster id => delete_cluster auth pve request id
  | GetRemovalCheck id => get_cluster_removal_check auth pve request id
  | TestCluster id => test_cluster auth pve request id
  | ListNodes id => list_nodes auth pve request id
  | ListGuests id => list_guests auth pve request id
  | ListStorages id => list_storages auth pve request id
  | ImportWorkloads id => import_workloads auth pve request id
  | ListWorkloads organization_id cluster_id => list_workloads auth request organization_id cluster_id
  | GetWorkload id => get_workload auth request id
  | AssignWorkload id organization_id => assign_workload auth request id organization_id
  | UnassignWorkload id reason => unassign_workload auth request id reason
  | ListWorkloadAssignments id => list_workload_assignments auth request id
  | PowerActionRequest id action reason key =>
    request_workload_power_action auth power request id action reason key
  | GetJob id => get_job auth request id
  | UpdateVmSpec id payload key => update_vm_spec auth power request id payload key
  | DeleteVm id payload key => delete_vm auth power request id payload key
  | ListCustomerVms => list_customer_vms auth request
  | GetCustomerVm id => get_customer_vm auth request id
  | CustomerPowerAction id action reason confirm key =>
    _power_action auth power request id action reason confirm key
  | GetCustomerJob id => get_customer_job auth request id
  | CreateConsoleSession id => create_console_session auth (st_console settings) pve request id
  | CreateCustomerConsoleSession id =>
    create_customer_console_session auth (st_console settings) pve request id
  | CreateIpPool payload => create_ip_pool auth request payload
  | ListIpPools => list_ip_pools auth request
  | GetIpPool id => get_ip_pool auth request id
  | UpdateIpPool id payload => update_ip_pool auth request id payload
  | DeleteIpPool id version => delete_ip_pool auth request id version
  | ListIpAddresses id => list_ip_addresses auth request id
  | ReserveIpAddress id address reason => reserve_ip_address auth request id address reason
  | AllocateIpAddress id workload_id address => allocate_ip_address auth request id workload_id address
  | ReleaseIpAllocation id reason => release_ip_allocation auth request id reason
  | ApproveIpRelease id => approve_ip_release auth request id
  | CreateProduct payload => create_product auth request payload
  | ListProducts => list_products auth request
  | UpdateProduct id payload => update_product auth request id payload
  | DeleteProduct id => delete_product auth request id
  | CreateTemplate payload => create_template auth request payload
  | ListTemplates => list_templates auth request
  | UpdateTemplate id payload => update_template auth request id payload
  | DeleteTemplate id => delete_template auth request id
  | UpsertProvisioningNode payload => upsert_provisioning_node auth request payload
  | ListProvisioningNodes => list_provisioning_nodes auth request
  | CreateProvisioningRequest payload key =>
    create_provisioning_request auth (provisioning_publisher state) request payload key
  | ListProvisioningRequests => list_provisioning_requests auth request
  | GetProvisioningRequest id => get_provisioning_request auth request id
  | DiscoverBackupStorages id => discover_backup_storages auth pve request id
  | ListBackupTargets => list_backup_targets auth request
  | CreateBackupTarget payload => create_backup_target auth pve request payload
  | UpdateBackupTarget id payload => update_backup_target auth request id payload
  | RequestWorkloadBackup id payload key => request_workload_backup auth request id payload key
  | ListBackups cluster_id workload_id st limit => list_backups auth request cluster_id workload_id st limit
  | GetBackup id => get_backup auth request id
  | RequestBackupRestore id payload key => request_backup_restore auth pve request id payload key
  | GetRestore id => get_restore auth request id
  | Metrics => metrics reports (as_group_order state) request
  | OperationsStatus => operations_status auth reports request
  | ListAuditLogs action actor organization_id result limit offset =>
    list_audit_logs auth (as_audit_id state) request action actor organization_id result limit offset
  | GetAuditLog id => get_audit_log auth (as_audit_id state) request id
  | Health => health request
  | Ready => ready request
  end.

(** A request to the application. *)
Definition app {A} (c : endpoint A) (scope : http_scope) : DBM E (response A) :=
  serve (run_endpoint c) scope.
End api.
