(* ===== verification/ApiProps.v ===== *)
(** * Who is served, and how

    Every endpoint but login, refresh, logout, the metrics and the probes answers only an active user
    whose access token is of the current session epoch and whose role is in the endpoint's
    audience: any other request changes nothing and gets 401, 403 or 422.  Answers carry
    the identifier of their request. *)
From Stdlib Require Import Lia.
From S2P Require Import Prelude Models Database AuditLog IpAddr Ipam Operations Auth Endpoints.
From S2P Require Import Client UuidText Accounts ProvApi Provisioning Clusters Workloads.
From S2P Require Import Customer Backups Redis Console Listings Observability Overview Http Routers.
From S2P Require Import Api OperationsProps.

(** ** Refusals *)

(** What a request of the wrong role gets. *)
Definition refusal (x : exn) : Prop := x = FORBIDDEN ∨ ∃ errors, x = RequestValidationError errors.

Section refuses.
Context {E : Type} `{FieldValidation}.

(** Of a principal outside the roles: an immediate refusal. *)
Definition refuses {A} (roles : list UserRole) (p : Principal) (m : DBM E A) : Prop :=
  p_role p ∉ roles → ∀ w, ∃ x, refusal x ∧ m w = (Raise x, w).

Lemma refuses_role roles p : refuses roles p (require_service_role p roles : DBM E ()).
Proof.
  intros Hp w. exists FORBIDDEN. split; [by left|]. unfold require_service_role.
  by rewrite bool_decide_eq_true_2.
Qed.

Lemma refuses_bind {A B} roles p (m : DBM E A) (f : A → DBM E B) :
  refuses roles p m → refuses roles p (m ≫= f).
Proof. intros Hm Hp w. destruct (Hm Hp w) as (x & Hx & Hr). exists x. unfold mbind, M_bind. by rewrite Hr. Qed.

Lemma refuses_fmap {A B} roles p (m : DBM E A) (f : A → B) :
  refuses roles p m → refuses roles p (f <$> m).
Proof. intros Hm Hp w. destruct (Hm Hp w) as (x & Hx & Hr). exists x. unfold fmap, M_fmap. by rewrite Hr. Qed.

Lemma refuses_validated {A} roles p errors (m : DBM E A) :
  refuses roles p m → refuses roles p (validated errors;; m).
Proof.
  intros Hm Hp w. unfold validated, raise_if. destruct (negb _); simpl; [|apply (Hm Hp w)].
  eexists. split; [right; by eexists|done].
Qed.

Lemma refuses_everyone {A} p (m : DBM E A) : refuses [SUPER_ADMIN; OPERATOR; CUSTOMER] p m.
Proof. intros Hp. exfalso. apply Hp. destruct (p_role p); set_solver. Qed.
End refuses.

Ltac head_of m := match m with ?f _ => head_of f | _ => m end.

(** Follow a method to the guard it begins with. *)
Ltac refuse :=
  repeat first
    [ apply refuses_role | apply refuses_everyone | apply refuses_validated
    | apply refuses_bind | apply refuses_fmap
    | match goal with |- refuses _ _ ?m => let h := head_of m in unfold h; cbv beta iota end ].

(** ** Authentication *)

Section authentication.
Context {E : Type} `{Runtime E} `{Jwt}.
Context (auth : AuthSettings).

(** The principal [p] is an active user of [d], and the header has an access token that is
    valid at [now] for the user's current session epoch. *)
Definition current_principal (authorization : option string) (now : Z) (d : db) (p : Principal) : Prop :=
  ∃ header token payload u,
    authorization = Some header ∧ bearer_token header = Some token ∧
    jwt_decode now (jwt_audience auth) (jwt_issuer auth) token = Some payload ∧
    jp_type payload = "access" ∧ db_users d !! jp_sub payload = Some u ∧ u_is_active u = true ∧
    u_session_epoch u = jp_epoch payload ∧
    p = mkPrincipal (u_id u) (u_email u) (u_role u) (u_session_epoch u).

Lemma get_principal_run authorization (w : world E) :
  ∃ e', match get_current_principal auth authorization w with
        | (Ok p, w') => w' = World (w_db w) (w_tx w) (w_dup w) e' ∧
            current_principal authorization (env_now (w_env w)).1 (w_tx w) p
        | (Raise x, w') => w' = World (w_db w) (w_tx w) (w_dup w) e' ∧
            (x = AUTHENTICATION_REQUIRED ∨ x = INVALID_ACCESS_TOKEN)
        end.
Proof.
  destruct w as [d t b e]. cut (wp (get_current_principal auth authorization)
    (λ r w', ∃ e', w' = World d t b e' ∧ match r with
       | Ok p => current_principal authorization (env_now e).1 t p
       | Raise x => x = AUTHENTICATION_REQUIRED ∨ x = INVALID_ACCESS_TOKEN end) (World d t b e)).
  { unfold wp. destruct (get_current_principal _ _ _) as [[p|x] w']; simpl; naive_solver. }
  unfold get_current_principal, decode_access_token. wp_run; eauto.
  destruct authorization as [header|]; [|done]. cbn [w_env ac_user_id ac_session_epoch] in *. subst.
  match goal with Hn : env_now e = _, Hg : negb _ || _ = false |- _ =>
    rewrite Hn; apply orb_false_iff in Hg as [Ha%negb_false_iff He%bool_decide_eq_false] end.
  eexists. split; [reflexivity|]. exists header. do 3 eexists. split_and!; try done.
  - match goal with Ht : bool_decide (jp_type _ ≠ _) = false |- _ => apply bool_decide_eq_false in Ht end.
    by apply dec_stable.
  - by apply dec_stable.
Qed.

End authentication.

Section guarded.
Context {E : Type} `{Runtime E} `{ContextVars E} `{Passwords E} `{Jwt} `{Digests} `{FieldValidation}.
Context `{ProvisioningSecrets E} `{Resolver E} `{HttpTransport E} `{CredentialSecrets E} `{Schemas}.
Context `{BackupPublishers E} `{Redis E} `{ConsoleSecrets E} `{CreatedAt}.
Context `{Floats} `{EventLoop E} `{Probes E}.
Context (settings : Settings) (state : AppState E).

(** An endpoint with an audience authenticates first and then refuses all others. *)
Lemma endpoint_guarded {A} (c : endpoint A) request :
  audience_of c ≠ Anyone →
  ∃ h, run_endpoint settings state c request = PrincipalDependency (st_auth settings) request h ∧
       ∀ p, refuses (roles_of (audience_of c)) p (h p).
Proof.
  intros Hc. destruct c; try done.
  all: eexists; (split; [reflexivity|]); intros p.
  all: refuse.
Qed.

(** *** The middleware *)

(** The answer with the header of the request. *)
Definition identified {A} (request_id : string) (r : outcome (response A)) : outcome (response A) :=
  match r with
  | Ok answer => Ok (mkResponse (rs_status answer) (rs_headers answer ++ [("X-Request-ID", request_id)])
                       (rs_content answer))
  | Raise x => Raise x
  end.

(** The identifier that a request gets. *)
Definition request_id_of (scope : http_scope) (request_id : string) : Prop :=
  if REQUEST_ID_PATTERN (default "" (sc_x_request_id scope))
  then sc_x_request_id scope = Some request_id
  else ∃ id, request_id = str_uuid id.

(** Whatever the endpoint, the request it sees and the environment it starts from are the
    same, and so is what happens afterwards. *)
Lemma serve_run scope d e : ∃ request_id e1 (after : E → E),
  request_id_of scope request_id ∧
  ∀ A (f : http_request → DBM E (response A)),
    exec (serve f scope) d e =
    let '(r, w) := exception_handlers f (mkRequest request_id (sc_authorization scope) (sc_client scope))
                     (World d d false e1) in
    (identified request_id r, w_db w, after (w_env w)).
Proof.
  assert (∃ request_id e0, request_id_of scope request_id ∧
    new_request_id scope (World d d false e) = (Ok request_id, World d d false e0)) as (rid & e0 & Hrid & Hnew).
  { unfold new_request_id, request_id_of. destruct (REQUEST_ID_PATTERN _) eqn:Hp.
    - exists (default "" (sc_x_request_id scope)), e. split; [|done]. by destruct (sc_x_request_id scope).
    - destruct (env_uuid4 e) as [id e0] eqn:Hu. exists (str_uuid id), e0. split; [eauto|].
      unfold uuid4, from_env, mbind, M_bind. simpl. by rewrite Hu. }
  exists rid, (set_user_agent_context (sc_user_agent scope) (set_source_ip_context (sc_client scope)
    (set_request_id_context (Some rid) e0))), (λ e', set_request_id_context (env_request_id e0)
    (set_source_ip_context (env_source_ip e0) (set_user_agent_context (env_user_agent e0) e'))).
  split; [done|]. intros A f. unfold serve, RequestIdMiddleware, exec. unfold mbind, M_bind. rewrite Hnew.
  cbn. unfold try_finally.
  match goal with |- context [exception_handlers f _ ?w] => change w with (World d d false (set_user_agent_context
    (sc_user_agent scope) (set_source_ip_context (sc_client scope) (set_request_id_context (Some rid) e0)))) end.
  by destruct (exception_handlers f _ _) as [[answer|x] [d' t' b' e']].
Qed.

(** ** Who is served *)

(** C23: an endpoint with an audience answers only a current user of that audience.  Any
    other request is answered 401, 403 or 422, leaves the database as it was, and does
    nothing but authenticate: nothing is published and no cluster is called. *)
Theorem only_audience_served {A} (c : endpoint A) scope d e r d' e' :
  audience_of c ≠ Anyone → exec (app settings state c scope) d e = (r, d', e') →
  (∃ now p, current_principal (st_auth settings) (sc_authorization scope) now d p ∧ p_role p ∈ roles_of (audience_of c)) ∨
  (d' = d ∧ (∃ answer, r = Ok answer ∧ rs_status answer ∈ [401; 403; 422]) ∧
   e' = (exec (serve (λ request, PrincipalDependency (st_auth settings) request (λ _, raise FORBIDDEN) :
                        DBM E (response A)) scope) d e).2).
Proof.
  intros Hc. unfold app. destruct (serve_run scope d e) as (rid & e1 & after & _ & Hserve).
  rewrite !Hserve. unfold exception_handlers, try_except. set (request := mkRequest _ _ _).
  destruct (endpoint_guarded c request Hc) as (h & -> & Hh). unfold PrincipalDependency, mbind, M_bind.
  destruct (get_principal_run (st_auth settings) (rq_authorization request) (World d d false e1)) as [e2 Hauth].
  cbn [w_db w_tx w_dup w_env] in Hauth.
  destruct (get_current_principal _ _ _) as [[p|x] w].
  - destruct Hauth as [-> Hp]. destruct (decide (p_role p ∈ roles_of (audience_of c))) as [Hr|Hr].
    { intros _. left. eauto. }
    destruct (Hh p Hr (World d d false e2)) as (x & Hx & ->). intros Hrun. right. cbn.
    destruct Hx as [->|[errors ->]]; injection Hrun as <- <- <-; (split_and!; [done| |done]);
      eexists; (split; [reflexivity|]); cbn; set_solver.
  - destruct Hauth as [-> Hx]. intros Hrun. right. cbn in *.
    destruct Hx as [-> | ->]; injection Hrun as <- <- <-; (split_and!; [done| |done]);
      eexists; (split; [reflexivity|]); cbn; set_solver.
Qed.

(** ** Identified answers *)

(** An endpoint answers with what its service returned or nothing; only the handlers of
    exceptions write an error. *)
Definition bodies {A} (m : DBM E (response A)) : Prop :=
  ∀ w answer w', m w = (Ok answer, w') → ∀ error, rs_content answer ≠ ErrorResponse error.

Lemma bodies_bind {A B} (m : DBM E B) (f : B → DBM E (response A)) :
  (∀ b, bodies (f b)) → bodies (m ≫= f).
Proof.
  intros Hf w answer w'. unfold mbind, M_bind. destruct (m w) as [[b|x] w1]; [apply Hf|done].
Qed.

Lemma bodies_reply {A} status headers (m : DBM E A) : bodies (reply status headers m).
Proof. apply bodies_bind. intros a w answer w' [= <- <-] error. done. Qed.

Lemma bodies_no_content (m : DBM E ()) : bodies (no_content m).
Proof. apply bodies_bind. intros a w answer w' [= <- <-] error. done. Qed.

Lemma endpoint_bodies {A} (c : endpoint A) request : bodies (run_endpoint settings state c request).
Proof.
  destruct c; cbn [run_endpoint];
  repeat first
    [ apply bodies_reply | apply bodies_no_content | apply bodies_bind; intros ?
    | match goal with |- bodies ?m => let h := head_of m in unfold h; cbv beta zeta end ].
Qed.

Lemma length_take_str n s : (n ≤ String.length s)%nat → String.length (str_take n s) = n.
Proof. revert s. induction n as [|n IH]; intros [|a s]; simpl; try lia. intros Hn. rewrite IH; lia. Qed.

Lemma length_drop_str n s : String.length (str_drop n s) = (String.length s - n)%nat.
Proof. revert s. induction n as [|n IH]; intros [|a s]; simpl; try done. Qed.

Lemma length_app_str s t : String.length (s +:+ t) = (String.length s + String.length t)%nat.
Proof. induction s as [|a s IH]; [done|]. exact (f_equal S IH). Qed.

Lemma str_uuid_length id : String.length (str_uuid id) = 36%nat.
Proof.
  assert (String.length (uuid_hex id) = 32%nat) as Hlen by (unfold uuid_hex; by rewrite fixed_hex_length).
  unfold str_uuid. cbv zeta. rewrite !length_app_str, !length_drop_str, !length_take_str; rewrite ?length_drop_str, Hlen; simpl; lia.
Qed.

Lemma request_id_pattern scope request_id :
  request_id_of scope request_id → REQUEST_ID_PATTERN request_id = true.
Proof.
  unfold request_id_of. destruct (REQUEST_ID_PATTERN (default _ _)) eqn:Hp.
  - intros Hs. by rewrite Hs in Hp.
  - intros [id ->]. unfold REQUEST_ID_PATTERN. rewrite str_uuid_length, andb_true_r, andb_true_r.
    eapply str_all_impl; [|apply str_uuid_chars]. intros a.
    destruct a as [[] [] [] [] [] [] [] []]; vm_compute; congruence.
Qed.

End guarded.

(** ** The location of an accepted job

    The address in the header [Location] of an accepted power action, specification change
    or deletion is that of the job: a request for it is answered with the same job. *)

Section jobs.
Context {E : Type} `{Runtime E} `{Publisher E} `{Digests}.
Implicit Types (self : service) (c : operation_call) (d : db) (w : world E).

(** [resp] is what the service says of a row of [d']. *)
Definition answered d' (resp : JobResponse) : Prop :=
  ∃ o, db_operations d' !! op_id o = Some o ∧ jr_id resp = op_id o ∧
    ∀ w, w_tx w = d' → _response o w = (Ok resp, w).

Definition answer_post (r : outcome (JobResponse * bool)) w : Prop :=
  match r with Ok (resp, _) => answered (w_db w) resp | Raise _ => True end.

Lemma wp_response_answered o b w :
  w_tx w = w_db w → db_operations (w_db w) !! op_id o = Some o →
  wp (response ← _response o; mret (response, b)) answer_post w.
Proof.
  intros Htx Ho. apply wp_bind. unfold _response. apply wp_bind, wp_gets, wp_ret, wp_ret.
  exists o. split; [done|]. split; [done|]. intros w' Hw'. unfold _response, db_scalar_ordered, gets, mbind, M_bind.
  by rewrite Hw', Htx.
Qed.

Lemma wp_recorded_answered o audit e1 e2 task_id w :
  w_tx w = w_db w →
  wp (db_add o;; or_conflict flush e1;; add_audit_event audit;; or_conflict commit e2;;
      publish (op_id o) task_id;; response ← _response o; mret (response, true)) answer_post w.
Proof.
  intros Htx. wp_run; try done. apply wp_publish. intros e'. apply wp_response_answered; [done|].
  cbn. apply lookup_insert_eq.
Qed.

Lemma wp_existing_answered self key o e1 (P : bool) w :
  keyed operation (w_db w) → w_tx w = w_db w →
  first_row (op_of_key (p_user_id (self_principal self)) key) (w_tx w) = Some o →
  wp (raise_if P e1;; response ← _response o; mret (response, false)) answer_post w.
Proof.
  intros Hk Htx [_ [i Hi]]%first_row_Some. apply wp_bind, wp_raise_if; intros _; [done|].
  apply wp_response_answered; [done|]. rewrite <-Htx. change (rows (w_tx w)) with (db_operations (w_tx w)) in Hi.
  pose proof Hi as Hi'. rewrite Htx in Hi'. apply Hk in Hi'. simpl in Hi'. by rewrite Hi'.
Qed.

Lemma wp_run_answered self c d e :
  keyed operation d → wp (operation_run self c) answer_post (World d d false e).
Proof.
  intros Hk. destruct c as [id action key reason|id action key payload]; cbn [operation_run].
  - unfold Operations.request_power_action. do 2 wp_step; [done|]. do 4 wp_step; [done|]. do 2 wp_step; [done|].
    do 2 wp_step. wp_step; [by eapply wp_existing_answered|].
    do 2 wp_step. wp_step; [by wp_step|]. do 6 wp_step. by apply wp_recorded_answered.
  - unfold request_admin_action. do 2 wp_step; [done|]. do 4 wp_step; [done|].
    apply wp_bind, wp_requested_change; [done|]. intros fields _ _.
    do 2 wp_step. wp_step; [by eapply wp_existing_answered|].
    do 4 wp_step; [done|]. do 6 wp_step. by apply wp_recorded_answered.
Qed.
End jobs.

(** ** The endpoints *)

(** The endpoints that accept jobs. *)
Inductive job_call :=
| PowerJob (workload_id : N) (action : PowerAction) (reason : option string)
| SpecJob (vm_id : N) (payload : VmSpecUpdateRequest)
| DeleteJob (vm_id : N) (payload : VmDeleteRequest).

Section location.
Context {E : Type} `{Runtime E} `{Jwt} `{FieldValidation} `{Digests}.
Context (auth : AuthSettings) (power : Publisher E).

Definition job_endpoint (request : http_request) (key : string) (j : job_call) : DBM E (response JobResponse) :=
  match j with
  | PowerJob id action reason => request_workload_power_action auth power request id action reason key
  | SpecJob id payload => update_vm_spec auth power request id payload key
  | DeleteJob id payload => delete_vm auth power request id payload key
  end.

(** What a job endpoint does with an authenticated principal. *)
Lemma wp_job_reply headers (m : DBM E (JobResponse * bool)) w :
  wp m answer_post w →
  wp (reply 202 headers (fst <$> m)) (λ r w', ∀ answer, r = Ok answer → ∃ job,
    answer = mkResponse 202 (headers job) (Body job) ∧ answered (E := E) (w_db w') job) w.
Proof.
  intros Hm. unfold reply. apply wp_bind. unfold wp, fmap, M_fmap in *.
  destruct (m w) as [[[job b]|x] w']; simpl in *; [|done]. intros answer [= <-]. by exists job.
Qed.

(** C25: an accepted job is answered 202 with an address that names it, and a request for
    that address answers 200 with the same job as long as it has not moved on; at worst the
    caller is not let in. *)
Theorem job_location request key j d e answer d1 e1 :
  keyed operation d → exec (job_endpoint request key j) d e = (Ok answer, d1, e1) →
  ∃ job, rs_status answer = 202 ∧ rs_content answer = Body job ∧
    ("Location", "/api/v1/jobs/" +:+ str_uuid (jr_id job)) ∈ rs_headers answer ∧
    ((jr_id job < 2 ^ 128)%N → uuid_of_text (str_uuid (jr_id job)) = Some (jr_id job)) ∧
    ∀ request' e2 r d2 e3, exec (get_job auth request' (jr_id job)) d1 e2 = (r, d2, e3) →
      d2 = d1 ∧ match r with
                | Ok shown => rs_status shown = 200 ∧ rs_content shown = Body job
                | Raise x => x ∈ [AUTHENTICATION_REQUIRED; INVALID_ACCESS_TOKEN; FORBIDDEN]
                end.
Proof.
  intros Hk Hrun. eapply exec_wp with (Q := λ r w, ∀ answer, r = Ok answer → ∃ headers job,
    answer = mkResponse 202 (location_of "/api/v1/jobs/" (jr_id job) :: headers) (Body job) ∧
    answered (E := E) (w_db w) job) in Hrun.
  - destruct Hrun as (w & Hpost & Hw & _).
    destruct (Hpost _ eq_refl) as (headers & job & -> & o & Ho & Hid & Hshow). exists job. rewrite Hw in *.
    split_and!; [done|done|by left|apply uuid_text_round_trip|]. intros request' e2 r d2 e3 Hget.
    start_run Hget. unfold get_job, PrincipalDependency. apply wp_bind, wp_intro. intros rp w2 Hp.
    destruct (get_principal_run auth (rq_authorization request') (World d1 d1 false e2)) as [e4 Hauth].
    rewrite Hp in Hauth. destruct rp as [p|x]; destruct Hauth as [-> Hx]; [|split; [done|destruct Hx; set_solver]].
    unfold reply, Operations.get_job. wp_run; [by split; [|set_solver]| |].
    + exfalso. subst. simpl in *. congruence.
    + assert (a = o) as -> by (subst; simpl in *; congruence).
      unfold wp. by rewrite Hshow.
  - assert (∀ (m : Principal → DBM E (JobResponse * bool)) headers,
      (∀ p w, w_db w = d → w_tx w = d → w_dup w = false → wp (m p) answer_post w) →
      wp (PrincipalDependency auth request (λ p, validated (IdempotencyKey key);;
            reply 202 (λ job, location_of "/api/v1/jobs/" (jr_id job) :: headers) (fst <$> m p)))
        (λ r w, ∀ answer, r = Ok answer → ∃ headers job,
           answer = mkResponse 202 (location_of "/api/v1/jobs/" (jr_id job) :: headers) (Body job) ∧
           answered (E := E) (w_db w) job) (World d d false e)) as Hend.
    { intros m headers Hm. apply wp_bind, wp_intro. intros rp w2 Hp.
      destruct (get_principal_run auth (rq_authorization request) (World d d false e)) as [e4 Hauth].
      rewrite Hp in Hauth. destruct rp as [p|x]; [|done]. destruct Hauth as [-> _].
      apply wp_bind, wp_raise_if; intros _; [done|].
      eapply wp_mono; [apply wp_job_reply, Hm; done|]. intros r w Hr a ->.
      destruct (Hr a eq_refl) as (job & -> & Ha). eauto. }
    assert (∀ self c w, w_db w = d → w_tx w = d → w_dup w = false → wp (operation_run self c) answer_post w) as Hop.
    { intros self c [? ? ? e5]. simpl. intros -> -> ->. by apply wp_run_answered. }
    destruct j; apply Hend; intros p; [apply (Hop _ (CallPower _ _ _ _))|apply (Hop _ (CallAdmin _ _ _ _))..].
Qed.
End location.
