(* ===== verification/ConsoleProps.v ===== *)
(** * Console sessions: properties

    What a console grant is worth (redeemed once, with its token, for what its creator
    was allowed), what opens a console, and who holds the live slot.  Redis is known
    through [RedisLaws] only: keys may expire and commands may fail at any time. *)
From S2P Require Import Prelude Models Database AuditLog Operations PveApi IpAddr IpText Endpoints.
From S2P Require Import Client Clusters Accounts Customer UuidText BackupSize Redis Console.
From Stdlib Require Import Lia.

(** ** Numbers as text *)

Lemma int_of_body_digits acc b s :
  b = true ∨ s ≠ "" → str_all is_digit s = true → int_of_body acc b s = Some (digits_value acc s).
Proof.
  revert acc b. induction s as [|a s IH]; intros acc b Hb; [by destruct Hb as [->|?]|].
  intros [[v Hv]%bool_decide_eq_true Hs]%andb_true_iff. simpl. rewrite Hv. apply IH; [by left|done].
Qed.

Lemma str_strip_solid s : str_all (λ a, negb (is_space a)) s = true → str_strip s = s.
Proof.
  intros Hs. unfold str_strip. assert (str_lstrip s = s) as ->.
  { destruct s as [|a s]; [done|]. apply andb_true_iff in Hs as [Ha%negb_true_iff _]. simpl. by rewrite Ha. }
  induction s as [|a s IH]; [done|]. apply andb_true_iff in Hs as [Ha%negb_true_iff Hs]. simpl.
  rewrite IH by done. destruct s; [by rewrite Ha|done].
Qed.

Lemma digit_code a : is_digit a = true → (48 <= code_of a <= 57)%nat.
Proof.
  intros [v Hv]%bool_decide_eq_true. unfold digit_value, code_of in *. case_match eqn:Hc; [|done].
  apply andb_true_iff in Hc as [H1 H2]. lia.
Qed.

Lemma digit_not_space a : is_digit a = true → negb (is_space a) = true.
Proof.
  intros Ha%digit_code. unfold is_space, code_of in *. apply negb_true_iff, orb_false_iff.
  split; apply andb_false_iff; right; apply Nat.leb_gt; lia.
Qed.

(** [int(str(z)) == z]. *)
Lemma py_int_pretty z : py_int (pretty z) = Some z.
Proof.
  assert (∀ n, 0 ≤ n → ∃ a r, pretty n = String a r ∧ is_digit a = true ∧ str_all is_digit (String a r) = true ∧
    int_of_body 0 false (String a r) = Some n) as Hnat.
  { intros n Hn. destruct (pretty_digits n Hn) as (Hd & Hv & Hne).
    destruct (pretty n) as [|a r] eqn:Hp; [done|]. exists a, r. split_and!; try done.
    - by apply andb_true_iff in Hd as [? _].
    - rewrite int_of_body_digits by auto. by rewrite Hv. }
  assert (∀ s, str_all is_digit s = true → str_all (λ a, negb (is_space a)) s = true) as Hsolid
    by (intros s; apply str_all_impl, digit_not_space).
  assert (z < 0 ∨ 0 ≤ z) as [Hz|Hz] by lia.
  - destruct z as [|p|p]; [lia|lia|]. change (pretty (Z.neg p)) with ("-" +:+ pretty (Z.pos p)).
    destruct (Hnat (Z.pos p)) as (a & r & -> & Ha & Hd & Hb); [lia|]. unfold py_int.
    rewrite str_strip_solid by (exact (Hsolid _ Hd)).
    change ("-" +:+ String a r) with (String (Ascii.ascii_of_nat 45) (String a r)). cbv iota.
    rewrite bool_decide_true by reflexivity. by rewrite Hb.
  - destruct (Hnat z Hz) as (a & r & -> & Ha & Hd & Hb). unfold py_int.
    rewrite str_strip_solid by by apply Hsolid. apply digit_code in Ha.
    rewrite !bool_decide_eq_false_2 by lia. exact Hb.
Qed.

(** ** Payloads *)

Lemma payload_get_map k l : NoDup l.*1 → payload_get k l = list_to_map (M := gmap string string) l !! k.
Proof.
  induction l as [|[k' v] l IH]; [done|]. simpl. intros [Hn Hl]%NoDup_cons. rewrite IH by done.
  destruct (decide (k' = k)) as [->|Hne].
  - rewrite lookup_insert_eq, bool_decide_true by done.
    by rewrite (not_elem_of_list_to_map_1 l k Hn).
  - rewrite lookup_insert_ne, bool_decide_false by done. by destruct (_ !! k).
Qed.

Lemma grant_of_ext id l l' :
  (∀ k, k ∈ ["user_id"; "session_epoch"; "role"; "workload_id"; "pve_kind"; "pve_port"; "pve_ticket"; "pve_user"] →
     payload_get k l = payload_get k l') → grant_of id l = grant_of id l'.
Proof.
  intros Heq. unfold grant_of.
  by rewrite !Heq by (repeat (apply list_elem_of_here || apply list_elem_of_further)).
Qed.

(** The grant that the fields of a session stand for. *)
Definition grant_for (session_id : N) (principal : Principal) (workload_id : N)
    (proxy : ConsoleProxyTicket) : ConsoleGrant := {|
  cg_session_id := session_id; cg_user_id := p_user_id principal;
  cg_session_epoch := p_session_epoch principal; cg_role := p_role principal;
  cg_workload_id := workload_id; cg_pve_kind := cpt_kind proxy;
  cg_pve_user := match cpt_user proxy with
                 | Some s => if str_nonempty s then Some s else None | None => None end;
  cg_pve_port := cpt_port proxy; cg_pve_ticket := cpt_ticket proxy |}.

Lemma UserRole_round_trip r : UserRole_of_value (UserRole_value r) = Some r.
Proof. by destruct r. Qed.

Lemma grant_of_fields id hash principal workload_id proxy :
  (p_user_id principal < 2 ^ 128)%N → (workload_id < 2 ^ 128)%N →
  grant_of id (grant_fields hash principal workload_id proxy) = Some (grant_for id principal workload_id proxy).
Proof.
  intros Hu Hw. unfold grant_of. set (fields := grant_fields _ _ _ _).
  change (payload_get "user_id" fields) with (Some (str_uuid (p_user_id principal))).
  change (payload_get "session_epoch" fields) with (Some (pretty (p_session_epoch principal))).
  change (payload_get "role" fields) with (Some (UserRole_value (p_role principal))).
  change (payload_get "workload_id" fields) with (Some (str_uuid workload_id)).
  change (payload_get "pve_kind" fields) with (Some (cpt_kind proxy)).
  change (payload_get "pve_port" fields) with (Some (pretty (cpt_port proxy))).
  change (payload_get "pve_ticket" fields) with (Some (cpt_ticket proxy)).
  change (payload_get "pve_user" fields) with (Some (str_or (cpt_user proxy) "")).
  cbn [mbind option_bind].
  rewrite !uuid_text_round_trip, !py_int_pretty, UserRole_round_trip by done.
  unfold grant_for. cbn. do 2 f_equal. destruct (cpt_user proxy) as [s|]; [|done]. simpl.
  destruct (str_nonempty s) eqn:Hs; [by rewrite Hs|done].
Qed.

(** ** Commands and scripts *)

Lemma subseteq_lookup {V} (m n : gmap string V) k : m ⊆ n → m !! k = None ∨ m !! k = n !! k.
Proof. intros Hs. destruct (m !! k) as [v|] eqn:Hk; [right|by left]. symmetry. by eapply lookup_weaken. Qed.

Section redis.
Context {E : Type} `{RedisLaws E} `{ConsoleSecrets E}.
Implicit Types (e : E) (s : redis_server (E := E)).

(** The value of a key, as the next command will find it. *)
Definition stored (key : string) e : option redis_value := redis_view (redis_now e) !! key.

(** A key either expired or is what it was. *)
Definition ages (key : string) e e' : Prop := stored key e' = None ∨ stored key e' = stored key e.

Lemma wp_redis {A} (m : M redis_server A) Q e :
  (∀ e', redis_view (redis_now e') ⊆ redis_view (m (redis_now e)).2 → Q (m (redis_now e)).1 e') →
  (∀ e', (redis_run m e).1 = Raise RedisError →
         redis_view (redis_now e') ⊆ redis_view (redis_now e) ∨
         redis_view (redis_now e') ⊆ redis_view (m (redis_now e)).2 → Q (Raise RedisError) e') →
  wp (redis_run m) Q e.
Proof.
  intros Hok Hfail. unfold wp. pose proof (law_run A m e) as Hrun.
  destruct (m (redis_now e)) as [r s]. destruct (redis_run m e) as [r' e'].
  destruct Hrun as [[-> ?]|[-> ?]]; auto.
Qed.

Lemma wp_catch_redis {S A} (m h : M S A) Q (x : S) :
  wp m (λ r x', match r with Raise RedisError => wp h Q x' | _ => Q r x' end) x → wp (catch_redis m h) Q x.
Proof. intros Hm. apply wp_try. eapply wp_mono; [exact Hm|]. by intros [a|[]] x'. Qed.

(** The script gives the fields and deletes the key, or leaves the server alone. *)
Lemma consume_script (key hash : string) s :
  (∃ (h : gmap string string) l s', redis_view s !! key = Some (RHash h) ∧ h !! "token_hash" = Some hash ∧
     _CONSUME_SCRIPT key hash s = (Ok l, s') ∧ NoDup l.*1 ∧ list_to_map (M := gmap string string) l = h ∧
     redis_view s' = base.delete key (redis_view s)) ∨
  ((_CONSUME_SCRIPT key hash s = (Ok [], s) ∨ _CONSUME_SCRIPT key hash s = (Raise RedisError, s)) ∧
   ∀ h, redis_view s !! key = Some (RHash h) → h !! "token_hash" ≠ Some hash).
Proof.
  unfold _CONSUME_SCRIPT, mbind, M_bind.
  destruct (redis_view s !! key) as [[v|h]|] eqn:Hk.
  - right. erewrite law_hget_type by done. by auto.
  - erewrite law_hget by done. destruct (h !! "token_hash") as [t|] eqn:Ht; [|right; split; [by left|]; congruence].
    destruct (decide (t = hash)) as [->|Hne].
    + left. rewrite bool_decide_false by auto. destruct (law_hgetall key s h Hk) as (l & -> & Hnd & Hl).
      destruct (law_del key s) as (n & s' & -> & Hs'). by exists h, l, s'.
    + right. rewrite bool_decide_true by done. split; [by left|]. congruence.
  - right. rewrite law_hget_none by done. auto.
Qed.

Lemma consume_wp id token e :
  wp (consume_console_grant id token)
    (λ r e', ∃ o, r = Ok o ∧ ages (_session_key id) e e' ∧
       ∀ g, o = Some g → stored (_session_key id) e' = None ∧
         ∃ h l, stored (_session_key id) e = Some (RHash h) ∧
           h !! "token_hash" = Some (sha256_hex token) ∧ NoDup l.*1 ∧ list_to_map (M := gmap string string) l = h ∧
           grant_of id l = Some g) e.
Proof.
  unfold consume_console_grant. apply wp_catch_redis, wp_bind, wp_redis.
  - intros e' Hsub. destruct (consume_script (_session_key id) (sha256_hex token) (redis_now e))
      as [(h & l & s' & Hk & Ht & Hrun & Hnd & Hl & Hs')|[[Hrun|Hrun] _]]; rewrite Hrun in *; simpl in *.
    + apply wp_ret. rewrite Hs' in Hsub.
      assert (stored (_session_key id) e' = None) as Hnone.
      { unfold stored. destruct (subseteq_lookup _ _ (_session_key id) Hsub) as [?|Hd]; [done|].
        by rewrite Hd, lookup_delete_eq. }
      eexists. split; [done|]. split; [by left|]. intros g Hg. split; [done|]. exists h, l.
      split_and!; try done. by destruct l.
    + apply wp_ret. eexists. split; [done|]. split; [by apply subseteq_lookup|done].
    + apply wp_ret. eexists. split; [done|]. split; [by apply subseteq_lookup|done].
  - intros e' _ Hsub. apply wp_ret. eexists. split; [done|]. split; [|done].
    destruct Hsub as [Hsub|Hsub]; [by apply subseteq_lookup|].
    destruct (consume_script (_session_key id) (sha256_hex token) (redis_now e))
      as [(h & l & s' & Hk & Ht & Hrun & Hnd & Hl & Hs')|[[Hrun|Hrun] _]]; rewrite Hrun in Hsub; simpl in *;
      [|by apply subseteq_lookup..].
    rewrite Hs' in Hsub. left. unfold stored.
    destruct (subseteq_lookup _ _ (_session_key id) Hsub) as [?|Hd]; [done|]. by rewrite Hd, lookup_delete_eq.
Qed.

(** Redis answers the next command. *)
Definition answers e : Prop := ∀ A (m : M redis_server A), (redis_run m e).1 = (m (redis_now e)).1.

Lemma consume_redeems id token e h g :
  answers e → stored (_session_key id) e = Some (RHash h) → h !! "token_hash" = Some (sha256_hex token) →
  (∀ l, NoDup l.*1 → list_to_map (M := gmap string string) l = h → grant_of id l = Some g) →
  (consume_console_grant id token e).1 = Ok (Some g).
Proof.
  intros Ha Hk Ht Hg. unfold consume_console_grant, catch_redis, try_except, mbind, M_bind.
  pose proof (Ha _ (_CONSUME_SCRIPT (_session_key id) (sha256_hex token))) as Hr.
  destruct (redis_run _ e) as [r e']. simpl in Hr.
  destruct (consume_script (_session_key id) (sha256_hex token) (redis_now e))
    as [(h' & l & s' & Hk' & Ht' & Hrun & Hnd & Hl & Hs')|[_ Hno]]; [|by destruct (Hno h Hk)].
  rewrite Hrun in Hr. simpl in Hr. subst r. unfold stored in Hk. rewrite Hk' in Hk. injection Hk as ->.
  simpl. rewrite <-(Hg l Hnd Hl). destruct l; [|done].
  by rewrite <-Hl in Ht.
Qed.
End redis.

(** ** One grant, one console *)

Section sessions.
Context {E : Type} `{Runtime E} `{Resolver E} `{HttpTransport E} `{CredentialSecrets E}.
Context `{RedisLaws E} `{ConsoleSecrets E}.
Context (settings : ConsoleSettings) (pve : PveSettings).
Implicit Types (self : service) (e : E) (d : db) (id : N).

(** The session stands for that grant, unless it has expired. *)
Definition granted id (hash : string) (p : Principal) (workload_id : N) (proxy : ConsoleProxyTicket) e : Prop :=
  stored (_session_key id) e = None ∨
  ∃ old, stored (_session_key id) e = Some (RHash (list_to_map (grant_fields hash p workload_id proxy) ∪ old)).

Lemma grant_fields_keys hash p workload_id proxy : NoDup (grant_fields hash p workload_id proxy).*1.
Proof.
  change (NoDup ["token_hash"; "user_id"; "session_epoch"; "role"; "workload_id"; "pve_kind"; "pve_user";
                 "pve_port"; "pve_ticket"]).
  by apply (bool_decide_eq_true_1 (NoDup _)).
Qed.

Lemma grant_fields_get k hash p workload_id proxy old l v :
  NoDup l.*1 → list_to_map l = list_to_map (M := gmap string string) (grant_fields hash p workload_id proxy) ∪ old →
  payload_get k (grant_fields hash p workload_id proxy) = Some v → payload_get k l = Some v.
Proof.
  intros Hnd Hl Hk. rewrite payload_get_map, Hl by done.
  rewrite payload_get_map in Hk by apply grant_fields_keys.
  by apply lookup_union_Some_l.
Qed.

Lemma granted_fields id hash p workload_id proxy old l :
  NoDup l.*1 → list_to_map l = list_to_map (M := gmap string string) (grant_fields hash p workload_id proxy) ∪ old →
  grant_of id l = grant_of id (grant_fields hash p workload_id proxy).
Proof.
  intros Hnd Hl. apply grant_of_ext. intros k Hk.
  assert (is_Some (payload_get k (grant_fields hash p workload_id proxy))) as [v Hv].
  { revert k Hk. apply Forall_forall. repeat constructor; eexists; reflexivity. }
  rewrite Hv. by eapply grant_fields_get.
Qed.

Lemma granted_hash hash p workload_id proxy old :
  (list_to_map (M := gmap string string) (grant_fields hash p workload_id proxy) ∪ old) !! "token_hash" = Some hash.
Proof. by apply lookup_union_Some_l. Qed.

Lemma stored_hash_inj h h' : Some (RHash h) = Some (RHash h') → h = h'.
Proof. by intros [= ->]. Qed.

Lemma granted_ages id hash p workload_id proxy e e' :
  granted id hash p workload_id proxy e → ages (_session_key id) e e' → granted id hash p workload_id proxy e'.
Proof. intros Hg [Hn|Hs]; [by left|]. unfold granted. by rewrite Hs. Qed.

Lemma store_grant_wp id hash p workload_id proxy e :
  0 < console_session_ttl_seconds settings →
  wp (store_grant settings id (grant_fields hash p workload_id proxy))
    (λ r e', r = Ok tt → granted id hash p workload_id proxy e') e.
Proof.
  intros Httl. set (key := _session_key id). set (fields := grant_fields _ _ _ _).
  assert (NoDup fields.*1) as Hnd by apply grant_fields_keys.
  assert (∀ e1 e2, ages key e1 e2 → granted id hash p workload_id proxy e1 → granted id hash p workload_id proxy e2) as Hages
    by eauto using granted_ages.
  apply wp_catch_redis, wp_bind, wp_redis; [|intros; by apply wp_raise].
  intros e1 Hsub. fold key in Hsub |- *.
  assert ((redis_hset key fields (redis_now e)).1 = Raise RedisError ∨
    ∃ n, (redis_hset key fields (redis_now e)).1 = Ok n ∧ granted id hash p workload_id proxy e1) as Hset.
  { destruct (redis_view (redis_now e) !! key) as [[v|old]|] eqn:Hk.
    - left. by erewrite law_hset_type.
    - right. destruct (law_hset key fields (redis_now e) (Some old) Hk Hnd) as (n & s' & Hrun & Hv).
      rewrite Hrun in *. exists n. split; [done|]. simpl in Hsub. rewrite Hv in Hsub.
      destruct (subseteq_lookup _ _ key Hsub) as [?|Hl]; [by left|]. right. exists old.
      unfold stored. fold key. by rewrite Hl, lookup_insert_eq.
    - right. destruct (law_hset key fields (redis_now e) None Hk Hnd) as (n & s' & Hrun & Hv).
      rewrite Hrun in *. exists n. split; [done|]. simpl in Hsub. rewrite Hv in Hsub.
      destruct (subseteq_lookup _ _ key Hsub) as [?|Hl]; [by left|]. right. exists ∅.
      unfold stored. fold key. by rewrite Hl, lookup_insert_eq. }
  destruct Hset as [->|(n & -> & Hg)]; [by apply wp_raise|].
  apply wp_bind. eapply wp_mono; [apply wp_redis with (Q := λ r e', ages key e1 e')|].
  - intros e2 Hsub2. destruct (law_expire key (console_session_ttl_seconds settings) (redis_now e1) Httl)
      as (b & s' & Hrun & Hv). rewrite Hrun in Hsub2. simpl in Hsub2. rewrite Hv in Hsub2. by apply subseteq_lookup.
  - intros e2 _ Hsub2. destruct (law_expire key (console_session_ttl_seconds settings) (redis_now e1) Httl)
      as (b & s' & Hrun & Hv). rewrite Hrun in Hsub2. simpl in Hsub2. rewrite Hv in Hsub2.
    destruct Hsub2; by apply subseteq_lookup.
  - intros [b|x] e2 Hag; [apply wp_ret; eauto|]. destruct x; done.
Qed.

(** *** Creating a session *)

(** What [create] checked and recorded when it answers: the machine is one the caller may
    use and runs, the cluster gave a ticket for it, and one audit event was added. *)
Record session_made self (workload_id : N) d (resp : ConsoleSessionResponse) d' e' : Prop := {
  sm_granted : ∃ wl proxy, first_row (console_workload (self_principal self) workload_id d) d = Some wl ∧
    str_upper (wl_power_state wl) = "RUNNING" ∧
    granted (csr_session_id resp) (sha256_hex (csr_protocol_token resp)) (self_principal self) workload_id proxy e';
  sm_logged : ∃ row, d' = d <| db_audit_logs ::= λ l, l ++ [row] |> ∧
    al_action row = "CONSOLE_SESSION_CREATED" ∧ al_actor_user_id row = Some (p_user_id (self_principal self)) ∧
    al_workload_id row = Some workload_id }.

(** The client is that of the active cluster of the machine, with the secret of the
    cluster's active credential. *)
Record opened_for (wl : workload) d (client : ProxmoxClient) : Prop := {
  of_connection : ∃ c credential secret,
    (∃ i, db_clusters d !! i = Some c) ∧ cl_id c = wl_cluster_id wl ∧ cl_is_active c = true ∧
    (∃ j, db_credentials d !! j = Some credential) ∧ cc_cluster_id credential = wl_cluster_id wl ∧
    cc_is_active credential = true ∧
    decrypt (mkEncryptedCredential (cc_secret_ciphertext credential) (cc_secret_nonce credential)
      (cc_key_version credential)) (cl_id c) (cc_id credential) = Some secret ∧
    _api_base_url client = str_rstrip_char SLASH (cl_api_base_url c) ∧
    _authorization client = "PVEAPIToken=" +:+ cc_token_identifier credential +:+ "=" +:+ secret ∧
    endpoint_policy (pve_allowed_hosts pve) (pve_allowed_networks pve) = Some (_endpoint_policy client) }.

Lemma wp_build_client (wl : workload) Q (w : world E) :
  (∀ r, (∀ client, r = Ok (Some client) → opened_for wl (w_tx w) client) → Q r w) →
  wp (build_console_client pve wl) Q w.
Proof.
  intros HQ. unfold build_console_client. wp_run; try by apply HQ.
  apply wp_on_env. unfold ProxmoxClient_init, raise_if, when.
  match goal with |- context[if ?b then raise _ else _] => destruct b end.
  { destruct w. by apply HQ. }
  apply wp_bind, wp_ret, wp_bind, wp_or_raise.
  - intros Hp. destruct w. by apply HQ.
  - intros policy Hp. apply wp_ret. destruct w. wp_run. apply HQ. intros client [= <-].
    match goal with
    | Hc : first_row _ _ = Some ?c, Hcr : first_row (active_credential_of _) _ = Some ?cr |- _ =>
      apply first_row_Some in Hc as [[Hid%bool_decide_eq_true Hact]%andb_true_iff Hrow];
      apply first_row_Some in Hcr as [[Hcid%bool_decide_eq_true Hcact]%andb_true_iff Hcrow];
      split; exists c, cr; eexists; split_and!; done
    end.
Qed.

Lemma wp_on_env_any {A} (m : M E A) Q (w : world E) :
  (∀ r e', Q r (World (w_db w) (w_tx w) (w_dup w) e')) → wp (on_env m) Q w.
Proof. intros HQ. apply wp_on_env, wp_intro. intros r e' _. apply HQ. Qed.

Lemma console_workload_id p workload_id d wl :
  first_row (console_workload p workload_id d) d = Some wl → wl_id wl = workload_id.
Proof.
  intros [Hc _]%first_row_Some. unfold console_workload in Hc.
  repeat (apply andb_true_iff in Hc as [Hc ?]). by apply bool_decide_eq_true in Hc.
Qed.

Lemma create_wp self workload_id d e :
  0 < console_session_ttl_seconds settings →
  wp (create settings pve self workload_id)
    (λ r w, match r with
            | Ok resp => session_made self workload_id d resp (w_db w) (w_env w)
            | Raise _ => w_db w = d
            end) (World d d false e).
Proof.
  intros Httl. unfold create, authorized_console_workload, _check_rate_limit. wp_run; try done.
  apply wp_on_env_any. intros [count|x] e1; [|done]. wp_run; [done|].
  apply wp_build_client. intros client _. destruct client as [client|x]; [|done]. wp_run; [done|].
  apply wp_on_env_any. intros [proxy|x] e2; [|done]. wp_run.
  apply wp_from_env. intros token e3 _. cbn [w_db w_tx w_dup w_env].
  match goal with Hw : first_row _ _ = Some ?wl |- _ => pose proof (console_workload_id _ _ _ _ Hw) as Hid end.
  apply wp_bind, wp_on_env. eapply wp_mono; [by apply store_grant_wp|].
  intros [[]|x] e4 Hg; [|done]. apply wp_bind. unfold add_audit_event. apply wp_bind, wp_gets, wp_modify.
  wp_run; [done|]. split.
  - eexists _, proxy. split; [done|]. rewrite Hid in Hg. split; [|by apply Hg].
    match goal with Hr : bool_decide (_ ≠ _) = false |- _ => by apply bool_decide_eq_false, dec_stable in Hr end.
  - eexists. split; [done|]. simpl. by rewrite Hid.
Qed.

(** A console session is created only for a machine that the caller may use and that
    runs; it adds one audit event and nothing else, and a refusal or failure changes
    nothing in the database. *)
Theorem console_session_created self workload_id d e r d' e' :
  0 < console_session_ttl_seconds settings →
  exec (create settings pve self workload_id) d e = (r, d', e') →
  match r with Ok resp => session_made self workload_id d resp d' e' | Raise _ => d' = d end.
Proof.
  intros Httl Hrun. eapply exec_wp in Hrun; [|by apply create_wp].
  by destruct Hrun as (w & Hr & <- & <-).
Qed.

(** *** What happens to it later *)

(** The later life of a session: attempts to redeem it, with any token, and whatever
    else happens that does not write its key, which may expire.  The list is what was
    granted, with the token that was presented. *)
Inductive session_history id e : E → list (string * ConsoleGrant) → Prop :=
| history_begins : session_history id e e []
| history_redeemed e1 gs token o e2 :
    session_history id e e1 gs → consume_console_grant id token e1 = (Ok o, e2) →
    session_history id e e2 (gs ++ match o with Some g => [(token, g)] | None => [] end)
| history_passes e1 gs e2 :
    session_history id e e1 gs → ages (_session_key id) e1 e2 → session_history id e e2 gs.

Lemma history_granted id hash p workload_id proxy e e' gs :
  (p_user_id p < 2 ^ 128)%N → (workload_id < 2 ^ 128)%N →
  granted id hash p workload_id proxy e → session_history id e e' gs →
  (gs = [] ∧ granted id hash p workload_id proxy e') ∨
  (stored (_session_key id) e' = None ∧
   ∃ token, gs = [(token, grant_for id p workload_id proxy)] ∧ sha256_hex token = hash).
Proof.
  intros Hu Hw Hg Hhist. induction Hhist as [|e1 gs token o e2 Hhist IH Hrun|e1 gs e2 Hhist IH Hag].
  - by left.
  - pose proof (consume_wp id token e1) as Hc. eapply wp_run in Hc; [|exact Hrun].
    destruct Hc as (o' & [= <-] & Hag & Hsome). destruct o as [g|].
    + destruct (Hsome g eq_refl) as (Hnone & h & l & Hk & Ht & Hnd & Hl & Hgl).
      destruct IH as [[-> [Hn|[old Ho]]]|[Hn _]]; [congruence| |congruence].
      right. split; [done|]. exists token. rewrite Ho in Hk. apply stored_hash_inj in Hk as <-.
      rewrite granted_hash in Ht. apply (inj Some) in Ht as <-. split; [|done].
      erewrite granted_fields, grant_of_fields in Hgl by done. by injection Hgl as <-.
    + rewrite app_nil_r. destruct IH as [[-> Hg']|[Hn Ht]]; [left; split; [done|by eapply granted_ages]|].
      right. split; [|done]. by destruct Hag as [?|Hs]; [|rewrite Hs].
  - destruct IH as [[-> Hg']|[Hn Ht]]; [left; split; [done|by eapply granted_ages]|].
    right. split; [|done]. by destruct Hag as [?|Hs]; [|rewrite Hs].
Qed.

(** C36: a console session is redeemed at most once, only with a token that hashes like
    the one the creator was given, and then stands for exactly what its creator was
    allowed: its user, session epoch and role, and the machine; whatever is presented in
    between, by whomever, and whenever Redis fails. *)
Theorem grant_single_use self workload_id d e resp d' e' e2 gs :
  0 < console_session_ttl_seconds settings →
  (p_user_id (self_principal self) < 2 ^ 128)%N → (workload_id < 2 ^ 128)%N →
  exec (create settings pve self workload_id) d e = (Ok resp, d', e') →
  session_history (csr_session_id resp) e' e2 gs →
  gs = [] ∨ ∃ token g, gs = [(token, g)] ∧ sha256_hex token = sha256_hex (csr_protocol_token resp) ∧
    cg_session_id g = csr_session_id resp ∧ cg_user_id g = p_user_id (self_principal self) ∧
    cg_session_epoch g = p_session_epoch (self_principal self) ∧ cg_role g = p_role (self_principal self) ∧
    cg_workload_id g = workload_id.
Proof.
  intros Httl Hu Hw Hrun Hhist. eapply exec_wp in Hrun; [|by apply create_wp].
  destruct Hrun as (w & [(wl & proxy & _ & _ & Hg) _] & _ & <-).
  destruct (history_granted _ _ _ _ _ _ _ _ Hu Hw Hg Hhist) as [[-> _]|(_ & token & -> & Ht)]; [by left|].
  right. by exists token, (grant_for (csr_session_id resp) (self_principal self) workload_id proxy).
Qed.

(** And it can be redeemed: as long as the session has neither been redeemed nor
    expired, and Redis answers, the token of the response yields the grant. *)
Theorem grant_redeems self workload_id d e resp d' e' e2 :
  0 < console_session_ttl_seconds settings →
  (p_user_id (self_principal self) < 2 ^ 128)%N → (workload_id < 2 ^ 128)%N →
  exec (create settings pve self workload_id) d e = (Ok resp, d', e') →
  session_history (csr_session_id resp) e' e2 [] →
  is_Some (stored (_session_key (csr_session_id resp)) e2) → answers e2 →
  ∃ g, (consume_console_grant (csr_session_id resp) (csr_protocol_token resp) e2).1 = Ok (Some g) ∧
    cg_user_id g = p_user_id (self_principal self) ∧ cg_workload_id g = workload_id.
Proof.
  intros Httl Hu Hw Hrun Hhist [v Hv] Hans. eapply exec_wp in Hrun; [|by apply create_wp].
  destruct Hrun as (w & [(wl & proxy & _ & _ & Hg) _] & _ & <-).
  destruct (history_granted _ _ _ _ _ _ _ _ Hu Hw Hg Hhist) as [[_ Hg2]|(_ & token & Hgs & _)]; [|done].
  destruct Hg2 as [Hn|[old Ho]]; [congruence|].
  exists (grant_for (csr_session_id resp) (self_principal self) workload_id proxy).
  split; [|by split]. eapply consume_redeems; [done|exact Ho|apply granted_hash|].
  intros l Hnd Hl. erewrite granted_fields by done. by apply grant_of_fields.
Qed.
End sessions.
