(* ===== verification/ConsoleSocket.v ===== *)
(** * The console websocket: properties

    What a redeemed grant opens, who holds the live slot of a user and a machine, and how
    a handshake ends. *)
From S2P Require Import Prelude Models Database AuditLog Operations PveApi IpAddr Endpoints.
From S2P Require Import Client Clusters Accounts Customer UuidText ClientProps Redis Console ConsoleProps.
From Stdlib Require Import Lia.

(** ** The live slot *)

Lemma stored_string_inj s t : Some (RString s) = Some (RString t) → s = t.
Proof. by intros [= ->]. Qed.

Section slot.
Context {E : Type} `{RedisLaws E}.
Implicit Types (grant other : ConsoleGrant) (e : E) (ttl : Z).

Definition slot grant e : option redis_value := stored (_console_slot_key grant) e.

(** The slot is the session's. *)
Definition holds grant e : Prop := slot grant e = Some (RString (str_uuid (cg_session_id grant))).

Lemma acquire_wp grant ttl e :
  0 < ttl →
  wp (acquire_console_slot grant ttl)
    (λ r e', ∃ b, r = Ok b ∧
       (b = true → slot grant e = None ∧ (holds grant e' ∨ slot grant e' = None)) ∧
       (is_Some (slot grant e) → b = false ∧ ages (_console_slot_key grant) e e')) e.
Proof.
  intros Httl. unfold acquire_console_slot. apply wp_catch_redis, wp_redis.
  - intros e' Hsub. destruct (slot grant e) as [v|] eqn:Hk; unfold slot, stored in *.
    + assert (is_Some (redis_view (redis_now e) !! _console_slot_key grant)) as Hs by by rewrite Hk.
      erewrite law_set_nx_some in * by done. exists false. split; [done|]. split; [done|].
      intros _. split; [done|]. by apply subseteq_lookup.
    + destruct (law_set_nx (_console_slot_key grant) (str_uuid (cg_session_id grant)) ttl (redis_now e) Httl Hk)
        as (s' & Hrun & Hv). rewrite Hrun in *. exists true. split; [done|]. split; [|by intros []].
      intros _. split; [done|]. simpl in Hsub. rewrite Hv in Hsub. unfold holds, slot, stored.
      destruct (subseteq_lookup _ _ (_console_slot_key grant) Hsub) as [?|Hl]; [by right|].
      left. by rewrite Hl, lookup_insert_eq.
  - intros e' _ Hsub. apply wp_ret. exists false. split; [done|]. split; [done|]. intros [v Hv]. split; [done|].
    unfold slot, stored in Hv. assert (is_Some (redis_view (redis_now e) !! _console_slot_key grant)) as Hs by by rewrite Hv.
    erewrite law_set_nx_some in Hsub by done. destruct Hsub; by apply subseteq_lookup.
Qed.

Lemma release_script key value s :
  (redis_view s !! key = Some (RString value) ∧
     ∃ n s', _RELEASE_SCRIPT key value s = (Ok n, s') ∧ redis_view s' = base.delete key (redis_view s)) ∨
  (redis_view s !! key ≠ Some (RString value) ∧
     (_RELEASE_SCRIPT key value s = (Ok 0, s) ∨ _RELEASE_SCRIPT key value s = (Raise RedisError, s))).
Proof.
  unfold _RELEASE_SCRIPT, mbind, M_bind. destruct (redis_view s !! key) as [[v|h]|] eqn:Hk.
  - erewrite law_get by done. destruct (decide (v = value)) as [->|Hne].
    + left. split; [done|]. rewrite bool_decide_true by done. apply law_del.
    + right. split; [congruence|]. left. by rewrite bool_decide_false by congruence.
  - right. split; [done|]. right. by erewrite law_get_type.
  - right. split; [done|]. left. by rewrite law_get_none, bool_decide_false.
Qed.

Lemma release_wp grant e :
  wp (release_console_slot grant)
    (λ r e', r = Ok tt ∧ ages (_console_slot_key grant) e e' ∧ (answers e → ¬ holds grant e')) e.
Proof.
  unfold release_console_slot. set (value := str_uuid (cg_session_id grant)). set (key := _console_slot_key grant).
  assert (∀ e', redis_view (redis_now e') ⊆ redis_view (_RELEASE_SCRIPT key value (redis_now e)).2 →
    ages key e e' ∧ ¬ holds grant e') as Hdone.
  { intros e' Hsub. unfold ages, holds, slot, stored. fold key value.
    destruct (release_script key value (redis_now e)) as [(Hk & n & s' & Hrun & Hv)|[Hne Hs]].
    - rewrite Hrun in Hsub. simpl in Hsub. rewrite Hv in Hsub.
      assert (redis_view (redis_now e') !! key = None) as ->; [|by split; [left|]].
      destruct (subseteq_lookup _ _ key Hsub) as [?|Hl]; [done|]. by rewrite Hl, lookup_delete_eq.
    - assert ((_RELEASE_SCRIPT key value (redis_now e)).2 = redis_now e) as Hsame by by destruct Hs as [-> | ->].
      rewrite Hsame in Hsub. destruct (subseteq_lookup _ _ key Hsub) as [Hl|Hl]; rewrite Hl; (split; [by auto|done]). }
  apply wp_catch_redis, wp_bind, wp_redis.
  - intros e' Hsub%Hdone. destruct (release_script key value (redis_now e)) as [(_ & n & s' & -> & _)|[_ [-> | ->]]];
      apply wp_ret; naive_solver.
  - intros e' Hfail Hsub. apply wp_ret. split; [done|]. split.
    + destruct Hsub as [Hsub|Hsub]; [by apply subseteq_lookup|by apply Hdone].
    + intros Ha. rewrite (Ha _ _) in Hfail.
      destruct (release_script key value (redis_now e)) as [(_ & n & s' & Hrun & _)|[_ [Hrun|Hrun]]];
        rewrite Hrun in Hfail; try done. apply Hdone. rewrite Hrun. simpl. destruct Hsub as [?|Hsub]; [done|].
      by rewrite Hrun in Hsub.
Qed.

(** Deliveries of other sessions for the same slot, with whatever else happens, for as
    long as the slot has not expired; with what the attempts to take it came to. *)
Inductive slot_history grant ttl e : E → list bool → Prop :=
| slot_begins : slot_history grant ttl e e []
| slot_tried e1 bs other b e2 :
    slot_history grant ttl e e1 bs → is_Some (slot grant e1) →
    cg_user_id other = cg_user_id grant → cg_workload_id other = cg_workload_id grant →
    acquire_console_slot other ttl e1 = (Ok b, e2) → slot_history grant ttl e e2 (bs ++ [b])
| slot_left e1 bs other r e2 :
    slot_history grant ttl e e1 bs → is_Some (slot grant e1) →
    cg_user_id other = cg_user_id grant → cg_workload_id other = cg_workload_id grant →
    release_console_slot other e1 = (r, e2) → slot_history grant ttl e e2 bs
| slot_passes e1 bs e2 :
    slot_history grant ttl e e1 bs → is_Some (slot grant e1) →
    ages (_console_slot_key grant) e1 e2 → slot_history grant ttl e e2 bs.

(** C38: while a session holds the live slot of its user and machine, and the slot has
    not expired, no attempt to take it succeeds; a release by another session leaves the
    server as it is; and when the session's own release reaches Redis, the slot is free. *)
Theorem slot_exclusive grant ttl e e1 e2 bs :
  0 < ttl → (cg_session_id grant < 2 ^ 128)%N →
  acquire_console_slot grant ttl e = (Ok true, e1) → slot_history grant ttl e1 e2 bs →
  Forall (λ b, b = false) bs ∧ (holds grant e2 ∨ slot grant e2 = None) ∧
  (∀ other, holds grant e2 → cg_user_id other = cg_user_id grant →
     cg_workload_id other = cg_workload_id grant → (cg_session_id other < 2 ^ 128)%N →
     cg_session_id other ≠ cg_session_id grant →
     (_RELEASE_SCRIPT (_console_slot_key other) (str_uuid (cg_session_id other)) (redis_now e2)).2 = redis_now e2) ∧
  ∀ r e3, release_console_slot grant e2 = (r, e3) → answers e2 → slot grant e3 = None.
Proof.
  intros Httl Hid Hacq Hhist. pose proof (acquire_wp grant ttl e Httl) as Ha. eapply wp_run in Ha; [|exact Hacq].
  destruct Ha as (b & [= <-] & Htrue & _). destruct (Htrue eq_refl) as [_ Hheld]. clear Htrue.
  assert (Forall (λ b, b = false) bs ∧ (holds grant e2 ∨ slot grant e2 = None)) as [Hbs Hend].
  { induction Hhist as [|e2 bs other b e3 Hhist IH Hsome Hu Hw Hrun|e2 bs other r e3 Hhist IH Hsome Hu Hw Hrun
                       |e2 bs e3 Hhist IH Hsome Hag]; [done| | |];
      destruct IH as [Hbs [Hh|Hn]]; try (by rewrite Hn in Hsome; destruct Hsome).
    - assert (_console_slot_key other = _console_slot_key grant) as Hk by (unfold _console_slot_key; by rewrite Hu, Hw).
      pose proof (acquire_wp other ttl e2 Httl) as Ha. eapply wp_run in Ha; [|exact Hrun].
      destruct Ha as (b' & [= <-] & _ & Hf). unfold slot in Hf. rewrite Hk in Hf. destruct (Hf Hsome) as [-> Hag].
      split; [apply Forall_app; split; [done|by repeat constructor]|]. unfold holds, slot in *.
      destruct Hag as [?|Hag]; [by right|left; by rewrite Hag].
    - assert (_console_slot_key other = _console_slot_key grant) as Hk by (unfold _console_slot_key; by rewrite Hu, Hw).
      pose proof (release_wp other e2) as Ha. eapply wp_run in Ha; [|exact Hrun].
      destruct Ha as (_ & Hag & _). rewrite Hk in Hag. split; [done|]. unfold holds, slot in *.
      destruct Hag as [?|Hag]; [by right|left; by rewrite Hag].
    - split; [done|]. unfold holds, slot in *. destruct Hag as [?|Hag]; [by right|left; by rewrite Hag]. }
  split_and!; [done..| |].
  { intros other Hh Hu Hw Hlt Hne. assert (_console_slot_key other = _console_slot_key grant) as ->
      by (unfold _console_slot_key; by rewrite Hu, Hw).
    destruct (release_script (_console_slot_key grant) (str_uuid (cg_session_id other)) (redis_now e2))
      as [[Hk _]|[_ [-> | ->]]]; [|done..].
    unfold holds, slot, stored in Hh. rewrite Hh in Hk. apply stored_string_inj, str_uuid_inj in Hk; congruence. }
  intros r e3 Hrun Hans. pose proof (release_wp grant e2) as Hr.
  eapply wp_run in Hr; [|exact Hrun]. destruct Hr as (_ & Hag & Hno). specialize (Hno Hans).
  unfold holds, slot in *. destruct Hag as [?|Hag]; [done|]. destruct Hend as [Hh|Hn]; [by rewrite Hag in Hno|by rewrite Hag].
Qed.
End slot.

(** ** What a grant opens *)

Section connection.
Context {E : Type} `{Runtime E} `{Resolver E} `{HttpTransport E} `{CredentialSecrets E}.
Context (pve : PveSettings).
Implicit Types (grant : ConsoleGrant) (d : db) (e : E).

(** What must still hold of the database when a grant is used. *)
Record connection_current grant d (cx : ConsoleConnection) : Prop := {
  ck_user : ∃ u, db_users d !! cg_user_id grant = Some u ∧ u_is_active u = true ∧
    u_session_epoch u = cg_session_epoch grant ∧ u_role u = cg_role grant;
  ck_machine : (∃ i, db_workloads d !! i = Some (cx_workload cx)) ∧
    wl_id (cx_workload cx) = cg_workload_id grant ∧ wl_is_present (cx_workload cx) = true ∧
    wl_is_template (cx_workload cx) = false ∧ str_upper (wl_power_state (cx_workload cx)) = "RUNNING" ∧
    cg_pve_kind grant = (if bool_decide (wl_kind (cx_workload cx) = "QEMU") then "qemu" else "lxc");
  ck_tenant : cg_role grant = CUSTOMER →
    ∃ o org m, wl_organization_id (cx_workload cx) = Some o ∧ db_organizations d !! o = Some org ∧
      org_is_active org = true ∧ (∃ j, db_members d !! j = Some m) ∧
      om_user_id m = cg_user_id grant ∧ om_organization_id m = o;
  ck_client : opened_for pve (cx_workload cx) d (cx_client cx);
  ck_proxy : cx_proxy cx = proxy_of grant (cx_workload cx) ∧
    terminal_proxy_auth_frame (cx_proxy cx) ≠ None }.

Lemma console_workload_tenant p workload_id d wl :
  console_workload p workload_id d wl = true →
  wl_id wl = workload_id ∧ wl_is_present wl = true ∧ wl_is_template wl = false ∧
  (p_role p = CUSTOMER → ∃ o org m, wl_organization_id wl = Some o ∧ db_organizations d !! o = Some org ∧
     org_is_active org = true ∧ (∃ j, db_members d !! j = Some m) ∧
     om_user_id m = p_user_id p ∧ om_organization_id m = o).
Proof.
  unfold console_workload. rewrite !andb_true_iff, bool_decide_eq_true, negb_true_iff.
  intros ((((Hid & _) & Hp) & Ht) & Hc). split_and!; try done. intros Hr. rewrite Hr in Hc.
  rewrite !andb_true_iff in Hc. destruct Hc as [[[o Ho]%bool_decide_eq_true Hm] Hact].
  unfold active_organization in Hact. rewrite Ho in Hact. simpl in Hact.
  destruct (db_organizations d !! o) as [org|] eqn:Horg; [|done].
  unfold membership in Hm. apply bool_decide_eq_true in Hm as [m Hm%first_row_Some].
  destruct Hm as [[Hu%bool_decide_eq_true Hmo%bool_decide_eq_true]%andb_true_iff [j Hj]].
  exists o, org, m. split_and!; try done; [by exists j|congruence].
Qed.

Lemma load_wp grant d e :
  keyed user d →
  wp (load_console_connection pve grant)
    (λ r w, w = World d d false e ∧ ∀ cx, r = Ok (Some cx) → connection_current grant d cx) (World d d false e).
Proof.
  intros Hk. unfold load_console_connection. wp_run; try (by split).
  match goal with H : rows _ !! _ = Some _ |- _ => rename H into Hu end. simpl in Hu.
  match goal with H : _ || _ || _ = false |- _ =>
    apply orb_false_iff in H as [[Hact%negb_false_iff Hep%bool_decide_eq_false]%orb_false_iff Hrole%bool_decide_eq_false] end.
  apply dec_stable in Hep, Hrole. unfold attempt_app, authorized_console_workload.
  apply wp_catch_app, wp_fmap. wp_run; try (by split).
  match goal with H : first_row _ _ = Some ?a |- _ => rename a into wl; apply first_row_Some in H as [Hwl Hrow] end.
  apply console_workload_tenant in Hwl as (Hid & Hp & Ht & Hten). simpl in Hten.
  apply bool_decide_eq_false, dec_stable in Heqb, Heqb0.
  apply wp_build_client. intros r Hopen. destruct r as [client|x]; [|by split].
  apply wp_ret. split; [done|]. intros cx [= Hcx]. destruct client as [client|]; [|done]. simpl in Hcx.
  injection Hcx as <-. pose proof (Hk _ _ Hu) as Hkey. simpl in Hkey. split; cbn [cx_workload cx_client cx_proxy].
  - by exists u.
  - by split_and!.
  - rewrite <-Hrole, <-Hkey. exact Hten.
  - by apply Hopen.
  - split; [done|]. unfold terminal_proxy_auth_frame, proxy_of. cbn [cpt_kind cpt_user cpt_ticket].
    destruct (decide (cg_pve_kind grant = "lxc")) as [Hlxc|Hlxc]; [|by rewrite bool_decide_true].
    rewrite bool_decide_false by auto. rewrite Hlxc in Heqb1.
    destruct (cg_pve_user grant); [done|]. by rewrite !bool_decide_true in Heqb1.
Qed.

(** C37: a grant opens a console only if, when it is used, its user is active, in the same
    session epoch and of the same role, its machine is present, running and of the kind the
    ticket is for, a customer is still a member of the active organization that owns the
    machine, and the connection goes to the machine's active cluster with the active
    credential of that cluster.  Looking it up changes nothing. *)
Theorem console_connection_current grant d e r d' e' :
  keyed user d → exec (load_console_connection pve grant) d e = (r, d', e') →
  d' = d ∧ ∀ cx, r = Ok (Some cx) → connection_current grant d cx.
Proof.
  intros Hk Hrun. eapply exec_wp in Hrun; [|by apply load_wp].
  by destruct Hrun as (w & [-> Hcx] & <- & _).
Qed.
End connection.

(** ** How a handshake ends *)

Section websocket.
Context {E : Type} `{Runtime E} `{Resolver E} `{HttpTransport E} `{CredentialSecrets E}.
Context `{RedisLaws E} `{ConsoleSecrets E} `{ConsoleSockets E}.
Context (settings : ConsoleSettings) (pve : PveSettings).
Implicit Types (grant : ConsoleGrant) (d : db) (e : E) (id : N).

(** Refused before Redis is asked; no grant; slot taken; or served, and then the last
    thing that happens is the release of the slot. *)
Inductive handshake id (origin protocols : option string) e : outcome () → E → Prop :=
| shake_refused r e' :
    protocol_token_from_header protocols = None ∨
    str_rstrip_char SLASH (default "" origin) ∉ map (str_rstrip_char SLASH) (cors_origins settings) ∨
    "binary" ∉ map str_strip (str_split COMMA (default "" protocols)) →
    browser_close 4403 "" e = (r, e') → handshake id origin protocols e r e'
| shake_no_grant token e1 r e' :
    protocol_token_from_header protocols = Some token →
    consume_console_grant id token e = (Ok None, e1) →
    browser_close 4401 "" e1 = (r, e') → handshake id origin protocols e r e'
| shake_taken token grant e1 e2 r e' :
    protocol_token_from_header protocols = Some token →
    consume_console_grant id token e = (Ok (Some grant), e1) →
    acquire_console_slot grant (console_max_duration_seconds settings) e1 = (Ok false, e2) →
    browser_close 4429 "" e2 = (r, e') → handshake id origin protocols e r e'
| shake_served token grant e1 e2 e3 r e' :
    protocol_token_from_header protocols = Some token →
    str_rstrip_char SLASH (default "" origin) ∈ map (str_rstrip_char SLASH) (cors_origins settings) →
    consume_console_grant id token e = (Ok (Some grant), e1) →
    acquire_console_slot grant (console_max_duration_seconds settings) e1 = (Ok true, e2) →
    release_console_slot grant e3 = (Ok tt, e') → (answers e3 → ¬ holds grant e') →
    handshake id origin protocols e r e'.

Lemma wp_reify {S A} (m : M S A) Q (s : S) : wp m (λ r, Q (Ok r)) s → wp (reify m) Q s.
Proof. done. Qed.

(** Whatever happens to a served grant, its slot is released in the end. *)
Lemma serve_wp grant d e :
  keyed user d →
  wp (serve_grant settings pve grant)
    (λ _ w, w_db w = d ∧ ∃ e3, release_console_slot grant e3 = (Ok tt, w_env w) ∧
       (answers e3 → ¬ holds grant (w_env w))) (World d d false e).
Proof.
  intros Hk. unfold serve_grant, console_session. apply wp_bind.
  assert (∀ (x : bool * option upstream * outcome ()) e1, wp
    (let '(accepted, up, ended) := x in on_env (try_finally (console_ended accepted ended)
      (match up with Some u => suppress (ws_close u) | None => mret tt end;; release_console_slot grant)))
    (λ _ w, w_db w = d ∧ ∃ e3, release_console_slot grant e3 = (Ok tt, w_env w) ∧
       (answers e3 → ¬ holds grant (w_env w))) (World d d false e1)) as Hend.
  { intros [[accepted up] ended] e1. apply wp_on_env, wp_finally, wp_intro. intros r e2 _. apply wp_bind.
    assert (∀ e3, wp (release_console_slot grant)
      (λ r' e', (λ r w, w_db w = d ∧ ∃ e3, release_console_slot grant e3 = (Ok tt, w_env w) ∧
         (answers e3 → ¬ holds grant (w_env w))) match r' with Ok _ => r | Raise x => Raise x end
         (World d d false e')) e3) as Hrel.
    { intros e3. apply wp_intro. intros r' e' Hrun. split; [done|]. exists e3.
      pose proof (release_wp grant e3) as Hr. eapply wp_run in Hr; [|exact Hrun].
      destruct Hr as (-> & _ & Hno). by split. }
    destruct up as [u|]; [|apply Hrel]. unfold suppress. apply (Hrel (ws_close u e2).2). }
  apply wp_bind, wp_reify. eapply wp_mono; [by apply load_wp|].
  intros [[cx|]|x] w [-> _]; cbv iota.
  - apply wp_on_env, wp_intro. intros [r|x] e1 Hrun; [exact (Hend r e1)|].
    exfalso. revert Hrun. unfold serve_console, reify, mbind, M_bind.
    repeat (case_match; simplify_eq/=; try done).
  - apply wp_bind, wp_on_env, wp_reify, wp_intro. intros r e1 _. exact (Hend (false, None, r) e1).
  - exact (Hend (false, None, Raise x) e).
Qed.

(** C39: a handshake is refused with 4403 before Redis is asked unless it comes from an
    allowed origin, speaks the binary protocol and carries a token; with 4401 unless the
    token redeems the grant; with 4429 if the slot is taken.  A console that is served,
    however it ends, releases its slot last: it does not hold it afterwards if Redis
    answered.  The database does not change. *)
Theorem console_handshake id origin protocols d e r d' e' :
  keyed user d → 0 < console_max_duration_seconds settings →
  exec (console_websocket settings pve id origin protocols) d e = (r, d', e') →
  d' = d ∧ handshake id origin protocols e r e'.
Proof.
  intros Hk Hmax Hrun. cut (wp (console_websocket settings pve id origin protocols)
    (λ r w, w_db w = d ∧ handshake id origin protocols e r (w_env w)) (World d d false e)).
  { intros Hwp. eapply exec_wp in Hrun; [|exact Hwp]. by destruct Hrun as (w & [<- Hs] & <- & <-). }
  clear Hrun. unfold console_websocket.
  destruct (protocol_token_from_header protocols) as [token|] eqn:Ht.
  2: { apply wp_on_env, wp_intro. intros r1 e1 Hc. split; [done|]. eapply shake_refused; [by left|exact Hc]. }
  case_bool_decide as Ho.
  { apply wp_on_env, wp_intro. intros r1 e1 Hc. split; [done|]. eapply shake_refused; [by right; left|exact Hc]. }
  case_bool_decide as Hb.
  { apply wp_on_env, wp_intro. intros r1 e1 Hc. split; [done|]. eapply shake_refused; [by right; right|exact Hc]. }
  simpl. apply wp_bind, wp_on_env, wp_intro. intros r1 e1 Hcons.
  pose proof (consume_wp id token e) as Hcw. eapply wp_run in Hcw; [|exact Hcons].
  destruct Hcw as (o & -> & _). destruct o as [grant|].
  2: { apply wp_on_env, wp_intro. intros r1 e2 Hc. split; [done|]. by eapply shake_no_grant. }
  apply wp_bind, wp_on_env, wp_intro. intros r1 e2 Hacq.
  pose proof (acquire_wp grant _ e1 Hmax) as Haw. eapply wp_run in Haw; [|exact Hacq].
  destruct Haw as (b & -> & _). destruct b; cbv iota; simpl negb; cbv iota.
  - eapply wp_mono; [by apply serve_wp|]. intros r2 w [Hd (e3 & Hrel & Hno)]. split; [done|].
    by eapply shake_served.
  - apply wp_on_env, wp_intro. intros r2 e3 Hc. split; [done|]. by eapply shake_taken.
Qed.
End websocket.
