(* ===== verification/DemoConsole.v ===== *)
(** * A concrete console

    A Redis server that keeps its keys, sockets that work, and a machine of
    ClusterResults.v, and the theorems of ConsoleProps.v and
    ConsoleSocket.v at a session on them. *)
From S2P Require Import Prelude Models Database AuditLog Operations PveApi IpAddr Endpoints.
From S2P Require Import Client ClientProps Clusters Accounts Customer UuidText Redis Console.
From S2P Require Import ConsoleProps ConsoleSocket Ipam IpamInv IpamOps Demo DemoPower DemoNet.
From S2P Require Import ClusterResults ClusterInv JobEnds BackupProps BackupResults.

(** ** The server *)

Abbreviation keys := (gmap string redis_value).

Definition with_string {A} (k : string) (f : option string → M keys A) : M keys A :=
  value ← gets (λ m : keys, m !! k);
  match value with
  | None => f None
  | Some (RString v) => f (Some v)
  | Some (RHash _) => raise RedisError
  end.

Definition with_hash {A} (k : string) (f : gmap string string → M keys A) : M keys A :=
  value ← gets (λ m : keys, m !! k);
  match value with
  | None => f ∅
  | Some (RHash h) => f h
  | Some (RString _) => raise RedisError
  end.

#[export] Instance keys_commands : RedisCommands keys := {|
  redis_get k := with_string k mret;
  redis_hget k f := with_hash k (λ h, mret (h !! f));
  redis_hgetall k := with_hash k (λ h, mret (map_to_list h));
  redis_hset k l := with_hash k (λ h,
    modify (λ m, <[k := RHash (list_to_map l ∪ h)]> m);; mret (Z.of_nat (length l)));
  redis_incr k := with_string k (λ v,
    n ← or_raise RedisError (match v with None => Some 0 | Some t => py_int t end);
    modify (λ m, <[k := RString (pretty (n + 1))]> m);; mret (n + 1));
  redis_expire k _ := gets (λ m, bool_decide (is_Some (m !! k)));
  redis_set_nx k v _ :=
    present ← gets (λ m : keys, bool_decide (is_Some (m !! k)));
    (if present : bool then mret false else modify (λ m, <[k := RString v]> m);; mret true);
  redis_setex k _ v := modify (λ m, <[k := RString v]> m);
  redis_del k := modify (λ m, base.delete k m);; mret 1;
  (* of the patterns, those that end in a star *)
  redis_scan p := gets (λ m : keys,
    filter (λ k, String.prefix (str_take (String.length p - 1) p) k = true) (map_to_list m).*1);
  redis_llen _ := mret 0 |}.

#[export] Instance keys_laws : CommandLaws keys id.
Proof.
  split; unfold id, redis_get, redis_hget, redis_hgetall, redis_hset, redis_incr, redis_expire, redis_set_nx,
    redis_del; simpl; unfold with_string, with_hash, mbind, M_bind, gets, modify, id.
  - by intros k s v ->.
  - by intros k s ->.
  - by intros k s h ->.
  - by intros k f s h ->.
  - by intros k f s ->.
  - by intros k f s v ->.
  - intros k s h ->. eexists. split; [done|]. split; [apply NoDup_fst_map_to_list|apply list_to_map_to_list].
  - intros k l s old Hk Hl. destruct old as [h|]; simpl in Hk; rewrite Hk; do 2 eexists; by split.
  - by intros k l s v ->.
  - intros k s ->. eexists. by split.
  - intros k s n ->. rewrite py_int_pretty. simpl. eexists. by split.
  - intros k ttl s _. do 2 eexists. by split.
  - intros k v ttl s _ ->. eexists. by split.
  - intros k v ttl s _ Hs. by rewrite bool_decide_true.
  - intros k s. do 2 eexists. by split.
Qed.

(** ** The room: a network, the server, the codes with which sockets were closed *)

Record room := Room { rm_net : net; rm_keys : keys; rm_closed : list Z }.

Definition in_net {A} (f : net → A * net) (e : room) : A * room :=
  ((f (rm_net e)).1, Room (f (rm_net e)).2 (rm_keys e) (rm_closed e)).

#[export] Instance room_runtime : Runtime room :=
  {| env_now := in_net env_now; env_uuid4 := in_net env_uuid4;
     env_randrange n := in_net (env_randrange n); env_token := in_net env_token;
     env_locked _ _ := false; env_request_id _ := None; env_source_ip _ := None;
     env_user_agent _ := None |}.
#[export] Instance room_resolver : Resolver room :=
  {| env_resolve host port := in_net (env_resolve host port); nfkc_safe := nfkc_safe (E := net) |}.
#[export] Instance room_transport : HttpTransport room :=
  {| ca_bundle_loads := ca_bundle_loads (E := net); env_http client rq := in_net (env_http client rq) |}.
#[export] Instance room_credentials : CredentialSecrets room :=
  {| env_nonce := in_net env_nonce; token_encrypt := token_encrypt (E := net);
     token_decrypt := token_decrypt (E := net) |}.

#[export] Instance room_redis : Redis room :=
  {| redis_server := keys; redis_commands := keys_commands;
     redis_run A m e := let '(r, s) := m (rm_keys e) in (r, Room (rm_net e) s (rm_closed e)) |}.

#[export] Instance room_redis_laws : RedisLaws room.
Proof.
  refine {| redis_view := id; redis_now := rm_keys |}.
  intros A m e. simpl. destruct (m (rm_keys e)) as [r s]. by left.
Defined.

Lemma room_answers e : answers (E := room) e.
Proof. intros A m. simpl. by destruct (m (rm_keys e)). Qed.

#[export] Instance room_secrets : ConsoleSecrets room :=
  {| env_token_urlsafe _ := in_net (λ n, ("token-" +:+ pretty (env_token n).1, (env_token n).2));
     sha256_hex s := "sha256:" +:+ s |}.

#[export] Instance room_sockets : ConsoleSockets room :=
  {| upstream := (); ws_connect _ _ := mret tt; ws_send _ _ := mret tt; ws_close _ := mret tt;
     browser_accept _ := mret tt;
     browser_close code _ := modify (λ e, Room (rm_net e) (rm_keys e) (rm_closed e ++ [code]));
     browser_relay _ _ := raise ConnectionClosed |}.

(** ** A session *)

Definition demo_console : ConsoleSettings := mkConsoleSettings 30 3600 10 ["https://portal.example.com/"].

Definition ticket_answer : list (transport_error + http_response) :=
  [http_ok (JObj [("ticket", JStr "PVEVNC:1"); ("port", JStr "5900"); ("user", JStr "root@pam")])].

Definition demo_room (n : N) (answers : list (transport_error + http_response)) : room :=
  Room (net_at n answers) ∅ [].

Definition demo_console_db : db := demo_imported <| db_users := {[1%N := demo_requester]} |>.

(** The console of machine 200, opened by the administrator. *)
Definition demo_opened : outcome ConsoleSessionResponse * db * room :=
  exec (create demo_console demo_pve demo_admin 200) demo_console_db (demo_room 500 ticket_answer).

Example demo_opened_answer :
  demo_opened.1.1 = Ok (mkConsoleSessionResponse 500
    "/api/v1/console/ws/00000000-0000-0000-0000-0000000001f4" "token-501" "NOVNC" (Some "PVEVNC:1") 30).
Proof. vm_compute. reflexivity. Qed.

(** The header that the browser sends. *)
Definition demo_protocols : option string := Some "binary, pvemaster.console.token-501".

Example demo_websocket :
  let opened := (exec (console_websocket demo_console demo_pve 500 (Some "https://portal.example.com")
                         demo_protocols) demo_console_db demo_opened.2) in
  opened.1.1 = Ok tt ∧ rm_closed opened.2 = [] ∧ map_to_list (rm_keys opened.2) = [(rate_key 1, RString "1")] ∧
  rm_closed (exec (console_websocket demo_console demo_pve 500 (Some "https://portal.example.com")
                     demo_protocols) demo_console_db opened.2).2 = [4401].
Proof. vm_compute. done. Qed.

(** ** Witnesses *)

Definition demo_resp : ConsoleSessionResponse := mkConsoleSessionResponse 500
  "/api/v1/console/ws/00000000-0000-0000-0000-0000000001f4" "token-501" "NOVNC" (Some "PVEVNC:1") 30.

Definition demo_ticket : ConsoleProxyTicket :=
  mkConsoleProxyTicket "qemu" "pve1" 101 5900 "PVEVNC:1" (Some "root@pam").

Definition demo_grant : ConsoleGrant := grant_for 500 (self_principal demo_admin) 200 demo_ticket.

(** The room after the session was opened, and after its token was presented. *)
Definition room_opened : room := demo_opened.2.
Definition room_redeemed : room := (consume_console_grant 500 "token-501" room_opened).2.

Lemma demo_opened_run : demo_opened = (Ok demo_resp, demo_opened.1.2, room_opened).
Proof. vm_compute. reflexivity. Qed.

Lemma demo_redeemed_run : consume_console_grant 500 "token-501" room_opened = (Ok (Some demo_grant), room_redeemed).
Proof. vm_compute. reflexivity. Qed.

(** A wrong token first, the right one, the right one again. *)
Lemma demo_history : session_history 500 room_opened room_redeemed [("token-501", demo_grant)].
Proof.
  pose proof (history_begins 500 room_opened) as Hh.
  eapply (history_redeemed _ _ _ _ "token-9" None room_opened) in Hh; [|vm_compute; reflexivity].
  eapply (history_redeemed _ _ _ _ "token-501" (Some demo_grant) room_redeemed) in Hh; [|apply demo_redeemed_run].
  eapply (history_redeemed _ _ _ _ "token-501" None room_redeemed) in Hh; [|vm_compute; reflexivity].
  exact Hh.
Qed.

Lemma grant_single_use_witness :
  0 < console_session_ttl_seconds demo_console ∧
  ∃ token g, [("token-501", demo_grant)] = [(token, g)] ∧ cg_workload_id g = 200%N.
Proof.
  split; [reflexivity|].
  destruct (grant_single_use demo_console demo_pve demo_admin 200 demo_console_db (demo_room 500 ticket_answer)
    demo_resp demo_opened.1.2 room_opened room_redeemed [("token-501", demo_grant)]
    ltac:(reflexivity) ltac:(reflexivity) ltac:(reflexivity) demo_opened_run demo_history)
    as [Hn|(token & g & Hgs & _ & _ & _ & _ & _ & Hw)]; [discriminate Hn|].
  exists token, g. exact (conj Hgs Hw).
Defined.

Lemma grant_redeems_witness :
  ∃ g, (consume_console_grant 500 "token-501" room_opened).1 = Ok (Some g) ∧ cg_workload_id g = 200%N.
Proof.
  destruct (grant_redeems demo_console demo_pve demo_admin 200 demo_console_db (demo_room 500 ticket_answer)
    demo_resp demo_opened.1.2 room_opened room_opened
    ltac:(reflexivity) ltac:(reflexivity) ltac:(reflexivity) demo_opened_run (history_begins 500 room_opened))
    as (g & Hg & _ & Hw).
  - vm_compute. eexists. reflexivity.
  - apply room_answers.
  - exists g. exact (conj Hg Hw).
Defined.

Lemma console_session_created_witness :
  0 < console_session_ttl_seconds demo_console ∧
  session_made demo_admin 200 demo_console_db demo_resp demo_opened.1.2 room_opened.
Proof.
  split; [reflexivity|].
  exact (console_session_created demo_console demo_pve demo_admin 200 demo_console_db (demo_room 500 ticket_answer)
    (Ok demo_resp) demo_opened.1.2 room_opened ltac:(reflexivity) demo_opened_run).
Defined.

(** The session holds the slot of its user and machine; another one tries. *)
Definition demo_other : ConsoleGrant := grant_for 600 (self_principal demo_admin) 200 demo_ticket.
Definition room_held : room := (acquire_console_slot demo_grant 3600 room_redeemed).2.

Lemma demo_slot_history : slot_history demo_grant 3600 room_held room_held [false].
Proof.
  pose proof (slot_begins demo_grant 3600 room_held) as Hh.
  eapply (slot_tried _ _ _ _ _ demo_other false room_held) in Hh; [exact Hh| |reflexivity|reflexivity|];
    vm_compute; [by eexists|reflexivity].
Qed.

Lemma slot_exclusive_witness :
  Forall (λ b, b = false) [false] ∧
  slot demo_grant (release_console_slot demo_grant room_held).2 = None.
Proof.
  destruct (slot_exclusive demo_grant 3600 room_redeemed room_held room_held [false]
    ltac:(reflexivity) ltac:(reflexivity) ltac:(vm_compute; reflexivity) demo_slot_history)
    as (Hbs & _ & _ & Hfree). split; [exact Hbs|].
  apply (Hfree (Ok tt)); [vm_compute; reflexivity|].
  apply room_answers.
Defined.

Lemma console_connection_current_witness :
  keyed user demo_console_db ∧
  ∃ cx, (exec (load_console_connection demo_pve demo_grant) demo_console_db room_redeemed).1.1 = Ok (Some cx) ∧
    connection_current demo_pve demo_grant demo_console_db cx.
Proof.
  assert (keyed user demo_console_db) as Hk by by apply (bool_decide_eq_true_1 (keyed user demo_console_db)).
  split; [exact Hk|]. destruct (exec _ _ _) as [[r d'] e'] eqn:Hrun.
  assert (∃ cx, r = Ok (Some cx)) as [cx ->].
  { vm_compute in Hrun. injection Hrun as <- _ _. eexists. reflexivity. }
  exists cx. split; [reflexivity|].
  exact (proj2 (console_connection_current demo_pve demo_grant demo_console_db room_redeemed _ d' e' Hk Hrun) cx eq_refl).
Defined.

Lemma console_handshake_witness :
  ∃ r e', exec (console_websocket demo_console demo_pve 500 (Some "https://portal.example.com") demo_protocols)
            demo_console_db room_opened = (r, demo_console_db, e') ∧
    handshake demo_console 500 (Some "https://portal.example.com") demo_protocols room_opened r e'.
Proof.
  assert (keyed user demo_console_db) as Hk by by apply (bool_decide_eq_true_1 (keyed user demo_console_db)).
  destruct (exec _ _ _) as [[r d'] e'] eqn:Hrun. exists r, e'.
  destruct (console_handshake demo_console demo_pve 500 (Some "https://portal.example.com") demo_protocols
    demo_console_db room_opened r d' e' Hk ltac:(reflexivity) Hrun) as [-> Hs].
  split; [reflexivity|exact Hs].
Defined.
