(* ===== verification/HttpResults.v ===== *)
(** * The HTTP interface and its reports: a concrete site

    The room of DemoConsole.v with the context variables of a request, the application on
    it, and the theorems of Listings.v, ObservabilityProps.v and ApiProps.v applied to it
    and to the pools of Demo.v. *)
From Stdlib Require Import Lia.
From S2P Require Import Prelude Models Database AuditLog Operations PveApi IpAddr Endpoints.
From S2P Require Import Client Auth Accounts ProvApi Provisioning Clusters Workloads Customer.
From S2P Require Import Backups UuidText Redis Console Listings Observability Overview Http Routers.
From S2P Require Import Api Ipam IpamInv IpamOps Demo.
From S2P Require Import PowerRunner DemoPower DemoAuth DemoNet ClusterResults BackupResults.
From S2P Require Import ConsoleProps ConsoleSocket DemoConsole IpText FreeOffset.
From S2P Require Import ObservabilityProps OverviewProps ClusterInv ClusterProps ApiProps.

Record site := Site {
  si_room : room; si_request_id : option string; si_source_ip : option string;
  si_user_agent : option string }.

Definition in_room {A} (f : room → A * room) (e : site) : A * site :=
  ((f (si_room e)).1, Site (f (si_room e)).2 (si_request_id e) (si_source_ip e) (si_user_agent e)).

#[export] Instance site_runtime : Runtime site :=
  {| env_now := in_room env_now; env_uuid4 := in_room env_uuid4;
     env_randrange n := in_room (env_randrange n); env_token := in_room env_token;
     env_locked _ _ := false; env_request_id := si_request_id; env_source_ip := si_source_ip;
     env_user_agent := si_user_agent |}.

#[export] Instance site_context : ContextVars site :=
  {| set_request_id_context v e := Site (si_room e) v (si_source_ip e) (si_user_agent e);
     set_source_ip_context v e := Site (si_room e) (si_request_id e) v (si_user_agent e);
     set_user_agent_context v e := Site (si_room e) (si_request_id e) (si_source_ip e) v |}.

#[export] Instance site_resolver : Resolver site :=
  {| env_resolve host port := in_room (env_resolve host port); nfkc_safe := nfkc_safe (E := room) |}.
#[export] Instance site_transport : HttpTransport site :=
  {| ca_bundle_loads := ca_bundle_loads (E := room); env_http client rq := in_room (env_http client rq) |}.
#[export] Instance site_credentials : CredentialSecrets site :=
  {| env_nonce := in_room env_nonce; token_encrypt := token_encrypt (E := room);
     token_decrypt := token_decrypt (E := room) |}.
#[export] Instance site_redis : Redis site :=
  {| redis_server := keys; redis_commands := keys_commands; redis_run A m := in_room (redis_run m) |}.
#[export] Instance site_secrets : ConsoleSecrets site :=
  {| env_token_urlsafe n := in_room (env_token_urlsafe n); sha256_hex := sha256_hex (E := room) |}.
#[export] Instance site_passwords : Passwords site :=
  {| pw_hash p e := ("h:" +:+ p, e); pw_verify h p := bool_decide (h = "h:" +:+ p) |}.
#[export] Instance site_provisioning : ProvisioningSecrets site :=
  {| env_urandom e := ("nonce", e); aesgcm_encrypt _ plain _ := plain; aesgcm_decrypt _ cipher _ := Some cipher |}.
#[export] Instance site_backups : BackupPublishers site :=
  {| env_publish_backup _ _ e := e; env_publish_restore _ _ e := e |}.

Definition ignored : Publisher site := {| env_publish _ _ e := e |}.

#[export] Instance demo_created_at : CreatedAt :=
  {| user_created_at := Z.of_N; organization_created_at := Z.of_N; cluster_created_at := Z.of_N;
     credential_created_at := Z.of_N; backup_run_created_at := Z.of_N; audit_created_at := Z.of_N |}.

Definition field_error (location : list string) (valid : bool) : list validation_error :=
  if valid then [] else [ValidationError location "value_error" "invalid"].

#[export] Instance demo_validation : FieldValidation :=
  {| length_errors loc lo hi s := field_error loc
       ((default 0 lo <=? str_len s) && match hi with Some h => str_len s <=? h | None => true end);
     ge_errors loc lo z := field_error loc (lo <=? z);
     le_errors loc hi z := field_error loc (z <=? hi);
     pattern_errors loc valid := field_error loc valid |}.

(** Whole numbers, one coroutine after the other. *)
#[export] Instance demo_floats : Floats :=
  {| float := Z; float_of_integer := Some; float_of_text := py_int; isfinite _ := true;
     max_zero := Z.max 0; int_of_float := id; at_least_zero := Z.leb 0; node_cpu _ := None |}.

#[export] Instance site_loop : EventLoop site := {| completion_order n e := (reverse (seq 0 n), e) |}.

#[export] Instance site_loop_laws : EventLoopLaws site.
Proof. intros n e. simpl. apply reverse_Permutation. Qed.

#[export] Instance site_probes : Probes site := {| env_select_1 e := (true, e); env_ping := mret true |}.

(** ** The application *)

Definition demo_reports : ObservabilitySettings := mkObservabilitySettings 60 100 5 3 30.

Definition demo_site_settings : Api.Settings :=
  Api.mkSettings demo_auth_settings demo_pve demo_console demo_reports.

Definition demo_state : AppState site := mkAppState site ignored ignored N.of_nat id.

Definition demo_site (n : N) : site := Site (demo_room n []) None None None.

(** A customer beside the administrator of DemoConsole.v. *)
Definition demo_customer : user :=
  User 3 "customer@example.com" "Customer" CUSTOMER "hash" true 0 None None None None 1.

Definition demo_site_db : db := demo_console_db <| db_users ::= <[3%N := demo_customer]> |>.

Definition demo_token (u : user) : string :=
  jwt_encode (JwtPayload (u_id u) "access" (u_session_epoch u) (u_role u) 1 0 1000000
    (jwt_issuer demo_auth_settings) (jwt_audience demo_auth_settings)).

Definition demo_scope (u : user) : http_scope :=
  mkScope (Some "req-42") (Some ("Bearer " +:+ demo_token u)) (Some "curl/8") (Some "192.0.2.7").

(** What the application answers. *)
Definition demo_answer {A} (c : endpoint A) (scope : http_scope) (d : db) : outcome (response A) :=
  (exec (app demo_site_settings demo_state c scope) d (demo_site 700)).1.1.

Definition short {A} (r : outcome (response A)) : option (Z * option string) :=
  match r with
  | Ok answer => Some (rs_status answer, match rs_content answer with
                                         | ErrorResponse error => Some (ed_code error) | _ => None end)
  | Raise _ => None
  end.

Example demo_answers :
  short (demo_answer ListUsers (demo_scope demo_requester) demo_site_db) = Some (200, None) ∧
  short (demo_answer ListUsers (demo_scope demo_customer) demo_site_db) = Some (403, Some "FORBIDDEN") ∧
  short (demo_answer ListUsers (mkScope None None None None) demo_site_db)
    = Some (401, Some "AUTHENTICATION_REQUIRED") ∧
  short (demo_answer (DeleteUser 3 0) (demo_scope demo_requester) demo_site_db) = Some (422, Some "VALIDATION_ERROR") ∧
  short (demo_answer (GetJob 9) (demo_scope demo_requester) demo_site_db) = Some (404, Some "JOB_NOT_FOUND").
Proof. vm_compute. done. Qed.

(** ** Witnesses *)

(** ** Reports *)

(** The pool of Demo.v: of its 8 addresses only 10.0.0.5 is left. *)
Lemma pool_count_exact_witness :
  ∃ pool, db_pools demo_two !! 100%N = Some pool ∧ (pool_count demo_two pool).2 = 1 ∧
    ∀ e : demo, (pool_count demo_two pool).2 = 0 ↔ exhausted demo_two e pool.
Proof.
  destruct (db_pools demo_two !! 100%N) as [pool|] eqn:Hpool; [|exfalso; vm_compute in Hpool; discriminate].
  exists pool. split; [reflexivity|]. split.
  - vm_compute in Hpool. injection Hpool as <-. vm_compute. reflexivity.
  - intros e. exact (proj2 (pool_count_exact demo_two demo_two_good 100 pool Hpool) demo demo_runtime e (λ _, eq_refl)).
Defined.

Definition demo_reader : option Principal := Some (self_principal demo_admin).

Lemma audit_access_recorded_witness :
  integrity demo_site_db = true ∧
  ∃ response d' e',
    exec (audit_logs N.of_nat demo_reader None None None None 100 0) demo_site_db (demo_site 700)
      = (Ok response, d', e') ∧
    read_recorded "AUDIT_LOG_SEARCH" demo_reader demo_site_db d'.
Proof.
  assert (integrity demo_site_db = true) as Hi by (vm_compute; reflexivity). split; [exact Hi|].
  destruct (exec _ _ _) as [[r d'] e'] eqn:Hrun.
  assert (∃ response, r = Ok response) as [response ->].
  { apply (f_equal (λ t, match t.1.1 with Ok _ => true | Raise _ => false end)) in Hrun.
    vm_compute in Hrun. destruct r as [a|]; [exists a; reflexivity|discriminate]. }
  exists response, d', e'. split; [reflexivity|].
  exact (proj1 (proj1 (audit_access_recorded N.of_nat demo_reader None None None None 100 0 0
    demo_site_db (demo_site 700) Hi) _ _ _ Hrun)).
Defined.

(** Without a worker the site is degraded; with its heartbeat it is well. *)
Definition demo_beating : site :=
  (record_worker_heartbeat demo_reports "celery@worker-1" (demo_site 700)).2.


Lemma organization_pages_witness :
  0 < 2 ∧ exec (Listings.list_organizations demo_admin (Some "50%") STATUS_ALL SORT_NAME (Some 2) (2 * 0))
            demo_site_db (demo_site 700) = (Ok ([], 0), demo_site_db, demo_site 700).
Proof.
  split; [reflexivity|].
  destruct (organization_pages demo_admin (Some "50%") STATUS_ALL SORT_NAME 2 demo_site_db (demo_site 700)
    eq_refl) as (all & Hp & _ & Hk & _). rewrite Hk.
  assert (all = []) as ->; [|reflexivity].
  apply Permutation_nil. symmetry. etransitivity; [exact Hp|]. vm_compute. constructor.
Defined.

(** ** Requests *)

(** A customer who asks for the users is turned away. *)
Lemma only_audience_served_witness :
  audience_of ListUsers ≠ Anyone ∧
  ∃ r d' e', exec (app demo_site_settings demo_state ListUsers (demo_scope demo_customer)) demo_site_db (demo_site 700)
               = (r, d', e') ∧ d' = demo_site_db ∧
    ((∃ now p, current_principal demo_auth_settings (sc_authorization (demo_scope demo_customer)) now demo_site_db p ∧
        p_role p ∈ [SUPER_ADMIN; OPERATOR]) ∨
     ∃ answer, r = Ok answer ∧ rs_status answer ∈ [401; 403; 422]).
Proof.
  assert (audience_of ListUsers ≠ Anyone) as Hc by discriminate. split; [exact Hc|].
  destruct (exec _ _ _) as [[r d'] e'] eqn:Hrun. exists r, d', e'. split; [reflexivity|].
  destruct (only_audience_served demo_site_settings demo_state ListUsers (demo_scope demo_customer)
    demo_site_db (demo_site 700) r d' e' Hc Hrun) as [(now & p & Hp & Hr)|(Hd & Ha & _)].
  - split; [|left; exists now, p; exact (conj Hp Hr)].
    change d' with (r, d', e').1.2. rewrite <-Hrun. vm_compute. reflexivity.
  - split; [exact Hd|]. right. exact Ha.
Defined.


(** The administrator starts machine 200, and looks at the job. *)
Definition demo_request : Http.http_request :=
  mkRequest "req-42" (sc_authorization (demo_scope demo_requester)) (Some "192.0.2.7").

Lemma job_location_witness :
  keyed operation demo_site_db ∧
  ∃ answer d1 e1 job,
    exec (job_endpoint demo_auth_settings ignored demo_request "key-12345" (PowerJob 200 SHUTDOWN None))
      demo_site_db (demo_site 700) = (Ok answer, d1, e1) ∧
    rs_content answer = Body job ∧
    (exec (Routers.get_job demo_auth_settings demo_request (jr_id job)) d1 e1).1.2 = d1.
Proof.
  assert (keyed operation demo_site_db) as Hk by by apply (bool_decide_eq_true_1 (keyed operation demo_site_db)).
  split; [exact Hk|]. destruct (exec (job_endpoint _ _ _ _ _) _ _) as [[r d1] e1] eqn:Hrun.
  assert (∃ answer, r = Ok answer) as [answer ->].
  { apply (f_equal (λ t, match t.1.1 with Ok _ => true | Raise _ => false end)) in Hrun.
    vm_compute in Hrun. destruct r as [a|]; [exists a; reflexivity|discriminate]. }
  destruct (job_location demo_auth_settings ignored demo_request "key-12345" (PowerJob 200 SHUTDOWN None)
    demo_site_db (demo_site 700) answer d1 e1 Hk Hrun) as (job & _ & Hbody & _ & _ & Hget).
  exists answer, d1, e1, job. split; [reflexivity|]. split; [exact Hbody|].
  destruct (exec (Routers.get_job _ _ _) _ _) as [[r2 d2] e3] eqn:Hrun2.
  exact (proj1 (Hget demo_request e1 r2 d2 e3 Hrun2)).
Defined.

(** ** The overview *)

Lemma clusters_ok_users d f :
  clusters_ok (E := net) d → integrity (d <| db_users ::= f |>) = true →
  clusters_ok (E := net) (d <| db_users ::= f |>).
Proof. intros [_ Hc Hk Hg] Hi. by split. Qed.

Lemma clusters_ok_site d : clusters_ok (E := net) d → clusters_ok (E := site) d.
Proof. intros [Hi Hc Hk [Hgc Hgk]]. split; [done..|]. split; [exact Hgc|exact Hgk]. Qed.

Lemma demo_site_clusters : clusters_ok (E := site) demo_site_db.
Proof.
  apply clusters_ok_site, clusters_ok_users; [|vm_compute; reflexivity].
  apply (clusters_ok_users _ (λ _, {[1%N := demo_requester]})); [apply ci_ok, demo_imported_inv|vm_compute; reflexivity].
Qed.

(** Four answers of a cluster without resources. *)
Definition demo_quiet : site :=
  Site (demo_room 700 [http_ok (JList []); http_ok (JList []); http_ok (JList []); http_ok (JList [])])
    None None None.

(** The cluster "lab" answers; then it does not. *)
Lemma overview_reports_witness :
  clusters_ok (E := site) demo_site_db ∧
  ∀ e, e ∈ [demo_quiet; demo_site 700] →
    ∃ items d' e', exec (cluster_service (demo_clusters OPERATOR) (resource_overview (demo_clusters OPERATOR)))
                     demo_site_db e = (Ok items, d', e') ∧
      map cro_name items = ["lab"] ∧ Forall (reported (demo_clusters OPERATOR) demo_site_db d') items.
Proof.
  split; [exact demo_site_clusters|]. intros e He.
  destruct (exec _ demo_site_db e) as [[r d'] e'] eqn:Hrun.
  assert (∃ items, r = Ok items ∧ map cro_name items = ["lab"]) as (items & -> & Hnames).
  { apply (f_equal (λ t, match t.1.1 with Ok items => Some (map cro_name items) | Raise _ => None end)) in Hrun.
    apply elem_of_cons in He as [-> | ->%list_elem_of_singleton]; vm_compute in Hrun;
      (destruct r as [items|]; [|discriminate]); injection Hrun as Hn; exists items; (split; [reflexivity|symmetry; exact Hn]). }
  exists items, d', e'. split; [reflexivity|]. split; [exact Hnames|].
  exact (proj1 (proj2 (overview_reports (demo_clusters OPERATOR) demo_site_db e (Ok items) d' e' demo_site_clusters Hrun))).
Defined.

(** The first time the overview and the state report call the cluster connected, the second
    time not. *)
Example overview_connected :
  map (λ e, match (exec (resource_overview (demo_clusters OPERATOR)) demo_site_db e).1.1 with
            | Ok items => map (λ o, (cro_connected o, cro_error_code o)) items | Raise _ => [] end)
    [demo_quiet; demo_site 700] = [[(true, None)]; [(false, Some "PVE_TIMEOUT")]].
Proof. vm_compute. reflexivity. Qed.
